(* ===== verification/_CoqProject ===== *)
-Q . S2P
Prelude.v
RustStr.v
RustInt.v
Regex.v
RegexLemmas.v
RegexMatches.v
RegexReplace.v
Arrow.v
Plan.v
Config.v
Exasol.v
Cursor.v
CursorSpec.v
CursorTheorems.v
Policy.v
PolicyTheorems.v
TextScan.v
MetadataQueries.v
Translator.v
TranslatorTheorems.v
FinalSteps.v
Metadata.v
TypeModifiers.v
Responses.v
ResponsesTheorems.v
Bytes.v
WebSocket.v
WebSocketTheorems.v
Endpoints.v
WebSocketLogin.v
WebSocketResults.v
ExasolSession.v
ExampleTool.v
Bootstrap.v
Cli.v
Params.v
ParamsTheorems.v
CursorText.v
DeclareText.v
BootstrapTheorems.v
Console.v
Startup.v
BootstrapSession.v
ConfigFile.v
NetAddr.v
Server.v
QueryTool.v
Session.v
SessionTheorems.v
PolicyGate.v
MetadataTraffic.v
SessionFlow.v
CursorPaging.v
SessionSpec.v
Protocol.v
ProtocolTheorems.v
Connections.v
Returns.v
EndToEnd.v
SessionExamples.v
PolicyTests.v
TranslatorTests.v
ServerTests.v
ComponentTests.v
IntegrationTests.v
UnitTests.v
