(* ===== verification/Prelude.v ===== *)
(** * exa-postgres-interface: a verification development

    The program is a gateway: PostgreSQL clients speak the wire protocol to it and
    it runs their SQL on an Exasol database.  This development is a shallow
    embedding of the Rust code under src/src/ (as of one commit) with theorems
    about it.  Line by line translations carry the names of the source.

    ** The program and its files here

    A message of a client goes through these parts, top to bottom.

    - Protocol.v: the [pgwire] handlers of pg_server.rs: [on_startup] (login and
      opening the Exasol session), [do_query] of the simple protocol, parsing,
      Describe and Execute of the extended protocol, with the results kept between
      the two.  State: [Connection], i.e. the [Client] below, the portals, the
      protocol state and a log of what is sent, which [pgwire] owns.
    - Params.v: [split_simple_query], the number and types of the placeholders, and
      [render_portal_sql], which puts bound values (text, or binary through Bytes.v)
      into a statement as literals.
    - Session.v: [execute_statement], [execute_plan] and their callees: SET and
      SHOW, search_path, transaction control, DECLARE, FETCH, MOVE, CLOSE, metadata
      requests with their query templates.  State: [Client] with the optional
      [SessionState] of the source (the transport, the cursors by name, the kept
      results, the current schema); its mutexes are held for one access each and a
      connection handles one message at a time, so they are not modelled.
    - Policy.v: [classify_statement], the decision what a statement is (policy.rs);
      its data types are in Plan.v.
    - Translator.v, MetadataQueries.v, TextScan.v: translator.rs: the test whether a
      statement needs no translation, the recognised queries of client tools, the
      rewriting around the transpiler, and the scanners of SQL text they share.
    - Metadata.v: metadata.rs, which statements are metadata requests and what
      PostgreSQL type a column has.
    - Cursor.v: [GatewayCursor] of pg_server.rs; CursorSpec.v states what FETCH and
      MOVE promise, independently of how results are stored.
    - Responses.v: from [ExasolOutcome] to [GatewayResponse] to the messages of the
      protocol: columns, labels, rows, errors and their SQLSTATE.
    - Exasol.v, ExasolSession.v, WebSocket.v: exasol/mod.rs, arrow_transport.rs and
      websocket_transport.rs: the endpoint read out of a DSN, the transport
      interface (class [ExasolTransport], with [AnyTransport] dispatching to the two
      transports), session initialization, and the WebSocket protocol with its
      fetch loop and certificate checks.
    - Config.v: config.rs, the configuration read from its file.
    - Server.v: main.rs, from the arguments (Cli.v) to the accept loop, with the
      certificates, the listening address (NetAddr.v, with the standard library's
      parser of addresses) and, through Startup.v and Bootstrap.v, the two parts of
      bootstrap.rs: creating the configuration file, and installing the catalog into
      Exasol.  ConfigFile.v has the grammar of the TOML documents that are written.
      State: [world], the console, the files and the session of the installation.
    - QueryTool.v: bin/exasol_exec.rs, one statement or a benchmark, whose times are
      binary64 numbers.

    RustStr.v and RustInt.v hold the strings and integers of Rust, Regex.v the
    regular expressions, Arrow.v the record batches and JSON values.  Files named
    [XTheorems] hold the theorems about [X]; SessionFlow.v those about several
    statements in a row, SessionSpec.v what a session promises and that it is kept,
    SessionExamples.v a concrete transport and wire with the inputs at which the
    theorems about sessions apply.  RegexLemmas.v shows when a pattern cannot match,
    RegexMatches.v what it matches, RegexReplace.v that replacing matches is a scan of
    the text, and FinalSteps.v gives the scans of the last steps of a translation.
    PolicyGate.v says what the words of a statement let through to Exasol, Endpoints.v has
    the grammar of a DSN, WebSocketLogin.v the messages of a login, BootstrapSession.v those
    of the bootstrap, Console.v what the lines of a console answer to its questions.  CursorText.v reads the text of FETCH and MOVE,
    DeclareText.v that of DECLARE, TypeModifiers.v the description of a column.
    WebSocketResults.v has a server that answers in pages, EndToEnd.v takes a SELECT
    through the whole program, Returns.v shows that the handlers come back.
    PolicyTests.v, TranslatorTests.v, ServerTests.v and ComponentTests.v are the
    repository's own unit tests, evaluated on the model, and UnitTests.v gathers them;
    IntegrationTests.v has the tests of src/tests that need no database, and
    ExampleTool.v the program src/examples/question_mark_repro.rs.

    ** How Rust is represented

    - Results are of type [outcome]: a value, an error, a panic, or out of fuel.
      Code that changes state is of type [stateful S E A], a function from a state
      to an outcome and the state reached, also after an error, since the code
      keeps what it did before the [?].  Both are monads with the notation of
      stdpp.
    - A string is the list of its code points ([str]).  [lit] turns a string
      literal of the source into one; a backtick in it stands for a double quote.
    - Machine integers are [Z] with the range of their type.  Arithmetic that leaves
      the range panics or wraps according to [BuildProfile], the overflow checks of
      a dev or a release build; theorems hold for both unless they name one.  The
      sizes of collections are [nat].  A vector that is allocated for a number from the
      outside panics when it would have more bytes than [isize::MAX] ([types_fit], with
      the size of a type given by the build, and [samples_fit]).
    - [HashMap]s are [gmap]s, vectors are lists, structs are records, enums are
      inductive types.

    ** What is a parameter

    Code outside the repository appears as a class of operations, with laws only
    where the program relies on them, and each class that a theorem depends on has
    a concrete instance in which the theorem is exercised: [RegexEngine] (the [regex] crate; its law is
    leftmost-first matching of the patterns parsed by [parse_regex], with
    [reference_engine] proved to satisfy it), [ArrowLib] (record batches: slices,
    taking rows, their number), [JsonLib] and [TomlLib] (parsers), [Transpiler]
    (polyglot-sql), [ExarrowLib] (the Arrow driver), [WsLib] (the socket, RSA,
    SHA-256), [PgWireLib] (messages and portals), [FileSystem] (a file that was
    written is there and reads back), [ReadsToml] (a parser that reads the documents of
    one grammar), [ServerTlsLib] (PEM files and the server's TLS settings).  Of the
    encoder of rows in [pgwire] the program uses that it collects values until the row
    is taken; [encode_each] threads one through all rows of a response.  The console
    is the list of the lines that will be entered, and the clock of a benchmark the list
    of the durations it will measure; reading them does not fail.

    ** What is shown

    - Cursors (CursorTheorems.v).  [apply] implements the specification of FETCH and
      MOVE on both kinds of result ([apply_refines]), so that batches are invisible
      ([batching_invisible]); the consequences for NO SCROLL
      ([no_scroll_forward_only]) and FETCH ALL ([fetch_all_then_back]); the two
      inputs where it fails, and that there are no others ([apply_overflows]).
    - Sessions.  SessionSpec.v states what a session promises, without record
      batches and labels, answers to metadata requests included, and shows that the
      gateway implements it for every course of statements ([run_refines]).
      SessionTheorems.v: what a statement may send to Exasol ([statement_traffic]), and
      that cursors stay well formed in every reachable session ([reachable_cursors_ok]), by induction on the steps.
      PolicyGate.v: only statements that begin with the allowed words are sent
      ([only_permitted_reaches]).
      MetadataTraffic.v: the queries for metadata requests have a fixed structure
      ([metadata_structure]).
      SessionFlow.v: a declared cursor returns what Exasol answered
      ([declare_then_fetch_all]), also to a client that pages through it with SQL text
      ([cursor_pages] in CursorPaging.v), cursor names ([cursor_names]), transaction ends
      ([transaction_end_cursors]), search_path ([search_path_follows_exasol]),
      simple queries ([simple_query_stops]).
    - Protocol (ProtocolTheorems.v).  A described portal runs once
      ([described_portal_runs_once]), one that was not described does what the simple
      query of its statement does ([execute_is_simple_query]); login ([login_session]).
      Connections.v: what holds after any sequence of messages
      ([connection_invariant]).  Returns.v: a handler ends with an answer or an error
      whenever Exasol and the libraries do; every cause of a panic or a loop without end
      is named ([handlers_return]): overflow that a build checks for, in a movement of a
      cursor or in an answer of Exasol, huge placeholder numbers ([huge_placeholder_panics]),
      and the count [i64::MIN] without the checks.
      EndToEnd.v: a SELECT shows the client every row Exasol has for it, whatever the
      transport ([select_reaches_client]).
    - Text.  Literals and parameters ([render_portal_substitutes],
      [bound_text_roundtrip], [binary_integer_roundtrip]), splitting
      ([split_simple_query_spec]), comments and words ([strip_comments_pieces],
      [contains_word_spec]), statements that are not
      transpiled ([passthrough_translation] in FinalSteps.v, [passthrough_not_catalog]), classification
      ([classify_statement_wf]) with its parsers ([parse_search_path_value_eq],
      [top_level_comma_index_spec], [direction_roundtrip]), the whole text of FETCH
      and MOVE ([cursor_statement_roundtrip]) and of DECLARE
      ([declare_statement_roundtrip]).
    - Results.  Rows are as wide as their description
      ([rows_as_wide_as_described]), which types depend on the transport
      ([types_agree]), their modifiers say what Exasol declared ([type_modifiers]).  A
      statement over WebSocket has the whole answer of a server that pages it
      ([ws_execute_answers]), since rows survive the column order of the protocol
      ([transpose_roundtrip]) and the fetch loop collects them ([fetch_loop_collects]);
      when the loop ends ([fetch_loop_ends]) and when it does not ([fetch_loop_stuck]).
    - Settings.  Endpoint and TLS: what a DSN says and what each transport checks of the
      server ([endpoint_policy] in Endpoints.v), what the checks of certificates are
      ([tls_checks]), a login that keeps the password ([login_hides_password] in
      WebSocketLogin.v);
      configuration files ([from_file_valid], [toml_escape_roundtrip]): one that is
      created loads to the answers on the console ([ensure_config_file_loads]); the start
      of the server ([run_serves], [listen_host_is_address]);
      installation scripts ([split_exasol_sql_roundtrip],
      [execute_exasol_script_runs]), counts ([first_count_transports]), and what the
      bootstrap sends to Exasol with whose consent ([bootstrap_installs] in
      BootstrapSession.v); the benchmark
      ([run_benchmark_reports]).
    - The tests of the repository hold of the model ([unit_tests_pass],
      [integration_tests_pass]).

    Where the code does not do what it means to, the model has the code's
    behaviour and a theorem shows it on an input (among them
    [render_portal_injection], [huge_placeholder_panics], [literals_are_rewritten],
    [spaced_cursor_options], [varchar_typmod_overflow], [timestamp_types_differ]).

    ** Fuel

    Fuel stands for the stack or for the number of turns of a loop and is never
    part of a result: [apply] needs two calls ([CURSOR_FUEL], [apply_refines]); the
    search_path parser the length of its value ([parse_search_path_value_eq]); a
    scan its text's length ([contains_word_spec]); the WebSocket loops and the
    prompts take it as an argument, and [fetch_loop_collects] and [fetch_loop_ends]
    say how much is enough.  Where no fuel suffices the code does not return
    ([fetch_loop_stuck], [apply_min_count_diverges]).

    ** What is not modelled

    Sockets and the runtime; running out of memory; what is printed to the terminal for guidance, and logging;
    failures of reading the terminal; TLS below the certificate checks; the SQL and Lua
    scripts that bootstrap installs (their texts are arguments); the tests that connect to
    a live Exasol, and of the unit tests those of RSA, SHA-256 and the catalog script,
    which are parameters, one of a query of 50,000 characters, and one about the text the
    transpiler writes.

    ** What has no reference definition

    The rewriting of ILIKE and of catalog names in Translator.v is evaluated on the
    repository's tests and on the findings, and is total ([handlers_return]), but has no
    reference definition as the final steps have in FinalSteps.v: the patterns it applies
    overlap, and we know no description of their effect on an arbitrary text that is
    simpler than the definition. *)

From Stdlib Require Export ZArith NArith Lia.
From Stdlib Require Export Strings.Ascii Strings.String.
From stdpp Require Export base tactics list gmap option numbers countable.

#[global] Set Default Goal Selector "!".

(** ** The result of running a piece of the program

    A Rust function that returns a [Result] either returns [Ok], returns [Err],
    panics (an arithmetic overflow with checks on, an index out of range), or
    does not return.  The last outcome is what a fuelled definition gives when
    its fuel is used up. *)
Inductive outcome (E A : Type) : Type :=
| Ok (a : A)
| Err (e : E)
| Panic
| OutOfFuel.
Arguments Ok {E A} a.
Arguments Err {E A} e.
Arguments Panic {E A}.
Arguments OutOfFuel {E A}.

#[export] Instance outcome_ret {E} : MRet (outcome E) := fun _ a => Ok a.
#[export] Instance outcome_bind {E} : MBind (outcome E) := fun _ _ f o =>
  match o with
  | Ok a => f a
  | Err e => Err e
  | Panic => Panic
  | OutOfFuel => OutOfFuel
  end.
#[export] Instance outcome_fmap {E} : FMap (outcome E) := fun _ _ f o =>
  match o with
  | Ok a => Ok (f a)
  | Err e => Err e
  | Panic => Panic
  | OutOfFuel => OutOfFuel
  end.
Arguments outcome_bind {E A B} f !o /.
Arguments outcome_fmap {E A B} f !o /.

(** [Option::ok_or_else]. *)
Definition ok_or {E A} (e : E) (o : option A) : outcome E A :=
  match o with Some a => Ok a | None => Err e end.

(** [Result::map_err]. *)
Definition map_err {E1 E2 A} (f : E1 -> E2) (o : outcome E1 A) : outcome E2 A :=
  match o with
  | Ok a => Ok a
  | Err e => Err (f e)
  | Panic => Panic
  | OutOfFuel => OutOfFuel
  end.

(** The computation comes back to its caller, with a value or an error. *)
Definition returns {E A} (o : outcome E A) : Prop :=
  match o with Ok _ | Err _ => True | _ => False end.

Lemma outcome_bind_Ok {E A B} (o : outcome E A) (f : A -> outcome E B) b :
  (o ≫= f) = Ok b <-> exists a, o = Ok a /\ f a = Ok b.
Proof.
  destruct o; simpl; split; intros H; try discriminate; eauto.
  all: destruct H as (? & ? & ?); congruence.
Qed.

Lemma outcome_bind_assoc {E A B C} (o : outcome E A)
    (f : A -> outcome E B) (g : B -> outcome E C) :
  ((o ≫= f) ≫= g) = (o ≫= (fun a => f a ≫= g)).
Proof. by destruct o. Qed.

Lemma map_err_Ok {E1 E2 A} (f : E1 -> E2) (o : outcome E1 A) a :
  map_err f o = Ok a <-> o = Ok a.
Proof. destruct o; simpl; split; congruence. Qed.

(** ** Computations that change a state

    A method on a mutable object: the state it leaves is kept when it fails. *)
Definition stateful (S E A : Type) : Type := S -> outcome E A * S.

#[export] Instance stateful_ret {S E} : MRet (stateful S E) := fun _ a s => (Ok a, s).
#[export] Instance stateful_bind {S E} : MBind (stateful S E) := fun _ _ f m s =>
  match m s with
  | (Ok a, s') => f a s'
  | (Err e, s') => (Err e, s')
  | (Panic, s') => (Panic, s')
  | (OutOfFuel, s') => (OutOfFuel, s')
  end.

(** A result that does not depend on the state, and its [map_err]. *)
Definition lift {S E A} (o : outcome E A) : stateful S E A := fun s => (o, s).
Definition map_err_st {S E1 E2 A} (f : E1 -> E2) (m : stateful S E1 A) : stateful S E2 A :=
  fun s => let '(o, s') := m s in (map_err f o, s').
Definition get_state {S E} : stateful S E S := fun s => (Ok s, s).
Definition put_state {S E} (s : S) : stateful S E unit := fun _ => (Ok tt, s).

Lemma stateful_bind_inv {S E A B} (m : stateful S E A) (f : A -> stateful S E B) s r s' :
  (m ≫= f) s = (r, s') ->
  (exists a s1, m s = (Ok a, s1) /\ f a s1 = (r, s'))
  \/ (exists r0, m s = (r0, s') /\ (forall a, r0 <> Ok a) /\ forall b, r <> Ok b).
Proof.
  unfold mbind, stateful_bind. destruct (m s) as [[a|e| |] s1].
  - intros Hf. left. eauto.
  - intros [= <- <-]. right. by eexists.
  - intros [= <- <-]. right. by eexists.
  - intros [= <- <-]. right. by eexists.
Qed.

Lemma stateful_bind_Ok {S E A B} (m : stateful S E A) (f : A -> stateful S E B) s b s' :
  (m ≫= f) s = (Ok b, s') -> exists a s1, m s = (Ok a, s1) /\ f a s1 = (Ok b, s').
Proof. intros [?|(r0 & _ & _ & Hr)]%stateful_bind_inv; [done|]. by destruct (Hr b). Qed.

Lemma bind_step {S E A B} (m : stateful S E A) (f : A -> stateful S E B) x a x' r :
  m x = (Ok a, x') -> f a x' = r -> (m ≫= f) x = r.
Proof. unfold mbind, stateful_bind. by intros -> ->. Qed.

Lemma bind_err {S E A B} (m : stateful S E A) (f : A -> stateful S E B) x e x' :
  m x = (Err e, x') -> (m ≫= f) x = (Err e, x').
Proof. unfold mbind, stateful_bind. by intros ->. Qed.

Lemma stateful_bind_assoc {S E A B C} (m : stateful S E A) (f : A -> stateful S E B)
    (g : B -> stateful S E C) x :
  ((m ≫= f) ≫= g) x = (m ≫= (fun a => f a ≫= g)) x.
Proof. unfold mbind, stateful_bind. by destruct (m x) as [[]]. Qed.

(** From a state with [P], however it ends, it leads to a state with [Q]. *)
Definition leads {S E A} (P Q : S -> Prop) (m : stateful S E A) : Prop :=
  forall s r s', m s = (r, s') -> P s -> Q s'.

Lemma leads_ret {S E A} (P Q : S -> Prop) (a : A) :
  (forall s, P s -> Q s) -> leads (E := E) P Q (mret a).
Proof. intros HPQ s r s' [= _ <-]. apply HPQ. Qed.

Lemma leads_lift {S E A} (P Q : S -> Prop) (o : outcome E A) :
  (forall s, P s -> Q s) -> leads P Q (lift o).
Proof. intros HPQ s r s' [= _ <-]. apply HPQ. Qed.

Lemma leads_bind_l {S E A B} (P Q : S -> Prop) (m : stateful S E A) (f : A -> stateful S E B) :
  leads P Q m -> (forall a, leads Q Q (f a)) -> leads P Q (m ≫= f).
Proof.
  intros Hm Hf s r s' [(a & s1 & Es & Ef)|(r0 & Es & _)]%stateful_bind_inv HP; [|by eapply Hm].
  eapply Hf; [exact Ef|]. by eapply Hm.
Qed.

Lemma leads_bind_r {S E A B} (P Q : S -> Prop) (m : stateful S E A) (f : A -> stateful S E B) :
  (forall s, P s -> Q s) -> leads P P m -> (forall a, leads P Q (f a)) -> leads P Q (m ≫= f).
Proof.
  intros HPQ Hm Hf s r s' [(a & s1 & Es & Ef)|(r0 & Es & _)]%stateful_bind_inv HP.
  - eapply Hf; [exact Ef|]. by eapply Hm.
  - apply HPQ. by eapply Hm.
Qed.

(** ** Tactics of the development *)

(** Case analysis on every [match] of the goal or the hypotheses, with the
    contradictory cases discharged. *)
Ltac cases :=
  repeat (case_match; simplify_eq/=; try done).

(** Case analysis on every [if] of the goal. *)
Ltac split_ifs :=
  repeat match goal with |- context [if ?b then _ else _] => destruct b eqn:? end.

(** Turns every boolean test among the hypotheses into the proposition it
    decides. *)
Ltac breflect :=
  repeat match goal with
  | H : (_ && _)%bool = true |- _ => apply andb_true_iff in H as [? ?]
  | H : (_ || _)%bool = false |- _ => apply orb_false_iff in H as [? ?]
  | H : negb _ = true |- _ => apply negb_true_iff in H
  | H : negb _ = false |- _ => apply negb_false_iff in H
  | H : (_ <? _)%Z = true |- _ => apply Z.ltb_lt in H
  | H : (_ <? _)%Z = false |- _ => apply Z.ltb_ge in H
  | H : (_ <=? _)%Z = true |- _ => apply Z.leb_le in H
  | H : (_ <=? _)%Z = false |- _ => apply Z.leb_gt in H
  | H : (_ =? _)%Z = true |- _ => apply Z.eqb_eq in H
  | H : (_ =? _)%Z = false |- _ => apply Z.eqb_neq in H
  | H : (_ <? _)%nat = true |- _ => apply Nat.ltb_lt in H
  | H : (_ <? _)%nat = false |- _ => apply Nat.ltb_ge in H
  | H : (_ <=? _)%nat = true |- _ => apply Nat.leb_le in H
  | H : (_ <=? _)%nat = false |- _ => apply Nat.leb_gt in H
  | H : (_ =? _)%nat = true |- _ => apply Nat.eqb_eq in H
  | H : (_ =? _)%nat = false |- _ => apply Nat.eqb_neq in H
  | H : (_ =? _)%N = true |- _ => apply N.eqb_eq in H
  | H : (_ =? _)%N = false |- _ => apply N.eqb_neq in H
  end.

(** ** Lists *)

Lemma rev_reverse {A} (l : list A) : rev l = reverse l.
Proof. apply rev_alt. Qed.

(** Simplification of list expressions, by [autorewrite with lists]. *)
Create Rewrite HintDb lists.
#[export] Hint Rewrite @app_nil_r @length_app @length_fmap @length_reverse @reverse_app
  @reverse_involutive @length_take @length_drop : lists.
