(* ===== verification/RustStr.v ===== *)
(** * Rust strings

    A [&str]/[String] is the list of its Unicode scalar values.  The functions
    of [core::str] and [alloc::string] the program calls are written out here:
    ASCII case mapping, white space (the [White_Space] property, which is what
    [char::is_whitespace] tests), trimming, splitting, searching, replacing. *)

From S2P Require Import Prelude.

Abbreviation char := N.
Abbreviation str := (list N).

(** A literal of the program.  A double quote cannot be written inside a Rocq
    string of this development, so a backtick stands for it (no string literal
    of the program holds a backtick). *)
Definition lit_char (a : ascii) : char :=
  if Ascii.eqb a "`" then 34%N else N_of_ascii a.
Definition lit (s : string) : str := lit_char <$> list_ascii_of_string s.
Arguments lit s%_string_scope.

Fixpoint str_eqb (a b : str) : bool :=
  match a, b with
  | [], [] => true
  | x :: a', y :: b' => (x =? y)%N && str_eqb a' b'
  | _, _ => false
  end.

Declare Scope str_scope.
Delimit Scope str_scope with str.
Infix "=?" := str_eqb (at level 70, no associativity) : str_scope.

Lemma str_eqb_eq a b : str_eqb a b = true <-> a = b.
Proof.
  revert b; induction a as [|x a IH]; intros [|y b]; simpl; try (split; congruence).
  rewrite andb_true_iff, N.eqb_eq, IH. split; [intros [-> ->] | intros [= -> ->]]; auto.
Qed.

Lemma str_eqb_spec a b : reflect (a = b) (str_eqb a b).
Proof. apply iff_reflect; symmetry; apply str_eqb_eq. Qed.

Lemma str_eqb_refl a : str_eqb a a = true.
Proof. by apply str_eqb_eq. Qed.

(** [matches!(s, "A" | "B" | ...)]. *)
Definition one_of (s : str) (l : list string) : bool :=
  existsb (fun t => str_eqb s (lit t)) l.

(** ** Characters *)

Definition is_ascii_uppercase (c : char) : bool := (65 <=? c)%N && (c <=? 90)%N.
Definition is_ascii_lowercase (c : char) : bool := (97 <=? c)%N && (c <=? 122)%N.
Definition is_ascii_digit (c : char) : bool := (48 <=? c)%N && (c <=? 57)%N.
Definition is_ascii_alphanumeric (c : char) : bool :=
  is_ascii_uppercase c || is_ascii_lowercase c || is_ascii_digit c.

Definition char_to_ascii_lowercase (c : char) : char :=
  if is_ascii_uppercase c then (c + 32)%N else c.
Definition char_to_ascii_uppercase (c : char) : char :=
  if is_ascii_lowercase c then (c - 32)%N else c.

(** The 25 scalar values with the [White_Space] property. *)
Definition is_whitespace (c : char) : bool :=
  ((9 <=? c) && (c <=? 13) || (c =? 32) || (c =? 133) || (c =? 160) || (c =? 5760)
   || (8192 <=? c) && (c <=? 8202) || (c =? 8232) || (c =? 8233) || (c =? 8239)
   || (c =? 8287) || (c =? 12288))%N.

(** [char::len_utf8]. *)
Definition len_utf8 (c : char) : nat :=
  if (c <? 128)%N then 1 else if (c <? 2048)%N then 2 else if (c <? 65536)%N then 3 else 4.

(** [str::len], the length in bytes. *)
Definition byte_len (s : str) : nat := foldr (fun c n => len_utf8 c + n) 0 s.

(** ** Case *)

Definition to_ascii_lowercase (s : str) : str := char_to_ascii_lowercase <$> s.
Definition to_ascii_uppercase (s : str) : str := char_to_ascii_uppercase <$> s.
Definition eq_ignore_ascii_case (a b : str) : bool :=
  str_eqb (to_ascii_lowercase a) (to_ascii_lowercase b).

Lemma eq_ignore_length a b : eq_ignore_ascii_case a b = true -> length a = length b.
Proof.
  unfold eq_ignore_ascii_case, to_ascii_lowercase. intros E%str_eqb_eq.
  apply (f_equal length) in E. by rewrite !length_fmap in E.
Qed.

(** ** Trimming *)

Fixpoint drop_while (p : char -> bool) (s : str) : str :=
  match s with
  | [] => []
  | c :: s' => if p c then drop_while p s' else s
  end.
Definition drop_while_end (p : char -> bool) (s : str) : str :=
  rev (drop_while p (rev s)).

Definition trim_start (s : str) : str := drop_while is_whitespace s.
Definition trim_end (s : str) : str := drop_while_end is_whitespace s.
Definition trim (s : str) : str := trim_end (trim_start s).
(** [str::trim_matches] with a predicate or a character, and its one-sided
    variants. *)
Definition trim_matches (p : char -> bool) (s : str) : str :=
  drop_while_end p (drop_while p s).
Definition trim_start_matches (p : char -> bool) (s : str) : str := drop_while p s.
Definition trim_end_matches (p : char -> bool) (s : str) : str := drop_while_end p s.

(** ** Searching *)

Fixpoint starts_with (pat s : str) : bool :=
  match pat, s with
  | [], _ => true
  | p :: pat', c :: s' => (p =? c)%N && starts_with pat' s'
  | _ :: _, [] => false
  end.
Definition ends_with (pat s : str) : bool := starts_with (rev pat) (rev s).

(** [str::find] of a substring; the index counts characters, not bytes, and is
    only ever used to cut the same string. *)
Fixpoint find (pat s : str) : option nat :=
  if starts_with pat s then Some 0
  else match s with
       | [] => None
       | _ :: s' => S <$> find pat s'
       end.
Definition contains (pat s : str) : bool :=
  match find pat s with Some _ => true | None => false end.
Definition contains_char (c : char) (s : str) : bool := existsb (N.eqb c) s.

(** ** Replacing: [str::replace] *)

Fixpoint replace_go (skip : nat) (from to s : str) : str :=
  match s with
  | [] => []
  | c :: s' =>
      match skip with
      | S k => replace_go k from to s'
      | O => if starts_with from s
             then to ++ replace_go (length from - 1) from to s'
             else c :: replace_go 0 from to s'
      end
  end.
Definition replace (from to s : str) : str :=
  match from with
  | [] => to ++ concat ((fun c => c :: to) <$> s)
  | _ => replace_go 0 from to s
  end.

(** ** Splitting and joining *)

(** [str::split] on a character: the pieces between its occurrences. *)
Fixpoint split_char (d : char) (s : str) : list str :=
  match s with
  | [] => [[]]
  | c :: s' =>
      if (c =? d)%N then [] :: split_char d s'
      else match split_char d s' with
           | [] => [[c]]
           | p :: ps => (c :: p) :: ps
           end
  end.

Fixpoint split_once (d : char) (s : str) : option (str * str) :=
  match s with
  | [] => None
  | c :: s' =>
      if (c =? d)%N then Some ([], s')
      else (fun '(a, b) => (c :: a, b)) <$> split_once d s'
  end.
Definition rsplit_once (d : char) (s : str) : option (str * str) :=
  (fun '(a, b) => (rev b, rev a)) <$> split_once d (rev s).

(** [s.rsplit(d).next()]: the piece after the last [d]. *)
Definition rsplit_first (d : char) (s : str) : str :=
  match rsplit_once d s with Some (_, b) => b | None => s end.

(** [str::split_whitespace]: the maximal runs of non-white-space characters. *)
Fixpoint split_whitespace_go (acc : str) (s : str) : list str :=
  match s with
  | [] => match acc with [] => [] | _ => [rev acc] end
  | c :: s' =>
      if is_whitespace c
      then match acc with
           | [] => split_whitespace_go [] s'
           | _ => rev acc :: split_whitespace_go [] s'
           end
      else split_whitespace_go (c :: acc) s'
  end.
Definition split_whitespace (s : str) : list str := split_whitespace_go [] s.

Fixpoint join (sep : str) (l : list str) : str :=
  match l with
  | [] => []
  | [s] => s
  | s :: l' => s ++ sep ++ join sep l'
  end.

(** [str::lines]: cut at line feeds, a carriage return before the line feed is
    dropped, and there is no line after a final line feed. *)
Definition strip_cr (s : str) : str :=
  match rev s with 13%N :: r => rev r | _ => s end.
Definition lines (s : str) : list str :=
  let ps := split_char 10 s in
  let body := strip_cr <$> removelast ps in
  match rev ps with
  | [] | [] :: _ => body
  | l :: _ => body ++ [l]
  end.

(** [str::trim_start_matches] and [str::trim_end_matches] with a (non-empty)
    substring: the pattern is removed as long as it is there. *)
Fixpoint trim_start_str_go (fuel : nat) (pat s : str) : str :=
  match fuel with
  | O => s
  | S f => if starts_with pat s then trim_start_str_go f pat (drop (length pat) s) else s
  end.
Definition trim_start_str (pat s : str) : str := trim_start_str_go (length s) pat s.
Definition trim_end_str (pat s : str) : str :=
  rev (trim_start_str (rev pat) (rev s)).


Example ex_replace : replace (lit "''") (lit "'") (lit "a''b'''c") = lit "a'b''c".
Proof. reflexivity. Qed.
Example ex_lines : lines (lit "ab
c

") = [lit "ab"; lit "c"; []].
Proof. reflexivity. Qed.
Example ex_split_ws : split_whitespace (lit "  a  bc d ") = [lit "a"; lit "bc"; lit "d"].
Proof. reflexivity. Qed.
Example ex_rsplit : rsplit_once 58 (lit "a:b:c") = Some (lit "a:b", lit "c").
Proof. reflexivity. Qed.
Example ex_trim_str : trim_end_str (lit " ab") (lit "x ab ab") = lit "x".
Proof. reflexivity. Qed.

(** ** Trimming *)

Lemma drop_while_none p s : Forall (fun c => p c = false) s -> drop_while p s = s.
Proof. destruct 1 as [|c s Hc _]; [done|]. cbn. by rewrite Hc. Qed.

Lemma drop_while_sub (P : char -> Prop) p s : Forall P s -> Forall P (drop_while p s).
Proof. induction 1 as [|c s Hc Hs IH]; cbn; [done|]. case_match; [done|by constructor]. Qed.

Lemma trim_sub (P : char -> Prop) s : Forall P s -> Forall P (trim s).
Proof.
  intros Hs. unfold trim, trim_end, trim_start, drop_while_end.
  apply Forall_rev, drop_while_sub, Forall_rev, drop_while_sub, Hs.
Qed.

Lemma trim_words s : Forall (fun c => is_whitespace c = false) s -> trim s = s.
Proof.
  intros Hs. unfold trim, trim_end, trim_start, drop_while_end.
  rewrite (drop_while_none _ s), drop_while_none, rev_involutive by (try apply Forall_rev; done).
  done.
Qed.

Lemma drop_while_head p c s : p c = false -> drop_while p (c :: s) = c :: s.
Proof. cbn. by intros ->. Qed.

Lemma drop_end_last p c s d : p d = false -> drop_while_end p (c :: s ++ [d]) = c :: s ++ [d].
Proof.
  intros Hp. unfold drop_while_end. change (c :: s ++ [d]) with ((c :: s) ++ [d]).
  rewrite rev_app_distr. cbn [rev app]. rewrite drop_while_head by done.
  change (d :: rev s ++ [c]) with (rev [d] ++ rev (c :: s)).
  by rewrite <- rev_app_distr, rev_involutive.
Qed.

Lemma drop_while_suffix p s : exists w, s = w ++ drop_while p s.
Proof.
  induction s as [|c s [w IH]]; [by exists []|]. cbn. destruct (p c); [|by exists []].
  exists (c :: w). cbn. by rewrite <- IH.
Qed.

Lemma drop_while_stable p s : drop_while p (drop_while p s) = drop_while p s.
Proof.
  induction s as [|c s IH]; [done|]. cbn. destruct (p c) eqn:E; [done|]. cbn. by rewrite E.
Qed.

Lemma trim_trim s : trim (trim s) = trim s.
Proof.
  unfold trim, trim_end, trim_start. set (t := drop_while is_whitespace s).
  assert (Ht : drop_while is_whitespace t = t) by apply drop_while_stable.
  assert (Hs : drop_while is_whitespace (drop_while_end is_whitespace t)
               = drop_while_end is_whitespace t).
  { unfold drop_while_end. destruct (drop_while_suffix is_whitespace (rev t)) as [w Hw].
    apply (f_equal (@rev _)) in Hw. rewrite rev_involutive, rev_app_distr in Hw.
    destruct (rev (drop_while is_whitespace (rev t))) as [|c r]; [done|].
    rewrite Hw in Ht. cbn in Ht |- *. destruct (is_whitespace c); [|done].
    exfalso. revert Ht. generalize (r ++ rev w) as y. intros y Ht.
    destruct (drop_while_suffix is_whitespace y) as [x Hx]. rewrite Ht in Hx.
    apply (f_equal length) in Hx. rewrite length_app in Hx. cbn [length] in Hx. lia. }
  rewrite Hs. unfold drop_while_end. by rewrite rev_involutive, drop_while_stable.
Qed.

Lemma trim_ends c s d :
  is_whitespace c = false -> is_whitespace d = false -> trim (c :: s ++ [d]) = c :: s ++ [d].
Proof.
  intros Hc Hd. unfold trim, trim_end, trim_start. rewrite drop_while_head by done.
  by apply drop_end_last.
Qed.

(** ** Searching *)

Lemma starts_with_spec pat s : starts_with pat s = true <-> exists r, s = pat ++ r.
Proof.
  revert s; induction pat as [|p pat IH]; intros s; simpl; [split; eauto|].
  destruct s as [|c s]; [split; [done|by intros (r & [=])]|].
  rewrite andb_true_iff, N.eqb_eq, IH. split.
  - intros [-> [r ->]]. by exists r.
  - intros (r & [= -> ->]). eauto.
Qed.

Lemma find_spec pat s i :
  find pat s = Some i <->
  starts_with pat (drop i s) = true /\ i <= length s
  /\ forall j, j < i -> starts_with pat (drop j s) = false.
Proof.
  revert i; induction s as [|c s IH]; intros i.
  - destruct pat; cbn; split.
    + intros [= <-]. split_and!; [done|lia|lia].
    + intros (_ & Hi & _). f_equal. lia.
    + done.
    + intros (Hs & _ & _). by destruct i.
  - cbn [find]. destruct (starts_with pat (c :: s)) eqn:E.
    + split.
      * intros [= <-]. split_and!; [done|lia|lia].
      * intros (_ & _ & Hmin). destruct i as [|i]; [done|].
        specialize (Hmin 0 ltac:(lia)). by rewrite drop_0, E in Hmin.
    + rewrite fmap_Some. split.
      * intros (k & Hk & ->). apply IH in Hk as (Hk & Hl & Hmin). split_and!; [done|simpl;lia|].
        intros [|j] Hj; [by rewrite drop_0|]. apply Hmin. lia.
      * intros (Hs & Hl & Hmin). destruct i as [|i]; [by rewrite drop_0, E in Hs|].
        exists i. split; [|done]. apply IH. split_and!; [done|simpl in *; lia|].
        intros j Hj. apply (Hmin (S j)). lia.
Qed.

Lemma find_none pat s :
  find pat s = None <-> forall j, j <= length s -> starts_with pat (drop j s) = false.
Proof.
  induction s as [|c s IH].
  - destruct pat; cbn; split; try done.
    + intros Hj. by specialize (Hj 0 ltac:(lia)).
    + intros _ j _. by rewrite drop_nil.
  - cbn [find]. destruct (starts_with pat (c :: s)) eqn:E.
    + split; [done|]. intros Hj. specialize (Hj 0 ltac:(lia)). by rewrite drop_0, E in Hj.
    + rewrite fmap_None, IH. split.
      * intros Hj [|j] Hl; [by rewrite drop_0|]. apply Hj. simpl in Hl. lia.
      * intros Hj j Hl. apply (Hj (S j)). simpl. lia.
Qed.

Lemma contains_split pat s : contains pat s = true -> exists a b, s = a ++ pat ++ b.
Proof.
  unfold contains. destruct (find pat s) as [i|] eqn:E; [|done]. intros _.
  apply find_spec in E as (Hs & _ & _). apply starts_with_spec in Hs as [r Hr].
  exists (take i s), r. rewrite <- Hr. by rewrite take_drop.
Qed.

Lemma contains_forall (P : char -> Prop) pat s :
  Forall P s -> contains pat s = true -> Forall P pat.
Proof.
  intros Hs (a & b & ->)%contains_split. apply Forall_app in Hs as [_ Hs].
  by apply Forall_app in Hs as [? _].
Qed.

Lemma contains_app pat a b : contains pat (a ++ pat ++ b) = true.
Proof.
  unfold contains. destruct (find pat (a ++ pat ++ b)) eqn:E; [done|].
  pose proof (proj1 (find_none _ _) E (length a)) as Hno.
  rewrite drop_app_length, length_app in Hno.
  assert (Hs : starts_with pat (pat ++ b) = true) by (apply starts_with_spec; eauto).
  rewrite Hs in Hno. symmetry. apply Hno. lia.
Qed.
