(* ===== verification/RustInt.v ===== *)
(** * Rust integers

    A machine integer is a [Z] kept inside the range of its type.  Arithmetic
    that leaves the range panics when the build has overflow checks and wraps
    when it has not, so the operations take the build profile.  Parsing and
    printing follow [FromStr] and [Display]. *)

From S2P Require Import Prelude RustStr.
#[local] Open Scope Z_scope.

Definition i16_min := -32768.
Definition i16_max := 32767.
Definition i32_min := -2147483648.
Definition i32_max := 2147483647.
Definition i64_min := -9223372036854775808.
Definition i64_max := 9223372036854775807.
Definition u16_max := 65535.
Definition u64_max := 18446744073709551615.

Definition is_i16 (z : Z) : Prop := i16_min <= z <= i16_max.
Definition is_i32 (z : Z) : Prop := i32_min <= z <= i32_max.
Definition is_i64 (z : Z) : Prop := i64_min <= z <= i64_max.

Ltac unfold_bounds :=
  unfold is_i16, is_i32, is_i64, i16_min, i16_max, i32_min, i32_max, i64_min, i64_max,
    u16_max, u64_max in *.

(** Two's complement reading of a [w]-bit word. *)
Definition wrap_signed (w : Z) (z : Z) : Z :=
  (z + 2 ^ (w - 1)) mod 2 ^ w - 2 ^ (w - 1).

(** What the build decides.  The Cargo profile: [dev] checks overflow, [release] does
    not.  The compiler: the bytes of a [postgres_types::Type], which has more than one
    value and so at least one; both builds here take 16. *)
Class BuildProfile := {
  overflow_checks : bool;
  type_size : Z;
  type_size_pos : 1 <= type_size }.
Definition dev_profile : BuildProfile :=
  {| overflow_checks := true; type_size := 16; type_size_pos := proj1 (Z.leb_le 1 16) eq_refl |}.
Definition release_profile : BuildProfile :=
  {| overflow_checks := false; type_size := 16; type_size_pos := proj1 (Z.leb_le 1 16) eq_refl |}.

Section arith.
Context `{BuildProfile} {E : Type}.

Definition arith (w : Z) (z : Z) : outcome E Z :=
  if (- 2 ^ (w - 1) <=? z) && (z <? 2 ^ (w - 1)) then Ok z
  else if overflow_checks then Panic else Ok (wrap_signed w z).

(** [-x], [x + y], [x - y] on [i64] (and on the 64-bit [isize]). *)
Definition neg_i64 (x : Z) : outcome E Z := arith 64 (- x).
Definition add_i64 (x y : Z) : outcome E Z := arith 64 (x + y).
Definition add_i32 (x y : Z) : outcome E Z := arith 32 (x + y).

(** [x + y] on [usize] ([u64]). *)
Definition add_usize (x y : Z) : outcome E Z :=
  if x + y <=? u64_max then Ok (x + y)
  else if overflow_checks then Panic else Ok ((x + y) mod 2 ^ 64).

Lemma add_usize_ok x y : x + y <= u64_max -> add_usize x y = Ok (x + y).
Proof. intros H'. unfold add_usize. by rewrite (proj2 (Z.leb_le _ _) H'). Qed.

Lemma arith_in_range w z :
  - 2 ^ (w - 1) <= z < 2 ^ (w - 1) -> arith w z = Ok z.
Proof.
  intros [Hl Hh]. unfold arith.
  rewrite (proj2 (Z.leb_le _ _) Hl), (proj2 (Z.ltb_lt _ _) Hh). done.
Qed.

Lemma neg_i64_ok x : i64_min < x <= i64_max -> neg_i64 x = Ok (- x).
Proof. unfold_bounds; intros; apply arith_in_range; simpl; lia. Qed.

Lemma add_i64_ok x y : is_i64 (x + y) -> add_i64 x y = Ok (x + y).
Proof. unfold_bounds; intros; apply arith_in_range; simpl; lia. Qed.
End arith.

(** ** Parsing: [str::parse::<iN>] and [str::parse::<uN>] *)

Fixpoint parse_digits_go (acc : Z) (s : str) : option Z :=
  match s with
  | [] => Some acc
  | c :: s' =>
      if is_ascii_digit c then parse_digits_go (10 * acc + (Z.of_N c - 48)) s' else None
  end.
Definition parse_digits (s : str) : option Z :=
  match s with [] => None | _ => parse_digits_go 0 s end.

(** An optional sign ([-] only on a signed type), at least one digit, and a
    value inside the range. *)
Definition parse_sign (signed : bool) (s : str) : option Z :=
  match s with
  | [] => None
  | c :: s' =>
      if (c =? 43)%N then parse_digits s'
      else if (c =? 45)%N && signed then Z.opp <$> parse_digits s'
      else parse_digits s
  end.
Definition parse_int (signed : bool) (lo hi : Z) (s : str) : option Z :=
  v ← parse_sign signed s;
  if (lo <=? v) && (v <=? hi) then Some v else None.

Definition parse_i64 := parse_int true i64_min i64_max.
Definition parse_i32 := parse_int true i32_min i32_max.
Definition parse_u16 := parse_int false 0 u16_max.
Definition parse_usize := parse_int false 0 u64_max.

(** ** Printing: [ToString] *)

Fixpoint show_digits (fuel : nat) (n : Z) (acc : str) : str :=
  match fuel with
  | O => acc
  | S f =>
      let acc' := Z.to_N (48 + n mod 10) :: acc in
      if n <? 10 then acc' else show_digits f (n / 10) acc'
  end.
(** A positive [n] has at most [log2 n + 1] decimal digits. *)
Definition show_nonneg (n : Z) : str := show_digits (S (Z.to_nat (Z.log2 n))) n [].
Definition show_int (z : Z) : str :=
  if z <? 0 then 45%N :: show_nonneg (- z) else show_nonneg z.

Example ex_show : show_int (-9223372036854775808) = lit "-9223372036854775808".
Proof. reflexivity. Qed.
Example ex_parse : parse_i64 (lit "-9223372036854775808") = Some i64_min.
Proof. reflexivity. Qed.
Example ex_parse_overflow : parse_i64 (lit "9223372036854775808") = None.
Proof. reflexivity. Qed.

(** ** Printing and parsing agree *)

Lemma digit_of n :
  0 <= n -> is_ascii_digit (Z.to_N (48 + n mod 10)) = true
            /\ Z.of_N (Z.to_N (48 + n mod 10)) - 48 = n mod 10.
Proof.
  intros Hn. pose proof (Z.mod_pos_bound n 10 ltac:(lia)).
  unfold is_ascii_digit. rewrite andb_true_iff, !N.leb_le. lia.
Qed.

Lemma parse_show_digits fuel n acc :
  0 <= n < 2 ^ Z.of_nat fuel ->
  parse_digits_go 0 (show_digits fuel n acc) = parse_digits_go n acc.
Proof.
  revert n acc; induction fuel as [|f IH]; intros n acc Hn.
  { simpl in *. by replace n with 0 by lia. }
  destruct (digit_of n ltac:(lia)) as [Hd Hv].
  cbn [show_digits].
  assert (Hs : forall a, parse_digits_go a (Z.to_N (48 + n mod 10) :: acc)
                         = parse_digits_go (10 * a + n mod 10) acc).
  { intros a. cbn [parse_digits_go]. by rewrite Hd, Hv. }
  destruct (n <? 10) eqn:E; breflect.
  - rewrite Hs, Z.mod_small by lia. f_equal.
  - rewrite IH, Hs.
    + f_equal. rewrite (Z.div_mod n 10) at 3; lia.
    + rewrite Nat2Z.inj_succ, Z.pow_succ_r in Hn by lia.
      split; [apply Z.div_pos; lia | apply Z.div_lt_upper_bound; lia].
Qed.

Lemma show_digits_head fuel n acc :
  (fuel <> 0)%nat -> 0 <= n ->
  exists c s, show_digits fuel n acc = c :: s /\ is_ascii_digit c = true.
Proof.
  revert n acc; induction fuel as [|f IH]; intros n acc Hf Hn; [done|].
  destruct (digit_of n Hn) as [Hd _]. cbn [show_digits].
  case_match; eauto. destruct f as [|f]; [simpl; eauto|].
  apply IH; [done | apply Z.div_pos; lia].
Qed.

Lemma parse_show_nonneg n : 0 <= n -> parse_digits (show_nonneg n) = Some n.
Proof.
  intros Hn. unfold show_nonneg.
  destruct (show_digits_head (S (Z.to_nat (Z.log2 n))) n []) as (c & s & Hs & _); auto.
  transitivity (parse_digits_go 0 (show_digits (S (Z.to_nat (Z.log2 n))) n [])).
  { by rewrite Hs. }
  rewrite parse_show_digits; [done|]. split; [done|]. rewrite Nat2Z.inj_succ, Z2Nat.id by apply Z.log2_nonneg.
  destruct (decide (n = 0)) as [->|]; [done|]. apply Z.log2_spec; lia.
Qed.

Lemma parse_sign_digit signed c s :
  is_ascii_digit c = true -> parse_sign signed (c :: s) = parse_digits (c :: s).
Proof.
  intros Hc. unfold is_ascii_digit in Hc. breflect.
  repeat match goal with H : (_ <=? _)%N = true |- _ => apply N.leb_le in H end.
  unfold parse_sign.
  rewrite (proj2 (N.eqb_neq c 43)), (proj2 (N.eqb_neq c 45)) by lia. done.
Qed.

(** What [to_string] prints, [parse] of a type that holds the value reads back. *)
Lemma parse_show_int lo hi z :
  lo <= z <= hi -> parse_int true lo hi (show_int z) = Some z.
Proof.
  intros Hz. unfold parse_int, show_int.
  destruct (z <? 0) eqn:E; breflect.
  - unfold parse_sign. cbn [N.eqb Pos.eqb andb]. rewrite parse_show_nonneg by lia.
    cbn. rewrite Z.opp_involutive.
    by rewrite (proj2 (Z.leb_le lo z)), (proj2 (Z.leb_le z hi)) by lia.
  - destruct (show_digits_head (S (Z.to_nat (Z.log2 z))) z []) as (c & s & Hs & Hc); auto.
    pose proof (parse_show_nonneg z ltac:(lia)) as Hp. unfold show_nonneg in *.
    rewrite Hs in *. rewrite parse_sign_digit, Hp by done. cbn.
    by rewrite (proj2 (Z.leb_le lo z)), (proj2 (Z.leb_le z hi)) by lia.
Qed.

Lemma parse_int_range signed lo hi s v :
  parse_int signed lo hi s = Some v -> lo <= v <= hi.
Proof.
  unfold parse_int. intros H. apply bind_Some in H as (w & _ & H).
  case_match; simplify_eq; breflect; lia.
Qed.

Lemma digits_are_digits fuel n acc :
  0 <= n -> Forall (fun c => is_ascii_digit c = true) acc ->
  Forall (fun c => is_ascii_digit c = true) (show_digits fuel n acc).
Proof.
  revert n acc; induction fuel as [|f IH]; intros n acc Hn Ha; [done|].
  cbn [show_digits]. destruct (digit_of n Hn) as [Hd _].
  case_match; [by constructor|]. apply IH; [apply Z.div_pos; lia|by constructor].
Qed.

(** A number that is not negative is printed as its digits. *)
Lemma show_int_digits z :
  0 <= z -> show_int z <> [] /\ Forall (fun c => is_ascii_digit c = true) (show_int z).
Proof.
  intros Hz. unfold show_int. rewrite (proj2 (Z.ltb_ge z 0)) by done. split.
  - destruct (show_digits_head (S (Z.to_nat (Z.log2 z))) z []) as (c & s & Hs & _); [done..|].
    unfold show_nonneg. by rewrite Hs.
  - apply digits_are_digits; [done|constructor].
Qed.
