(* ===== verification/Regex.v ===== *)
(** * Regular expressions

    The program matches SQL text with the [regex] crate.  The crate is not part
    of the program, so an engine is a parameter ([RegexEngine]): a function from
    the text of a pattern, a haystack and a start position to the capture groups
    of the next match.  What the program relies on is the documented behaviour
    of the crate: the syntax of patterns ([parse_regex], the part of it that the
    program's patterns use) and leftmost-first matching as in Perl
    ([leftmost_first]).  Patterns stand in the other files as they stand in the
    source.  [reference_engine] is a concrete engine: a backtracking matcher,
    proved equal to the list-of-successes semantics. *)

From S2P Require Import Prelude RustStr.
#[local] Open Scope nat_scope.

(** ** Abstract syntax *)

Inductive class_item :=
| CRange (lo hi : char)
| CSpace (negated : bool)     (* \s, \S *)
| CDigit                      (* \d *)
| CWord.                      (* \w *)

Record char_class := {
  cc_negated : bool;
  cc_fold : bool;             (* case-insensitive *)
  cc_items : list class_item }.

Inductive assertion := AStart | AEnd | AWordBoundary.

Inductive re :=
| REps
| RSet (c : char_class)
| RSeq (r1 r2 : re)
| RAlt (r1 r2 : re)
| RStar (greedy : bool) (r : re)
| RGroup (i : nat) (r : re)
| RAssert (a : assertion).

Definition RPlus (greedy : bool) (r : re) : re := RSeq r (RStar greedy r).
Definition ROpt (greedy : bool) (r : re) : re :=
  if greedy then RAlt r REps else RAlt REps r.

Record regex := { rx_re : re; rx_names : list (str * nat) }.

(** ** Concrete syntax *)

Record flags := { fl_i : bool; fl_s : bool }.

Definition one_char (fl : flags) (c : char) : re :=
  RSet {| cc_negated := false; cc_fold := fl_i fl; cc_items := [CRange c c] |}.
Definition class_of (it : class_item) : re :=
  RSet {| cc_negated := false; cc_fold := false; cc_items := [it] |}.
Definition any_char (fl : flags) : re :=
  RSet {| cc_negated := true; cc_fold := false;
          cc_items := if fl_s fl then [] else [CRange 10 10] |}.

(** A character after a backslash that stands for one character. *)
Definition escaped_char (c : char) : char :=
  match c with
  | 110%N => 10   (* n *)
  | 114%N => 13   (* r *)
  | 116%N => 9    (* t *)
  | _ => c
  end%N.

Definition escaped_class (c : char) : option class_item :=
  match c with
  | 115%N => Some (CSpace false)   (* s *)
  | 83%N => Some (CSpace true)     (* S *)
  | 100%N => Some CDigit           (* d *)
  | 119%N => Some CWord            (* w *)
  | _ => None
  end.

(** The items of a bracketed class, up to the closing bracket. *)
Fixpoint parse_items (fuel : nat) (s : str) : option (list class_item * str) :=
  match fuel with
  | O => None
  | S f =>
      match s with
      | [] => None
      | 93%N :: s' => Some ([], s')
      | 92%N :: c :: s' =>
          '(its, r) ← parse_items f s';
          Some (match escaped_class c with
                | Some it => it
                | None => CRange (escaped_char c) (escaped_char c)
                end :: its, r)
      | lo :: 45%N :: hi :: s' =>
          if (hi =? 93)%N
          then '(its, r) ← parse_items f (45%N :: hi :: s'); Some (CRange lo lo :: its, r)
          else '(its, r) ← parse_items f s'; Some (CRange lo hi :: its, r)
      | c :: s' =>
          '(its, r) ← parse_items f s'; Some (CRange c c :: its, r)
      end
  end.

Definition parse_class (fl : flags) (fuel : nat) (s : str) : option (re * str) :=
  let '(ng, s1) := match s with 94%N :: s' => (true, s') | _ => (false, s) end in
  '(its, r) ← parse_items fuel s1;
  Some (RSet {| cc_negated := ng; cc_fold := fl_i fl; cc_items := its |}, r).

(** A quantifier, with its lazy variant. *)
Definition quantify (r : re) (s : str) : re * str :=
  let lazy s' := match s' with 63%N :: s'' => (false, s'') | _ => (true, s') end in
  match s with
  | 42%N :: s' => let '(g, s'') := lazy s' in (RStar g r, s'')
  | 43%N :: s' => let '(g, s'') := lazy s' in (RPlus g r, s'')
  | 63%N :: s' => let '(g, s'') := lazy s' in (ROpt g r, s'')
  | _ => (r, s)
  end.

(** Next group number and the names so far. *)
Definition gstate : Type := nat * list (str * nat).

Fixpoint parse_alt (fuel : nat) (fl : flags) (g : gstate) (s : str)
    : option (re * gstate * str) :=
  match fuel with
  | O => None
  | S f =>
      '(r, g1, s1) ← parse_seq f fl g s;
      match s1 with
      | 124%N :: s2 => '(r', g2, s3) ← parse_alt f fl g1 s2; Some (RAlt r r', g2, s3)
      | _ => Some (r, g1, s1)
      end
  end
with parse_seq (fuel : nat) (fl : flags) (g : gstate) (s : str)
    : option (re * gstate * str) :=
  match fuel with
  | O => None
  | S f =>
      match s with
      | [] | 124%N :: _ | 41%N :: _ => Some (REps, g, s)
      | _ =>
          '(r, g1, s1) ← parse_atom f fl g s;
          let '(r1, s2) := quantify r s1 in
          '(r2, g2, s3) ← parse_seq f fl g1 s2;
          Some (RSeq r1 r2, g2, s3)
      end
  end
with parse_atom (fuel : nat) (fl : flags) (g : gstate) (s : str)
    : option (re * gstate * str) :=
  match fuel with
  | O => None
  | S f =>
      match s with
      | [] => None
      | 40%N :: 63%N :: 58%N :: s1 =>                        (* (?: *)
          '(r, g1, s2) ← parse_alt f fl g s1;
          match s2 with 41%N :: s3 => Some (r, g1, s3) | _ => None end
      | 40%N :: 63%N :: 80%N :: 60%N :: s1 =>                (* (?P< *)
          '(name, s2) ← split_once 62 s1;
          let i := fst g in
          '(r, g1, s3) ← parse_alt f fl (S i, (name, i) :: snd g) s2;
          match s3 with 41%N :: s4 => Some (RGroup i r, g1, s4) | _ => None end
      | 40%N :: s1 =>                                        (* ( *)
          let i := fst g in
          '(r, g1, s2) ← parse_alt f fl (S i, snd g) s1;
          match s2 with 41%N :: s3 => Some (RGroup i r, g1, s3) | _ => None end
      | 91%N :: s1 => '(r, s2) ← parse_class fl f s1; Some (r, g, s2)
      | 46%N :: s1 => Some (any_char fl, g, s1)
      | 94%N :: s1 => Some (RAssert AStart, g, s1)
      | 36%N :: s1 => Some (RAssert AEnd, g, s1)
      | 92%N :: 98%N :: s1 => Some (RAssert AWordBoundary, g, s1)
      | 92%N :: c :: s1 =>
          Some (match escaped_class c with
                | Some it => class_of it
                | None => one_char fl (escaped_char c)
                end, g, s1)
      | c :: s1 => Some (one_char fl c, g, s1)
      end
  end.

(** The flags a pattern starts with: [(?i)], [(?s)], [(?is)]. *)
Definition parse_flags (p : str) : flags * str :=
  if starts_with (lit "(?i)") p then ({| fl_i := true; fl_s := false |}, drop 4 p)
  else if starts_with (lit "(?s)") p then ({| fl_i := false; fl_s := true |}, drop 4 p)
  else if starts_with (lit "(?is)") p then ({| fl_i := true; fl_s := true |}, drop 5 p)
  else ({| fl_i := false; fl_s := false |}, p).

Definition parse_regex (p : str) : option regex :=
  let '(fl, s) := parse_flags p in
  '(r, g, rest) ← parse_alt (4 * length s + 4) fl (1, []) s;
  match rest with [] => Some {| rx_re := r; rx_names := snd g |} | _ => None end.

(** ** Matching *)

(** The tables of the Unicode classes [\w] and [\d] above ASCII. *)
Record unicode := { uni_word : char -> bool; uni_digit : char -> bool }.

Definition is_word (u : unicode) (c : char) : bool :=
  if (c <? 128)%N then is_ascii_alphanumeric c || (c =? 95)%N else uni_word u c.
Definition is_digit (u : unicode) (c : char) : bool :=
  if (c <? 128)%N then is_ascii_digit c else uni_digit u c.

(** The scalar values equal to [c] under Unicode simple case folding, as far as
    ASCII is concerned: U+212A folds to [k] and U+017F to [s]. *)
Definition case_orbit (c : char) : list char :=
  (if (c =? 75) || (c =? 107) || (c =? 8490) then [75; 107; 8490]
   else if (c =? 83) || (c =? 115) || (c =? 383) then [83; 115; 383]
   else if is_ascii_uppercase c then [c; c + 32]
   else if is_ascii_lowercase c then [c; c - 32]
   else [c])%N.

Definition item_matches (u : unicode) (it : class_item) (c : char) : bool :=
  match it with
  | CRange lo hi => (lo <=? c)%N && (c <=? hi)%N
  | CSpace ng => xorb ng (is_whitespace c)
  | CDigit => is_digit u c
  | CWord => is_word u c
  end.
Definition class_matches (u : unicode) (cc : char_class) (c : char) : bool :=
  let has d := existsb (fun it => item_matches u it d) (cc_items cc) in
  xorb (cc_negated cc) (if cc_fold cc then existsb has (case_orbit c) else has c).

(** Where a match attempt stands: the character before, what is left, the
    position, the groups closed so far (latest first). *)
Definition captures : Type := list (nat * (nat * nat)).
Record mstate := {
  ms_prev : option char;
  ms_rest : str;
  ms_pos : nat;
  ms_caps : captures }.

Definition ms_advance (st : mstate) (c : char) (s' : str) : mstate :=
  {| ms_prev := Some c; ms_rest := s'; ms_pos := S (ms_pos st); ms_caps := ms_caps st |}.
Definition ms_close (i start : nat) (st : mstate) : mstate :=
  {| ms_prev := ms_prev st; ms_rest := ms_rest st; ms_pos := ms_pos st;
     ms_caps := (i, (start, ms_pos st)) :: ms_caps st |}.

Definition word_at (u : unicode) (o : option char) : bool :=
  match o with Some c => is_word u c | None => false end.
Definition assertion_holds (u : unicode) (a : assertion) (st : mstate) : bool :=
  match a with
  | AStart => match ms_prev st with None => true | Some _ => false end
  | AEnd => match ms_rest st with [] => true | _ => false end
  | AWordBoundary => xorb (word_at u (ms_prev st)) (word_at u (head (ms_rest st)))
  end.

(** Every way the expression matches from a state, in order of preference. *)
Fixpoint star_all (greedy : bool) (f : mstate -> list mstate) (n : nat) (st : mstate)
    : list mstate :=
  let more :=
    match n with
    | O => []
    | S n' => f st ≫= (fun st' =>
        if ms_pos st' =? ms_pos st then [] else star_all greedy f n' st')
    end in
  if greedy then more ++ [st] else st :: more.

Fixpoint all_matches (u : unicode) (r : re) (st : mstate) : list mstate :=
  match r with
  | REps => [st]
  | RSet cc =>
      match ms_rest st with
      | c :: s' => if class_matches u cc c then [ms_advance st c s'] else []
      | [] => []
      end
  | RSeq r1 r2 => all_matches u r1 st ≫= all_matches u r2
  | RAlt r1 r2 => all_matches u r1 st ++ all_matches u r2 st
  | RStar g r1 => star_all g (all_matches u r1) (length (ms_rest st)) st
  | RGroup i r1 => ms_close i (ms_pos st) <$> all_matches u r1 st
  | RAssert a => if assertion_holds u a st then [st] else []
  end.

(** Leftmost-first: the first position where the expression matches, and there
    the preferred match.  Group 0 is the whole match. *)
Fixpoint leftmost_go (try : mstate -> option captures) (rest : str) (prev : option char)
    (pos : nat) : option captures :=
  let st := {| ms_prev := prev; ms_rest := rest; ms_pos := pos; ms_caps := [] |} in
  match try st with
  | Some cs => Some cs
  | None =>
      match rest with
      | [] => None
      | c :: rest' => leftmost_go try rest' (Some c) (S pos)
      end
  end.

Definition whole (start : nat) (st : mstate) : captures :=
  (0, (start, ms_pos st)) :: ms_caps st.

Definition leftmost (try : mstate -> option captures) (s : str) (at_ : nat)
    : option captures :=
  leftmost_go try (drop at_ s) (match at_ with O => None | S k => s !! k end) at_.

Definition leftmost_first (u : unicode) (rx : regex) (s : str) (at_ : nat)
    : option captures :=
  leftmost (fun st => whole (ms_pos st) <$> head (all_matches u (rx_re rx) st)) s at_.

(** ** The engine: what the program uses of the crate *)

Class RegexEngine := {
  re_unicode : unicode;
  (** [Regex::new(p).unwrap().captures_at(s, i)] *)
  re_captures_at : str -> str -> nat -> option captures;
  (** The documented behaviour of the crate. *)
  re_captures_at_spec p rx s i :
    parse_regex p = Some rx -> re_captures_at p s i = leftmost_first re_unicode rx s i }.

(** [Captures::get]: the latest capture of a group counts. *)
Fixpoint cap_span (cs : captures) (i : nat) : option (nat * nat) :=
  match cs with
  | [] => None
  | (j, p) :: cs' => if i =? j then Some p else cap_span cs' i
  end.

(** The text between two positions: [&s[a..b]]. *)
Definition slice (a b : nat) (s : str) : str := take (b - a) (drop a s).

Definition cap_get (s : str) (cs : captures) (i : nat) : option str :=
  '(a, b) ← cap_span cs i; Some (slice a b s).

(** [Captures::name]: the number of a named group is part of the pattern. *)
Definition group_index (p name : str) : option nat :=
  rx ← parse_regex p;
  snd <$> List.find (fun q => str_eqb (fst q) name) (rx_names rx).
Definition cap_name (p s : str) (cs : captures) (name : str) : option str :=
  i ← group_index p name; cap_get s cs i.

(** A replacement template: [$1], [$name], [$$]. *)
Definition is_name_char (c : char) : bool := is_ascii_alphanumeric c || (c =? 95)%N.
Fixpoint take_while (p : char -> bool) (s : str) : str :=
  match s with c :: s' => if p c then c :: take_while p s' else [] | [] => [] end.
Definition digits_value (s : str) : nat :=
  fold_left (fun acc c => 10 * acc + N.to_nat (c - 48)) s 0.
Fixpoint expand_go (skip : nat) (p s : str) (cs : captures) (t : str) : str :=
  match t with
  | [] => []
  | c :: t' =>
      match skip with
      | S k => expand_go k p s cs t'
      | O =>
          if (c =? 36)%N then
            match t' with
            | 36%N :: _ => 36%N :: expand_go 1 p s cs t'
            | _ =>
                let name := take_while is_name_char t' in
                match name with
                | [] => 36%N :: expand_go 0 p s cs t'
                | _ =>
                    default [] (if forallb is_ascii_digit name
                                then cap_get s cs (digits_value name)
                                else cap_name p s cs name)
                    ++ expand_go (length name) p s cs t'
                end
            end
          else c :: expand_go 0 p s cs t'
      end
  end.

Section api.
Context `{RegexEngine}.

(** [Regex::captures] and [Regex::is_match]. *)
Definition captures_of (p s : str) : option captures := re_captures_at p s 0.
Definition is_match (p s : str) : bool :=
  match captures_of p s with Some _ => true | None => false end.

(** [Regex::captures_iter]: successive non-overlapping matches; an empty match
    right after the previous one is skipped. *)
Fixpoint captures_iter_go (fuel : nat) (p s : str) (at_ : nat) (last_end : option nat)
    : list captures :=
  match fuel with
  | O => []
  | S f =>
      if length s <? at_ then []
      else match re_captures_at p s at_ with
           | None => []
           | Some cs =>
               match cap_span cs 0 with
               | None => []
               | Some (a, b) =>
                   if (a =? b) && bool_decide (last_end = Some b)
                   then captures_iter_go f p s (S b) last_end
                   else cs :: captures_iter_go f p s b (Some b)
               end
           end
  end.
Definition captures_iter (p s : str) : list captures :=
  captures_iter_go (2 * length s + 2) p s 0 None.

(** [Regex::replace_all] with a closure. *)
Fixpoint replace_spans (f : captures -> str) (s : str) (last : nat) (l : list captures)
    : str :=
  match l with
  | [] => drop last s
  | cs :: l' =>
      match cap_span cs 0 with
      | None => replace_spans f s last l'
      | Some (a, b) => slice last a s ++ f cs ++ replace_spans f s b l'
      end
  end.
Definition replace_all_with (p : str) (f : captures -> str) (s : str) : str :=
  replace_spans f s 0 (captures_iter p s).
(** [Regex::replace_all] with a template. *)
Definition replace_all (p tmpl s : str) : str :=
  replace_all_with p (fun cs => expand_go 0 p s cs tmpl) s.
End api.

(** [regex::escape]. *)
Definition is_meta (c : char) : bool :=
  contains_char c (lit "\.+*?()|[]{}^$#&-~").
Definition escape (s : str) : str :=
  s ≫= (fun c => if is_meta c then [92%N; c] else [c]).

(** ** A concrete engine

    A backtracking matcher in continuation-passing style. *)

Fixpoint run_star {A} (greedy : bool) (f : mstate -> (mstate -> option A) -> option A)
    (n : nat) (st : mstate) (k : mstate -> option A) : option A :=
  let more (_ : unit) :=
    match n with
    | O => None
    | S n' => f st (fun st' =>
        if ms_pos st' =? ms_pos st then None else run_star greedy f n' st' k)
    end in
  if greedy
  then match more tt with Some x => Some x | None => k st end
  else match k st with Some x => Some x | None => more tt end.

Fixpoint run {A} (u : unicode) (r : re) (st : mstate) (k : mstate -> option A) : option A :=
  match r with
  | REps => k st
  | RSet cc =>
      match ms_rest st with
      | c :: s' => if class_matches u cc c then k (ms_advance st c s') else None
      | [] => None
      end
  | RSeq r1 r2 => run u r1 st (fun st' => run u r2 st' k)
  | RAlt r1 r2 => match run u r1 st k with Some x => Some x | None => run u r2 st k end
  | RStar g r1 => run_star g (run u r1) (length (ms_rest st)) st k
  | RGroup i r1 => run u r1 st (fun st' => k (ms_close i (ms_pos st) st'))
  | RAssert a => if assertion_holds u a st then k st else None
  end.

(** The first success of [k] over a list. *)
Fixpoint first_some {A B} (k : A -> option B) (l : list A) : option B :=
  match l with
  | [] => None
  | x :: l' => match k x with Some y => Some y | None => first_some k l' end
  end.

Lemma first_some_app {A B} (k : A -> option B) l1 l2 :
  first_some k (l1 ++ l2) =
  match first_some k l1 with Some y => Some y | None => first_some k l2 end.
Proof. induction l1 as [|a l1 IH]; simpl; [done|]. by destruct (k a). Qed.

Lemma first_some_bind {A B C} (k : B -> option C) (f : A -> list B) l :
  first_some k (l ≫= f) = first_some (fun x => first_some k (f x)) l.
Proof.
  induction l; [done|].
  cbn [mbind list_bind first_some]. rewrite first_some_app.
  case_match; [done|]. apply IHl.
Qed.

Lemma first_some_fmap {A B C} (k : B -> option C) (f : A -> B) l :
  first_some k (f <$> l) = first_some (fun x => k (f x)) l.
Proof. induction l; csimpl; [done|]. by case_match. Qed.

Lemma first_some_ext {A B} (k k' : A -> option B) l :
  (forall x, k x = k' x) -> first_some k l = first_some k' l.
Proof. intros E. induction l; simpl; [done|]. rewrite E. by case_match. Qed.

Lemma run_star_all {A} g (f : mstate -> (mstate -> option A) -> option A) h n st k :
  (forall st k, f st k = first_some k (h st)) ->
  run_star g f n st k = first_some k (star_all g h n st).
Proof.
  intros Hf. revert st k; induction n as [|n IH]; intros st k; simpl.
  { destruct g; simpl; by case_match. }
  assert (E : f st (fun st' => if ms_pos st' =? ms_pos st then None
                               else run_star g f n st' k)
              = first_some k (h st ≫= (fun st' =>
                  if ms_pos st' =? ms_pos st then [] else star_all g h n st'))).
  { rewrite Hf, first_some_bind. apply first_some_ext. intros. by case_match. }
  rewrite E. destruct g; simpl.
  - rewrite first_some_app. simpl. case_match; [done|]. by case_match.
  - by case_match.
Qed.

Lemma run_all_matches {A} u r st (k : mstate -> option A) :
  run u r st k = first_some k (all_matches u r st).
Proof.
  revert A st k; induction r as [|cc|r1 IH1 r2 IH2|r1 IH1 r2 IH2|g r IH|i r IH|a];
    intros A st k; simpl.
  - by case_match.
  - destruct (ms_rest st); [done|]. destruct (class_matches _ _ _); simpl; [|done]. by destruct (k _).
  - rewrite IH1, first_some_bind. apply first_some_ext. intros. apply IH2.
  - rewrite IH1, IH2, first_some_app. done.
  - apply run_star_all. intros. apply IH.
  - rewrite IH, first_some_fmap. done.
  - destruct (assertion_holds _ _ _); simpl; [|done]. by destruct (k _).
Qed.

Lemma first_some_head {A B} (f : A -> B) l :
  first_some (fun x => Some (f x)) l = f <$> head l.
Proof. by destruct l. Qed.

Lemma leftmost_ext t1 t2 s i :
  (forall st, t1 st = t2 st) -> leftmost t1 s i = leftmost t2 s i.
Proof.
  intros E. unfold leftmost. generalize (match i with O => None | S k => s !! k end).
  generalize i at 2 4. generalize (drop i s) as rest.
  induction rest as [|c rest IH]; intros; simpl; rewrite E; case_match; auto.
Qed.

Definition backtrack (u : unicode) (rx : regex) (s : str) (at_ : nat) : option captures :=
  leftmost (fun st => run u (rx_re rx) st (fun st' => Some (whole (ms_pos st) st'))) s at_.

Lemma backtrack_leftmost_first u rx s i : backtrack u rx s i = leftmost_first u rx s i.
Proof.
  apply leftmost_ext. intros st. by rewrite run_all_matches, first_some_head.
Qed.

(** The engine whose [\w] and [\d] know no character above ASCII. *)
Definition ascii_tables : unicode :=
  {| uni_word := fun _ => false; uni_digit := fun _ => false |}.

Definition reference_captures_at (p s : str) (i : nat) : option captures :=
  match parse_regex p with Some rx => backtrack ascii_tables rx s i | None => None end.

Lemma reference_captures_at_spec p rx s i :
  parse_regex p = Some rx ->
  reference_captures_at p s i = leftmost_first ascii_tables rx s i.
Proof. unfold reference_captures_at. intros ->. apply backtrack_leftmost_first. Qed.

Definition reference_engine : RegexEngine :=
  {| re_captures_at_spec := reference_captures_at_spec |}.

#[local] Existing Instance reference_engine.

Example ex_regex :
  replace_all (lit "(?i)\s+OFFSET\s+(?:0|NULL)\b(?:\s+ROWS?\b)?") []
    (lit "SELECT 1 LIMIT 5 offset 0 rows") = lit "SELECT 1 LIMIT 5".
Proof. vm_compute. reflexivity. Qed.
Example ex_regex_group :
  replace_all (lit "`([A-Za-z_][A-Za-z0-9_]*)`\s*\.\s*`([A-Za-z_][A-Za-z0-9_]*)`") (lit "$1.$2")
    (lit "from `a`.`b` x, `c` . `d`") = lit "from a.b x, c.d".
Proof. vm_compute. reflexivity. Qed.
