(* ===== verification/RegexLemmas.v ===== *)
(** * When a pattern cannot match

    Every match of an expression consumes its mandatory runs: stretches of
    consecutive characters that no alternative and no repetition can avoid.  A text
    in which such a run does not occur is left alone by the program's
    replacements, which is how statements are shown to pass through unchanged. *)

From S2P Require Import Prelude RustStr Regex.
#[local] Open Scope nat_scope.

#[export] Instance class_item_eq_dec : EqDecision class_item.
Proof. solve_decision. Defined.
#[export] Instance char_class_eq_dec : EqDecision char_class.
Proof. solve_decision. Defined.

(** The run every match starts with, and whether the expression is only that. *)
Fixpoint first_run (r : re) : list char_class * bool :=
  match r with
  | REps | RAssert _ => ([], true)
  | RSet c => ([c], true)
  | RSeq r1 r2 =>
      let '(l1, e1) := first_run r1 in
      if e1 then let '(l2, e2) := first_run r2 in (l1 ++ l2, e2) else (l1, false)
  | RGroup _ r => first_run r
  | RAlt _ _ | RStar _ _ => ([], false)
  end.

(** Some run on every way through the expression satisfies [p]. *)
Fixpoint must (p : list char_class -> bool) (r : re) : bool :=
  p (first_run r).1
  || match r with
     | RSeq r1 r2 => must p r1 || must p r2
     | RAlt r1 r2 => must p r1 && must p r2
     | RGroup _ r => must p r
     | _ => false
     end.

(** Every match starts at the beginning of the text. *)
Fixpoint anchored (r : re) : bool :=
  match r with
  | RAssert AStart => true
  | RSeq r1 _ => anchored r1
  | RAlt r1 r2 => anchored r1 && anchored r2
  | RGroup _ r => anchored r
  | _ => false
  end.

Fixpoint run_at (u : unicode) (l : list char_class) (s : str) : bool :=
  match l, s with
  | [], _ => true
  | cc :: l', c :: s' => class_matches u cc c && run_at u l' s'
  | _ :: _, [] => false
  end.

Section sound.
Context (u : unicode).

Lemma run_at_app l1 l2 s :
  run_at u (l1 ++ l2) s = run_at u l1 s && run_at u l2 (drop (length l1) s).
Proof.
  revert s; induction l1 as [|c l1 IH]; intros [|d s]; simpl; try done.
  by rewrite IH, andb_assoc.
Qed.

Lemma run_at_prefix l1 l2 s : l1 `prefix_of` l2 -> run_at u l2 s = true -> run_at u l1 s = true.
Proof. intros [k ->]. rewrite run_at_app. by intros [? _]%andb_true_iff. Qed.

Lemma in_bind {A B} (f : A -> list B) l y : In y (l ≫= f) -> exists x, In x l /\ In y (f x).
Proof.
  intros Hx%list_elem_of_In. apply list_elem_of_bind in Hx as (x & Hx & Hy).
  exists x. rewrite <- !list_elem_of_In. done.
Qed.

(** A match leaves a rest of the text. *)
Lemma star_suffix (P : str -> str -> Prop) g f n st st' :
  (forall s, P s s) -> (forall a b c, P a b -> P b c -> P a c) ->
  (forall s s', In s' (f s) -> P (ms_rest s) (ms_rest s')) ->
  In st' (star_all g f n st) -> P (ms_rest st) (ms_rest st').
Proof.
  intros Hr Ht Hf. revert st st'; induction n as [|n IH]; intros st st'.
  { destruct g; simpl; intros Hin; destruct Hin as [<- | []]; auto. }
  assert (Hm : forall x, In x (f st ≫= (fun st' =>
      if ms_pos st' =? ms_pos st then [] else star_all g f n st')) ->
      P (ms_rest st) (ms_rest x)).
  { intros x (y & Hy & Hx)%in_bind. case_match; [done|]. eauto. }
  destruct g; cbn [star_all]; intros Hin.
  - apply in_app_iff in Hin as [Hin | [<- | []]]; auto.
  - destruct Hin as [<- | Hin]; auto.
Qed.

Definition suffix_ (a b : str) : Prop := exists p, a = p ++ b.

Lemma match_suffix r st st' : In st' (all_matches u r st) -> suffix_ (ms_rest st) (ms_rest st').
Proof.
  assert (Ht : forall a b c, suffix_ a b -> suffix_ b c -> suffix_ a c).
  { intros a b c [p ->] [q ->]. exists (p ++ q). by rewrite app_assoc. }
  assert (Hr : forall s, suffix_ s s) by (intros s; by exists []).
  revert st st'; induction r as [|cc|r1 IH1 r2 IH2|r1 IH1 r2 IH2|g r IH|i r IH|a];
    intros st st'; cbn [all_matches].
  - intros [<- | []]; auto.
  - destruct (ms_rest st) as [|c s]; [done|]. case_match; [|done].
    intros [<- | []]. by exists [c].
  - intros (x & Hx & Hy)%in_bind. eauto.
  - intros [Hin|Hin]%in_app_iff; eauto.
  - apply star_suffix; auto.
  - intros Hin. apply in_map_iff in Hin as (x & <- & Hx). cbn. auto.
  - case_match; [|done]. intros [<- | []]; auto.
Qed.

Lemma first_run_sound r st st' :
  In st' (all_matches u r st) ->
  run_at u (first_run r).1 (ms_rest st) = true
  /\ ((first_run r).2 = true -> ms_rest st' = drop (length (first_run r).1) (ms_rest st)).
Proof.
  revert st st'; induction r as [|cc|r1 IH1 r2 IH2|r1 IH1 r2 IH2|g r IH|i r IH|a];
    intros st st'; cbn [all_matches first_run].
  - intros [<- | []]; auto.
  - destruct (ms_rest st) as [|c s] eqn:E; [done|].
    destruct (class_matches u cc c) eqn:Ec; [|done].
    intros [<- | []]. cbn. by rewrite Ec.
  - intros (x & Hx & Hy)%in_bind.
    apply IH1 in Hx as [H1 E1]. destruct (first_run r1) as [l1 []]; cbn in *.
    + apply IH2 in Hy as [H2 E2]. rewrite E1 in H2, E2 by done.
      destruct (first_run r2) as [l2 e2]; cbn in *. split.
      * by rewrite run_at_app, H1, H2.
      * intros He. by rewrite E2, drop_drop, length_app by done.
    + done.
  - done.
  - done.
  - intros Hin. apply in_map_iff in Hin as (x & <- & Hx). cbn. by apply IH.
  - case_match; [|done]. intros [<- | []]; auto.
Qed.

Lemma must_sound p r st st' :
  must p r = true -> In st' (all_matches u r st) ->
  exists l k, p l = true /\ run_at u l (drop k (ms_rest st)) = true.
Proof.
  assert (Hfirst : forall r st st', p (first_run r).1 = true -> In st' (all_matches u r st) ->
    exists l k, p l = true /\ run_at u l (drop k (ms_rest st)) = true).
  { intros r0 s0 s0' Hm Hin. exists (first_run r0).1, 0. split; [exact Hm|].
    rewrite drop_0. apply (first_run_sound _ _ _ Hin). }
  revert st st'; induction r as [|cc|r1 IH1 r2 IH2|r1 IH1 r2 IH2|g r IH|i r IH|a];
    intros st st' Hm Hin; cbn [must] in Hm; apply orb_true_iff in Hm as [Hm|Hm];
    try (by eapply Hfirst); try done.
  - cbn [all_matches] in Hin. apply in_bind in Hin as (x & Hx & Hy).
    apply orb_true_iff in Hm as [Hm|Hm].
    + eauto.
    + destruct (IH2 _ _ Hm Hy) as (l & k & Hp & Hrun).
      destruct (match_suffix _ _ _ Hx) as [q Hq].
      exists l, (length q + k). split; [done|].
      by rewrite Hq, <- drop_drop, drop_app_length.
  - cbn [all_matches] in Hin. apply andb_true_iff in Hm as [Hm1 Hm2].
    apply in_app_iff in Hin as [Hin|Hin]; eauto.
  - cbn [all_matches] in Hin. apply in_map_iff in Hin as (x & _ & Hx). eauto.
Qed.

Lemma anchored_sound r st st' :
  anchored r = true -> In st' (all_matches u r st) -> ms_prev st = None.
Proof.
  revert st st'; induction r as [|cc|r1 IH1 r2 IH2|r1 IH1 r2 IH2|g r IH|i r IH|a];
    intros st st' Ha Hin; cbn [anchored] in Ha; try done; cbn [all_matches] in Hin.
  - apply in_bind in Hin as (x & Hx & _). eauto.
  - apply andb_true_iff in Ha as [Ha1 Ha2]. apply in_app_iff in Hin as [Hin|Hin]; eauto.
  - apply in_map_iff in Hin as (x & _ & Hx). eauto.
  - destruct a; try done. cbn in Hin. by destruct (ms_prev st).
Qed.

(** A successful search gives a matching state. *)
Lemma leftmost_go_some try rest prev pos cs :
  leftmost_go try rest prev pos = Some cs ->
  exists st, try st = Some cs /\ suffix_ rest (ms_rest st)
    /\ (ms_prev st = None -> prev = None /\ ms_rest st = rest).
Proof.
  revert prev pos; induction rest as [|c rest IH]; intros prev pos; cbn [leftmost_go].
  - case_match; [|done]. intros [= <-]. eexists; split_and!; [done|by exists []|done].
  - case_match; [intros [= <-]; eexists; split_and!; [done|by exists []|done]|].
    intros Hg. apply IH in Hg as (st & Ht & [p Hp] & Hn). exists st.
    split_and!; [done|exists (c :: p); by rewrite Hp|]. intros Hnone. by apply Hn in Hnone as [? _].
Qed.

Lemma leftmost_first_some rx s i cs :
  leftmost_first u rx s i = Some cs ->
  exists st st', In st' (all_matches u (rx_re rx) st)
    /\ suffix_ (drop i s) (ms_rest st)
    /\ (ms_prev st = None -> ms_rest st = drop i s).
Proof.
  intros Hl. apply leftmost_go_some in Hl as (st & Ht & Hs & Hn).
  apply fmap_Some in Ht as (st' & Hh & _). exists st, st'. split_and!; [|done|].
  - destruct (all_matches u (rx_re rx) st); [done|]. injection Hh as ->. by left.
  - intros Hnone. by apply Hn.
Qed.
End sound.

Section no_match.
Context `{RegexEngine}.

(** No run that every match needs occurs in the text: no search finds a match. *)
Lemma must_no_match pat rx p s i :
  parse_regex pat = Some rx -> must p (rx_re rx) = true ->
  (forall l k, p l = true -> run_at re_unicode l (drop k s) = false) ->
  re_captures_at pat s i = None.
Proof.
  intros Hp Hm Hno. rewrite (re_captures_at_spec _ _ _ _ Hp).
  destruct (leftmost_first _ _ _ _) as [cs|] eqn:E; [|done].
  apply leftmost_first_some in E as (st & st' & Hin & [q Hq] & _).
  destruct (must_sound _ _ _ _ _ Hm Hin) as (l & k & Hpl & Hrun).
  assert (Hd : drop (i + length q + k) s = drop k (ms_rest st)).
  { by rewrite <- !drop_drop, Hq, drop_app_length. }
  by rewrite <- Hd, Hno in Hrun.
Qed.

Lemma no_match_replace pat f s :
  (forall i, re_captures_at pat s i = None) -> replace_all_with pat f s = s.
Proof.
  intros Hno. unfold replace_all_with, captures_iter.
  rewrite Nat.add_comm. cbn [Nat.add captures_iter_go]. rewrite Hno.
  case_match; by rewrite ?drop_0.
Qed.

Lemma no_match_is_match pat s :
  (forall i, re_captures_at pat s i = None) -> is_match pat s = false.
Proof. intros Hno. unfold is_match, captures_of. by rewrite Hno. Qed.

(** An anchored pattern only matches a text that starts with its first run. *)
Lemma anchored_no_match pat rx s :
  parse_regex pat = Some rx -> anchored (rx_re rx) = true ->
  run_at re_unicode (first_run (rx_re rx)).1 s = false ->
  captures_of pat s = None.
Proof.
  intros Hp Ha Hno. unfold captures_of. rewrite (re_captures_at_spec _ _ _ _ Hp).
  destruct (leftmost_first _ _ _ _) as [cs|] eqn:E; [|done].
  apply leftmost_first_some in E as (st & st' & Hin & _ & Hn).
  pose proof (first_run_sound _ _ _ _ Hin) as [Hrun _].
  rewrite Hn, drop_0 in Hrun by by eapply anchored_sound. congruence.
Qed.
End no_match.

(** ** Literal words under [(?i)] on ASCII text *)

Definition folded (c : char) : char_class :=
  {| cc_negated := false; cc_fold := true; cc_items := [CRange c c] |}.
Definition exactly (c : char) : char_class :=
  {| cc_negated := false; cc_fold := false; cc_items := [CRange c c] |}.

Definition is_ascii (s : str) : Prop := Forall (fun c => (c < 128)%N) s.

Lemma class_exactly u c d : class_matches u (exactly c) d = true -> d = c.
Proof. unfold class_matches, exactly; cbn. rewrite orb_false_r, andb_true_iff, !N.leb_le. lia. Qed.

Lemma class_folded u c d :
  (c < 128)%N -> (d < 128)%N ->
  class_matches u (folded c) d = true -> char_to_ascii_lowercase d = char_to_ascii_lowercase c.
Proof.
  intros Hc Hd.
  assert (Hall : forallb (fun x => forallb (fun y =>
      implb (class_matches u (folded x) y)
            (char_to_ascii_lowercase y =? char_to_ascii_lowercase x)%N)
      (N.of_nat <$> seq 0 128)) (N.of_nat <$> seq 0 128) = true) by (vm_compute; reflexivity).
  rewrite forallb_forall in Hall.
  assert (Hin : forall x, (x < 128)%N -> In x (N.of_nat <$> seq 0 128)).
  { intros x Hx. apply in_map_iff. exists (N.to_nat x). split; [lia|]. apply in_seq. lia. }
  specialize (Hall c (Hin c Hc)). rewrite forallb_forall in Hall.
  specialize (Hall d (Hin d Hd)). intros Hm. rewrite Hm in Hall.
  apply N.eqb_eq. exact Hall.
Qed.

(** A run of folded letters at [s] is the word, up to case. *)
Lemma run_at_folded u w s :
  is_ascii w -> is_ascii s -> run_at u (folded <$> w) s = true ->
  starts_with (to_ascii_lowercase w) (to_ascii_lowercase s) = true.
Proof.
  intros Hw. revert s; induction Hw as [|c w Hc Hw IH]; intros s Hs; [done|].
  destruct s as [|d s]; [done|]. cbn [fmap list_fmap run_at].
  inversion Hs as [|? ? Hd Hs']; subst. intros [Hm Hr]%andb_true_iff.
  cbn. rewrite (class_folded u c d) by done.
  by rewrite N.eqb_refl, IH.
Qed.

Lemma is_ascii_drop k s : is_ascii s -> is_ascii (drop k s).
Proof. apply Forall_drop. Qed.

Section other_word.
Context `{RegexEngine}.

(** A pattern that only matches a text that starts with the word [w], up to case. *)
Definition starts_word (w pat : str) : bool :=
  match parse_regex pat with
  | Some rx => anchored (rx_re rx)
               && bool_decide (folded <$> w `prefix_of` (first_run (rx_re rx)).1)
  | None => false
  end.

Lemma other_verb w pat s :
  is_ascii w -> is_ascii s -> starts_word w pat = true ->
  starts_with (to_ascii_lowercase w) (to_ascii_lowercase s) = false -> captures_of pat s = None.
Proof.
  intros Hw Hs Hp Hno. unfold starts_word in Hp. destruct (parse_regex pat) as [rx|] eqn:E; [|done].
  apply andb_true_iff in Hp as [Ha Hp%bool_decide_eq_true].
  apply (anchored_no_match pat rx s E Ha).
  destruct (run_at re_unicode (first_run (rx_re rx)).1 s) eqn:Er; [|done].
  apply (run_at_prefix _ _ _ _ Hp), run_at_folded in Er; [congruence|done|done].
Qed.

Lemma other_verb_match w pat s :
  is_ascii w -> is_ascii s -> starts_word w pat = true ->
  starts_with (to_ascii_lowercase w) (to_ascii_lowercase s) = false -> is_match pat s = false.
Proof. intros. unfold is_match. by rewrite (other_verb w). Qed.

(** A pattern whose matches start with a character other than [c]. *)
Definition refuses (c : char) (pat : str) : bool :=
  match parse_regex pat with
  | Some rx => anchored (rx_re rx)
               && match (first_run (rx_re rx)).1 with
                  | cc :: _ => negb (class_matches re_unicode cc c)
                  | [] => false
                  end
  | None => false
  end.

Lemma other_letter c pat s : refuses c pat = true -> captures_of pat (c :: s) = None.
Proof.
  unfold refuses. destruct (parse_regex pat) as [rx|] eqn:E; [|done].
  intros [Ha Hc]%andb_true_iff. apply (anchored_no_match pat rx _ E Ha).
  destruct (first_run (rx_re rx)).1 as [|cc l]; [done|]. cbn. by apply negb_true_iff in Hc as ->.
Qed.
End other_word.
