(* ===== verification/RegexMatches.v ===== *)
(** * What a pattern captures

    The preferred match of an expression on a text whose shape is known: literal
    characters, runs of digits, groups.  With RegexLemmas.v, which shows when a
    pattern cannot match, it determines what the program reads from a text. *)

From Stdlib Require Import ZifyN ZifyBool.
From S2P Require Import Prelude RustStr RustInt Regex RegexLemmas.
#[local] Open Scope nat_scope.

(** Parts that several patterns have: white space, names. *)
Definition space : re := class_of (CSpace false).
Definition spaces : re := RPlus true space.
Definition folded_class (items : list class_item) : char_class :=
  {| cc_negated := false; cc_fold := true; cc_items := items |}.
Definition name_first : char_class :=
  folded_class [CRange 65 90; CRange 97 122; CRange 95 95].
Definition name_next : char_class :=
  folded_class [CRange 65 90; CRange 97 122; CRange 48 57; CRange 95 95].

Section matches.
Context (u : unicode).

(** The match that is preferred from a state. *)
Definition first_match (r : re) (st : mstate) : option mstate := head (all_matches u r st).

(** The state after a run of the text. *)
Definition ms_run (run rest : str) (st : mstate) : mstate :=
  {| ms_prev := match list.last run with Some c => Some c | None => ms_prev st end;
     ms_rest := rest; ms_pos := ms_pos st + length run; ms_caps := ms_caps st |}.

Lemma ms_run_cons c run rest st :
  ms_run run rest (ms_advance st c (run ++ rest)) = ms_run (c :: run) rest st.
Proof.
  unfold ms_run, ms_advance. cbn. f_equal; [|lia].
  destruct run as [|d run]; [done|].
  change (list.last (c :: d :: run)) with (list.last (d :: run)).
  destruct (list.last (d :: run)) eqn:E; [done|]. by apply last_None in E.
Qed.

Lemma first_eps st : first_match REps st = Some st.
Proof. done. Qed.

Lemma first_seq r1 r2 st st1 st2 :
  first_match r1 st = Some st1 -> first_match r2 st1 = Some st2 ->
  first_match (RSeq r1 r2) st = Some st2.
Proof.
  unfold first_match. cbn [all_matches]. destruct (all_matches u r1 st) as [|x l]; [done|].
  cbn. intros [= ->]. by destruct (all_matches u r2 st1).
Qed.

Lemma first_set cc st c rest :
  ms_rest st = c :: rest -> class_matches u cc c = true ->
  first_match (RSet cc) st = Some (ms_advance st c rest).
Proof. intros Hr Hc. unfold first_match. cbn. by rewrite Hr, Hc. Qed.

Lemma first_group i r st st' :
  first_match r st = Some st' ->
  first_match (RGroup i r) st = Some (ms_close i (ms_pos st) st').
Proof.
  unfold first_match. cbn [all_matches]. destruct (all_matches u r st); [done|]. by intros [= ->].
Qed.

Lemma first_alt_l r1 r2 st st' :
  first_match r1 st = Some st' -> first_match (RAlt r1 r2) st = Some st'.
Proof. unfold first_match. cbn [all_matches]. by destruct (all_matches u r1 st). Qed.

Lemma first_alt_r r1 r2 st :
  all_matches u r1 st = [] -> first_match (RAlt r1 r2) st = first_match r2 st.
Proof. unfold first_match. cbn [all_matches]. by intros ->. Qed.

Lemma first_assert a st : assertion_holds u a st = true -> first_match (RAssert a) st = Some st.
Proof. unfold first_match. cbn. by intros ->. Qed.

(** A greedy repetition takes the whole run. *)
Lemma first_star cc run rest st :
  ms_rest st = run ++ rest -> Forall (fun c => class_matches u cc c = true) run ->
  match rest with c :: _ => class_matches u cc c = false | [] => True end ->
  first_match (RStar true (RSet cc)) st = Some (ms_run run rest st).
Proof.
  intros Hr Hrun Hrest. unfold first_match. cbn [all_matches].
  assert (Hn : length run <= length (ms_rest st)) by (rewrite Hr, length_app; lia).
  revert Hn. generalize (length (ms_rest st)) as n. revert st Hr.
  induction Hrun as [|c run Hc _ IH]; intros st Hr n Hn.
  - assert (Hst : ms_run [] rest st = st).
    { unfold ms_run. cbn. destruct st; cbn in *. by rewrite Hr, Nat.add_0_r. }
    rewrite Hst. destruct n as [|n]; cbn [star_all]; [done|].
    cbn [app] in Hr. rewrite Hr. destruct rest as [|d rest]; [done|]. by rewrite Hrest.
  - destruct n as [|n]; [cbn in Hn; lia|]. cbn [star_all]. rewrite Hr. cbn [app].
    rewrite Hc. cbn [mbind list_bind app]. rewrite app_nil_r.
    rewrite (proj2 (Nat.eqb_neq _ _)) by (unfold ms_advance; cbn; lia).
    specialize (IH (ms_advance st c (run ++ rest)) eq_refl n ltac:(cbn in Hn; lia)).
    rewrite ms_run_cons in IH.
    by destruct (star_all true _ n (ms_advance st c (run ++ rest))).
Qed.

Lemma first_plus cc run rest st :
  run <> [] -> ms_rest st = run ++ rest -> Forall (fun c => class_matches u cc c = true) run ->
  match rest with c :: _ => class_matches u cc c = false | [] => True end ->
  first_match (RPlus true (RSet cc)) st = Some (ms_run run rest st).
Proof.
  intros Hne Hr Hrun Hrest. destruct run as [|c run]; [done|].
  inversion Hrun as [|? ? Hc Hrun']; subst. rewrite <- ms_run_cons.
  eapply first_seq; [by eapply first_set|]. by apply first_star.
Qed.

(** A single character of a repetition, with the way back. *)
Lemma star_single cc c rest st :
  ms_rest st = c :: rest -> class_matches u cc c = true ->
  match rest with d :: _ => class_matches u cc d = false | [] => True end ->
  all_matches u (RStar true (RSet cc)) st = [ms_advance st c rest; st].
Proof.
  intros Hr Hc Hd. cbn [all_matches]. rewrite Hr. cbn [length star_all]. rewrite Hr, Hc.
  cbn [mbind list_bind app]. rewrite (proj2 (Nat.eqb_neq _ _)) by (unfold ms_advance; cbn; lia).
  rewrite app_nil_r. destruct rest as [|d rest]; [done|].
  cbn [length star_all ms_advance ms_rest]. by rewrite Hd.
Qed.

(** A repetition that cannot start, and one that is taken once. *)
Lemma star_none r st :
  all_matches u r st = [] -> first_match (RStar true r) st = Some st.
Proof.
  intros Hr. unfold first_match. cbn [all_matches]. destruct (length (ms_rest st)) as [|n]; [done|].
  cbn [star_all]. by rewrite Hr.
Qed.

Lemma star_once r st st1 :
  ms_rest st <> [] -> first_match r st = Some st1 -> ms_pos st1 <> ms_pos st ->
  all_matches u r st1 = [] -> first_match (RStar true r) st = Some st1.
Proof.
  unfold first_match. intros Hne Hr Hp Hno. cbn [all_matches].
  destruct (ms_rest st) as [|c rest]; [done|]. cbn [length star_all].
  destruct (all_matches u r st) as [|x l]; [done|]. injection Hr as ->.
  cbn [mbind list_bind]. rewrite (proj2 (Nat.eqb_neq _ _)) by done.
  destruct (length rest); cbn [star_all]; [done|]. by rewrite Hno.
Qed.

(** The first way through the first part that the second part can follow. *)
Lemma first_seq_back r1 r2 st st1 st2 l :
  all_matches u r1 st = st1 :: st2 :: l -> all_matches u r2 st1 = [] ->
  forall st', first_match r2 st2 = Some st' -> first_match (RSeq r1 r2) st = Some st'.
Proof.
  unfold first_match. intros H1 Hno st' H2. cbn [all_matches]. rewrite H1. cbn [mbind list_bind].
  rewrite Hno. by destruct (all_matches u r2 st2).
Qed.

(** A literal under [(?i)], before the rest of a sequence. *)
Definition literal (w : str) (r : re) : re :=
  fold_right (fun c r => RSeq (RSet (folded c)) r) r w.

Lemma folded_self c : class_matches u (folded c) c = true.
Proof.
  unfold class_matches, folded. cbn [cc_negated cc_fold cc_items xorb]. apply existsb_exists.
  exists c. split.
  - unfold case_orbit. destruct ((c =? 75) || (c =? 107) || (c =? 8490))%N eqn:E1; [cbn; lia|].
    destruct ((c =? 83) || (c =? 115) || (c =? 383))%N eqn:E2; [cbn; lia|].
    by repeat case_match; left.
  - cbn. rewrite !N.leb_refl. done.
Qed.

Lemma first_literal w r rest st st' :
  ms_rest st = w ++ rest -> first_match r (ms_run w rest st) = Some st' ->
  first_match (literal w r) st = Some st'.
Proof.
  revert st. induction w as [|c w IH]; intros st Hr Hm.
  - cbn. unfold ms_run in Hm. cbn in Hm. rewrite Nat.add_0_r in Hm. destruct st; cbn in *. by subst.
  - cbn [literal fold_right]. eapply first_seq.
    { eapply first_set; [exact Hr|apply folded_self]. }
    apply IH; [done|]. by rewrite ms_run_cons.
Qed.

Lemma literal_none w c r d rest st :
  head w = Some c -> ms_rest st = d :: rest -> class_matches u (folded c) d = false ->
  all_matches u (literal w r) st = [].
Proof.
  destruct w as [|x w]; [done|]. intros [= ->] Hr Hd.
  cbn [literal fold_right all_matches]. by rewrite Hr, Hd.
Qed.

Lemma digits_class run :
  Forall (fun c => is_ascii_digit c = true) run ->
  Forall (fun c => class_matches u {| cc_negated := false; cc_fold := false; cc_items := [CDigit] |} c
                   = true) run.
Proof.
  intros Hd. eapply list.Forall_impl; [exact Hd|]. intros c Hc. unfold class_matches. cbn.
  unfold is_digit. assert (Hl : (c <? 128)%N = true) by (unfold is_ascii_digit in Hc; lia).
  by rewrite Hl, Hc.
Qed.
End matches.

Lemma slice_middle pre part post a b :
  a = length pre -> b = a + length part -> slice a b (pre ++ part ++ post) = part.
Proof.
  intros -> ->. unfold slice. rewrite drop_app_length.
  replace (_ + _ - _) with (length part) by lia. apply take_app_length.
Qed.

(** The groups of a text whose first match starts at its beginning. *)
Lemma captures_first `{RegexEngine} pat rx s st' :
  parse_regex pat = Some rx ->
  first_match re_unicode (rx_re rx)
    {| ms_prev := None; ms_rest := s; ms_pos := 0; ms_caps := [] |} = Some st' ->
  captures_of pat s = Some (whole 0 st').
Proof.
  intros Hp Hm. unfold captures_of. rewrite (re_captures_at_spec _ _ _ _ Hp).
  unfold leftmost_first, leftmost. rewrite drop_0.
  destruct s; cbn [leftmost_go]; unfold first_match in Hm; by rewrite Hm.
Qed.

(** ** Parts that match in one way only

    The ways through such a part, followed by [r], are the ways through [r] after it. *)

Lemma take_while_split p s :
  Forall (fun c => p c = true) (take_while p s)
  /\ match drop (length (take_while p s)) s with c :: _ => p c = false | [] => True end
  /\ take_while p s ++ drop (length (take_while p s)) s = s.
Proof.
  induction s as [|c s (IH1 & IH2 & IH3)]; [done|]. cbn [take_while].
  destruct (p c) eqn:E; cbn [length drop app].
  - split_and!; [by constructor|done|by rewrite IH3].
  - by split_and!.
Qed.

(** Two tests agree on ASCII characters when they agree on each of the 128. *)
Lemma ascii_agree (p q : char -> bool) :
  forallb (fun c => eqb (p c) (q c)) (N.of_nat <$> seq 0 128) = true ->
  forall c, (c < 128)%N -> p c = q c.
Proof.
  rewrite forallb_forall. intros Hall c Hc. apply eqb_prop, Hall.
  apply in_map_iff. exists (N.to_nat c). split; [lia|]. apply in_seq. lia.
Qed.

Lemma take_while_app p a b :
  Forall (fun c => p c = true) a -> take_while p (a ++ b) = a ++ take_while p b.
Proof. induction 1 as [|c a Hc _ IH]; [done|]. cbn. by rewrite Hc, IH. Qed.

Lemma Forall_last {A} (P : A -> Prop) l x : Forall P l -> list.last l = Some x -> P x.
Proof.
  intros Hl (k & ->)%last_Some. apply Forall_app in Hl as [_ Hx]. by inversion Hx.
Qed.

(** The characters of a name, up to case, are characters of a name. *)
Lemma same_letters_name a b :
  is_ascii a -> Forall (fun c => is_name_char c = true) b -> eq_ignore_ascii_case a b = true ->
  Forall (fun c => is_name_char c = true) a.
Proof.
  unfold eq_ignore_ascii_case. intros Ha. revert b; induction Ha as [|c a Hc _ IH]; intros b Hb E; [done|].
  destruct b as [|d b]; [done|]. inversion Hb as [|? ? Hd Hb']; subst.
  cbn [to_ascii_lowercase fmap list_fmap str_eqb] in E. apply andb_true_iff in E as [E1 E2].
  constructor; [|by eapply IH]. apply N.eqb_eq in E1. revert E1 Hd.
  unfold char_to_ascii_lowercase, is_name_char, is_ascii_alphanumeric, is_ascii_uppercase,
    is_ascii_lowercase, is_ascii_digit.
  repeat case_match; lia.
Qed.

Lemma word_at_ascii u o :
  match o with Some c => (c < 128)%N | None => True end ->
  word_at u o = match o with Some c => is_name_char c | None => false end.
Proof.
  destruct o as [c|]; [|done]. intros Hc. cbn. unfold is_word.
  by rewrite (proj2 (N.ltb_lt _ _) Hc).
Qed.

Lemma head_ascii s : is_ascii s -> match head s with Some c => (c < 128)%N | None => True end.
Proof. by destruct 1. Qed.

Lemma char_equal_fold (u : unicode) c d :
  (c < 128)%N -> (d < 128)%N ->
  class_matches u (folded c) d = (char_to_ascii_lowercase d =? char_to_ascii_lowercase c)%N.
Proof.
  intros Hc. revert d. apply (ascii_agree (class_matches u (folded c))).
  revert c Hc. apply (ascii_agree _ (fun _ => true)). vm_compute. reflexivity.
Qed.

Lemma name_first_ascii u c :
  (c < 128)%N -> class_matches u name_first c = is_name_char c && negb (is_ascii_digit c).
Proof. revert c. apply ascii_agree. vm_compute. reflexivity. Qed.

Lemma name_next_ascii u c : (c < 128)%N -> class_matches u name_next c = is_name_char c.
Proof. revert c. apply ascii_agree. vm_compute. reflexivity. Qed.

Lemma space_not_name u c : is_whitespace c = true -> class_matches u name_first c = false.
Proof.
  intros Hc. unfold class_matches. cbn [name_first folded_class cc_negated cc_fold cc_items xorb].
  unfold case_orbit, is_ascii_uppercase, is_ascii_lowercase. unfold is_whitespace in Hc.
  repeat (case_match; try lia). cbn. lia.
Qed.

Lemma bind_assoc {A B C} (l : list A) (f : A -> list B) (g : B -> list C) :
  (l ≫= f) ≫= g = l ≫= (fun x => f x ≫= g).
Proof. induction l as [|x l IH]; [done|]. by rewrite !bind_cons, bind_app, IH. Qed.

Section one_way.
Context (u : unicode).

Lemma assert_then a r st :
  all_matches u (RSeq (RAssert a) r) st
  = if assertion_holds u a st then all_matches u r st else [].
Proof. cbn [all_matches]. case_match; [|done]. by rewrite bind_singleton. Qed.

Lemma set_then cc r st :
  all_matches u (RSeq (RSet cc) r) st
  = match ms_rest st with
    | c :: rest => if class_matches u cc c then all_matches u r (ms_advance st c rest) else []
    | [] => []
    end.
Proof.
  cbn [all_matches]. destruct (ms_rest st); [done|]. case_match; [|done].
  by rewrite bind_singleton.
Qed.

Lemma seq_assoc r1 r2 r st :
  all_matches u (RSeq (RSeq r1 r2) r) st = all_matches u (RSeq r1 (RSeq r2 r)) st.
Proof. cbn [all_matches]. apply bind_assoc. Qed.

(** A word in any case. *)
Lemma literal_then w r st :
  is_ascii w -> is_ascii (ms_rest st) ->
  all_matches u (literal w r) st
  = if eq_ignore_ascii_case (take (length w) (ms_rest st)) w
    then all_matches u r (ms_run (take (length w) (ms_rest st)) (drop (length w) (ms_rest st)) st)
    else [].
Proof.
  intros Hw. revert st; induction Hw as [|c w Hc Hw IH]; intros st Hs.
  - cbn. f_equal. unfold ms_run. cbn. rewrite Nat.add_0_r. by destruct st.
  - cbn [literal fold_right]. rewrite set_then. destruct (ms_rest st) as [|d s] eqn:Er; [done|].
    inversion Hs as [|? ? Hd Hs']; subst. rewrite char_equal_fold by done.
    unfold eq_ignore_ascii_case. cbn [length take drop to_ascii_lowercase fmap list_fmap str_eqb].
    fold (literal w r). rewrite IH by done. unfold eq_ignore_ascii_case, to_ascii_lowercase.
    cbn [ms_advance ms_rest]. destruct (_ =? _)%N; [|done]. cbn [andb].
    destruct (str_eqb _ _); [|done]. f_equal.
    rewrite <- ms_run_cons. by rewrite take_drop.
Qed.

(** A run of a class, when what follows cannot start with the class. *)
Lemma star_then cc r run rest st :
  ms_rest st = run ++ rest -> Forall (fun c => class_matches u cc c = true) run ->
  match rest with c :: _ => class_matches u cc c = false | [] => True end ->
  (forall st' c s, ms_rest st' = c :: s -> class_matches u cc c = true ->
     all_matches u r st' = []) ->
  all_matches u (RSeq (RStar true (RSet cc)) r) st = all_matches u r (ms_run run rest st).
Proof.
  intros Hr Hrun Hrest Hno. cbn [all_matches].
  assert (Hn : length run <= length (ms_rest st)) by (rewrite Hr, length_app; lia).
  revert Hn. generalize (length (ms_rest st)) as n. revert st Hr.
  induction Hrun as [|c run Hc _ IH]; intros st Hr n Hn.
  - assert (Hst : ms_run [] rest st = st).
    { unfold ms_run. cbn. destruct st; cbn in *. by rewrite Hr, Nat.add_0_r. }
    rewrite Hst. destruct n as [|n]; cbn [star_all app]; rewrite ?bind_singleton; [done|].
    cbn [app] in Hr. rewrite Hr. destruct rest as [|d rest]; [apply bind_singleton|].
    rewrite Hrest. apply bind_singleton.
  - destruct n as [|n]; [cbn in Hn; lia|]. cbn [star_all]. rewrite Hr. cbn [app].
    rewrite Hc, bind_singleton.
    rewrite (proj2 (Nat.eqb_neq _ _)) by (unfold ms_advance; cbn; lia).
    rewrite bind_app, bind_singleton, (Hno st c (run ++ rest) Hr Hc), app_nil_r.
    rewrite <- ms_run_cons. apply IH; [done|]. cbn in Hn. lia.
Qed.

(** White space, when what follows cannot start with it. *)
Lemma spaces_then r st :
  (forall st' c s, ms_rest st' = c :: s -> is_whitespace c = true -> all_matches u r st' = []) ->
  all_matches u (RSeq spaces r) st
  = let gap := take_while is_whitespace (ms_rest st) in
    match gap with
    | [] => []
    | _ => all_matches u r (ms_run gap (drop (length gap) (ms_rest st)) st)
    end.
Proof.
  intros Hno. unfold spaces, RPlus. rewrite seq_assoc. unfold space, class_of. rewrite set_then.
  destruct (take_while_split is_whitespace (ms_rest st)) as (Hg & Hd & Hs).
  destruct (ms_rest st) as [|c rest]; [done|]. cbn [take_while] in *.
  unfold class_matches at 1. cbn [cc_negated cc_fold cc_items existsb item_matches xorb].
  rewrite orb_false_r. destruct (is_whitespace c) eqn:Ec; [|done].
  cbn [length drop app] in *. inversion Hg; subst. injection Hs as Hs. cbn zeta.
  rewrite <- ms_run_cons, Hs.
  assert (Hcl : forall x, class_matches u
            {| cc_negated := false; cc_fold := false; cc_items := [CSpace false] |} x
            = is_whitespace x).
  { intros x. unfold class_matches. cbn. by rewrite orb_false_r; destruct (is_whitespace x). }
  apply star_then; [by rewrite Hs| | |].
  - eapply list.Forall_impl; [eassumption|]. intros x. by rewrite Hcl.
  - destruct (drop _ rest); [done|]. by rewrite Hcl.
  - intros st' x s Hx. rewrite Hcl. by apply (Hno st' x s).
Qed.

Lemma literal_app w1 w2 r : literal (w1 ++ w2) r = literal w1 (literal w2 r).
Proof. apply fold_right_app. Qed.

Lemma literal_seq w r st :
  all_matches u (RSeq (literal w REps) r) st = all_matches u (literal w r) st.
Proof.
  revert st; induction w as [|c w IH]; intros st.
  - cbn. apply bind_singleton.
  - cbn [literal fold_right]. rewrite seq_assoc, !set_then. by repeat case_match.
Qed.

Lemma alt_then r1 r2 r st :
  all_matches u (RSeq (RAlt r1 r2) r) st
  = all_matches u (RSeq r1 r) st ++ all_matches u (RSeq r2 r) st.
Proof. apply bind_app. Qed.

Lemma space_not_char c d :
  is_whitespace c = true -> is_whitespace d = false -> class_matches u (folded d) c = false.
Proof.
  intros Hc Hd. unfold class_matches. cbn [folded cc_negated cc_fold cc_items xorb existsb item_matches].
  assert (c <> d) by congruence. unfold case_orbit, is_ascii_uppercase, is_ascii_lowercase.
  unfold is_whitespace in Hc. repeat (case_match; try lia). cbn. lia.
Qed.

Lemma literal_space w r d c s st :
  head w = Some d -> is_whitespace d = false -> ms_rest st = c :: s -> is_whitespace c = true ->
  all_matches u (literal w r) st = [].
Proof. intros Hw Hd Hs Hc. eapply literal_none; [done..|]. by apply space_not_char. Qed.

(** A word that ends at a boundary: the whole run of name characters. *)
Lemma word_then w r st :
  w <> [] -> is_ascii w -> Forall (fun c => is_name_char c = true) w -> is_ascii (ms_rest st) ->
  let word := take_while is_name_char (ms_rest st) in
  all_matches u (literal w (RSeq (RAssert AWordBoundary) r)) st
  = if eq_ignore_ascii_case word w
    then all_matches u r (ms_run word (drop (length word) (ms_rest st)) st) else [].
Proof.
  intros Hne Hw Hn Ha word. rewrite literal_then by done. set (s := ms_rest st) in *.
  destruct (take_while_split is_name_char s) as (Hword & _ & Hs). fold word in Hword, Hs.
  destruct (eq_ignore_ascii_case (take (length w) s) w) eqn:E.
  - pose proof (eq_ignore_length _ _ E) as Hl. set (h := take (length w) s) in *.
    set (t := drop (length w) s). assert (Hst : s = h ++ t) by (symmetry; apply take_drop).
    assert (Hh : Forall (fun c => is_name_char c = true) h).
    { apply (same_letters_name h w); [by apply Forall_take|done..]. }
    rewrite assert_then. cbn [assertion_holds ms_run ms_prev ms_rest].
    destruct (list.last h) as [c|] eqn:El; [|apply last_None in El; by destruct w, h].
    rewrite !word_at_ascii;
      [|by apply head_ascii, Forall_drop
       |by apply (Forall_last (fun c => (c < 128)%N) h); [apply Forall_take|]].
    assert (Hc : is_name_char c = true) by (by apply (Forall_last (fun c => is_name_char c = true) h)).
    rewrite Hc. assert (Hwd : word = h ++ take_while is_name_char t).
    { unfold word. by rewrite Hst, take_while_app. }
    destruct t as [|d t0] eqn:Et; cbn [head xorb negb].
    + rewrite Hwd. cbn [take_while]. rewrite !app_nil_r, E, Hl. by rewrite <- Et.
    + cbn [take_while] in Hwd. destruct (is_name_char d); cbn [xorb].
      * destruct (eq_ignore_ascii_case word w) eqn:E2; [|done].
        apply eq_ignore_length in E2. rewrite Hwd, length_app in E2. cbn in E2. lia.
      * rewrite Hwd, app_nil_r, E, Hl. by rewrite <- Et.
  - destruct (eq_ignore_ascii_case word w) eqn:E2; [|done].
    pose proof (eq_ignore_length _ _ E2) as Hl. rewrite <- Hs, <- Hl, take_app_length in E. congruence.
Qed.
End one_way.
