(* ===== verification/RegexReplace.v ===== *)
(** * Replacing matches as a scan

    [Regex::replace_all] searches, cuts and joins.  For a pattern whose matches at a
    position can be told from the text there, it is one pass over the text: [scan] with
    the step that recognises a match.  The lemmas below the scan say when a pattern
    matches at a position, for patterns that cannot be matched in two ways. *)

From S2P Require Import Prelude RustStr Regex RegexLemmas RegexMatches.
#[local] Open Scope nat_scope.

(** ** The scan *)

Section scan.
(** From the character before and the text, how much is replaced, and by what. *)
Variable step : option char -> str -> option (nat * str).

Fixpoint scan (skip : nat) (prev : option char) (s : str) : str :=
  match s with
  | [] => []
  | c :: s' =>
      match skip with
      | S k => scan k (Some c) s'
      | O =>
          match step prev s with
          | Some (S k, out) => out ++ scan k (Some c) s'
          | _ => c :: scan 0 (Some c) s'
          end
      end
  end.

Definition before (s : str) (i : nat) : option char :=
  match i with O => None | S k => s !! k end.

Lemma drop_at (s : str) i : i < length s -> exists c, s !! i = Some c /\ drop i s = c :: drop (S i) s.
Proof. intros [c Hc]%lookup_lt_is_Some_2. exists c. split; [done|]. by apply drop_S. Qed.

Lemma scan_skip s k i :
  i + k <= length s -> scan k (before s i) (drop i s) = scan 0 (before s (i + k)) (drop (i + k) s).
Proof.
  revert i; induction k as [|k IH]; intros i Hi; [by rewrite Nat.add_0_r|].
  destruct (drop_at s i) as (c & Hc & ->); [lia|]. cbn [scan].
  rewrite <- Hc. change (s !! i) with (before s (S i)).
  rewrite IH by lia. by rewrite Nat.add_succ_comm.
Qed.

Section replaced.
Context `{RegexEngine}.
Variables (pat : str) (rx : regex) (f : captures -> str) (s : str).
Hypothesis Hrx : parse_regex pat = Some rx.

Definition state_at (i : nat) : mstate :=
  {| ms_prev := before s i; ms_rest := drop i s; ms_pos := i; ms_caps := [] |}.

(** The step tells at every position what is matched there and what replaces it. *)
Hypothesis Hstep : forall i, i <= length s ->
  match step (before s i) (drop i s) with
  | Some (k, out) => 0 < k /\ i + k <= length s /\
      exists st', first_match re_unicode (rx_re rx) (state_at i) = Some st'
        /\ ms_pos st' = i + k /\ f (whole i st') = out
  | None => first_match re_unicode (rx_re rx) (state_at i) = None
  end.

Lemma leftmost_scan i :
  i <= length s ->
  match leftmost_first re_unicode rx s i with
  | None => scan 0 (before s i) (drop i s) = drop i s
  | Some cs => exists a b, cap_span cs 0 = Some (a, b) /\ i <= a < b /\ b <= length s
      /\ scan 0 (before s i) (drop i s)
         = slice i a s ++ f cs ++ scan 0 (before s b) (drop b s)
  end.
Proof.
  unfold leftmost_first, leftmost. fold (before s i).
  remember (length s - i) as n eqn:En. revert i En; induction n as [|n IH]; intros i En Hi.
  - pose proof (Hstep i Hi) as Hs. assert (i = length s) as -> by lia.
    rewrite drop_all in *. cbn [leftmost_go scan].
    destruct (step _ _) as [[k out]|]; [lia|].
    unfold first_match, state_at in Hs. rewrite drop_all in Hs. by rewrite Hs.
  - pose proof (Hstep i Hi) as Hs. unfold first_match, state_at in Hs.
    destruct (drop_at s i) as (c & Hc & Hd); [lia|]. rewrite Hd in *. cbn [leftmost_go scan].
    destruct (step _ _) as [[k out]|].
    + destruct Hs as (Hk & Hlen & st' & -> & Hp & Hf). cbn [fmap option_fmap option_map].
      exists i, (i + k). destruct k as [|k]; [lia|]. cbn [ms_pos].
      split_and!; [by rewrite <- Hp|lia|lia|lia|].
      unfold slice. rewrite Nat.sub_diag, take_0, Hf. cbn [app]. f_equal.
      rewrite <- Hc. change (s !! i) with (before s (S i)).
      rewrite scan_skip by lia. by rewrite Nat.add_succ_comm.
    + rewrite Hs. cbn [fmap option_fmap option_map]. rewrite <- Hc.
      change (s !! i) with (before s (S i)). specialize (IH (S i) ltac:(lia) ltac:(lia)).
      destruct (leftmost_go _ _ _ _) as [cs|]; [|by rewrite IH].
      destruct IH as (a & b & Hab & Hia & Hb & ->). exists a, b. split_and!; [done|lia|lia|lia|].
      unfold slice. replace (a - i) with (S (a - S i)) by lia. by rewrite Hd.
Qed.

Lemma replaced_go fuel i o :
  i <= length s -> length s - i < fuel ->
  replace_spans f s i (captures_iter_go fuel pat s i o) = scan 0 (before s i) (drop i s).
Proof.
  revert i o; induction fuel as [|fuel IH]; intros i o Hi Hf; [lia|]. cbn [captures_iter_go].
  rewrite (proj2 (Nat.ltb_ge _ _)) by lia. rewrite (re_captures_at_spec _ _ _ _ Hrx).
  pose proof (leftmost_scan i Hi) as Hl. destruct (leftmost_first _ _ _ _) as [cs|]; [|by rewrite Hl].
  destruct Hl as (a & b & Hab & Hia & Hb & ->). rewrite Hab.
  rewrite (proj2 (Nat.eqb_neq a b)) by lia. cbn [andb replace_spans]. rewrite Hab.
  by rewrite IH by lia.
Qed.

Lemma replace_scan : replace_all_with pat f s = scan 0 None s.
Proof.
  unfold replace_all_with, captures_iter.
  pose proof (replaced_go (2 * length s + 2) 0 None ltac:(lia) ltac:(lia)) as Hg.
  by rewrite drop_0 in Hg.
Qed.
End replaced.
End scan.
