(* ===== verification/Arrow.v ===== *)
(** * Arrow record batches and JSON values

    Two library data types the program handles without owning them.

    The Arrow types of a field are the constructors of [arrow]'s [DataType] that
    the program names.  A record batch is abstract ([ArrowLib]): the program only
    asks for its schema, columns and number of rows, slices it, takes rows by
    index from each column and builds a batch from columns; the laws are the
    documented behaviour of those calls.  [list_arrow] is a concrete instance.
    A JSON value ([serde_json::Value]) is the usual sum type. *)

From S2P Require Import Prelude RustStr RustInt.
#[local] Open Scope nat_scope.

(** ** Schemas *)

Inductive DataType :=
| DtBoolean
| DtInt8 | DtInt16 | DtInt32 | DtInt64
| DtUInt8 | DtUInt16 | DtUInt32 | DtUInt64
| DtFloat32 | DtFloat64
| DtDecimal128 (precision scale : Z)
| DtDecimal256 (precision scale : Z)
| DtDate32 | DtDate64
| DtTimestamp (tz : option str)
| DtUtf8 | DtLargeUtf8
| DtOther (name : str).

Record Field := {
  field_name : str;
  field_data_type : DataType;
  field_metadata : gmap str str }.

Definition Schema : Type := list Field.
Definition Schema_empty : Schema := [].

(** ** Record batches *)

(** The row positions [0 .. n-1], last first: [(0..n).rev()]. *)
Definition rev_range (n : nat) : list nat := rev (seq 0 n).

Class ArrowLib := {
  RecordBatch : Type;
  ArrayRef : Type;
  (** A value of an array, its rendering by [ArrayFormatter] (or the error of the
      formatter), and the error of building the formatter of an array, if any. *)
  cell : Type;
  cell_text : cell -> str + str;
  formatter_error : ArrayRef -> option str;
  array_cells : ArrayRef -> list (option cell);
  array_type : ArrayRef -> DataType;
  (** [as_primitive::<Int64Type>().value(i)] of a value of an [Int64] array. *)
  cell_i64 : cell -> Z;
  batch_schema : RecordBatch -> Schema;
  batch_columns : RecordBatch -> list ArrayRef;
  num_rows : RecordBatch -> nat;
  batch_slice : RecordBatch -> nat -> nat -> RecordBatch;
  batch_new_empty : Schema -> RecordBatch;
  (** [arrow::compute::take] and [RecordBatch::try_new]. *)
  compute_take : ArrayRef -> list nat -> option ArrayRef;
  batch_try_new : Schema -> list ArrayRef -> option RecordBatch;

  batch_columns_length b :
    Forall (fun c => length (array_cells c) = num_rows b) (batch_columns b);
  new_empty_rows sc : num_rows (batch_new_empty sc) = 0;
  new_empty_schema sc : batch_schema (batch_new_empty sc) = sc;
  slice_rows b off len :
    off + len <= num_rows b -> num_rows (batch_slice b off len) = len;
  slice_schema b off len : batch_schema (batch_slice b off len) = batch_schema b;
  slice_columns b off len :
    off + len <= num_rows b ->
    array_cells <$> batch_columns (batch_slice b off len)
    = (fun c => take len (drop off (array_cells c))) <$> batch_columns b;
  take_cells c idx :
    Forall (fun i => i < length (array_cells c)) idx ->
    exists c', compute_take c idx = Some c'
               /\ array_cells c' = (fun i => mjoin (array_cells c !! i)) <$> idx;
  try_new_taken b idx cols :
    batch_columns b <> [] ->
    Forall2 (fun c c' => compute_take c idx = Some c') (batch_columns b) cols ->
    exists b', batch_try_new (batch_schema b) cols = Some b'
               /\ batch_columns b' = cols
               /\ num_rows b' = length idx
               /\ batch_schema b' = batch_schema b }.

Section rows.
Context `{ArrowLib}.

(** The rows of a batch, as lists of nullable values. *)
Definition row_at (b : RecordBatch) (i : nat) : list (option cell) :=
  (fun c => mjoin (c !! i)) <$> (array_cells <$> batch_columns b).
Definition batch_rows (b : RecordBatch) : list (list (option cell)) :=
  row_at b <$> seq 0 (num_rows b).
Definition batches_rows (bs : list RecordBatch) : list (list (option cell)) :=
  bs ≫= batch_rows.

Lemma length_batch_rows b : length (batch_rows b) = num_rows b.
Proof. unfold batch_rows. by rewrite length_fmap, length_seq. Qed.

Lemma batches_rows_cons b bs :
  batches_rows (b :: bs) = batch_rows b ++ batches_rows bs.
Proof. done. Qed.

Lemma batches_rows_app bs1 bs2 :
  batches_rows (bs1 ++ bs2) = batches_rows bs1 ++ batches_rows bs2.
Proof. apply bind_app. Qed.

Lemma batch_rows_slice b off len :
  off + len <= num_rows b ->
  batch_rows (batch_slice b off len) = take len (drop off (batch_rows b)).
Proof.
  intros Hb. unfold batch_rows. rewrite slice_rows by done.
  rewrite <- fmap_drop, <- fmap_take.
  replace (take len (drop off (seq 0 (num_rows b)))) with (seq off len).
  2: { apply list_eq; intros i. destruct (decide (i < len)).
       - rewrite lookup_take_lt, lookup_drop, !lookup_seq_lt by lia. f_equal; lia.
       - rewrite lookup_take_ge, lookup_seq_ge by lia. done. }
  apply list_eq; intros i. rewrite !list_lookup_fmap.
  destruct (decide (i < len)) as [Hi|Hi].
  2: { by rewrite !lookup_seq_ge by lia. }
  rewrite !lookup_seq_lt by lia. simpl. f_equal. unfold row_at.
  rewrite slice_columns by done. rewrite <- !list_fmap_compose.
  apply list_fmap_ext. intros ? c _. simpl.
  by rewrite lookup_take_lt, lookup_drop by done.
Qed.
End rows.

Section take_rows.
Context `{ArrowLib}.

Lemma take_columns cols idx n :
  Forall (fun c => length (array_cells c) = n) cols ->
  Forall (fun i => i < n) idx ->
  exists cols', Forall2 (fun c c' => compute_take c idx = Some c') cols cols'
    /\ array_cells <$> cols'
       = (fun c => (fun i => mjoin (array_cells c !! i)) <$> idx) <$> cols.
Proof.
  intros Hcols Hidx. induction Hcols as [|c cols Hc _ (cols' & Hf & He)].
  { exists []; auto. }
  destruct (take_cells c idx) as (c' & Ht & Hcells); [by rewrite Hc|].
  exists (c' :: cols'). csimpl. split; [by constructor | by rewrite Hcells, He].
Qed.

(** Taking rows by index from every column takes them from the batch. *)
Lemma take_batch_rows b idx :
  batch_columns b <> [] ->
  Forall (fun i => i < num_rows b) idx ->
  exists cols b', Forall2 (fun c c' => compute_take c idx = Some c') (batch_columns b) cols
    /\ batch_try_new (batch_schema b) cols = Some b'
    /\ batch_schema b' = batch_schema b
    /\ batch_rows b' = row_at b <$> idx.
Proof.
  intros Hne Hidx.
  destruct (take_columns (batch_columns b) idx (num_rows b)) as (cols & Hf & He);
    [apply batch_columns_length | done |].
  destruct (try_new_taken b idx cols) as (b' & Hb & Hc & Hn & Hs); [done..|].
  exists cols, b'. split_and!; [done..|].
  unfold batch_rows. rewrite Hn.
  apply list_eq; intros j. rewrite !list_lookup_fmap.
  destruct (idx !! j) as [i|] eqn:Ej; simpl.
  - rewrite lookup_seq_lt by (by eapply lookup_lt_Some). simpl. f_equal.
    unfold row_at. rewrite Hc, He, <- !list_fmap_compose.
    apply list_fmap_ext. intros ? c _. simpl.
    rewrite list_lookup_fmap, Ej. done.
  - apply lookup_ge_None in Ej. by rewrite lookup_seq_ge.
Qed.

Lemma rev_range_lt n : Forall (fun i => i < n) (rev_range n).
Proof.
  apply Forall_forall. intros i Hi. unfold rev_range in Hi.
  rewrite <- in_rev, in_seq in Hi. lia.
Qed.

Lemma rows_rev_range b : row_at b <$> rev_range (num_rows b) = rev (batch_rows b).
Proof.
  unfold batch_rows, rev_range. rewrite !rev_reverse. apply fmap_reverse.
Qed.
End take_rows.

(** ** A concrete instance: columns of optional texts *)

Record list_array := { la_type : DataType; la_cells : list (option str) }.

Record list_batch := {
  lb_schema : Schema;
  lb_columns : list list_array;
  lb_rows : nat;
  lb_ok : forallb (fun c => length (la_cells c) =? lb_rows) lb_columns = true }.

Lemma forallb_length cols n :
  forallb (fun c => length (la_cells c) =? n) cols = true
  <-> Forall (fun c => length (la_cells c) = n) cols.
Proof.
  rewrite forallb_forall, Forall_forall.
  by setoid_rewrite Nat.eqb_eq.
Qed.

Definition la_slice (off len : nat) (c : list_array) : list_array :=
  {| la_type := la_type c; la_cells := take len (drop off (la_cells c)) |}.

Program Definition lb_slice (b : list_batch) (off len : nat) : list_batch :=
  {| lb_schema := lb_schema b; lb_columns := la_slice off len <$> lb_columns b;
     lb_rows := len `min` (lb_rows b - off) |}.
Next Obligation.
  intros b off len. apply forallb_length, Forall_fmap.
  eapply list.Forall_impl; [apply (proj1 (forallb_length _ _) (lb_ok b))|].
  intros c Hc. unfold compose, la_slice; cbn in *.
  by rewrite length_take, length_drop, Hc.
Qed.

Program Definition lb_empty (sc : Schema) : list_batch :=
  {| lb_schema := sc; lb_columns := (fun f => {| la_type := field_data_type f; la_cells := [] |}) <$> sc;
     lb_rows := 0 |}.
Next Obligation.
  intros sc. apply forallb_length, Forall_fmap. by apply Forall_true.
Qed.

Definition la_take (c : list_array) (idx : list nat) : option list_array :=
  if forallb (fun i => i <? length (la_cells c)) idx
  then Some {| la_type := la_type c; la_cells := (fun i => mjoin (la_cells c !! i)) <$> idx |}
  else None.

Definition lb_try_new (sc : Schema) (cols : list list_array) : option list_batch :=
  match cols with
  | [] => None
  | c0 :: _ =>
      let n := length (la_cells c0) in
      match Bool.bool_dec (forallb (fun c => length (la_cells c) =? n) cols) true with
      | left ok => Some {| lb_schema := sc; lb_columns := cols; lb_rows := n; lb_ok := ok |}
      | right _ => None
      end
  end.

Lemma la_take_cells c idx :
  Forall (fun i => i < length (la_cells c)) idx ->
  exists c', la_take c idx = Some c'
             /\ la_cells c' = (fun i => mjoin (la_cells c !! i)) <$> idx.
Proof.
  intros Hidx. unfold la_take. eexists. rewrite (proj2 (forallb_forall _ _)); [done|].
  intros i Hi. apply Nat.ltb_lt. rewrite Forall_forall in Hidx.
  by apply Hidx.
Qed.

Lemma la_take_length c idx c' : la_take c idx = Some c' -> length (la_cells c') = length idx.
Proof. unfold la_take. intros H. cases. apply length_fmap. Qed.

Lemma lb_try_new_taken (b : list_batch) idx cols :
  lb_columns b <> [] ->
  Forall2 (fun c c' => la_take c idx = Some c') (lb_columns b) cols ->
  exists b', lb_try_new (lb_schema b) cols = Some b'
             /\ lb_columns b' = cols /\ lb_rows b' = length idx
             /\ lb_schema b' = lb_schema b.
Proof.
  intros Hne Hf.
  assert (Hl : Forall (fun c => length (la_cells c) = length idx) cols).
  { clear Hne. induction Hf; constructor; eauto using la_take_length. }
  destruct Hf as [|c0 c0' cs cs' Hc0 Hf]; [done|].
  pose proof (la_take_length _ _ _ Hc0) as Hn. unfold lb_try_new.
  destruct (bool_dec _ _) as [ok|Hno]; [by eexists|].
  destruct Hno. apply forallb_length. by rewrite Hn.
Qed.

Definition list_arrow : ArrowLib.
Proof.
  refine {| RecordBatch := list_batch; ArrayRef := list_array; cell := str;
            cell_text := inl; formatter_error := fun _ => None; array_cells := la_cells; array_type := la_type;
            cell_i64 := fun c => default 0%Z (parse_i64 c);
            batch_schema := lb_schema; batch_columns := lb_columns; num_rows := lb_rows;
            batch_slice := lb_slice; batch_new_empty := lb_empty;
            compute_take := la_take; batch_try_new := lb_try_new |}.
  - intros b. apply forallb_length, lb_ok.
  - done.
  - done.
  - intros b off len Hb. simpl. lia.
  - done.
  - intros b off len _. simpl. by rewrite <- !list_fmap_compose.
  - apply la_take_cells.
  - apply lb_try_new_taken.
Defined.

(** ** JSON values *)

#[warnings="-register-all"]
Inductive json :=
| JNull
| JBool (b : bool)
| JInt (z : Z)               (* a number without fraction *)
| JFloat (shown : str)       (* any other number, with its rendering *)
| JString (s : str)
| JArray (l : list json)
| JObject (o : list (str * json)).

Definition json_as_str (v : json) : option str :=
  match v with JString s => Some s | _ => None end.
Definition json_as_array (v : json) : option (list json) :=
  match v with JArray l => Some l | _ => None end.
Definition json_as_i64 (v : json) : option Z :=
  match v with
  | JInt z => if ((i64_min <=? z) && (z <=? i64_max))%Z then Some z else None
  | _ => None
  end.
Definition json_as_u64 (v : json) : option Z :=
  match v with
  | JInt z => if ((0 <=? z) && (z <=? u64_max))%Z then Some z else None
  | _ => None
  end.
(** [Value::get] with a key. *)
Definition json_get (k : str) (v : json) : option json :=
  match v with
  | JObject o => snd <$> List.find (fun p => str_eqb (fst p) k) o
  | _ => None
  end.

(** [Value::pointer]: object keys and array indices, the latter without sign or
    leading zero. *)
Definition array_index (t : str) : option nat :=
  match t with
  | 43%N :: _ => None
  | 48%N :: _ :: _ => None
  | _ => Z.to_nat <$> parse_usize t
  end.
Fixpoint json_pointer (tokens : list str) (v : json) : option json :=
  match tokens with
  | [] => Some v
  | t :: tokens' =>
      match v with
      | JObject _ => json_get t v ≫= json_pointer tokens'
      | JArray l => (i ← array_index t; l !! i) ≫= json_pointer tokens'
      | _ => None
      end
  end.

(** [Value::to_string] of a value that is neither text, boolean nor number, and
    [serde_json::from_str]. *)
Class JsonLib := {
  json_render : json -> str;
  json_parse : str -> option json }.
