(* ===== verification/Plan.v ===== *)
(** * Statement plans

    The data types of src/src/policy.rs that the classifier produces and the
    session consumes, and the errors sent to the PostgreSQL client. *)

From S2P Require Import Prelude RustStr RustInt.

Inductive RowCountPolicy := Include | Omit.

Inductive CursorDirection :=
| Next
| Prior
| First
| Last
| Absolute (target : Z)
| Relative (offset : Z)
| Forward (count : option Z)
| Backward (count : option Z)
| All
| Count (count : Z).

Record CursorDeclare := {
  declare_name : str;
  declare_query : str;
  declare_scroll : bool;
  declare_hold : bool }.

Record CursorPosition := {
  position_name : str;
  position_direction : CursorDirection }.

Inductive CursorClose :=
| CloseOne (name : str)
| CloseAll.

Inductive CursorPlan :=
| PlanDeclare (d : CursorDeclare)
| PlanFetch (p : CursorPosition)
| PlanMove (p : CursorPosition)
| PlanClose (c : CursorClose).

Inductive StatementPlan :=
| Execute (command : str) (row_count : RowCountPolicy)
| ClientSet
| SetSearchPath (schema : str)
| ShowSearchPath
| ClientTransactionStart
| ClientTransactionEnd (command : str)
| ClientShow (name value : str)
| ClientSelect (columns : list str) (rows : list (list (option str)))
| BackendPid (column : str)
| Cursor (plan : CursorPlan)
| Empty
| Reject (sqlstate message : str).

(** [StatementPlan::is_cursor_unsafe_query]. *)
Definition is_cursor_unsafe_query (p : StatementPlan) : bool :=
  match p with
  | Execute command _ => negb (str_eqb command (lit "SELECT"))
  | _ => true
  end.

#[export] Instance RowCountPolicy_eq_dec : EqDecision RowCountPolicy.
Proof. solve_decision. Defined.
#[export] Instance CursorDirection_eq_dec : EqDecision CursorDirection.
Proof. solve_decision. Defined.
#[export] Instance CursorDeclare_eq_dec : EqDecision CursorDeclare.
Proof. solve_decision. Defined.
#[export] Instance CursorPosition_eq_dec : EqDecision CursorPosition.
Proof. solve_decision. Defined.
#[export] Instance CursorClose_eq_dec : EqDecision CursorClose.
Proof. solve_decision. Defined.
#[export] Instance CursorPlan_eq_dec : EqDecision CursorPlan.
Proof. solve_decision. Defined.
#[export] Instance StatementPlan_eq_dec : EqDecision StatementPlan.
Proof. solve_decision. Defined.

(** ** Errors sent to the client ([pg_error]: a [UserError] with its SQLSTATE) *)
Record PgError := { err_sqlstate : str; err_message : str }.
Definition pg_error (sqlstate : string) (message : str) : PgError :=
  {| err_sqlstate := lit sqlstate; err_message := message |}.

(** The program's indices and positions ([isize]) fit the integers it converts
    them to. *)
Definition direction_ok (d : CursorDirection) : Prop :=
  match d with
  | Absolute n | Relative n | Count n => is_i64 n
  | Forward (Some n) | Backward (Some n) => is_i64 n
  | _ => True
  end.
