(* ===== verification/Config.v ===== *)
(** * Configuration (src/src/config.rs)

    The TOML parser is a library ([TomlLib]); what serde does with the parsed
    table (required fields, the defaults named by the attributes, type
    mismatches as errors) is written out, since the attributes are the program's. *)

From S2P Require Import Prelude RustStr RustInt.

Definition DEFAULT_TRANSPORT : str := lit "arrow".

#[warnings="-register-all"]
Inductive toml :=
| TString (s : str)
| TBool (b : bool)
| TInt (z : Z)
| TArray (l : list toml)
| TTable (t : list (str * toml))
| TOther.

Class TomlLib := toml_parse : str -> option (list (str * toml)).

Inductive ConfigError :=
| ReadError
| TomlError
| InvalidConfig (message : str).

Inductive Transport := WebSocket | Arrow.

Record ServerConfig := {
  listen_host : str;
  listen_port : Z;
  log_level : str;
  tls_cert_path : str;
  tls_key_path : str }.

Record ExasolConfig := {
  dsn : str;
  encryption : bool;
  certificate_fingerprint : str;
  validate_certificate : bool;
  pass_client_credentials : bool;
  schema : str;
  transport : str }.

Record TranslationConfig := {
  enabled : bool;
  sql_preprocessor_script : str;
  session_init_sql : list str }.

Record AppConfig := {
  server : ServerConfig;
  exasol : ExasolConfig;
  translation : TranslationConfig }.

Definition default_listen_host : str := lit "127.0.0.1".
Definition default_listen_port : Z := 15432.
Definition default_log_level : str := lit "info".

Definition ServerConfig_default : ServerConfig :=
  {| listen_host := default_listen_host; listen_port := default_listen_port;
     log_level := default_log_level; tls_cert_path := []; tls_key_path := [] |}.
Definition TranslationConfig_default : TranslationConfig :=
  {| enabled := true; sql_preprocessor_script := []; session_init_sql := [] |}.

(** ** Deserialisation *)

Definition toml_get (k : string) (t : list (str * toml)) : option toml :=
  snd <$> List.find (fun p => str_eqb (fst p) (lit k)) t.

(** A field with a default: absent gives the default, a value of another type is
    an error. *)
Definition field_or {A} (of_toml : toml -> option A) (d : A) (k : string)
    (t : list (str * toml)) : option A :=
  match toml_get k t with
  | None => Some d
  | Some v => of_toml v
  end.

Definition as_string (v : toml) : option str :=
  match v with TString s => Some s | _ => None end.
Definition as_bool (v : toml) : option bool :=
  match v with TBool b => Some b | _ => None end.
Definition as_u16 (v : toml) : option Z :=
  match v with
  | TInt z => if ((0 <=? z) && (z <=? u16_max))%Z then Some z else None
  | _ => None
  end.
Definition as_strings (v : toml) : option (list str) :=
  match v with TArray l => mapM as_string l | _ => None end.

(** The entries from which the derived code fills the fields of a struct: those of a
    table, or the elements of an array in the order of the fields; surplus elements are
    not looked at.  (A date is the table of one entry as which the parser presents it.) *)
Definition struct_entries (names : list string) (v : toml) : option (list (str * toml)) :=
  match v with
  | TTable t => Some t
  | TArray l => Some (zip (lit <$> names) l)
  | _ => None
  end.

Definition server_of_toml (v : toml) : option ServerConfig :=
  t ← struct_entries ["listen_host"; "listen_port"; "log_level"; "tls_cert_path";
                      "tls_key_path"]%string v;
  h ← field_or as_string default_listen_host "listen_host" t;
  p ← field_or as_u16 default_listen_port "listen_port" t;
  l ← field_or as_string default_log_level "log_level" t;
  c ← field_or as_string [] "tls_cert_path" t;
  k ← field_or as_string [] "tls_key_path" t;
  Some {| listen_host := h; listen_port := p; log_level := l;
          tls_cert_path := c; tls_key_path := k |}.

Definition exasol_of_toml (v : toml) : option ExasolConfig :=
  t ← struct_entries ["dsn"; "encryption"; "certificate_fingerprint"; "validate_certificate";
                      "pass_client_credentials"; "schema"; "transport"]%string v;
  d ← (toml_get "dsn" t ≫= as_string);
  e ← field_or as_bool true "encryption" t;
  f ← field_or as_string [] "certificate_fingerprint" t;
  v ← field_or as_bool true "validate_certificate" t;
  p ← field_or as_bool true "pass_client_credentials" t;
  s ← field_or as_string [] "schema" t;
  tr ← field_or as_string DEFAULT_TRANSPORT "transport" t;
  Some {| dsn := d; encryption := e; certificate_fingerprint := f;
          validate_certificate := v; pass_client_credentials := p;
          schema := s; transport := tr |}.

Definition translation_of_toml (v : toml) : option TranslationConfig :=
  t ← struct_entries ["enabled"; "sql_preprocessor_script"; "session_init_sql"]%string v;
  e ← field_or as_bool true "enabled" t;
  s ← field_or as_string [] "sql_preprocessor_script" t;
  i ← field_or as_strings [] "session_init_sql" t;
  Some {| enabled := e; sql_preprocessor_script := s; session_init_sql := i |}.

Definition app_of_toml (t : list (str * toml)) : option AppConfig :=
  s ← field_or server_of_toml ServerConfig_default "server" t;
  e ← (toml_get "exasol" t ≫= exasol_of_toml);
  tr ← field_or translation_of_toml TranslationConfig_default "translation" t;
  Some {| server := s; exasol := e; translation := tr |}.

Example ex_array_for_struct :
  server_of_toml (TArray [TString (lit "::1"); TInt 5433])
  = Some {| listen_host := lit "::1"; listen_port := 5433; log_level := default_log_level;
            tls_cert_path := []; tls_key_path := [] |}
  /\ exasol_of_toml (TArray []) = None.
Proof. split; reflexivity. Qed.

(** ** Validation *)

(** [Transport::from_config]. *)
Definition from_config (config : ExasolConfig) : outcome ConfigError Transport :=
  let t := transport config in
  if str_eqb t (lit "websocket") then Ok WebSocket
  else if str_eqb t (lit "arrow") then Ok Arrow
  else Err (InvalidConfig (lit "unknown transport '" ++ t
         ++ lit "': accepted values are 'websocket' and 'arrow'")).

Definition is_blank (s : str) : bool :=
  match trim s with [] => true | _ => false end.

(** [AppConfig::from_file]; [content] is what reading the file gives. *)
Definition from_file `{TomlLib} (content : option str) : outcome ConfigError AppConfig :=
  text ← ok_or ReadError content;
  config ← ok_or TomlError (toml_parse text ≫= app_of_toml);
  if is_blank (dsn (exasol config)) then Err (InvalidConfig (lit "exasol.dsn is required"))
  else if negb (Bool.eqb (is_blank (tls_cert_path (server config)))
                         (is_blank (tls_key_path (server config))))
  then Err (InvalidConfig
         (lit "server.tls_cert_path and server.tls_key_path must be set together"))
  else _ ← from_config (exasol config); Ok config.

(** [AppConfig::log_filter]. *)
Definition log_filter (config : AppConfig) : str :=
  lit "exa_postgres_interface=" ++ log_level (server config) ++ lit ",pgwire=info".

(** ** Properties *)

(** What the rest of the program may assume of a loaded configuration. *)
Record valid_config (c : AppConfig) : Prop := {
  vc_dsn : trim (dsn (exasol c)) <> [];
  vc_tls : trim (tls_cert_path (server c)) = [] <-> trim (tls_key_path (server c)) = [];
  vc_transport : transport (exasol c) = lit "websocket"
                 \/ transport (exasol c) = lit "arrow" }.

Lemma is_blank_spec s : is_blank s = true <-> trim s = [].
Proof. unfold is_blank. by destruct (trim s). Qed.

Lemma from_config_total config :
  (exists t, from_config config = Ok t)
  <-> transport config = lit "websocket" \/ transport config = lit "arrow".
Proof.
  unfold from_config.
  destruct (str_eqb_spec (transport config) (lit "websocket")) as [E|N]; [naive_solver|].
  destruct (str_eqb_spec (transport config) (lit "arrow")) as [E|N']; [naive_solver|].
  split; [intros [? [=]] | naive_solver].
Qed.

Lemma from_file_loads `{TomlLib} content c :
  from_file content = Ok c
  <-> exists text, content = Some text
        /\ toml_parse text ≫= app_of_toml = Some c /\ valid_config c.
Proof.
  unfold from_file. destruct content as [text|]; simpl; [|split; naive_solver].
  destruct (toml_parse text ≫= app_of_toml) as [c0|] eqn:E; simpl; [|split; naive_solver].
  destruct (is_blank (dsn (exasol c0))) eqn:Ed.
  { apply is_blank_spec in Ed. split; [done|]. intros (t & [= <-] & ? & []). naive_solver. }
  destruct (Bool.eqb _ _) eqn:Et; simpl.
  2: { apply Bool.eqb_false_iff in Et. split; [done|].
       intros (t & [= <-] & ? & [_ Htls _]). simplify_eq. destruct Et.
       apply Bool.eq_iff_eq_true. by rewrite !is_blank_spec. }
  apply Bool.eqb_prop in Et. pose proof (from_config_total (exasol c0)) as Hc.
  rewrite outcome_bind_Ok. split.
  - intros (t & Hf & [= <-]). exists text. split_and!; [done..|].
    constructor; [by rewrite <- is_blank_spec, Ed | by rewrite <- !is_blank_spec, Et | apply Hc; eauto].
  - intros (t & [= <-] & ? & [_ _ Htr]). simplify_eq. apply Hc in Htr as [tr Htr]. eauto.
Qed.

(** C37: loading a configuration succeeds exactly on a readable file that
    deserialises to a valid configuration, which it returns unchanged. *)
Theorem from_file_valid `{TomlLib} content c :
  from_file content = Ok c
  <-> exists text, content = Some text
        /\ toml_parse text ≫= app_of_toml = Some c /\ valid_config c.
Proof. apply from_file_loads. Qed.

Definition minimal_config : list (str * toml) :=
  [(lit "exasol", TTable [(lit "dsn", TString (lit "127.0.0.1:8563"))])].
#[local] Instance one_file : TomlLib := fun _ => Some minimal_config.

Lemma from_file_valid_witness :
  exists c, from_file (Some []) = Ok c /\ transport (exasol c) = lit "arrow".
Proof.
  eexists. split; [|shelve]. apply from_file_valid. exists [].
  split; [reflexivity|]. split; [reflexivity|]. constructor.
  - discriminate.
  - done.
  - right. reflexivity.
  Unshelve. reflexivity.
Defined.
