(* ===== verification/Exasol.v ===== *)
(** * Exasol sessions (src/src/exasol/mod.rs, src/src/exasol/arrow_transport.rs)

    The outcome of a statement, the transport interface, and the endpoint that is
    read out of a DSN. *)

From S2P Require Import Prelude RustStr RustInt Arrow Plan Config.

(** [ExasolError], with its [Display] text. *)
Inductive ExasolError :=
| InvalidDsn (m : str)
| Connection (m : str)
| Authentication (m : str)
| Request (m : str)
| Execution (m : str).
Definition ExasolError_to_string (e : ExasolError) : str :=
  match e with
  | InvalidDsn m => lit "invalid Exasol DSN: " ++ m
  | Connection m => lit "Exasol connection failed: " ++ m
  | Authentication m => lit "Exasol authentication failed: " ++ m
  | Request m => lit "Exasol request failed: " ++ m
  | Execution m => lit "Exasol execution failed: " ++ m
  end.

Record ExasolColumn := { column_name : str; column_data_type : json }.

Inductive ExasolOutcome `{ArrowLib} :=
| ArrowRows (batches : list RecordBatch)
| TypedRows (columns : list ExasolColumn) (rows : list (list (option str)))
| RowCount (n : Z).

(** ** Endpoints *)

Record EndpointConnection := { host : str; port : Z; fingerprint : option str }.

Definition NOCERTCHECK : str := lit "NOCERTCHECK".

(** [EndpointConnection::parse].  [split(',').next()] never fails. *)
Definition endpoint_parse (dsn : str) (config : ExasolConfig)
    : outcome ExasolError EndpointConnection :=
  first ← ok_or (InvalidDsn dsn) (trim <$> head (split_char 44 dsn));
  '(host_and_fingerprint, port) ← ok_or (InvalidDsn dsn) (rsplit_once 58 first);
  let '(host, dsn_fingerprint) :=
    match split_once 47 host_and_fingerprint with
    | Some (host, fingerprint) => (host, Some fingerprint)
    | None => (host_and_fingerprint, None)
    end in
  let fingerprint :=
    if negb (is_blank (certificate_fingerprint config))
    then Some (to_ascii_uppercase (trim (certificate_fingerprint config)))
    else match dsn_fingerprint with
         | Some fingerprint => Some (to_ascii_uppercase fingerprint)
         | None => if negb (validate_certificate config) then Some NOCERTCHECK else None
         end in
  port ← ok_or (InvalidDsn dsn) (parse_u16 port);
  Ok {| host := host; port := port; fingerprint := fingerprint |}.

(** What [EndpointConnection::to_connection_params] asks of the driver's
    [ConnectionBuilder]; the last call, [build], is the driver's. *)
Record ConnectionParams := {
  params_host : str;
  params_port : Z;
  params_username : str;
  params_password : str;
  params_use_tls : bool;
  params_validate_server_certificate : bool;
  params_certificate_fingerprint : option str;
  params_schema : option str }.

Definition to_connection_params (e : EndpointConnection) (config : ExasolConfig)
    (username password : str) : ConnectionParams :=
  let '(validate_cert, pin_fingerprint) :=
    match fingerprint e with
    | Some fp => if str_eqb fp NOCERTCHECK then (false, None)
                 else (validate_certificate config, Some fp)
    | None => (validate_certificate config, None)
    end in
  {| params_host := host e; params_port := port e;
     params_username := username; params_password := password;
     params_use_tls := encryption config;
     params_validate_server_certificate := validate_cert;
     params_certificate_fingerprint := pin_fingerprint;
     params_schema := match schema config with [] => None | s => Some s end |}.

(** The endpoint of a DSN keeps the operator's TLS policy: a fingerprint of the
    configuration wins over the DSN's, no fingerprint at all means that certificates
    are validated, and the port is a 16-bit number. *)
Theorem endpoint_fingerprint dsn config e :
  endpoint_parse dsn config = Ok e ->
  (trim (certificate_fingerprint config) <> [] ->
     fingerprint e = Some (to_ascii_uppercase (trim (certificate_fingerprint config))))
  /\ (fingerprint e = None -> validate_certificate config = true)
  /\ (0 <= port e <= u16_max)%Z.
Proof.
  unfold endpoint_parse. intros H.
  apply outcome_bind_Ok in H as (f & _ & H).
  apply outcome_bind_Ok in H as ([hf p] & _ & H).
  destruct (match split_once 47 hf with Some _ => _ | None => _ end) as [h df].
  apply outcome_bind_Ok in H as (pt & Hp & [= <-]). cbn [fingerprint port].
  split_and!.
  - intros Hne. rewrite <- is_blank_spec in Hne.
    apply not_true_is_false in Hne. by rewrite Hne.
  - intros Hn. case_match; [done|]. destruct df; [done|].
    by destruct (validate_certificate config).
  - destruct (parse_u16 p) as [q|] eqn:Eq; [|done]. injection Hp as <-.
    eapply (parse_int_range false 0 u16_max), Eq.
  - destruct (parse_u16 p) as [q|] eqn:Eq; [|done]. injection Hp as <-.
    eapply (parse_int_range false 0 u16_max), Eq.
Qed.

(** ** Arrow transport *)

Section arrow_transport.
Context `{ArrowLib}.

(** [backfill_schema_when_empty]. *)
Definition backfill_schema_when_empty (batches : list RecordBatch)
    (schema : option Schema) : list RecordBatch :=
  match batches with
  | _ :: _ => batches
  | [] => match schema with
          | Some schema => [batch_new_empty schema]
          | None => batches
          end
  end.

(** What the driver's [execute] hands back: a row count, or the schema of the
    result set (when its metadata is known) and the outcome of [fetch_all]. *)
Record ResultSet := {
  rs_row_count : option Z;
  rs_schema : option Schema;
  rs_fetch_all : outcome str (list RecordBatch) }.

(** [ArrowTransport::execute], on the driver's answer. *)
Definition arrow_execute (answer : outcome str ResultSet)
    : outcome ExasolError ExasolOutcome :=
  result_set ← map_err Execution answer;
  match rs_row_count result_set with
  | Some count => Ok (RowCount count)
  | None =>
      batches ← map_err Execution (rs_fetch_all result_set);
      Ok (ArrowRows (backfill_schema_when_empty batches (rs_schema result_set)))
  end.

(** [ArrowTransport::execute_update] and [close] keep only the driver's
    verdict. *)
Definition arrow_execute_update {A} (answer : outcome str A) : outcome ExasolError unit :=
  _ ← map_err Execution answer; Ok tt.
Definition arrow_close (answer : outcome str unit) : outcome ExasolError unit :=
  map_err Connection answer.

(** Backfilling adds no row, and leaves a batch whenever a schema is known. *)
Lemma backfill_rows batches sc :
  batches_rows (backfill_schema_when_empty batches sc) = batches_rows batches
  /\ (sc <> None -> backfill_schema_when_empty batches sc <> []).
Proof.
  split.
  - destruct batches, sc as [sc|]; try done. simpl.
    unfold batches_rows, batch_rows; simpl. by rewrite new_empty_rows.
  - by destruct batches, sc.
Qed.
End arrow_transport.

Definition ex_exasol_config : ExasolConfig :=
  {| dsn := lit "db/ab12:8563"; encryption := true; certificate_fingerprint := lit " cd34 ";
     validate_certificate := false; pass_client_credentials := true; schema := [];
     transport := DEFAULT_TRANSPORT |}.

Lemma endpoint_fingerprint_witness :
  exists e, endpoint_parse (lit "db/ab12:8563") ex_exasol_config = Ok e
    /\ fingerprint e = Some (lit "CD34").
Proof.
  destruct (endpoint_fingerprint (lit "db/ab12:8563") ex_exasol_config
    {| host := lit "db"; port := 8563; fingerprint := Some (lit "CD34") |}) as [Hf _];
    [vm_compute; reflexivity|].
  eexists. split; [vm_compute; reflexivity|]. apply Hf. vm_compute. discriminate.
Defined.
