(* ===== verification/Cursor.v ===== *)
(** * Cursors (src/src/pg_server.rs, [GatewayCursor])

    A cursor holds a whole result set and a position between before the first
    row ([-1]) and after the last one ([len]).  [forward] and [backward] call
    each other on a negative count, so they take fuel; two calls are enough
    unless the count is [i64::MIN] ([apply_min_count_diverges]).  A method that
    returns an error has not touched the cursor. *)

From S2P Require Import Prelude RustStr RustInt Arrow Plan Exasol.
#[local] Open Scope Z_scope.

Section cursor.
Context `{BuildProfile} `{ArrowLib}.

Inductive CursorData :=
| CArrow (schema : Schema) (batches : list RecordBatch)
| CTyped (columns : list ExasolColumn) (rows : list (list (option str))).

Record GatewayCursor := {
  data : CursorData;
  position : Z;
  scroll : bool;
  hold : bool }.

Inductive CursorStepRows :=
| StepArrow (batches : list RecordBatch)
| StepTyped (rows : list (list (option str))).

Record CursorStep := { step_rows : CursorStepRows; step_count : Z }.

Inductive CursorMetadata :=
| MetaArrow (schema : Schema)
| MetaTyped (columns : list ExasolColumn).

Definition set_position (c : GatewayCursor) (p : Z) : GatewayCursor :=
  {| data := data c; position := p; scroll := scroll c; hold := hold c |}.

Definition empty_like (d : CursorData) : CursorStepRows :=
  match d with CArrow _ _ => StepArrow [] | CTyped _ _ => StepTyped [] end.

Definition metadata (c : GatewayCursor) : CursorMetadata :=
  match data c with
  | CArrow schema _ => MetaArrow schema
  | CTyped columns _ => MetaTyped columns
  end.

Definition direction_requires_scroll (d : CursorDirection) : bool :=
  match d with
  | Prior | First | Last | Absolute _ | Relative _ | Backward _ => true
  | Count count => count <? 0
  | _ => false
  end.

(** ** Rows *)

Definition total_rows (batches : list RecordBatch) : nat :=
  sum_list (num_rows <$> batches).

Definition step_rows_count (r : CursorStepRows) : Z :=
  match r with
  | StepArrow batches => Z.of_nat (total_rows batches)
  | StepTyped rows => Z.of_nat (length rows)
  end.

Definition data_row_count (c : GatewayCursor) : nat :=
  match data c with
  | CArrow _ batches => total_rows batches
  | CTyped _ rows => length rows
  end.

(** The loop of [slice_batches], from a batch that starts at row [offset]. *)
Fixpoint slice_batches_go (start end_ offset : nat) (batches : list RecordBatch)
    : list RecordBatch :=
  match batches with
  | [] => []
  | batch :: rest =>
      let len := num_rows batch in
      if (len =? 0)%nat then slice_batches_go start end_ offset rest
      else
        let batch_start := offset in
        let batch_end := (offset + len)%nat in
        if (batch_end <=? start)%nat then slice_batches_go start end_ batch_end rest
        else if (end_ <=? batch_start)%nat then []
        else
          let local_start := (start - batch_start)%nat in
          let local_end := ((end_ - batch_start) `min` len)%nat in
          if (local_start <? local_end)%nat
          then batch_slice batch local_start (local_end - local_start)
               :: slice_batches_go start end_ batch_end rest
          else slice_batches_go start end_ batch_end rest
  end.
Definition slice_batches (batches : list RecordBatch) (start end_ : nat) : list RecordBatch :=
  if (end_ <=? start)%nat then [] else slice_batches_go start end_ 0 batches.

(** [expect] panics on an error of [take] or [try_new]. *)
Definition expect {A} (o : option A) : outcome PgError A :=
  match o with Some a => Ok a | None => Panic end.

Definition reverse_batch (batch : RecordBatch) : outcome PgError RecordBatch :=
  let len := num_rows batch in
  if (len <=? 1)%nat then Ok batch
  else
    let indices := rev_range (Z.to_nat (Z.of_nat len mod 2 ^ 32)) in
    columns ← mapM (fun col => expect (compute_take col indices)) (batch_columns batch);
    expect (batch_try_new (batch_schema batch) columns).

Definition reverse_slice_batches (batches : list RecordBatch) (start end_ : nat)
    : outcome PgError (list RecordBatch) :=
  mapM reverse_batch (rev (slice_batches batches start end_)).

Definition slice_step_rows (c : GatewayCursor) (start end_ : nat) : CursorStepRows :=
  match data c with
  | CArrow _ batches => StepArrow (slice_batches batches start end_)
  | CTyped _ rows =>
      StepTyped (if (end_ <=? start)%nat || (length rows <=? start)%nat then []
                 else take (end_ `min` length rows - start) (drop start rows))
  end.

Definition reverse_slice_step_rows (c : GatewayCursor) (start end_ : nat)
    : outcome PgError CursorStepRows :=
  match data c with
  | CArrow _ batches => StepArrow <$> reverse_slice_batches batches start end_
  | CTyped _ rows =>
      let upper := (end_ `min` length rows)%nat in
      Ok (StepTyped (if (upper <=? start)%nat then []
                     else rev (take (upper - start) (drop start rows))))
  end.

Definition len (c : GatewayCursor) : outcome PgError Z :=
  if Z.of_nat (data_row_count c) <=? i64_max then Ok (Z.of_nat (data_row_count c))
  else Err (pg_error "54000" (lit "cursor result set is too large")).

Definition current_row_step_rows (c : GatewayCursor) : CursorStepRows :=
  let total := Z.of_nat (data_row_count c) in
  if (0 <=? position c) && (position c <? total)
  then slice_step_rows c (Z.to_nat (position c)) (S (Z.to_nat (position c)))
  else empty_like (data c).

(** ** Moving *)

(** What a method returns: the cursor it leaves and the step. *)
Definition step_result : Type := outcome PgError (GatewayCursor * CursorStep).

Definition no_rows (c : GatewayCursor) (p : Z) : step_result :=
  Ok (set_position c p, {| step_rows := empty_like (data c); step_count := 0 |}).

Definition zero_count (c : GatewayCursor) (return_rows : bool) : step_result :=
  let rows := if return_rows then current_row_step_rows c else empty_like (data c) in
  Ok (c, {| step_rows := rows;
            step_count := if return_rows then step_rows_count rows else 0 |}).

Definition clamp (lo hi z : Z) : Z := if z <? lo then lo else if hi <? z then hi else z.

(** The body of [forward] for a positive count, and for [ALL]. *)
Definition forward_some (c : GatewayCursor) (count : Z) (return_rows : bool) : step_result :=
  len ← len c;
  next ← add_i64 (position c) 1;
  let start := clamp 0 len next in
  if len <=? start then no_rows c len
  else
    let requested := Z.min count (len - start) in
    let end_ := start + requested in
    let rows := if return_rows then slice_step_rows c (Z.to_nat start) (Z.to_nat end_)
                else empty_like (data c) in
    Ok (set_position c (if requested <? count then len else end_ - 1),
        {| step_rows := rows; step_count := requested |}).

Definition forward_all (c : GatewayCursor) (return_rows : bool) : step_result :=
  len ← len c;
  next ← add_i64 (position c) 1;
  let start := clamp 0 len next in
  let rows := if return_rows && (start <? len)
              then slice_step_rows c (Z.to_nat start) (Z.to_nat len)
              else empty_like (data c) in
  Ok (set_position c len,
      {| step_rows := rows; step_count := Z.max 0 (len - start) |}).

Definition backward_start (c : GatewayCursor) (len : Z) : outcome PgError Z :=
  if len <=? position c then Ok (len - 1) else add_i64 (position c) (-1).

Definition backward_some (c : GatewayCursor) (count : Z) (return_rows : bool) : step_result :=
  len ← len c;
  start ← backward_start c len;
  if start <? 0 then no_rows c (-1)
  else
    let requested := Z.min count (start + 1) in
    let end_ := start - requested + 1 in
    rows ← (if return_rows then reverse_slice_step_rows c (Z.to_nat end_) (Z.to_nat (start + 1))
            else Ok (empty_like (data c)));
    Ok (set_position c (if requested <? count then -1 else end_),
        {| step_rows := rows; step_count := requested |}).

Definition backward_all (c : GatewayCursor) (return_rows : bool) : step_result :=
  len ← len c;
  start ← backward_start c len;
  if start <? 0 then no_rows c (-1)
  else
    rows ← (if return_rows then reverse_slice_step_rows c 0 (Z.to_nat (start + 1))
            else Ok (empty_like (data c)));
    Ok (set_position c (-1), {| step_rows := rows; step_count := start + 1 |}).

Fixpoint forward (fuel : nat) (c : GatewayCursor) (count : option Z) (return_rows : bool)
    : step_result :=
  match fuel with
  | O => OutOfFuel
  | S fuel =>
      _ ← len c;
      match count with
      | Some count =>
          if count <? 0 then
            count' ← neg_i64 count;
            backward fuel c (Some count') return_rows
          else if count =? 0 then zero_count c return_rows
          else forward_some c count return_rows
      | None => forward_all c return_rows
      end
  end
with backward (fuel : nat) (c : GatewayCursor) (count : option Z) (return_rows : bool)
    : step_result :=
  match fuel with
  | O => OutOfFuel
  | S fuel =>
      _ ← len c;
      match count with
      | Some count =>
          if count <? 0 then
            count' ← neg_i64 count;
            forward fuel c (Some count') return_rows
          else if count =? 0 then zero_count c return_rows
          else backward_some c count return_rows
      | None => backward_all c return_rows
      end
  end.

Definition seek (c : GatewayCursor) (target : Z) (return_rows : bool) : step_result :=
  len ← len c;
  if target <? 0 then no_rows c (-1)
  else if len <=? target then no_rows c len
  else
    let c' := set_position c target in
    let rows := if return_rows
                then slice_step_rows c' (Z.to_nat target) (S (Z.to_nat target))
                else empty_like (data c) in
    Ok (c', {| step_rows := rows; step_count := 1 |}).

Definition absolute (c : GatewayCursor) (target : Z) (return_rows : bool) : step_result :=
  len ← len c;
  if target =? 0 then no_rows c (-1)
  else
    target ← (if 0 <? target then Ok (target - 1) else add_i64 len target);
    seek c target return_rows.

Definition relative (c : GatewayCursor) (offset : Z) (return_rows : bool) : step_result :=
  target ← add_i64 (position c) offset;
  seek c target return_rows.

Definition apply (fuel : nat) (c : GatewayCursor) (direction : CursorDirection)
    (return_rows : bool) : step_result :=
  if negb (scroll c) && direction_requires_scroll direction
  then Err (pg_error "0A000" (lit "cursor was declared NO SCROLL"))
  else
    match direction with
    | Next => forward fuel c (Some 1) return_rows
    | Prior => backward fuel c (Some 1) return_rows
    | First => absolute c 1 return_rows
    | Last => absolute c (-1) return_rows
    | Absolute target => absolute c target return_rows
    | Relative offset => relative c offset return_rows
    | Forward count => forward fuel c count return_rows
    | Backward count => backward fuel c count return_rows
    | All => forward fuel c None return_rows
    | Count count =>
        if count <? 0 then
          count' ← neg_i64 count;
          backward fuel c (Some count') return_rows
        else forward fuel c (Some count) return_rows
    end.
End cursor.
