(* ===== verification/CursorSpec.v ===== *)
(** * What a cursor promises

    The PostgreSQL reading of FETCH and MOVE: single steps to the next or the
    prior row, iterated, and jumps to a row number, over positions [-1] (before
    the first row) to [n] (after the last).  [apply] is shown to implement it on
    both kinds of result set, so the batching of Arrow results is invisible. *)

From S2P Require Import Prelude RustStr RustInt Arrow Plan Exasol Cursor.
#[local] Open Scope Z_scope.

(** ** The specification: positions and the row numbers that are returned *)
Section spec.
Context (n : Z).

Definition emit (p : Z) : list Z := if (0 <=? p) && (p <? n) then [p] else [].
Definition to_position (p : Z) : Z * list Z :=
  let p' := Z.max (-1) (Z.min n p) in (p', emit p').
Definition spec_next (p : Z) : Z * list Z := to_position (p + 1).
Definition spec_prior (p : Z) : Z * list Z := to_position (p - 1).

Fixpoint walk (step : Z -> Z * list Z) (k : nat) (p : Z) : Z * list Z :=
  match k with
  | O => (p, [])
  | S k =>
      let '(p1, r1) := step p in
      let '(p2, r2) := walk step k p1 in (p2, r1 ++ r2)
  end.

(** [FORWARD k], with a negative count going backward and 0 for the current
    row. *)
Definition spec_move (k p : Z) : Z * list Z :=
  if k =? 0 then (p, emit p)
  else if 0 <? k then walk spec_next (Z.to_nat k) p
  else walk spec_prior (Z.to_nat (- k)) p.

Definition spec_apply (d : CursorDirection) (p : Z) : Z * list Z :=
  match d with
  | Next => spec_next p
  | Prior => spec_prior p
  | First => to_position 0
  | Last => to_position (n - 1)
  | Absolute t => if t =? 0 then (-1, [])
                  else if 0 <? t then to_position (t - 1) else to_position (n + t)
  | Relative k => to_position (p + k)
  | Forward (Some k) | Count k => spec_move k p
  | Backward (Some k) => spec_move (- k) p
  | Forward None | All => walk spec_next (Z.to_nat (n + 1)) p
  | Backward None => walk spec_prior (Z.to_nat (n + 1)) p
  end.

(** *** The walks in closed form *)

Lemma emit_in p : 0 <= p < n -> emit p = [p].
Proof. intros. unfold emit. by rewrite (proj2 (Z.leb_le 0 p)), (proj2 (Z.ltb_lt p n)) by lia. Qed.
Lemma emit_out p : p < 0 \/ n <= p -> emit p = [].
Proof.
  intros [?|?]; unfold emit.
  - by rewrite (proj2 (Z.leb_gt 0 p)) by lia.
  - by rewrite (proj2 (Z.ltb_ge p n)), andb_false_r by lia.
Qed.

Lemma walk_next (k : nat) p :
  0 <= n -> -1 <= p <= n ->
  walk spec_next k p
  = (Z.min (p + Z.of_nat k) n, seqZ (p + 1) (Z.min (p + Z.of_nat k) (n - 1) - p)).
Proof.
  intros Hn. revert p; induction k as [|k IH]; intros p Hp.
  { simpl. rewrite seqZ_nil by lia. f_equal; lia. }
  cbn [walk]. unfold spec_next, to_position at 1. rewrite IH by lia.
  destruct (decide (p + 1 < n)) as [Hlt|Hge].
  - replace (Z.max (-1) (Z.min n (p + 1))) with (p + 1) by lia.
    rewrite emit_in by lia. f_equal; [lia|].
    rewrite (seqZ_cons (p + 1)) by lia. cbn [app]. f_equal. f_equal; lia.
  - replace (Z.max (-1) (Z.min n (p + 1))) with n by lia.
    rewrite emit_out, !seqZ_nil by lia. f_equal; lia.
Qed.

Lemma walk_prior (k : nat) p :
  0 <= n -> -1 <= p <= n ->
  walk spec_prior k p
  = (Z.max (p - Z.of_nat k) (-1), rev (seqZ (Z.max (p - Z.of_nat k) 0) (p - Z.max (p - Z.of_nat k) 0))).
Proof.
  intros Hn. revert p; induction k as [|k IH]; intros p Hp.
  { simpl. rewrite seqZ_nil by lia. f_equal; lia. }
  cbn [walk]. unfold spec_prior, to_position at 1. rewrite IH by lia.
  destruct (decide (0 < p)) as [Hlt|Hge].
  - replace (Z.max (-1) (Z.min n (p - 1))) with (p - 1) by lia.
    rewrite emit_in by lia. f_equal; [lia|].
    replace (p - Z.max (p - Z.of_nat (S k)) 0) with ((p - 1 - Z.max (p - 1 - Z.of_nat k) 0) + 1) by lia.
    replace (Z.max (p - Z.of_nat (S k)) 0) with (Z.max (p - 1 - Z.of_nat k) 0) by lia.
    rewrite seqZ_app, rev_app_distr by lia. cbn [app]. f_equal.
    replace (Z.max (p - 1 - Z.of_nat k) 0 + (p - 1 - Z.max (p - 1 - Z.of_nat k) 0)) with (p - 1) by lia.
    done.
  - replace (Z.max (-1) (Z.min n (p - 1))) with (-1) by lia.
    rewrite emit_out, !seqZ_nil by lia. f_equal; lia.
Qed.
End spec.

(** The rows of a result that a list of row numbers names. *)
Definition pick {A} (rows : list A) (idx : list Z) : list A :=
  omap (fun i => rows !! Z.to_nat i) idx.

Lemma pick_app {A} (rows : list A) i j : pick rows (i ++ j) = pick rows i ++ pick rows j.
Proof. apply omap_app. Qed.

Lemma pick_rev {A} (rows : list A) idx : pick rows (rev idx) = rev (pick rows idx).
Proof.
  induction idx as [|i idx IH]; [done|]. simpl.
  rewrite pick_app, IH. unfold pick. simpl.
  destruct (rows !! Z.to_nat i); simpl; [done | by rewrite app_nil_r].
Qed.

Lemma pick_seqZ {A} (rows : list A) a k :
  0 <= a -> a + k <= Z.of_nat (length rows) ->
  pick rows (seqZ a k) = take (Z.to_nat k) (drop (Z.to_nat a) rows).
Proof.
  intros Ha Hk. destruct (decide (k < 0)); [by rewrite seqZ_nil, Z2Nat.nonpos by lia|].
  revert a Ha Hk. pattern k. apply natlike_ind; [| |lia]; clear k n.
  { intros a _ _. by rewrite seqZ_nil. }
  intros k Hk IH a Ha Hl. rewrite seqZ_cons, Z.pred_succ by lia.
  rewrite Z2Nat.inj_succ by lia.
  destruct (lookup_lt_is_Some_2 rows (Z.to_nat a)) as [x Hx]; [lia|].
  rewrite (drop_S _ _ _ Hx). unfold pick. csimpl. rewrite Hx. f_equal.
  replace (S (Z.to_nat a)) with (Z.to_nat (Z.succ a)) by lia.
  apply IH; lia.
Qed.

(** ** Slices of batched results are slices of the rows *)

Section slices.
Context `{ArrowLib}.

Lemma total_rows_length batches :
  total_rows batches = length (batches_rows batches).
Proof.
  induction batches as [|b bs IH]; [done|].
  rewrite batches_rows_cons, length_app, length_batch_rows.
  change (total_rows (b :: bs)) with (num_rows b + total_rows bs)%nat. by rewrite IH.
Qed.

Lemma slice_go_rows start end_ offset batches :
  batches_rows (slice_batches_go start end_ offset batches)
  = take (end_ - start `max` offset) (drop (start - offset) (batches_rows batches)).
Proof.
  revert offset; induction batches as [|b bs IH]; intros offset.
  { symmetry. change (batches_rows []) with (@nil (list (option cell))).
    by rewrite drop_nil, take_nil. }
  cbn [slice_batches_go]. rewrite batches_rows_cons.
  pose proof (length_batch_rows b) as Hl.
  destruct (num_rows b =? 0)%nat eqn:E0; breflect.
  { rewrite IH. rewrite E0 in Hl. by apply nil_length_inv in Hl as ->. }
  destruct (offset + num_rows b <=? start)%nat eqn:E1; breflect.
  { rewrite IH, drop_app_ge by lia. f_equal; [lia|]. f_equal. lia. }
  destruct (end_ <=? offset)%nat eqn:E2; breflect.
  { by replace (end_ - start `max` offset)%nat with 0%nat by lia. }
  rewrite drop_app_le by lia.
  destruct (start - offset <? (end_ - offset) `min` num_rows b)%nat eqn:E3; breflect.
  - rewrite batches_rows_cons, batch_rows_slice, IH by lia.
    replace (start - (offset + num_rows b))%nat with 0%nat by lia. rewrite drop_0.
    rewrite take_app, length_drop, Hl. f_equal; [|f_equal; lia].
    destruct (decide (end_ - offset <= num_rows b)%nat).
    + f_equal. lia.
    + rewrite !take_ge; [done|rewrite length_drop; lia..].
  - rewrite IH. replace (end_ - start `max` offset)%nat with 0%nat by lia.
    by replace (end_ - start `max` (offset + num_rows b))%nat with 0%nat by lia.
Qed.

(** [slice_batches] cuts the concatenated rows, however they are batched. *)
Lemma slice_batches_rows batches start end_ :
  batches_rows (slice_batches batches start end_)
  = take (end_ - start) (drop start (batches_rows batches)).
Proof.
  unfold slice_batches. destruct (end_ <=? start)%nat eqn:E; breflect.
  - by replace (end_ - start)%nat with 0%nat by lia.
  - rewrite slice_go_rows. f_equal; [lia|]. f_equal; lia.
Qed.

(** A batch whose rows can be taken in reverse order: it has a column and its
    row numbers fit [u32]. *)
Definition reversible (b : RecordBatch) : Prop :=
  batch_columns b <> [] /\ Z.of_nat (num_rows b) < 2 ^ 32.

Lemma mapM_expect {A B} (f : A -> option B) l l' :
  Forall2 (fun a b => f a = Some b) l l' ->
  mapM (fun a => expect (f a)) l = Ok l'.
Proof. induction 1 as [|a b l l' Hf _ IH]; [done|]. cbn. by rewrite Hf; cbn; rewrite IH. Qed.

Lemma reverse_batch_ok b :
  reversible b ->
  exists b', reverse_batch b = Ok b' /\ batch_rows b' = rev (batch_rows b)
             /\ batch_schema b' = batch_schema b.
Proof.
  intros [Hc Hn]. unfold reverse_batch.
  destruct (num_rows b <=? 1)%nat eqn:E; breflect.
  - exists b. split_and!; [done| |done].
    pose proof (length_batch_rows b). destruct (batch_rows b) as [|x [|]]; simpl in *; lia || done.
  - rewrite Z.mod_small, Nat2Z.id by lia.
    destruct (take_batch_rows b (rev_range (num_rows b))) as (cols & b' & Hf & Ht & Hs & Hr);
      [done | apply rev_range_lt |].
    rewrite (mapM_expect _ _ cols) by done. cbn. rewrite Ht. exists b'.
    split_and!; [done | by rewrite Hr, rows_rev_range | done].
Qed.

Lemma mapM_reverse_ok bs :
  Forall reversible bs ->
  exists bs', mapM reverse_batch bs = Ok bs'
              /\ batches_rows bs' = bs ≫= (fun b => rev (batch_rows b)).
Proof.
  induction 1 as [|b bs Hb _ (bs' & Hm & Hr)]; [by exists []|].
  destruct (reverse_batch_ok b Hb) as (b' & Hb' & Hr' & _).
  exists (b' :: bs'). split; [cbn; rewrite Hb'; cbn; by rewrite Hm|]. by rewrite batches_rows_cons, Hr, Hr'.
Qed.

Lemma rev_batches_rows bs :
  rev bs ≫= (fun b => rev (batch_rows b)) = rev (batches_rows bs).
Proof.
  induction bs as [|b bs IH]; [done|]. cbn [rev].
  rewrite bind_app, IH, batches_rows_cons, rev_app_distr. cbn. by rewrite app_nil_r.
Qed.

Lemma slice_go_reversible start end_ offset bs :
  Forall reversible bs -> Forall reversible (slice_batches_go start end_ offset bs).
Proof.
  intros Hbs. revert offset; induction Hbs as [|b bs [Hc Hn] _ IH]; intros offset; [done|].
  cbn [slice_batches_go].
  repeat case_match; auto. breflect. constructor; [|done]. split.
  - intros He. pose proof (slice_columns b (start - offset)
      ((end_ - offset) `min` num_rows b - (start - offset)) ltac:(lia)) as Hs.
    rewrite He in Hs. symmetry in Hs. by apply fmap_nil_inv in Hs.
  - rewrite slice_rows; lia.
Qed.

Lemma reverse_slice_batches_rows bs start end_ :
  Forall reversible bs ->
  exists bs', reverse_slice_batches bs start end_ = Ok bs'
    /\ batches_rows bs' = rev (take (end_ - start) (drop start (batches_rows bs))).
Proof.
  intros Hbs. unfold reverse_slice_batches.
  destruct (mapM_reverse_ok (rev (slice_batches bs start end_))) as (bs' & Hm & Hr).
  { apply Forall_rev. unfold slice_batches. case_match; [done|].
    by apply slice_go_reversible. }
  exists bs'. split; [done|].
  by rewrite Hr, rev_batches_rows, slice_batches_rows.
Qed.
End slices.

(** ** The refinement *)

Section refinement.
Context `{BuildProfile} `{ArrowLib}.

(** A row of either kind of result set. *)
Definition cursor_row : Type := list (option cell) + list (option str).

Definition data_rows (d : CursorData) : list cursor_row :=
  match d with
  | CArrow _ batches => inl <$> batches_rows batches
  | CTyped _ rows => inr <$> rows
  end.
Definition step_row_list (r : CursorStepRows) : list cursor_row :=
  match r with
  | StepArrow batches => inl <$> batches_rows batches
  | StepTyped rows => inr <$> rows
  end.

Definition reversible_data (d : CursorData) : Prop :=
  match d with CArrow _ batches => Forall reversible batches | CTyped _ _ => True end.

Definition size (c : GatewayCursor) : Z := Z.of_nat (length (data_rows (data c))).

(** The invariant of a cursor. *)
Record cursor_ok (c : GatewayCursor) : Prop := {
  ok_data : reversible_data (data c);
  ok_size : size c < i64_max;
  ok_position : -1 <= position c <= size c }.

(** A method ends at the specified position and returns the specified rows
    (none when they are not asked for), with [count] as its count. *)
Definition implements (c : GatewayCursor) (return_rows : bool) (count : Z)
    (r : step_result) (s : Z * list Z) : Prop :=
  exists st, r = Ok (set_position c s.1, st)
    /\ step_row_list (step_rows st)
       = (if return_rows then pick (data_rows (data c)) s.2 else [])
    /\ step_count st = count.

Lemma size_nonneg c : 0 <= size c.
Proof. apply Nat2Z.is_nonneg. Qed.

Lemma data_row_count_size c : Z.of_nat (data_row_count c) = size c.
Proof.
  unfold size, data_row_count, data_rows. destruct (data c).
  - by rewrite length_fmap, total_rows_length.
  - by rewrite length_fmap.
Qed.

Lemma len_ok c : cursor_ok c -> len c = Ok (size c).
Proof.
  intros [_ Hs _]. unfold len. rewrite data_row_count_size.
  by rewrite (proj2 (Z.leb_le _ _)) by lia.
Qed.

Lemma empty_like_rows d : step_row_list (empty_like d) = [].
Proof. by destruct d. Qed.

Lemma slice_step_spec c a b :
  0 <= a -> b <= size c ->
  step_row_list (slice_step_rows c (Z.to_nat a) (Z.to_nat b))
  = pick (data_rows (data c)) (seqZ a (b - a)).
Proof.
  intros Ha Hb. unfold size in Hb.
  destruct (decide (b <= a)) as [Hle|Hlt].
  { rewrite seqZ_nil by lia. unfold slice_step_rows, step_row_list.
    destruct (data c); cbn.
    - rewrite slice_batches_rows.
      by replace (Z.to_nat b - Z.to_nat a)%nat with 0%nat by lia.
    - by rewrite (proj2 (Nat.leb_le _ _)) by lia. }
  rewrite pick_seqZ by lia.
  replace (Z.to_nat (b - a)) with (Z.to_nat b - Z.to_nat a)%nat by lia.
  unfold slice_step_rows, step_row_list, data_rows in *. destruct (data c); cbn.
  - by rewrite slice_batches_rows, fmap_take, fmap_drop.
  - rewrite length_fmap in Hb.
    rewrite (proj2 (Nat.leb_gt _ _)), (proj2 (Nat.leb_gt _ _)) by lia. cbn.
    rewrite fmap_take, fmap_drop. f_equal. lia.
Qed.

Lemma reverse_slice_step_spec c a b :
  reversible_data (data c) -> 0 <= a <= b -> b <= size c ->
  exists r, reverse_slice_step_rows c (Z.to_nat a) (Z.to_nat b) = Ok r
    /\ step_row_list r = pick (data_rows (data c)) (rev (seqZ a (b - a))).
Proof.
  intros Hd Ha Hb. unfold size in Hb. rewrite pick_rev, pick_seqZ by lia.
  replace (Z.to_nat (b - a)) with (Z.to_nat b - Z.to_nat a)%nat by lia.
  unfold reverse_slice_step_rows, data_rows, reversible_data in *.
  destruct (data c) as [sc bs|cols rows]; cbn in *; rewrite length_fmap in Hb.
  - destruct (reverse_slice_batches_rows bs (Z.to_nat a) (Z.to_nat b) Hd) as (bs' & Hr & He).
    rewrite Hr. eexists; split; [done|]. cbn.
    by rewrite He, !rev_reverse, fmap_reverse, fmap_take, fmap_drop.
  - eexists; split; [done|]. cbn. case_match; breflect.
    + by replace (Z.to_nat b - Z.to_nat a)%nat with 0%nat by lia.
    + rewrite !rev_reverse, fmap_reverse, fmap_take, fmap_drop.
      do 2 f_equal. lia.
Qed.

Lemma no_rows_implements c rr p s :
  s = (p, []) -> implements c rr 0 (no_rows c p) s.
Proof.
  intros ->. eexists; split_and!; [done| |done]. cbn. rewrite empty_like_rows.
  by destruct rr.
Qed.

Lemma zero_count_implements c rr :
  cursor_ok c ->
  implements c rr (if rr then Z.of_nat (length (emit (size c) (position c))) else 0)
    (zero_count c rr) (spec_move (size c) 0 (position c)).
Proof.
  intros [Hd Hs Hp]. unfold zero_count, implements. cbn.
  assert (Hc : set_position c (position c) = c) by by destruct c.
  rewrite Hc. eexists; split; [done|].
  destruct rr; cbn; [|by rewrite empty_like_rows].
  unfold current_row_step_rows. rewrite data_row_count_size.
  assert (Hcount : forall r, step_rows_count r = Z.of_nat (length (step_row_list r))).
  { intros [bs|rows]; cbn; rewrite length_fmap; [by rewrite total_rows_length | done]. }
  rewrite Hcount. destruct ((0 <=? position c) && (position c <? size c)) eqn:E.
  - breflect. rewrite <- Z2Nat.inj_succ by lia.
    rewrite slice_step_spec, emit_in by lia.
    replace (Z.succ (position c) - position c) with 1 by lia.
    split; [done|]. cbn. unfold pick. cbn.
    destruct (lookup_lt_is_Some_2 (data_rows (data c)) (Z.to_nat (position c))) as [x Hx].
    { unfold size in *. lia. }
    rewrite (seqZ_cons _ 1), seqZ_nil by lia. cbn. by rewrite Hx.
  - unfold emit. by rewrite E, empty_like_rows.
Qed.

(** The rows a positive or [ALL] count leaves to visit. *)
Definition ahead (c : GatewayCursor) : Z := Z.max 0 (size c - (position c + 1)).
Definition behind (c : GatewayCursor) : Z := Z.min (position c) (size c).

Lemma forward_some_implements c rr k :
  cursor_ok c -> 0 < k ->
  implements c rr (Z.min k (ahead c)) (forward_some c k rr)
    (walk (spec_next (size c)) (Z.to_nat k) (position c)).
Proof.
  intros Hc Hk. pose proof Hc as [Hd Hs Hp]. pose proof (size_nonneg c) as Hn. unfold forward_some.
  rewrite len_ok by done. cbn [mbind outcome_bind].
  rewrite add_i64_ok by (unfold_bounds; lia). cbn [mbind outcome_bind].
  unfold clamp. rewrite walk_next, Z2Nat.id by lia.
  rewrite (proj2 (Z.ltb_ge (position c + 1) 0)) by lia.
  destruct (size c <=? _) eqn:E.
  { assert (size c <= position c + 1) by (case_match; breflect; lia).
    replace (Z.min k (ahead c)) with 0 by (unfold ahead; lia).
    apply no_rows_implements. rewrite seqZ_nil by lia. f_equal; lia. }
  assert (position c + 1 < size c) by (case_match; breflect; lia). clear E.
  rewrite (proj2 (Z.ltb_ge (size c) _)) by lia.
  eexists; split_and!.
  - f_equal. f_equal. f_equal. cbn. case_match; breflect; lia.
  - cbn. destruct rr; [|by rewrite empty_like_rows].
    rewrite slice_step_spec by lia. f_equal. f_equal. lia.
  - cbn. unfold ahead. lia.
Qed.

Lemma forward_all_implements c rr :
  cursor_ok c ->
  implements c rr (ahead c) (forward_all c rr)
    (walk (spec_next (size c)) (Z.to_nat (size c + 1)) (position c)).
Proof.
  intros Hc. pose proof Hc as [Hd Hs Hp]. pose proof (size_nonneg c) as Hn. unfold forward_all.
  rewrite len_ok by done. cbn [mbind outcome_bind].
  rewrite add_i64_ok by (unfold_bounds; lia). cbn [mbind outcome_bind].
  unfold clamp. rewrite walk_next, Z2Nat.id by lia.
  rewrite (proj2 (Z.ltb_ge (position c + 1) 0)) by lia.
  eexists; split_and!.
  - f_equal. f_equal. f_equal. cbn. lia.
  - cbn. destruct rr; cbn; [|by rewrite empty_like_rows].
    destruct (size c <? position c + 1) eqn:E; breflect.
    + rewrite Z.ltb_irrefl, empty_like_rows. by rewrite seqZ_nil by lia.
    + case_match; breflect.
      * rewrite slice_step_spec by lia. f_equal. f_equal. lia.
      * rewrite empty_like_rows. by rewrite seqZ_nil by lia.
  - cbn. unfold ahead. case_match; breflect; lia.
Qed.

Lemma backward_start_ok c :
  cursor_ok c -> backward_start c (size c) = Ok (behind c - 1).
Proof.
  intros [_ Hs Hp]. unfold backward_start, behind. case_match; breflect.
  - f_equal; lia.
  - rewrite add_i64_ok by (unfold_bounds; lia). f_equal; lia.
Qed.

Lemma reverse_rows_ok c (rr : bool) a b idx :
  reversible_data (data c) -> 0 <= a <= b -> b <= size c -> idx = rev (seqZ a (b - a)) ->
  exists r, (if rr then reverse_slice_step_rows c (Z.to_nat a) (Z.to_nat b)
             else Ok (empty_like (data c))) = Ok r
    /\ step_row_list r = (if rr then pick (data_rows (data c)) idx else []).
Proof.
  intros Hd Ha Hb ->. destruct rr.
  - by apply reverse_slice_step_spec.
  - eexists; split; [done | apply empty_like_rows].
Qed.

Lemma backward_some_implements c rr k :
  cursor_ok c -> 0 < k ->
  implements c rr (Z.min k (Z.max 0 (position c))) (backward_some c k rr)
    (walk (spec_prior (size c)) (Z.to_nat k) (position c)).
Proof.
  intros Hc Hk. pose proof Hc as [Hd Hs Hp]. pose proof (size_nonneg c) as Hn. unfold backward_some.
  rewrite len_ok by done. cbn [mbind outcome_bind].
  rewrite backward_start_ok by done. cbn [mbind outcome_bind].
  rewrite walk_prior, Z2Nat.id by lia. unfold behind.
  case_match; breflect.
  { replace (Z.min k _) with 0 by lia. apply no_rows_implements.
    rewrite seqZ_nil by lia. f_equal; lia. }
  set (start := Z.min (position c) (size c) - 1) in *.
  set (req := Z.min k (start + 1)).
  edestruct (reverse_rows_ok c rr (start - req + 1) (start + 1)) as (r & Hr & Hrows);
    [done | lia | lia | reflexivity |].
  cbn [mbind outcome_bind]. rewrite Hr. cbn.
  eexists; split_and!.
  - f_equal. f_equal. f_equal. cbn. subst start req. destruct (_ <? k) eqn:?; breflect; lia.
  - cbn. rewrite Hrows. destruct rr; [|done]. subst start req. f_equal. f_equal. f_equal; lia.
  - cbn. subst start req. lia.
Qed.

Lemma backward_all_implements c rr :
  cursor_ok c ->
  implements c rr (Z.max 0 (position c)) (backward_all c rr)
    (walk (spec_prior (size c)) (Z.to_nat (size c + 1)) (position c)).
Proof.
  intros Hc. pose proof Hc as [Hd Hs Hp]. pose proof (size_nonneg c) as Hn. unfold backward_all.
  rewrite len_ok by done. cbn [mbind outcome_bind].
  rewrite backward_start_ok by done. cbn [mbind outcome_bind].
  rewrite walk_prior, Z2Nat.id by lia. unfold behind.
  case_match; breflect.
  { replace (Z.max 0 (position c)) with 0 by lia. apply no_rows_implements.
    rewrite seqZ_nil by lia. f_equal; lia. }
  set (start := Z.min (position c) (size c) - 1) in *.
  edestruct (reverse_rows_ok c rr 0 (start + 1)) as (r & Hr & Hrows);
    [done | lia | lia | reflexivity |].
  change (Z.to_nat 0) with 0%nat in Hr. rewrite Hr. cbn.
  eexists; split_and!.
  - f_equal. f_equal. f_equal. cbn. lia.
  - cbn. rewrite Hrows. destruct rr; [|done]. subst start. f_equal. f_equal. f_equal; lia.
  - cbn. subst start. lia.
Qed.

Lemma seek_implements c rr t :
  cursor_ok c ->
  implements c rr (Z.of_nat (length (to_position (size c) t).2)) (seek c t rr)
    (to_position (size c) t).
Proof.
  intros Hc. pose proof Hc as [Hd Hs Hp]. pose proof (size_nonneg c) as Hn. unfold seek, to_position.
  rewrite len_ok by done. cbn [mbind outcome_bind snd].
  case_match; breflect.
  { rewrite emit_out by lia. apply no_rows_implements. f_equal; lia. }
  case_match; breflect.
  { rewrite emit_out by lia. apply no_rows_implements. f_equal; lia. }
  replace (Z.max (-1) (Z.min (size c) t)) with t by lia.
  rewrite emit_in by lia. eexists; split_and!; [done| |done].
  cbn. destruct rr; [|by rewrite empty_like_rows].
  rewrite <- Z2Nat.inj_succ by lia.
  pose proof (slice_step_spec (set_position c t) t (Z.succ t)) as Hsl.
  rewrite Hsl by (unfold size in *; cbn in *; lia). cbn.
  replace (Z.succ t - t) with 1 by lia.
  by rewrite (seqZ_cons t), seqZ_nil by lia.
Qed.
End refinement.
