(* ===== verification/CursorTheorems.v ===== *)
(** * Theorems about cursors

    [apply] refines the specification of CursorSpec.v, keeps the cursor's
    invariant, and its consequences for FETCH ALL and BACKWARD ALL; what happens on
    the two arguments the refinement has to leave out. *)

From S2P Require Import Prelude RustStr RustInt Arrow Plan Exasol Cursor CursorSpec.
#[local] Open Scope Z_scope.

Definition zero_move (d : CursorDirection) : bool :=
  match d with
  | Forward (Some k) | Backward (Some k) | Count k => k =? 0
  | _ => false
  end.

(** The number FETCH and MOVE report: the rows of the specification; MOVE by 0
    reports 0. *)
Definition expected_count (n : Z) (d : CursorDirection) (return_rows : bool) (p : Z) : Z :=
  if zero_move d && negb return_rows then 0
  else Z.of_nat (length (spec_apply n d p).2).

Section theorems.
Context `{BuildProfile} `{ArrowLib}.
Implicit Types (c : GatewayCursor) (rr : bool).

(** The arguments whose arithmetic stays inside [i64]. *)
Definition direction_fits c (d : CursorDirection) : Prop :=
  match d with
  | Forward (Some k) | Backward (Some k) | Count k => i64_min < k <= i64_max
  | Absolute t => is_i64 t
  | Relative k => is_i64 (position c + k)
  | _ => True
  end.

Lemma length_walk_next n k p :
  0 <= n -> -1 <= p <= n -> 0 < k ->
  Z.of_nat (length (walk (spec_next n) (Z.to_nat k) p).2) = Z.min k (Z.max 0 (n - (p + 1))).
Proof. intros. rewrite walk_next by lia. cbn. rewrite length_seqZ. lia. Qed.

Lemma length_walk_prior n k p :
  0 <= n -> -1 <= p <= n -> 0 < k ->
  Z.of_nat (length (walk (spec_prior n) (Z.to_nat k) p).2) = Z.min k (Z.max 0 p).
Proof. intros. rewrite walk_prior by lia. cbn. rewrite length_rev, length_seqZ. lia. Qed.

Lemma walk_one step p : walk step 1 p = step p.
Proof. cbn. destruct (step p) as [q r]. by rewrite app_nil_r. Qed.

Lemma move_implements (forward_ : bool) fuel c rr k :
  (2 <= fuel)%nat -> cursor_ok c -> i64_min < k <= i64_max ->
  implements c rr
    (if (k =? 0) && negb rr then 0
     else Z.of_nat (length (spec_move (size c) (if forward_ then k else - k) (position c)).2))
    ((if forward_ then forward else backward) fuel c (Some k) rr)
    (spec_move (size c) (if forward_ then k else - k) (position c)).
Proof.
  intros Hf Hc Hk. pose proof Hc as [_ _ Hp]. pose proof (size_nonneg c) as Hn.
  destruct fuel as [|[|fuel]]; [lia..|].
  assert (Hneg : forall x, 0 < x -> (- x =? 0) = false /\ (0 <? - x) = false) by lia.
  assert (Hpos : forall x, 0 < x -> (x =? 0) = false /\ (0 <? x) = true) by lia.
  unfold spec_move.
  destruct (k <? 0) eqn:E1; [|destruct (k =? 0) eqn:E2]; breflect.
  - destruct (Hneg (- k)) as [N1 N2], (Hpos (- k)) as [P1 P2]; [lia..|].
    rewrite Z.opp_involutive in N1, N2.
    destruct forward_; cbn [forward backward]; rewrite !(len_ok c) by done;
      cbn [mbind outcome_bind]; rewrite (proj2 (Z.ltb_lt k 0)) by done;
      rewrite neg_i64_ok by done; cbn [mbind outcome_bind];
      rewrite ?(len_ok c) by done; cbn [mbind outcome_bind];
      rewrite (proj2 (Z.ltb_ge (- k) 0)), ?N1, ?N2, ?P1, ?P2 by lia; cbn [andb].
    + rewrite length_walk_prior by lia. apply backward_some_implements; [done|lia].
    + rewrite length_walk_next by lia. apply forward_some_implements; [done|lia].
  - subst k. change (- 0) with 0.
    destruct forward_; cbn [forward backward]; rewrite !(len_ok c) by done; cbn;
      pose proof (zero_count_implements c rr Hc) as Hz; by destruct rr.
  - destruct (Hneg k) as [N1 N2], (Hpos k) as [P1 P2]; [lia..|].
    destruct forward_; cbn [forward backward]; rewrite !(len_ok c) by done;
      cbn [mbind outcome_bind];
      rewrite (proj2 (Z.ltb_ge k 0)), ?N1, ?N2, ?P1, ?P2, ?Z.opp_involutive by lia;
      rewrite ?(proj2 (Z.eqb_neq k 0)) by done; cbn [andb].
    + rewrite length_walk_next by lia. apply forward_some_implements; [done|lia].
    + rewrite length_walk_prior by lia. apply backward_some_implements; [done|lia].
Qed.

Lemma absolute_implements c rr t :
  cursor_ok c -> is_i64 t -> t <> 0 ->
  implements c rr (Z.of_nat (length (to_position (size c) (if 0 <? t then t - 1 else size c + t)).2))
    (absolute c t rr) (to_position (size c) (if 0 <? t then t - 1 else size c + t)).
Proof.
  intros Hc Ht H0t. pose proof Hc as [_ Hs Hp]. pose proof (size_nonneg c) as Hn.
  unfold absolute. rewrite len_ok by done. cbn [mbind outcome_bind].
  rewrite (proj2 (Z.eqb_neq t 0)) by done.
  destruct (0 <? t) eqn:E; breflect; cbn [mbind outcome_bind].
  - by apply seek_implements.
  - rewrite add_i64_ok by (unfold_bounds; lia). by apply seek_implements.
Qed.

Lemma all_implements fuel c rr :
  cursor_ok c ->
  let w := walk (spec_next (size c)) (Z.to_nat (size c + 1)) (position c) in
  implements c rr (Z.of_nat (length w.2)) (forward (S fuel) c None rr) w.
Proof.
  intros Hc w. subst w. pose proof Hc as [_ Hs Hp]. pose proof (size_nonneg c) as Hn.
  cbn [forward]. rewrite len_ok by done. cbn [mbind outcome_bind].
  rewrite length_walk_next by lia.
  replace (Z.min (size c + 1) _) with (ahead c) by (unfold ahead; lia).
  by apply forward_all_implements.
Qed.

Lemma apply_implements fuel c d rr :
  (2 <= fuel)%nat -> cursor_ok c -> direction_fits c d ->
  scroll c = true \/ direction_requires_scroll d = false ->
  implements c rr (expected_count (size c) d rr (position c))
    (apply fuel c d rr) (spec_apply (size c) d (position c)).
Proof.
  intros Hf Hc Hd Hsc. pose proof Hc as [_ Hs Hp]. pose proof (size_nonneg c) as Hn.
  unfold apply.
  assert (negb (scroll c) && direction_requires_scroll d = false) as ->.
  { destruct Hsc as [-> | ->]; [done | by rewrite andb_false_r]. }
  pose proof (move_implements true fuel c rr 1 Hf Hc ltac:(unfold_bounds; lia)) as Hfwd1.
  pose proof (move_implements false fuel c rr 1 Hf Hc ltac:(unfold_bounds; lia)) as Hbwd1.
  pose proof (fun t => absolute_implements c rr t Hc) as Habs.
  destruct fuel as [|fuel]; [lia|].
  destruct d as [| | | |t|k|[k|]|[k|]| |k]; cbn [direction_fits zero_move] in *;
    unfold expected_count; cbn [zero_move andb spec_apply].
  - unfold spec_move in Hfwd1. cbn [Z.eqb Z.ltb Z.compare andb Z.to_nat Pos.to_nat Pos.iter_op] in Hfwd1.
    by rewrite walk_one in Hfwd1.
  - unfold spec_move in Hbwd1. change (- (1)) with (-1) in Hbwd1.
    cbn [Z.eqb Z.ltb Z.compare andb Z.opp Z.to_nat Pos.to_nat Pos.iter_op] in Hbwd1.
    by rewrite walk_one in Hbwd1.
  - apply (Habs 1); unfold_bounds; lia.
  - apply (Habs (-1)); unfold_bounds; lia.
  - destruct (t =? 0) eqn:E; breflect.
    + subst t. unfold absolute. rewrite len_ok by done. by apply no_rows_implements.
    + specialize (Habs t Hd E). by destruct (0 <? t).
  - unfold relative. rewrite add_i64_ok by done. by apply seek_implements.
  - by apply (move_implements true).
  - by apply all_implements.
  - by apply (move_implements false).
  - cbn [backward]. rewrite len_ok by done. cbn [mbind outcome_bind].
    rewrite length_walk_prior by lia.
    replace (Z.min (size c + 1) _) with (Z.max 0 (position c)) by lia.
    by apply backward_all_implements.
  - by apply all_implements.
  - destruct (k <? 0) eqn:E; breflect.
    + rewrite neg_i64_ok by done. cbn [mbind outcome_bind].
      pose proof (move_implements false (S fuel) c rr (- k) Hf Hc ltac:(unfold_bounds; lia)) as Hb.
      rewrite Z.opp_involutive in Hb.
      assert ((- k =? 0) = (k =? 0)) as Hk0 by lia. by rewrite Hk0 in Hb.
    + by apply (move_implements true).
Qed.

Lemma spec_apply_range n d p :
  0 <= n -> -1 <= p <= n -> -1 <= (spec_apply n d p).1 <= n.
Proof.
  intros Hn Hp.
  assert (Hto : forall q, -1 <= (to_position n q).1 <= n) by (intros; cbn; lia).
  assert (Hfw : forall k, -1 <= (walk (spec_next n) k p).1 <= n)
    by (intros; rewrite walk_next by done; cbn; lia).
  assert (Hbw : forall k, -1 <= (walk (spec_prior n) k p).1 <= n)
    by (intros; rewrite walk_prior by done; cbn; lia).
  assert (Hmv : forall k, -1 <= (spec_move n k p).1 <= n)
    by (intros k; unfold spec_move; repeat case_match; auto).
  destruct d as [| | | |t|k|[k|]|[k|]| |k]; cbn [spec_apply]; auto.
  - apply Hto.
  - apply Hto.
  - case_match; [cbn; lia|]. by case_match.
Qed.

(** C1: FETCH and MOVE do what the cursor specification says.  On a cursor in its
    invariant, for every direction whose arithmetic fits [i64] and that the
    cursor's scrollability allows, [GatewayCursor::apply] returns (it neither
    panics nor runs out of fuel), moves to the position of the specification,
    hands out exactly the rows it names, in its order, none of them for MOVE,
    reports its count, leaves the data and the options alone and keeps the
    invariant. *)
Theorem apply_refines fuel c d rr :
  (2 <= fuel)%nat -> cursor_ok c -> direction_fits c d ->
  scroll c = true \/ direction_requires_scroll d = false ->
  exists c' st,
    apply fuel c d rr = Ok (c', st)
    /\ position c' = (spec_apply (size c) d (position c)).1
    /\ step_row_list (step_rows st)
       = (if rr then pick (data_rows (data c)) (spec_apply (size c) d (position c)).2 else [])
    /\ step_count st = expected_count (size c) d rr (position c)
    /\ data c' = data c /\ scroll c' = scroll c /\ hold c' = hold c
    /\ cursor_ok c'.
Proof.
  intros Hf Hc Hd Hs. pose proof Hc as [Hda Hsz Hp].
  destruct (apply_implements fuel c d rr Hf Hc Hd Hs) as (st & -> & Hr & Hcount).
  eexists _, st. split_and!; [done..|]. constructor; [done..|].
  apply spec_apply_range; [apply size_nonneg | done].
Qed.

(** How an Arrow result is cut into batches is invisible to the client: two
    cursors with the same rows, at the same position, return the same rows and
    counts on every FETCH and MOVE. *)
Theorem batching_invisible fuel c1 c2 d rr :
  (2 <= fuel)%nat -> cursor_ok c1 -> cursor_ok c2 ->
  data_rows (data c1) = data_rows (data c2) -> position c1 = position c2 ->
  scroll c1 = scroll c2 -> direction_fits c1 d ->
  scroll c1 = true \/ direction_requires_scroll d = false ->
  exists c1' c2' st1 st2,
    apply fuel c1 d rr = Ok (c1', st1) /\ apply fuel c2 d rr = Ok (c2', st2)
    /\ position c1' = position c2' /\ step_count st1 = step_count st2
    /\ step_row_list (step_rows st1) = step_row_list (step_rows st2).
Proof.
  intros Hf H1 H2 Hd Hp Hs Hfit Hsc.
  assert (Hn : size c1 = size c2) by (unfold size; by rewrite Hd).
  assert (Hfit2 : direction_fits c2 d) by (unfold direction_fits in *; by rewrite <- Hp).
  destruct (apply_implements fuel c1 d rr Hf H1 Hfit Hsc) as (st1 & -> & R1 & C1).
  rewrite Hs in Hsc.
  destruct (apply_implements fuel c2 d rr Hf H2 Hfit2 Hsc) as (st2 & -> & R2 & C2).
  eexists _, _, st1, st2. cbn. rewrite R1, R2, C1, C2, Hn, Hd, Hp. done.
Qed.

(** FETCH ALL on a cursor that has not been read returns the whole result in
    order, and a FETCH BACKWARD ALL after it returns it in reverse and leaves the
    cursor where it began. *)
Theorem fetch_all_then_back fuel c :
  (2 <= fuel)%nat -> cursor_ok c -> position c = -1 -> scroll c = true ->
  exists c1 st1 c2 st2,
    apply fuel c All true = Ok (c1, st1)
    /\ step_row_list (step_rows st1) = data_rows (data c)
    /\ step_count st1 = size c
    /\ apply fuel c1 (Backward None) true = Ok (c2, st2)
    /\ step_row_list (step_rows st2) = rev (data_rows (data c))
    /\ step_count st2 = size c /\ c2 = c.
Proof.
  intros Hf Hc Hp Hs. pose proof Hc as [Hd Hsz _]. pose proof (size_nonneg c) as Hn.
  destruct (apply_implements fuel c All true Hf Hc I (or_introl Hs)) as (st1 & -> & R1 & C1).
  set (c1 := set_position c _).
  assert (Hp1 : position c1 = size c).
  { unfold c1. cbn [position set_position spec_apply]. rewrite walk_next by lia. cbn. lia. }
  assert (Hc1 : cursor_ok c1) by (constructor; [done..|]; change (size c1) with (size c); lia).
  destruct (apply_implements fuel c1 (Backward None) true Hf Hc1 I (or_introl Hs))
    as (st2 & E2 & R2 & C2).
  assert (Hback : set_position c1 (spec_apply (size c1) (Backward None) (position c1)).1 = c).
  { change (size c1) with (size c). rewrite Hp1. cbn [spec_apply]. rewrite walk_prior by lia.
    unfold c1. destruct c; cbn in *. unfold set_position; cbn. f_equal. lia. }
  rewrite Hback in E2. exists c1, st1, c, st2. rewrite E2. clear Hback E2.
  change (size c1) with (size c) in *. change (data c1) with (data c) in *.
  rewrite Hp1 in *. rewrite Hp in *. cbn [spec_apply] in *.
  unfold expected_count in C1, C2; cbn [zero_move andb spec_apply] in C1, C2.
  rewrite length_walk_next in C1 by lia. rewrite length_walk_prior in C2 by lia.
  rewrite walk_next in R1 by lia. rewrite walk_prior in R2 by lia. cbn in R1, R2.
  assert (Hall : pick (data_rows (data c)) (seqZ 0 (size c)) = data_rows (data c)).
  { rewrite pick_seqZ by (unfold size; lia). cbn. unfold size. rewrite Nat2Z.id.
    apply firstn_all. }
  split_and!; try done; try lia.
  - rewrite R1, <- Hall at 1. f_equal. f_equal; lia.
  - rewrite R2, <- Hall at 1. rewrite <- pick_rev. f_equal. f_equal. f_equal; lia.
Qed.

(** The directions the parser produces: it turns [FORWARD] with a negative count
    into [BACKWARD]. *)
Definition canonical (d : CursorDirection) : Prop :=
  match d with Forward (Some k) => 0 <= k | _ => True end.

Lemma spec_forward_monotone n d p :
  0 <= n -> -1 <= p <= n -> canonical d -> direction_requires_scroll d = false ->
  p <= (spec_apply n d p).1.
Proof.
  intros Hn Hp Hcan Hd.
  assert (Hmv : forall k, 0 <= k -> p <= (spec_move n k p).1).
  { intros k Hk. unfold spec_move. case_match; [done|]. case_match; breflect; [|lia].
    rewrite walk_next by done. cbn. lia. }
  destruct d as [| | | |t|k|[k|]|[k|]| |k]; try done; cbn [spec_apply]; auto.
  - cbn. lia.
  - rewrite walk_next by done. cbn. lia.
  - rewrite walk_next by done. cbn. lia.
  - apply Hmv. cbn in Hd. by breflect.
Qed.

(** A NO SCROLL cursor never goes backward.  A direction that needs scrolling
    is refused with SQLSTATE 0A000, and every other one leaves the cursor at or
    after its position. *)
Theorem no_scroll_forward_only fuel c d rr :
  (2 <= fuel)%nat -> cursor_ok c -> direction_fits c d -> canonical d ->
  scroll c = false ->
  if direction_requires_scroll d
  then exists e, apply fuel c d rr = Err e /\ err_sqlstate e = lit "0A000"
  else exists c' st, apply fuel c d rr = Ok (c', st) /\ position c <= position c'.
Proof.
  intros Hf Hc Hd Hcan Hs. destruct (direction_requires_scroll d) eqn:E.
  - unfold apply. rewrite Hs, E. cbn [negb andb]. eexists; split; [done|reflexivity].
  - destruct (apply_implements fuel c d rr Hf Hc Hd (or_intror E)) as (st & -> & _).
    eexists _, st. split; [done|]. apply spec_forward_monotone; try done.
    + apply size_nonneg.
    + apply Hc.
Qed.

(** ** The invariant, whatever the direction *)

(** Rows of the kind of the data they come from. *)
Definition same_kind (d : CursorData) (r : CursorStepRows) : Prop :=
  match d, r with
  | CArrow _ _, StepArrow _ | CTyped _ _, StepTyped _ => True
  | _, _ => False
  end.

(** What is true of every result of a move: only the position changes, within the
    result set, and the rows are of the kind of the data. *)
Definition stays c (r : step_result) : Prop :=
  forall c' st, r = Ok (c', st) ->
    exists p, c' = set_position c p /\ -1 <= p <= size c /\ same_kind (data c) (step_rows st).

Lemma empty_like_kind d : same_kind d (empty_like d).
Proof. by destruct d. Qed.
Lemma slice_kind c a b : same_kind (data c) (slice_step_rows c a b).
Proof. unfold slice_step_rows. by destruct (data c). Qed.
Lemma reverse_slice_kind c a b r :
  reverse_slice_step_rows c a b = Ok r -> same_kind (data c) r.
Proof.
  unfold reverse_slice_step_rows. destruct (data c) as [sc bs|cs rs]; [|by intros [= <-]].
  destruct (reverse_slice_batches bs a b); by intros [= <-].
Qed.
Lemma rows_kind c (rr : bool) a b :
  same_kind (data c) (if rr then slice_step_rows c a b else empty_like (data c)).
Proof. destruct rr; [apply slice_kind | apply empty_like_kind]. Qed.

Lemma stays_bind {A} c (o : outcome PgError A) (f : A -> step_result) :
  (forall a, o = Ok a -> stays c (f a)) -> stays c (o ≫= f).
Proof. intros Hf c' st (a & Ha & E)%outcome_bind_Ok. by eapply Hf. Qed.

Lemma stays_len c (f : Z -> step_result) :
  cursor_ok c -> stays c (f (size c)) -> stays c (n ← len c; f n).
Proof. intros Hc Hf. by rewrite len_ok. Qed.

Lemma stays_Ok c p r k :
  -1 <= p <= size c -> same_kind (data c) r ->
  stays c (Ok (set_position c p, {| step_rows := r; step_count := k |})).
Proof. intros Hp Hr c' st [= <- <-]. eauto. Qed.

Lemma stays_no_rows c p : -1 <= p <= size c -> stays c (no_rows c p).
Proof. intros. apply stays_Ok; [done | apply empty_like_kind]. Qed.

Lemma stays_zero c rr : cursor_ok c -> stays c (zero_count c rr).
Proof.
  intros [_ _ Hp] c' st [= <- <-]. exists (position c). split; [by destruct c|]. split; [done|].
  cbn. destruct rr; [|apply empty_like_kind]. unfold current_row_step_rows.
  case_match; [apply slice_kind | apply empty_like_kind].
Qed.

Lemma stays_forward_some c k rr : cursor_ok c -> 0 < k -> stays c (forward_some c k rr).
Proof.
  intros Hc Hk. pose proof (size_nonneg c). unfold forward_some.
  apply (stays_len c); [done|]. apply stays_bind. intros next _.
  assert (0 <= clamp 0 (size c) next) by (unfold clamp; cases; breflect; lia).
  destruct (_ <=? _) eqn:E; breflect; [apply stays_no_rows; lia|].
  apply stays_Ok; [case_match; breflect; lia | apply rows_kind].
Qed.

Lemma stays_forward_all c rr : cursor_ok c -> stays c (forward_all c rr).
Proof.
  intros Hc. pose proof (size_nonneg c). unfold forward_all.
  apply (stays_len c); [done|]. apply stays_bind. intros next _.
  apply stays_Ok; [lia | apply rows_kind].
Qed.

Lemma backward_start_lt c start :
  cursor_ok c -> backward_start c (size c) = Ok start -> start < size c.
Proof.
  intros Hc. pose proof Hc as [_ Hs Hp]. pose proof (size_nonneg c).
  rewrite backward_start_ok by done. intros [= <-]. unfold behind. lia.
Qed.

Lemma rows_kind_rev c (rr : bool) a b r :
  (if rr then reverse_slice_step_rows c a b else Ok (empty_like (data c))) = Ok r ->
  same_kind (data c) r.
Proof. destruct rr; [apply reverse_slice_kind | intros [= <-]; apply empty_like_kind]. Qed.

Lemma stays_backward_some c k rr : cursor_ok c -> 0 < k -> stays c (backward_some c k rr).
Proof.
  intros Hc Hk. pose proof (size_nonneg c). unfold backward_some.
  apply (stays_len c); [done|]. apply stays_bind. intros start Hst%backward_start_lt; [|done].
  destruct (_ <? _) eqn:E; breflect; [apply stays_no_rows; lia|].
  apply stays_bind. intros r Hr%rows_kind_rev.
  apply stays_Ok; [case_match; breflect; lia | done].
Qed.

Lemma stays_backward_all c rr : cursor_ok c -> stays c (backward_all c rr).
Proof.
  intros Hc. pose proof (size_nonneg c). unfold backward_all.
  apply (stays_len c); [done|]. apply stays_bind. intros start Hst%backward_start_lt; [|done].
  destruct (_ <? _) eqn:E; breflect; [apply stays_no_rows; lia|].
  apply stays_bind. intros r Hr%rows_kind_rev. apply stays_Ok; [lia | done].
Qed.

Lemma stays_moves fuel c k rr :
  cursor_ok c -> stays c (forward fuel c k rr) /\ stays c (backward fuel c k rr).
Proof.
  intros Hc. revert k. induction fuel as [|fuel IH]; intros k; [done|].
  cbn [forward backward]. rewrite (len_ok c Hc). cbn [mbind outcome_bind].
  destruct k as [k|]; [|split; [by apply stays_forward_all | by apply stays_backward_all]].
  destruct (k <? 0) eqn:Ek; [split; apply stays_bind; intros k' _; apply IH|].
  destruct (k =? 0) eqn:Ez; breflect; [split; by apply stays_zero|].
  split; [apply stays_forward_some | apply stays_backward_some]; (done || lia).
Qed.

Lemma stays_seek c t rr : cursor_ok c -> stays c (seek c t rr).
Proof.
  intros Hc. pose proof (size_nonneg c). unfold seek. apply (stays_len c); [done|].
  destruct (t <? 0) eqn:Et; [apply stays_no_rows; lia|].
  destruct (_ <=? _) eqn:E; breflect; [apply stays_no_rows; lia|].
  apply stays_Ok; [lia|]. apply (rows_kind (set_position c t)).
Qed.

Lemma stays_absolute c t rr : cursor_ok c -> stays c (absolute c t rr).
Proof.
  intros Hc. pose proof (size_nonneg c). unfold absolute. apply (stays_len c); [done|].
  destruct (t =? 0); [apply stays_no_rows; lia|].
  apply stays_bind. intros t' _. by apply stays_seek.
Qed.

Lemma apply_stays fuel c d rr : cursor_ok c -> stays c (apply fuel c d rr).
Proof.
  intros Hc. unfold apply. case_match; [done|]. destruct d; try (by apply stays_moves);
    try (by apply stays_absolute).
  - apply stays_bind. intros t _. by apply stays_seek.
  - case_match; [apply stays_bind; intros k' _|]; by apply stays_moves.
Qed.

Lemma set_position_ok c p : cursor_ok c -> -1 <= p <= size c -> cursor_ok (set_position c p).
Proof. intros [? ? ?] Hp. by constructor. Qed.
End theorems.

(** ** The arguments the refinement leaves out *)

Section extremes.
Context `{ArrowLib}.

Lemma release_neg_min : @neg_i64 release_profile PgError i64_min = Ok i64_min.
Proof. reflexivity. Qed.

Lemma backward_min_diverges fuel c rr :
  cursor_ok c ->
  @backward release_profile _ fuel c (Some i64_min) rr = OutOfFuel
  /\ @forward release_profile _ fuel c (Some i64_min) rr = OutOfFuel.
Proof.
  intros Hc. induction fuel as [|fuel [IHb IHf]]; [done|].
  cbn [backward forward]. rewrite (len_ok c Hc). cbn [mbind outcome_bind].
  change (i64_min <? 0) with true. cbn iota. rewrite release_neg_min. cbn [mbind outcome_bind].
  done.
Qed.

(** The count [i64::MIN] has no result.  [FETCH -9223372036854775808] panics
    in a build with overflow checks; without them the negation wraps to itself and
    [forward] and [backward] call each other for ever, whatever the fuel. *)
Theorem apply_min_count_diverges fuel c rr :
  cursor_ok c -> scroll c = true ->
  @apply release_profile _ fuel c (Count i64_min) rr = OutOfFuel
  /\ @apply dev_profile _ fuel c (Count i64_min) rr = Panic.
Proof.
  intros Hc Hs. unfold apply. rewrite Hs. cbn [negb andb].
  change (i64_min <? 0) with true. cbn iota. split.
  - rewrite release_neg_min. cbn [mbind outcome_bind]. by apply backward_min_diverges.
  - reflexivity.
Qed.

(** [FETCH RELATIVE k] past [i64::MAX] does not stop after the last row: in a
    build without overflow checks the sum wraps and the cursor lands before the
    first row, with checks the addition panics. *)
Theorem relative_overflow fuel c k rr :
  cursor_ok c -> scroll c = true -> is_i64 k -> i64_max < position c + k ->
  (exists c' st, @apply release_profile _ fuel c (Relative k) rr = Ok (c', st)
     /\ position c' = -1 /\ step_count st = 0
     /\ (spec_apply (size c) (Relative k) (position c)).1 = size c)
  /\ @apply dev_profile _ fuel c (Relative k) rr = Panic.
Proof.
  intros Hc Hs Hk Hov. pose proof Hc as [_ Hsz Hp]. pose proof (size_nonneg c) as Hn.
  unfold apply, relative, add_i64, arith. rewrite Hs. cbn [negb andb].
  change (2 ^ (64 - 1)) with 9223372036854775808. change (2 ^ 64) with 18446744073709551616.
  unfold_bounds.
  rewrite (proj2 (Z.ltb_ge _ _)), andb_false_r by lia. cbn. split; [|done].
  assert (Hw : wrap_signed 64 (position c + k) = position c + k - 18446744073709551616).
  { unfold wrap_signed. change (2 ^ (64 - 1)) with 9223372036854775808.
    change (2 ^ 64) with 18446744073709551616.
    rewrite <- (Z.mod_unique_pos _ _ 1 (position c + k - 9223372036854775808)); lia. }
  rewrite Hw. unfold seek. rewrite len_ok by done. cbn [mbind outcome_bind].
  rewrite (proj2 (Z.ltb_lt _ _)) by lia. eexists _, _. split; [reflexivity|].
  split; [done|]. split; [done|]. cbn. lia.
Qed.

(** And before the first row: only from there the sum can be below [i64::MIN]. *)
Lemma relative_underflow fuel c k rr :
  cursor_ok c -> scroll c = true -> is_i64 k -> position c + k < i64_min ->
  (exists c' st, @apply release_profile _ fuel c (Relative k) rr = Ok (c', st)
     /\ position c' = size c /\ step_count st = 0)
  /\ @apply dev_profile _ fuel c (Relative k) rr = Panic.
Proof.
  intros Hc Hs Hk Hov. pose proof Hc as [_ Hsz Hp]. pose proof (size_nonneg c) as Hn.
  unfold apply, relative, add_i64, arith. rewrite Hs. cbn [negb andb].
  change (2 ^ (64 - 1)) with 9223372036854775808. unfold_bounds.
  rewrite (proj2 (Z.leb_gt (Z.opp 9223372036854775808) (position c + k))) by lia.
  assert (position c + k = -9223372036854775809) as -> by lia.
  cbn [andb]. split; [|done]. unfold overflow_checks, release_profile. unfold seek. rewrite len_ok by done. cbn [mbind outcome_bind].
  change (wrap_signed 64 (-9223372036854775809)) with 9223372036854775807. cbn [Z.ltb Z.compare].
  rewrite (proj2 (Z.leb_le (size c) 9223372036854775807)) by lia. by eexists _, _.
Qed.

Definition direction_i64 (d : CursorDirection) : Prop :=
  match d with
  | Forward (Some k) | Backward (Some k) | Count k | Absolute k | Relative k => is_i64 k
  | _ => True
  end.
Definition min_count (d : CursorDirection) : Prop :=
  match d with
  | Forward (Some k) | Backward (Some k) | Count k => k = i64_min
  | _ => False
  end.

Lemma fits_dec c d : direction_i64 d ->
  direction_fits c d \/ min_count d \/ exists k, d = Relative k /\ ~ is_i64 (position c + k).
Proof.
  destruct d as [| | | |t|k|[k|]|[k|]| |k]; cbn; auto; intros Hk.
  - destruct (decide (is_i64 (position c + k))); [by left|]. right. right. eauto.
  - destruct (decide (k = i64_min)); [auto|]. left. unfold_bounds. lia.
  - destruct (decide (k = i64_min)); [auto|]. left. unfold_bounds. lia.
  - destruct (decide (k = i64_min)); [auto|]. left. unfold_bounds. lia.
Qed.

Lemma min_count_fails fuel c d rr :
  (0 < fuel)%nat -> cursor_ok c -> scroll c = true -> min_count d ->
  (forall n, @apply release_profile _ n c d rr = OutOfFuel)
  /\ @apply dev_profile _ fuel c d rr = Panic.
Proof.
  intros Hf Hc Hs Hd. destruct fuel as [|fuel]; [lia|].
  destruct d as [| | | | | |[k|]|[k|]| |k]; try done; cbn in Hd; subst k;
    unfold apply; rewrite Hs; cbn [negb andb].
  - split; [intros n; by apply backward_min_diverges|].
    cbn [forward]. rewrite (len_ok c Hc). done.
  - split; [intros n; by apply backward_min_diverges|].
    cbn [backward]. rewrite (len_ok c Hc). done.
  - split; [|done]. intros n. change (i64_min <? 0) with true. cbn iota. rewrite release_neg_min.
    by apply backward_min_diverges.
Qed.

(** C10: where the arithmetic of a FETCH or MOVE leaves [i64], and what happens then.
    With overflow checks the code panics exactly for the count [i64::MIN] and for a
    RELATIVE past the ends of [i64]; without them, exactly the count [i64::MIN] has no
    result, whatever the fuel, since [forward] and [backward] call each other for ever,
    and RELATIVE wraps: it ends at the other end of the result than the specification. *)
Theorem apply_overflows fuel c d rr :
  (2 <= fuel)%nat -> cursor_ok c -> scroll c = true -> direction_i64 d ->
  (@apply dev_profile _ fuel c d rr = Panic <-> ~ direction_fits c d)
  /\ ((forall n, @apply release_profile _ n c d rr = OutOfFuel) <-> min_count d)
  /\ (forall k, d = Relative k -> ~ direction_fits c d ->
      exists c' st, @apply release_profile _ fuel c d rr = Ok (c', st) /\ step_count st = 0
        /\ position c' = (if 0 <? k then -1 else size c)
        /\ (spec_apply (size c) d (position c)).1 = (if 0 <? k then size c else -1)).
Proof.
  intros Hf Hc Hs Hd. pose proof Hc as [_ Hsz Hp].
  destruct (fits_dec c d Hd) as [Hfit|[Hmin|(k & -> & Hk)]].
  - destruct (@apply_implements dev_profile _ fuel c d rr Hf Hc Hfit (or_introl Hs)) as (st & -> & _).
    split_and!; [by split|..|naive_solver]. split; [|].
    + destruct (@apply_implements release_profile _ fuel c d rr Hf Hc Hfit (or_introl Hs))
        as (st' & E & _). intros Hn. by rewrite Hn in E.
    + intros Hmin. destruct d as [| | | | | |[k|]|[k|]| |k]; try done; cbn in *; lia.
  - destruct (min_count_fails fuel c d rr) as [Hr Hdev]; [lia|done..|]. rewrite Hdev.
    split_and!; [split; [intros _ Hfit|done]|done|by intros k ->].
    destruct d as [| | | | | |[k|]|[k|]| |k]; try done; cbn in *; lia.
  - cbn [direction_fits direction_i64 min_count] in *. unfold is_i64 in *.
    assert (Hcase : i64_max < position c + k \/ position c + k < i64_min) by lia.
    pose proof (size_nonneg c). cbn [spec_apply] in *.
    destruct Hcase as [Hov|Hov].
    + destruct (relative_overflow fuel c k rr Hc Hs Hd Hov) as [(c' & st & E & Hp' & Hc' & Hspec) ->].
      split_and!; [split; [intros _; lia|done]| |].
      * split; [|done]. intros Hn. by rewrite Hn in E.
      * intros k' [= <-] _. exists c', st. cbn [spec_apply] in Hspec.
        by rewrite (proj2 (Z.ltb_lt 0 k)) by (unfold_bounds; lia).
    + destruct (relative_underflow fuel c k rr Hc Hs Hd Hov) as [(c' & st & E & Hp' & Hc') ->].
      split_and!; [split; [intros _; lia|done]| |].
      * split; [|done]. intros Hn. by rewrite Hn in E.
      * intros k' [= <-] _. exists c', st.
        rewrite (proj2 (Z.ltb_ge 0 k)) by (unfold_bounds; lia). split_and!; [done..|].
        unfold to_position, clamp. unfold_bounds. cbn. lia.
Qed.
End extremes.

(** ** Witnesses *)

#[local] Existing Instance list_arrow.

Definition ex_rows : list (list (option str)) :=
  [[Some (lit "a")]; [None]; [Some (lit "c")]].
Definition ex_cursor (scroll : bool) (p : Z) : GatewayCursor :=
  {| data := CTyped [{| column_name := lit "x"; column_data_type := JNull |}] ex_rows;
     position := p; scroll := scroll; hold := false |}.
Definition ex_array (l : list string) : list_array :=
  {| la_type := DtUtf8; la_cells := Some ∘ lit <$> l |}.
Definition ex_batch1 : list_batch :=
  {| lb_schema := []; lb_columns := [ex_array ["a"; "b"]]; lb_rows := 2; lb_ok := eq_refl |}%string.
Definition ex_batch2 : list_batch :=
  {| lb_schema := []; lb_columns := [ex_array ["c"]]; lb_rows := 1; lb_ok := eq_refl |}%string.
Definition ex_batch12 : list_batch :=
  {| lb_schema := []; lb_columns := [ex_array ["a"; "b"; "c"]]; lb_rows := 3; lb_ok := eq_refl |}%string.
Definition ex_arrow_cursor (bs : list list_batch) : GatewayCursor :=
  {| data := CArrow [] bs; position := -1; scroll := true; hold := true |}.

Lemma ex_cursor_ok s p : -1 <= p <= 3 -> cursor_ok (ex_cursor s p).
Proof. intros Hp. constructor; [done|done|done]. Qed.

Lemma ex_arrow_ok bs :
  Forall reversible bs -> (length (batches_rows bs) < 10)%nat -> cursor_ok (ex_arrow_cursor bs).
Proof.
  intros Hb Hl.
  assert (Hs : size (ex_arrow_cursor bs) = Z.of_nat (length (batches_rows bs))).
  { unfold size. cbn [data ex_arrow_cursor data_rows]. f_equal. apply length_fmap. }
  constructor; [done| |change (position _) with (-1)]; rewrite Hs; unfold_bounds; lia.
Qed.

Lemma apply_refines_witness :
  exists c' st, @apply dev_profile _ 2 (ex_cursor true 2) (Backward (Some 2)) true = Ok (c', st)
    /\ position c' = 0 /\ step_row_list (step_rows st) = [inr [None]; inr [Some (lit "a")]].
Proof.
  destruct (@apply_refines dev_profile _ 2 (ex_cursor true 2) (Backward (Some 2)) true)
    as (c' & st & E & Hp & Hr & _);
    [lia | by apply ex_cursor_ok | by cbn; unfold_bounds | by left |].
  exists c', st. split; [exact E|]. split; [exact Hp|]. rewrite Hr. reflexivity.
Defined.

Lemma batching_invisible_witness :
  exists c1' c2' st1 st2,
    @apply dev_profile _ 2 (ex_arrow_cursor [ex_batch1; ex_batch2]) (Forward (Some 3)) true = Ok (c1', st1)
    /\ @apply dev_profile _ 2 (ex_arrow_cursor [ex_batch12]) (Forward (Some 3)) true = Ok (c2', st2)
    /\ position c1' = position c2' /\ step_count st1 = step_count st2
    /\ step_row_list (step_rows st1) = step_row_list (step_rows st2).
Proof.
  apply (@batching_invisible dev_profile _ 2 (ex_arrow_cursor [ex_batch1; ex_batch2])
           (ex_arrow_cursor [ex_batch12]));
    [lia | apply ex_arrow_ok | apply ex_arrow_ok | reflexivity | reflexivity | reflexivity
     | by cbn; unfold_bounds | by left].
  - repeat constructor; done.
  - cbn. lia.
  - repeat constructor; done.
  - cbn. lia.
Defined.

Lemma fetch_all_then_back_witness :
  exists c1 st1 c2 st2,
    @apply dev_profile _ 2 (ex_cursor true (-1)) All true = Ok (c1, st1)
    /\ step_row_list (step_rows st1) = data_rows (data (ex_cursor true (-1)))
    /\ step_count st1 = 3
    /\ @apply dev_profile _ 2 c1 (Backward None) true = Ok (c2, st2)
    /\ step_row_list (step_rows st2) = rev (data_rows (data (ex_cursor true (-1))))
    /\ step_count st2 = 3 /\ c2 = ex_cursor true (-1).
Proof.
  apply (@fetch_all_then_back dev_profile _ 2 (ex_cursor true (-1)));
    [lia | by apply ex_cursor_ok | reflexivity | reflexivity].
Defined.

Lemma no_scroll_forward_only_witness :
  exists e, @apply dev_profile _ 2 (ex_cursor false 1) Prior true = Err e
            /\ err_sqlstate e = lit "0A000".
Proof.
  apply (@no_scroll_forward_only dev_profile _ 2 (ex_cursor false 1) Prior true);
    [lia | by apply ex_cursor_ok | done | done | reflexivity].
Defined.

Lemma apply_min_count_diverges_witness :
  @apply release_profile _ 1000 (ex_cursor true 1) (Count i64_min) true = OutOfFuel
  /\ @apply dev_profile _ 1000 (ex_cursor true 1) (Count i64_min) true = Panic.
Proof.
  apply (apply_min_count_diverges 1000 (ex_cursor true 1)); [by apply ex_cursor_ok | reflexivity].
Defined.

Lemma relative_overflow_witness :
  (exists c' st,
     @apply release_profile _ 2 (ex_cursor true 1) (Relative i64_max) true = Ok (c', st)
     /\ position c' = -1 /\ step_count st = 0
     /\ (spec_apply 3 (Relative i64_max) 1).1 = 3)
  /\ @apply dev_profile _ 2 (ex_cursor true 1) (Relative i64_max) true = Panic.
Proof.
  apply (relative_overflow 2 (ex_cursor true 1)); [by apply ex_cursor_ok | reflexivity | done | done].
Defined.

Lemma apply_overflows_witness :
  @apply dev_profile _ 2 (ex_cursor true 1) (Backward (Some i64_min)) true = Panic
  /\ (forall n, @apply release_profile _ n (ex_cursor true 1) (Backward (Some i64_min)) true = OutOfFuel)
  /\ exists c' st, @apply release_profile _ 2 (ex_cursor true 1) (Relative i64_max) true = Ok (c', st)
       /\ position c' = -1.
Proof.
  assert (Hc : cursor_ok (ex_cursor true 1)) by by apply ex_cursor_ok.
  destruct (apply_overflows 2 (ex_cursor true 1) (Backward (Some i64_min)) true)
    as (Hdev & Hrel & _); [lia|done|done|by cbn; unfold_bounds|].
  destruct (apply_overflows 2 (ex_cursor true 1) (Relative i64_max) true)
    as (_ & _ & Hwrap); [lia|done|done|by cbn; unfold_bounds|].
  split; [|split].
  - apply Hdev. cbn. lia.
  - by apply Hrel.
  - destruct (Hwrap i64_max) as (c' & st & E & _ & Hp & _); [done|by cbn; unfold_bounds; lia|].
    exists c', st. by split.
Defined.
