(* ===== verification/Policy.v ===== *)
(** * Statement classification (src/src/policy.rs)

    [classify_statement] decides from the text of a statement what the gateway
    does with it.  The regular expressions run on the engine of Regex.v.  Only the
    negation of a FETCH or MOVE count can panic, so only the cursor part returns
    an [outcome]. *)

From S2P Require Import Prelude RustStr RustInt Regex Plan.
#[local] Open Scope nat_scope.

Section policy.
Context `{BuildProfile} `{RegexEngine}.

(** ** Patterns *)

Definition COMMENT_RE := lit "(?s)/\*.*?\*/|--[^\n\r]*".
Definition SET_ASSIGN_RE :=
  lit "(?i)^SET\s+(SESSION\s+)?[A-Za-z_][A-Za-z0-9_.]*\s*(=|TO)\s*\S".
Definition RESET_RE := lit "(?i)^RESET\s+(ALL|[A-Za-z_][A-Za-z0-9_.]*)$".
Definition SHOW_RE := lit "(?i)^SHOW\s+([A-Za-z_][A-Za-z0-9_ .-]*)$".
Definition SET_SEARCH_PATH_RE :=
  lit "(?i)^SET\s+(?:SESSION\s+)?search_path\s*(?:=|TO\b)\s*(.+)$".
Definition DECLARE_CURSOR_RE :=
  lit "(?is)^DECLARE\s+(?P<name>`[^`]+`|[A-Za-z_][A-Za-z0-9_]*)\s+(?P<options>(?:(?:BINARY|INSENSITIVE|ASENSITIVE|NO\s+SCROLL|SCROLL)\s+)*)CURSOR\s*(?P<hold>WITH\s+HOLD|WITHOUT\s+HOLD)?\s+FOR\s+(?P<query>.+)$".
Definition POSITIONED_WRITE_RE :=
  lit "(?i)\bFOR\s+(UPDATE|SHARE|NO\s+KEY\s+UPDATE|KEY\s+SHARE)\b|\bWHERE\s+CURRENT\s+OF\b".
Definition SET_CHARACTERISTICS_RE :=
  lit "(?i)^SET\s+SESSION\s+CHARACTERISTICS\s+AS\s+TRANSACTION\b".
Definition SET_TRANSACTION_RE := lit "(?i)^SET\s+(SESSION\s+)?TRANSACTION\b".
Definition AS_RE := lit "(?i)^(.*?)\s+AS\s+`?([A-Za-z_][A-Za-z0-9_]*)`?$".

(** ** Words *)

Definition is_semicolon (c : char) : bool := (c =? 59)%N.
Definition is_quote (c : char) : bool := (c =? 34)%N.

Definition normalize_sql (sql : str) : str :=
  trim (trim_end_matches is_semicolon (trim (replace_all COMMENT_RE (lit " ") sql))).

Definition first_keyword (sql : str) : str :=
  to_ascii_uppercase (trim_start_matches (fun c => (c =? 40)%N)
    (default [] (head (split_whitespace sql)))).

Definition second_keyword (sql : str) : str :=
  let tokens :=
    (fun token => to_ascii_uppercase (trim_matches
       (fun ch => negb (is_ascii_alphanumeric ch) && negb (ch =? 95)%N) token))
    <$> tail (split_whitespace sql) in
  match tokens with
  | [] => []
  | first :: tokens =>
      if str_eqb first (lit "OR") && bool_decide (head tokens = Some (lit "REPLACE"))
      then default [] (head (tail tokens))
      else first
  end.

Definition unquote_identifier (identifier : str) : str :=
  replace (lit "``") (lit "`")
    (trim_matches is_quote (trim_end_matches is_semicolon (trim identifier))).

(** ** Plans *)

Definition execute (command : string) (row_count : RowCountPolicy) : StatementPlan :=
  Execute (lit command) row_count.
Definition unsupported_policy (message : str) : StatementPlan :=
  Reject (lit "0A000") (lit "unsupported by gateway policy: " ++ message).
Definition unsupported_no_equivalent (message : str) : StatementPlan :=
  Reject (lit "0A000")
    (lit "unsupported because no Exasol equivalent is available: " ++ message).
Definition syntax_error (message : string) : StatementPlan :=
  Reject (lit "42601") (lit message).

(** ** DDL *)

Definition classify_create (sql : str) : StatementPlan :=
  let w := second_keyword sql in
  if one_of w ["TABLE"]%string then execute "CREATE TABLE" Omit
  else if one_of w ["VIEW"]%string then execute "CREATE VIEW" Omit
  else if one_of w ["SCHEMA"]%string then execute "CREATE SCHEMA" Omit
  else if one_of w ["ROLE"; "USER"]%string then unsupported_policy
    (lit "role and user creation require explicit PostgreSQL-to-Exasol privilege mapping before they can be exposed")
  else if one_of w ["FUNCTION"; "PROCEDURE"; "SCRIPT"]%string then unsupported_policy
    (lit "routine creation requires explicit PostgreSQL-to-Exasol routine mapping before it can be exposed")
  else if one_of w ["INDEX"; "EXTENSION"; "PUBLICATION"; "SUBSCRIPTION"; "POLICY"; "RULE"; "EVENT";
     "TRIGGER"; "TABLESPACE"; "SERVER"; "FOREIGN"; "ACCESS"; "TEXT"; "OPERATOR";
     "LANGUAGE"; "CAST"; "COLLATION"; "CONVERSION"; "DOMAIN"; "TYPE"; "STATISTICS";
     "TRANSFORM"]%string then unsupported_no_equivalent
    (lit "PostgreSQL CREATE " ++ w ++ lit " has no supported Exasol equivalent in this gateway")
  else Reject (lit "0A000") (lit "unsupported PostgreSQL CREATE target: " ++ w).

Definition classify_alter (sql : str) : StatementPlan :=
  let w := second_keyword sql in
  if one_of w ["TABLE"]%string then execute "ALTER TABLE" Omit
  else if one_of w ["VIEW"]%string then execute "ALTER VIEW" Omit
  else if one_of w ["SCHEMA"]%string then execute "ALTER SCHEMA" Omit
  else if one_of w ["ROLE"; "USER"]%string then unsupported_policy
    (lit "role and user alteration require explicit PostgreSQL-to-Exasol privilege mapping before they can be exposed")
  else if one_of w ["SYSTEM"]%string then unsupported_policy
    (lit "ALTER SYSTEM is not exposed through the PostgreSQL gateway policy")
  else if one_of w ["FUNCTION"; "PROCEDURE"; "ROUTINE"; "EXTENSION"; "PUBLICATION"; "SUBSCRIPTION";
     "POLICY"; "RULE"; "EVENT"; "TRIGGER"; "TABLESPACE"; "SERVER"; "FOREIGN";
     "ACCESS"; "TEXT"; "OPERATOR"; "LANGUAGE"; "COLLATION"; "CONVERSION"; "DOMAIN";
     "TYPE"; "STATISTICS"]%string then unsupported_no_equivalent
    (lit "PostgreSQL ALTER " ++ w ++ lit " has no supported Exasol equivalent in this gateway")
  else Reject (lit "0A000") (lit "unsupported PostgreSQL ALTER target: " ++ w).

Definition classify_drop (sql : str) : StatementPlan :=
  let w := second_keyword sql in
  if one_of w ["TABLE"]%string then execute "DROP TABLE" Omit
  else if one_of w ["VIEW"]%string then execute "DROP VIEW" Omit
  else if one_of w ["SCHEMA"]%string then execute "DROP SCHEMA" Omit
  else if one_of w ["ROLE"; "USER"]%string then unsupported_policy
    (lit "role and user dropping require explicit PostgreSQL-to-Exasol privilege mapping before they can be exposed")
  else if one_of w ["FUNCTION"; "PROCEDURE"; "SCRIPT"]%string then unsupported_policy
    (lit "routine dropping requires explicit PostgreSQL-to-Exasol routine mapping before it can be exposed")
  else if one_of w ["INDEX"; "EXTENSION"; "PUBLICATION"; "SUBSCRIPTION"; "POLICY"; "RULE"; "EVENT";
     "TRIGGER"; "TABLESPACE"; "SERVER"; "FOREIGN"; "ACCESS"; "TEXT"; "OPERATOR";
     "LANGUAGE"; "CAST"; "COLLATION"; "CONVERSION"; "DOMAIN"; "TYPE"; "STATISTICS";
     "TRANSFORM"; "OWNED"]%string then unsupported_no_equivalent
    (lit "PostgreSQL DROP " ++ w ++ lit " has no supported Exasol equivalent in this gateway")
  else Reject (lit "0A000") (lit "unsupported PostgreSQL DROP target: " ++ w).

(** ** Cursor statements *)

Definition contains_positioned_cursor_write (query : str) : bool :=
  is_match POSITIONED_WRITE_RE query.

Definition classify_declare_cursor (sql : str) : StatementPlan :=
  match captures_of DECLARE_CURSOR_RE sql with
  | None => syntax_error
      "unsupported DECLARE syntax; only SQL cursor declarations are supported"
  | Some cap =>
      let group name := cap_name DECLARE_CURSOR_RE sql cap (lit name) in
      let name := unquote_identifier (default [] (group "name"%string)) in
      let options := to_ascii_uppercase (default [] (group "options"%string)) in
      let hold :=
        match group "hold"%string with
        | Some m => eq_ignore_ascii_case m (lit "WITH HOLD")
        | None => false
        end in
      let query := default [] (trim <$> group "query"%string) in
      if existsb (fun token => str_eqb token (lit "BINARY")) (split_whitespace options)
      then unsupported_policy (lit "binary SQL cursors are not implemented")
      else if contains (lit "INSENSITIVE") options || contains (lit "ASENSITIVE") options
      then unsupported_policy (lit "cursor sensitivity options are not implemented")
      else if contains_positioned_cursor_write query
      then unsupported_policy
        (lit "updatable cursors, FOR UPDATE, FOR SHARE, and positioned writes are not implemented")
      else Cursor (PlanDeclare
        {| declare_name := name; declare_query := query;
           declare_scroll := contains (lit "SCROLL") options
                             && negb (contains (lit "NO SCROLL") options);
           declare_hold := hold |})
  end.

Definition is_word (w : string) (token : str) : bool := eq_ignore_ascii_case token (lit w).

(** A count after FORWARD ([other := Backward]) or BACKWARD ([other := Forward]):
    a negative one is turned round. *)
Definition signed_count (same other : option Z -> CursorDirection) (value : str)
    : outcome PgError (option CursorDirection) :=
  match parse_i64 value with
  | None => Ok None
  | Some count =>
      if (count <? 0)%Z then count' ← neg_i64 count; Ok (Some (other (Some count')))
      else Ok (Some (same (Some count)))
  end.

Definition parse_cursor_direction (tokens : list str)
    : outcome PgError (option CursorDirection) :=
  match tokens with
  | [] => Ok (Some Next)
  | [one] =>
      Ok (if is_word "NEXT" one then Some Next
          else if is_word "PRIOR" one then Some Prior
          else if is_word "FIRST" one then Some First
          else if is_word "LAST" one then Some Last
          else if is_word "ALL" one then Some All
          else if is_word "FORWARD" one then Some (Forward (Some 1%Z))
          else if is_word "BACKWARD" one then Some (Backward (Some 1%Z))
          else Count <$> parse_i64 one)
  | [keyword; value] =>
      if is_word "ABSOLUTE" keyword then Ok (Absolute <$> parse_i64 value)
      else if is_word "RELATIVE" keyword then Ok (Relative <$> parse_i64 value)
      else if is_word "FORWARD" keyword then
        if is_word "ALL" value then Ok (Some (Forward None))
        else signed_count Forward Backward value
      else if is_word "BACKWARD" keyword then
        if is_word "ALL" value then Ok (Some (Backward None))
        else signed_count Backward Forward value
      else Ok None
  | _ => Ok None
  end.

(** The tokens of the direction and the name: [FROM] and [IN] are skipped, and
    [FETCH c] has no direction. *)
Definition split_position (tokens : list str) : list str * str :=
  let n := length tokens in
  let at_ i := default [] (tokens !! i) in
  if (3 <=? n) && one_of (to_ascii_uppercase (at_ (n - 2))) ["FROM"; "IN"]%string
  then (take (n - 3) (drop 1 tokens), at_ (n - 1))
  else if n =? 2 then ([], at_ 1)
  else (take (n - 2) (drop 1 tokens), at_ (n - 1)).

Definition parse_cursor_position (command sql : str)
    : outcome PgError (option CursorPosition) :=
  let tokens := split_whitespace sql in
  match tokens with
  | [] => Ok None
  | first :: _ =>
      if negb (str_eqb (to_ascii_uppercase first) command) || (length tokens <? 2)
      then Ok None
      else
        let '(direction_tokens, name) := split_position tokens in
        direction ← parse_cursor_direction direction_tokens;
        Ok (option_map (fun d => {| position_name := unquote_identifier name;
                                    position_direction := d |}) direction)
  end.

Definition classify_cursor_position (command sql : str) : outcome PgError StatementPlan :=
  position ← parse_cursor_position command sql;
  match position with
  | None => Ok (Reject (lit "42601")
                  (lit "unsupported " ++ command ++ lit " cursor syntax"))
  | Some position =>
      if str_eqb command (lit "FETCH") then Ok (Cursor (PlanFetch position))
      else if str_eqb command (lit "MOVE") then Ok (Cursor (PlanMove position))
      else Panic
  end.

Definition classify_close_cursor (sql : str) : StatementPlan :=
  match split_whitespace sql with
  | [_; name] =>
      if is_word "ALL" name then Cursor (PlanClose CloseAll)
      else Cursor (PlanClose (CloseOne (unquote_identifier name)))
  | _ => syntax_error "unsupported CLOSE cursor syntax"
  end.

(** ** search_path *)

Inductive SearchPathTarget :=
| Single (schema : str)
| Default
| Invalid.

(** The loop of [top_level_comma_index] at index [idx]; a doubled quote inside a
    quoted segment consumes two characters. *)
Fixpoint comma_go (in_double in_single : bool) (idx : nat) (value : str) : option nat :=
  match value with
  | [] => None
  | ch :: rest =>
      if (ch =? 34)%N && negb in_single then
        match rest with
        | 34%N :: rest' =>
            if in_double then comma_go in_double in_single (S (S idx)) rest'
            else comma_go true in_single (S idx) rest
        | _ => comma_go (negb in_double) in_single (S idx) rest
        end
      else if (ch =? 39)%N && negb in_double then
        match rest with
        | 39%N :: rest' =>
            if in_single then comma_go in_double in_single (S (S idx)) rest'
            else comma_go in_double true (S idx) rest
        | _ => comma_go in_double (negb in_single) (S idx) rest
        end
      else if (ch =? 44)%N && negb in_double && negb in_single then Some idx
      else comma_go in_double in_single (S idx) rest
  end.
Definition top_level_comma_index (value : str) : option nat := comma_go false false 0 value.

(** [open] and [close] are ASCII quotes. *)
Definition strip_enclosing (value : str) (open close : char) : option str :=
  if byte_len value <? 2 then None
  else
    match head value, list.last value with
    | Some first, Some last =>
        if negb (first =? open)%N || negb (last =? close)%N then None
        else Some (take (length value - 2) (drop 1 value))
    | _, _ => None
    end.

(** The part of [parse_search_path_value] for a value without top-level comma. *)
Definition parse_search_path_entry (trimmed : str) : SearchPathTarget :=
  if eq_ignore_ascii_case trimmed (lit "DEFAULT") then Default
  else match strip_enclosing trimmed 34 34 with
  | Some inner =>
      let unescaped := replace (lit "``") (lit "`") inner in
      match unescaped with [] => Invalid | _ => Single unescaped end
  | None =>
  match strip_enclosing trimmed 39 39 with
  | Some inner => match inner with [] => Invalid | _ => Single inner end
  | None => Single trimmed
  end end.

(** The prefix before a top-level comma has none, but may be trimmed: the fuel
    is the length of the value, and every call shortens it. *)
Fixpoint parse_search_path_go (fuel : nat) (rhs : str) : option SearchPathTarget :=
  match fuel with
  | O => None
  | S fuel =>
      let trimmed := trim rhs in
      match trimmed with
      | [] => Some Invalid
      | _ =>
          match top_level_comma_index trimmed with
          | Some idx => parse_search_path_go fuel (take idx trimmed)
          | None => Some (parse_search_path_entry trimmed)
          end
      end
  end.
Definition parse_search_path_value (rhs : str) : SearchPathTarget :=
  default Invalid (parse_search_path_go (S (length rhs)) rhs).

(** ** Session commands answered by the gateway *)

Definition is_safe_set (sql : str) : bool :=
  if is_match SET_CHARACTERISTICS_RE sql then true
  else if is_match SET_TRANSACTION_RE sql then false
  else is_match SET_ASSIGN_RE sql.

Definition show_value (key : str) : option str :=
  if one_of key ["datestyle"]%string then Some (lit "ISO, YMD")
  else if one_of key ["timezone"; "time_zone"]%string then Some (lit "Etc/UTC")
  else if one_of key ["transaction_isolation"; "transaction_isolation_level"]%string
  then Some (lit "read committed")
  else if one_of key ["transaction_read_only"]%string then Some (lit "off")
  else if one_of key ["standard_conforming_strings"]%string then Some (lit "on")
  else if one_of key ["client_encoding"]%string then Some (lit "UTF8")
  else if one_of key ["server_version"]%string then Some (lit "16.6-exasol-gateway")
  else if one_of key ["application_name"]%string then Some []
  else None.

Definition local_show (sql : str) : option StatementPlan :=
  cap ← captures_of SHOW_RE sql;
  group ← cap_get sql cap 1;
  let raw_name := trim group in
  let key := to_ascii_lowercase
               ((fun c => if (c =? 32)%N || (c =? 45)%N then 95%N else c) <$> raw_name) in
  if str_eqb key (lit "search_path") then Some ShowSearchPath
  else value ← show_value key; Some (ClientShow raw_name value).

Definition single_value (name value : string) : StatementPlan :=
  ClientSelect [lit name] [[Some (lit value)]].

(** *** The projection of a catalog query *)

Record CatalogProjection := { source_name : str; output_name : str }.

(** A [find] on the lower-cased text gives an index into the text. *)
Definition select_list (sql : str) : option str :=
  let lower := to_ascii_lowercase sql in
  i ← find (lit "select") lower;
  let select_start := i + 6 in
  j ← find (lit " from ") (drop select_start lower);
  let from_start := j + select_start in
  let list := trim (slice select_start from_start sql) in
  Some (if starts_with (lit "distinct ") (to_ascii_lowercase list)
        then trim (drop 8 list) else list).

(** The loop of [split_select_items]; [cur] is the current item, reversed.  The
    [i32] counter [depth] cannot leave its range before 2^31 parentheses. *)
Fixpoint split_items_go (depth : Z) (in_single_quote : bool) (cur : str) (s : str)
    : list str :=
  match s with
  | [] => match trim (rev cur) with [] => [] | tail => [tail] end
  | ch :: s' =>
      if (ch =? 39)%N then split_items_go depth (negb in_single_quote) (ch :: cur) s'
      else if (ch =? 40)%N && negb in_single_quote
      then split_items_go (depth + 1) in_single_quote (ch :: cur) s'
      else if (ch =? 41)%N && negb in_single_quote
      then split_items_go (depth - 1) in_single_quote (ch :: cur) s'
      else if (ch =? 44)%N && negb in_single_quote && (depth =? 0)%Z
      then trim (rev cur) :: split_items_go depth in_single_quote [] s'
      else split_items_go depth in_single_quote (ch :: cur) s'
  end.
Definition split_select_items (select_list : str) : list str :=
  split_items_go 0 false [] select_list.

Definition split_alias (item : str) : str * option str :=
  match captures_of AS_RE item with
  | Some cap => (trim (default item (cap_get item cap 1)), cap_get item cap 2)
  | None => (item, None)
  end.

Definition source_column_name (expr : str) : str :=
  let expr := trim_matches is_quote (trim expr) in
  let last := to_ascii_lowercase (trim_matches is_quote (trim (rsplit_first 46 expr))) in
  if contains (lit "datname") last then lit "datname"
  else if contains (lit "nspname") last then lit "nspname"
  else if contains (lit "rolname") last then lit "rolname"
  else if contains (lit "current_database") last || contains (lit "current_catalog") last
  then lit "datname"
  else last.

Definition projection_from_item (item : str) : CatalogProjection :=
  let '(expr, alias) := split_alias item in
  let source_name := source_column_name expr in
  {| source_name := source_name; output_name := default source_name alias |}.

Definition default_projection (default_row : list (str * str)) : list CatalogProjection :=
  (fun p => {| source_name := p.1; output_name := p.1 |}) <$> default_row.

Definition catalog_projection (sql : str) (default_row : list (str * str))
    : list CatalogProjection :=
  match select_list sql with
  | None => default_projection default_row
  | Some select_list =>
      if str_eqb (trim select_list) (lit "*") || ends_with (lit ".*") (trim select_list)
      then default_projection default_row
      else projection_from_item <$> split_select_items select_list
  end.

Definition select_alias (sql : str) : option str :=
  list ← select_list sql;
  output_name ∘ projection_from_item <$> head (split_select_items list).

Definition catalog_response_many (sql : str) (source_rows : list (list (str * str)))
    : StatementPlan :=
  let lower := to_ascii_lowercase sql in
  if contains (lit "count(") lower then
    ClientSelect [default (lit "count") (select_alias sql)]
      [[Some (show_int (Z.of_nat (length source_rows)))]]
  else
    let projections := catalog_projection sql (default [] (head source_rows)) in
    ClientSelect (output_name <$> projections)
      ((fun row =>
          (fun projection =>
             snd <$> List.find (fun p => eq_ignore_ascii_case p.1 (source_name projection)) row)
          <$> projections) <$> source_rows).

Definition catalog_pg_settings (sql : str) : StatementPlan :=
  let setting (n v : string) := [(lit "name", lit n); (lit "setting", lit v)] in
  catalog_response_many sql
    [setting "server_version" "16.6-exasol-gateway"; setting "client_encoding" "UTF8";
     setting "standard_conforming_strings" "on"; setting "TimeZone" "Etc/UTC"]%string.

Definition local_select (sql : str) : option StatementPlan :=
  let lower := to_ascii_lowercase sql in
  if contains (lit "pg_catalog.pg_settings") lower || contains (lit " pg_settings") lower
  then Some (catalog_pg_settings sql)
  else if one_of lower ["select version()"]%string
  then Some (single_value "version" "PostgreSQL 16.6 compatible Exasol gateway")
  else if one_of lower ["select current_database()"]%string
  then Some (single_value "current_database" "exasol")
  else if one_of lower ["select current_catalog"; "select current_catalog()"]%string
  then Some (single_value "current_catalog" "exasol")
  else if one_of lower ["select current_user"; "select user"]%string
  then Some (single_value "current_user" "sys")
  else if one_of lower ["select pg_backend_pid()"]%string
          || starts_with (lit "select pg_backend_pid() as ") lower
  then
    let column :=
      match find (lit " as ") lower with
      | Some idx => match unquote_identifier (drop (idx + 4) sql) with
                    | [] => lit "pg_backend_pid"
                    | name => name
                    end
      | None => lit "pg_backend_pid"
      end in
    Some (BackendPid column)
  else None.

(** ** [classify_statement] *)

Definition ok (p : StatementPlan) : outcome PgError StatementPlan := Ok p.

Definition classify_keyword (cleaned : str) : outcome PgError StatementPlan :=
  let keyword := first_keyword cleaned in
  let kw l := one_of keyword l in
  if kw ["SELECT"; "WITH"; "VALUES"]%string then ok (execute "SELECT" Omit)
  else if kw ["INSERT"]%string then ok (execute "INSERT" Include)
  else if kw ["UPDATE"]%string then ok (execute "UPDATE" Include)
  else if kw ["DELETE"]%string then ok (execute "DELETE" Include)
  else if kw ["MERGE"]%string then ok (execute "MERGE" Include)
  else if kw ["TRUNCATE"]%string then ok (execute "TRUNCATE TABLE" Omit)
  else if kw ["CREATE"]%string then ok (classify_create cleaned)
  else if kw ["ALTER"]%string then ok (classify_alter cleaned)
  else if kw ["DROP"]%string then ok (classify_drop cleaned)
  else if kw ["COMMENT"]%string then ok (execute "COMMENT" Omit)
  else if kw ["GRANT"]%string then ok (execute "GRANT" Omit)
  else if kw ["REVOKE"]%string then ok (execute "REVOKE" Omit)
  else if kw ["COPY"]%string then ok (unsupported_policy
    (lit "COPY requires a separate bulk data movement design before it can be exposed"))
  else if kw ["IMPORT"; "EXPORT"]%string then ok (unsupported_policy
    (lit "Exasol IMPORT/EXPORT are not PostgreSQL commands and are not exposed through the gateway policy"))
  else if kw ["DECLARE"]%string then ok (classify_declare_cursor cleaned)
  else if kw ["FETCH"]%string then classify_cursor_position (lit "FETCH") cleaned
  else if kw ["MOVE"]%string then classify_cursor_position (lit "MOVE") cleaned
  else if kw ["CLOSE"]%string then ok (classify_close_cursor cleaned)
  else if kw ["PREPARE"; "EXECUTE"; "DEALLOCATE"]%string then ok (unsupported_policy
    (lit "SQL prepared statement commands are not implemented; use PostgreSQL extended query protocol"))
  else if kw ["BEGIN"; "START"]%string then ok ClientTransactionStart
  else if kw ["COMMIT"]%string then
    if one_of (second_keyword cleaned) ["PREPARED"]%string then ok (unsupported_no_equivalent
      (lit "PostgreSQL two-phase commit is not supported because no safe Exasol equivalent is configured"))
    else ok (ClientTransactionEnd (lit "COMMIT"))
  else if kw ["ROLLBACK"]%string then
    if one_of (second_keyword cleaned) ["TO"; "PREPARED"]%string then ok (unsupported_no_equivalent
      (lit "PostgreSQL savepoints and two-phase commit are not supported because no safe Exasol equivalent is configured"))
    else ok (ClientTransactionEnd (lit "ROLLBACK"))
  else if kw ["SAVEPOINT"; "RELEASE"]%string then ok (unsupported_no_equivalent
    (lit "PostgreSQL savepoints are not supported because no safe Exasol equivalent is configured"))
  else if kw ["ABORT"]%string then ok (ClientTransactionEnd (lit "ROLLBACK"))
  else if kw ["END"]%string then ok (ClientTransactionEnd (lit "COMMIT"))
  else if kw ["SET"; "RESET"; "SHOW"]%string
  then ok (Reject (lit "0A000") (lit "unsupported PostgreSQL session command"))
  else if kw ["LISTEN"; "NOTIFY"; "UNLISTEN"]%string then ok (unsupported_no_equivalent
    (lit "PostgreSQL asynchronous notification commands have no Exasol equivalent"))
  else if kw ["VACUUM"; "REINDEX"; "CLUSTER"; "CHECKPOINT"; "ANALYZE"]%string
  then ok (unsupported_no_equivalent
    (lit "PostgreSQL maintenance commands have no safe Exasol equivalent in this gateway"))
  else ok (Reject (lit "0A000") (lit "unsupported SQL statement class: " ++ keyword)).

Definition classify_statement (sql : str) : outcome PgError StatementPlan :=
  let cleaned := normalize_sql sql in
  match cleaned with
  | [] => ok Empty
  | _ =>
  match captures_of SET_SEARCH_PATH_RE cleaned with
  | Some cap =>
      let rhs := trim (default [] (cap_get cleaned cap 1)) in
      ok (match parse_search_path_value rhs with
          | Single schema => SetSearchPath schema
          | Default => ClientSet
          | Invalid => syntax_error "invalid search_path value"
          end)
  | None =>
      if is_safe_set cleaned || is_match RESET_RE cleaned then ok ClientSet
      else match local_show cleaned with
      | Some show => ok show
      | None =>
          match local_select cleaned with
          | Some select => ok select
          | None => classify_keyword cleaned
          end
      end
  end
  end.
End policy.
