(* ===== verification/PolicyTheorems.v ===== *)
(** * Theorems about statement classification

    The words and commands of statements, the plans and errors [classify_statement]
    gives for each, with what a plan says of its text; the search_path scanner against a reference reading of quotes, and the round trip of cursor
    directions. *)

From S2P Require Import Prelude RustStr RustInt Regex Plan Policy.
#[local] Open Scope nat_scope.

(** ** Well-formed plans *)

Definition dml_command (c : str) : bool :=
  one_of c ["INSERT"; "UPDATE"; "DELETE"; "MERGE"]%string.
Definition known_command (c : str) : bool :=
  dml_command c
  || one_of c ["SELECT"; "TRUNCATE TABLE"; "CREATE TABLE"; "CREATE VIEW"; "CREATE SCHEMA";
       "ALTER TABLE"; "ALTER VIEW"; "ALTER SCHEMA"; "DROP TABLE"; "DROP VIEW"; "DROP SCHEMA";
       "COMMENT"; "GRANT"; "REVOKE"]%string.

(** The first words name a FETCH or MOVE, and its direction is FORWARD or BACKWARD by
    [i64::MIN], the count that has no negation. *)
Definition min_count_tokens (tokens : list str) : Prop :=
  exists verb value, tokens = [verb; value] /\ parse_i64 value = Some i64_min
    /\ (is_word "FORWARD" verb = true \/ is_word "BACKWARD" verb = true).
Definition min_count_text (cleaned : str) : Prop :=
  one_of (first_keyword cleaned) ["FETCH"; "MOVE"]%string = true
  /\ min_count_tokens (split_position (split_whitespace cleaned)).1.

(** A direction the client can have asked for: its numbers are [i64], and FORWARD
    and BACKWARD carry no negative count but where [min] allows it, in a build in
    which the negation of [i64::MIN] wraps. *)
Definition count_ok `{BuildProfile} (min : Prop) (k : Z) : Prop :=
  (0 <= k <= i64_max)%Z \/ (k = i64_min /\ overflow_checks = false /\ min).
Definition parsed_direction `{BuildProfile} (min : Prop) (d : CursorDirection) : Prop :=
  match d with
  | Absolute k | Relative k | Count k => is_i64 k
  | Forward (Some k) | Backward (Some k) => count_ok min k
  | _ => True
  end.

Definition wf_plan `{BuildProfile} (min : Prop) (p : StatementPlan) : Prop :=
  match p with
  | Execute command row_count =>
      known_command command = true
      /\ (row_count = Include <-> dml_command command = true)
  | ClientTransactionEnd command => one_of command ["COMMIT"; "ROLLBACK"]%string = true
  | SetSearchPath schema => schema <> []
  | ClientSelect columns rows => Forall (fun row => length row = length columns) rows
  | BackendPid column => column <> []
  | Cursor (PlanFetch p) | Cursor (PlanMove p) => parsed_direction min (position_direction p)
  | Reject sqlstate _ => one_of sqlstate ["0A000"; "42601"]%string = true
  | _ => True
  end.

(** The outcome of a classification: a plan with [P], or, in a build with overflow
    checks and where [bad], a panic. *)
Definition yields `{BuildProfile} {A} (bad : Prop) (P : A -> Prop) (o : outcome PgError A)
    : Prop :=
  match o with
  | Ok a => P a
  | Panic => overflow_checks = true /\ bad
  | _ => False
  end.

Section wf.
Context `{BuildProfile} `{RegexEngine}.

Lemma yields_bind {A B} bad (P : A -> Prop) (Q : B -> Prop) o (f : A -> outcome PgError B) :
  yields bad P o -> (forall a, P a -> yields bad Q (f a)) -> yields bad Q (o ≫= f).
Proof. destruct o; cbn; auto. Qed.

Lemma yields_weaken {A} (bad bad' : Prop) (P Q : A -> Prop) (o : outcome PgError A) :
  (bad -> bad') -> (forall a, o = Ok a -> P a -> Q a) -> yields bad P o -> yields bad' Q o.
Proof. intros Hb HP. destruct o; cbn; naive_solver. Qed.

Lemma parsed_direction_weaken (min min' : Prop) d :
  (min -> min') -> parsed_direction min d -> parsed_direction min' d.
Proof. intros Hm. destruct d as [| | | | | |[k|]|[k|]| |]; cbn; unfold count_ok; naive_solver. Qed.

Lemma neg_yields k :
  is_i64 k -> (k < 0)%Z -> yields (k = i64_min) (count_ok (k = i64_min)) (neg_i64 k).
Proof.
  intros Hk Hn. unfold count_ok. destruct (decide (k = i64_min)) as [->|Hne].
  - unfold yields, neg_i64, arith. change (2 ^ (64 - 1))%Z with 9223372036854775808%Z. cbn.
    destruct overflow_checks eqn:Eo; [done|]. by right.
  - rewrite neg_i64_ok by (unfold_bounds; lia). cbn. unfold_bounds. lia.
Qed.

Lemma parse_i64_range s k : parse_i64 s = Some k -> is_i64 k.
Proof. apply parse_int_range. Qed.

Lemma signed_count_yields (min : Prop) same other value :
  (parse_i64 value = Some i64_min -> min) ->
  (forall k, count_ok min k -> parsed_direction min (same (Some k))) ->
  (forall k, count_ok min k -> parsed_direction min (other (Some k))) ->
  yields min (fun d => forall x, d = Some x -> parsed_direction min x)
    (signed_count same other value).
Proof.
  intros Hmin Hs Ho. unfold signed_count.
  destruct (parse_i64 value) as [k|] eqn:E; [|done].
  pose proof (parse_i64_range _ _ E) as Hk. destruct (k <? 0)%Z eqn:Ek; breflect.
  - assert (Hm : k = i64_min -> min) by (intros ->; by apply Hmin).
    eapply yields_bind.
    + eapply yields_weaken; [exact Hm| |by apply neg_yields].
      intros a _ Ha. eapply (parsed_direction_weaken _ min (Forward (Some a)) Hm), Ha.
    + intros a Ha x [= <-]. apply Ho, Ha.
  - intros x [= <-]. apply Hs. left. unfold_bounds. lia.
Qed.

Lemma parse_count_direction min (f : Z -> CursorDirection) value :
  (forall k, is_i64 k -> parsed_direction min (f k)) ->
  forall x, f <$> parse_i64 value = Some x -> parsed_direction min x.
Proof.
  intros Hf x Hx. apply fmap_Some in Hx as (k & Hk & ->).
  eauto using parse_i64_range.
Qed.

Lemma parse_cursor_direction_yields tokens :
  yields (min_count_tokens tokens)
    (fun d => forall x, d = Some x -> parsed_direction (min_count_tokens tokens) x)
    (parse_cursor_direction tokens).
Proof.
  unfold parse_cursor_direction.
  destruct tokens as [|one [|value [|]]]; [by intros ? [= <-]| | |done].
  - cbn [yields]. split_ifs; try (apply parse_count_direction; intros k Hk; exact Hk);
      intros ? [= <-]; cbn; unfold count_ok; unfold_bounds; auto; lia.
  - split_ifs; try done;
      try (cbn [yields]; apply parse_count_direction; intros k Hk; exact Hk);
      try (by intros ? [= <-]);
      apply signed_count_yields; try (intros k Hk; exact Hk);
      intros Hv; exists one, value; auto.
Qed.

Lemma classify_position_yields command sql :
  (command = lit "FETCH" \/ command = lit "MOVE") ->
  let min := min_count_tokens (split_position (split_whitespace sql)).1 in
  yields min (wf_plan min) (classify_cursor_position command sql).
Proof.
  intros Hc. cbv zeta. unfold classify_cursor_position, parse_cursor_position.
  generalize (split_whitespace sql) as ts. intros ts.
  destruct (split_position ts) as [tokens name] eqn:Es. cbn [fst].
  apply (yields_bind _ (fun p => forall x, p = Some x ->
           parsed_direction (min_count_tokens tokens) (position_direction x))).
  - destruct ts as [|t ts]; [done|]. case_match; [done|].
    eapply yields_bind; [apply parse_cursor_direction_yields|].
    intros [d|] Hd; [|done]. intros x [= <-]. cbn. auto.
  - intros [p|] Hp; [|done]. specialize (Hp p eq_refl).
    destruct Hc as [-> | ->]; exact Hp.
Qed.

Lemma unsupported_policy_wf min m : wf_plan min (unsupported_policy m).
Proof. done. Qed.
Lemma unsupported_no_equivalent_wf min m : wf_plan min (unsupported_no_equivalent m).
Proof. done. Qed.
Lemma reject_wf min m : wf_plan min (Reject (lit "0A000") m).
Proof. done. Qed.
Lemma syntax_error_wf min m : wf_plan min (syntax_error m).
Proof. done. Qed.
Lemma execute_omit_wf min c :
  known_command (lit c) = true -> dml_command (lit c) = false -> wf_plan min (execute c Omit).
Proof. intros Hk Hd. split; [done|]. by rewrite Hd. Qed.
End wf.

#[export] Hint Resolve unsupported_policy_wf unsupported_no_equivalent_wf reject_wf
  syntax_error_wf : policy.
#[export] Hint Extern 1 (wf_plan _ (execute _ Omit)) => (by apply execute_omit_wf) : policy.

Section classify.
Context `{BuildProfile} `{RegexEngine}.

Lemma classify_ddl_wf min sql :
  wf_plan min (classify_create sql) /\ wf_plan min (classify_alter sql)
  /\ wf_plan min (classify_drop sql).
Proof.
  unfold classify_create, classify_alter, classify_drop.
  split_and!; split_ifs; auto with policy.
Qed.

Lemma classify_declare_wf min sql : wf_plan min (classify_declare_cursor sql).
Proof.
  unfold classify_declare_cursor. destruct (captures_of _ _); [|auto with policy].
  cbv zeta. split_ifs; auto with policy; done.
Qed.

Lemma classify_close_wf min sql : wf_plan min (classify_close_cursor sql).
Proof.
  unfold classify_close_cursor. repeat case_match; auto with policy; done.
Qed.

Lemma parse_search_path_nonempty fuel rhs s :
  parse_search_path_go fuel rhs = Some (Single s) -> s <> [].
Proof.
  revert rhs; induction fuel as [|fuel IH]; intros rhs; [done|].
  cbn [parse_search_path_go]. destruct (trim rhs) as [|c t] eqn:E; [done|].
  destruct (top_level_comma_index (c :: t)); [apply IH|].
  unfold parse_search_path_entry.
  destruct (eq_ignore_ascii_case _ _); [done|].
  destruct (strip_enclosing _ 34 34) as [inner|].
  { destruct (replace _ _ inner); [done|]. by intros [= <-]. }
  destruct (strip_enclosing _ 39 39) as [[|]|]; [done|..]; by intros [= <-].
Qed.

Lemma local_show_wf min sql p : local_show sql = Some p -> wf_plan min p.
Proof.
  unfold local_show. intros Hp.
  apply bind_Some in Hp as (cap & _ & Hp). apply bind_Some in Hp as (g & _ & Hp).
  case_match; [by injection Hp as <-|].
  by apply bind_Some in Hp as (v & _ & [= <-]).
Qed.

Lemma local_select_wf min sql p : local_select sql = Some p -> wf_plan min p.
Proof.
  unfold local_select. cbv zeta. intros Hp.
  repeat match type of Hp with (if ?b then _ else _) = _ => destruct b eqn:? end;
    try discriminate; injection Hp as <-; try (by repeat constructor).
  - unfold catalog_pg_settings, catalog_response_many. case_match; [by repeat constructor|].
    cbn [wf_plan]. apply list.Forall_fmap, list.Forall_true. intros row. cbn.
    by rewrite !length_fmap.
  - cbn [wf_plan]. repeat case_match; done.
Qed.

Lemma classify_keyword_yields cleaned :
  yields (min_count_text cleaned) (wf_plan (min_count_text cleaned)) (classify_keyword cleaned).
Proof.
  unfold classify_keyword. cbv zeta.
  destruct (classify_ddl_wf (min_count_text cleaned) cleaned) as (Hc & Ha & Hd).
  assert (Hpos : forall command, command = lit "FETCH" \/ command = lit "MOVE" ->
    one_of (first_keyword cleaned) ["FETCH"; "MOVE"]%string = true ->
    yields (min_count_text cleaned) (wf_plan (min_count_text cleaned))
      (classify_cursor_position command cleaned)).
  { intros command Hcmd Hk. eapply yields_weaken; [| |by apply classify_position_yields].
    - by split.
    - intros [| | | | | | | | |[]| |] _ Hp; try exact Hp;
        (eapply parsed_direction_weaken; [|exact Hp]); by split. }
  assert (Hmore : forall w, one_of w ["FETCH"]%string = true \/ one_of w ["MOVE"]%string = true ->
            one_of w ["FETCH"; "MOVE"]%string = true).
  { intros w. unfold one_of. cbn [existsb]. rewrite !orb_false_r, orb_true_iff. done. }
  split_ifs; try (apply Hpos; [by auto|by auto]); unfold ok; cbn [yields];
    auto using classify_declare_wf, classify_close_wf with policy; try done.
  all: by split.
Qed.

Lemma classify_statement_plan sql :
  yields (min_count_text (normalize_sql sql)) (wf_plan (min_count_text (normalize_sql sql)))
    (classify_statement sql).
Proof.
  unfold classify_statement. destruct (normalize_sql sql) as [|c t]; [done|].
  generalize (c :: t) as cleaned; clear c t; intros cleaned.
  destruct (captures_of SET_SEARCH_PATH_RE cleaned) as [cap|].
  { unfold ok, yields, parse_search_path_value. destruct (parse_search_path_go _ _) as [[]|] eqn:E;
      cbn; try done. by eapply parse_search_path_nonempty. }
  destruct (is_safe_set cleaned || _); [done|].
  destruct (local_show cleaned) eqn:Es; [by eapply local_show_wf|].
  destruct (local_select cleaned) eqn:El; [by eapply local_select_wf|].
  apply classify_keyword_yields.
Qed.
End classify.

(** ** Words and commands *)

Definition query_verbs : list string := ["SELECT"; "WITH"; "VALUES"]%string.
Definition plain_verbs : list string :=
  ["INSERT"; "UPDATE"; "DELETE"; "MERGE"; "COMMENT"; "GRANT"; "REVOKE"]%string.
Definition ddl_verbs : list string := ["CREATE"; "ALTER"; "DROP"]%string.
Definition ddl_objects : list string := ["TABLE"; "VIEW"; "SCHEMA"]%string.

(** The command a statement with these first words may run as. *)
Definition command_of (first second : str) : option str :=
  if one_of first query_verbs then Some (lit "SELECT")
  else if one_of first plain_verbs then Some first
  else if one_of first ["TRUNCATE"]%string then Some (lit "TRUNCATE TABLE")
  else if one_of first ddl_verbs && one_of second ddl_objects
  then Some (first ++ lit " " ++ second)
  else None.

Lemma one_of_case w l : one_of w l = true -> exists s, In s l /\ w = lit s.
Proof. intros (s & Hs & E)%existsb_exists. exists s. split; [done|]. by apply str_eqb_eq. Qed.

(** The case analysis on the keyword: [E] is the classification, in a known kind. *)
Ltac by_keyword E k :=
  repeat match type of E with
         | (if one_of k ?l then _ else _) = _ =>
             let H := fresh "Hk" in destruct (one_of k l) eqn:H;
             [apply one_of_case in H as (? & Hin & ->)|]
         end;
  unfold ok, execute in E.

Section gate.
Context `{BuildProfile} `{RegexEngine}.

Definition statement_command (sql : str) : option str :=
  let cleaned := normalize_sql sql in
  command_of (first_keyword cleaned) (second_keyword cleaned).
Definition is_declare (sql : str) : bool :=
  one_of (first_keyword (normalize_sql sql)) ["DECLARE"]%string.
Definition sets_search_path (sql : str) : bool :=
  is_match SET_SEARCH_PATH_RE (normalize_sql sql).

Lemma ddl_command w verb (p q r : StatementPlan) (rest : StatementPlan) command rc :
  (forall c k, rest <> Execute c k) ->
  (if one_of w ["TABLE"]%string then p else if one_of w ["VIEW"]%string then q
   else if one_of w ["SCHEMA"]%string then r else rest) = Execute command rc ->
  p = Execute (verb ++ lit " TABLE") Omit -> q = Execute (verb ++ lit " VIEW") Omit ->
  r = Execute (verb ++ lit " SCHEMA") Omit ->
  one_of w ddl_objects = true /\ command = verb ++ lit " " ++ w.
Proof.
  intros Hrest E -> -> ->. unfold one_of, ddl_objects in *. cbn [existsb] in *.
  destruct (str_eqb_spec w (lit "TABLE")) as [->|]; [by injection E as <-|].
  destruct (str_eqb_spec w (lit "VIEW")) as [->|]; [by injection E as <-|].
  destruct (str_eqb_spec w (lit "SCHEMA")) as [->|]; [by injection E as <-|].
  by destruct (Hrest command rc).
Qed.

(** The plans that may send something, and those that are answered by the gateway. *)
Inductive plan_kind := Sending | Setting | Declaring | Local.
Definition kind_of (p : StatementPlan) : plan_kind :=
  match p with
  | Execute _ _ => Sending
  | SetSearchPath _ => Setting
  | Cursor (PlanDeclare _) => Declaring
  | _ => Local
  end.

Lemma position_kind command sql p : classify_cursor_position command sql = Ok p -> kind_of p = Local.
Proof.
  unfold classify_cursor_position. intros E. apply outcome_bind_Ok in E as ([pos|] & _ & E).
  - by repeat case_match; simplify_eq.
  - by injection E as <-.
Qed.

Lemma declare_kind sql :
  kind_of (classify_declare_cursor sql) = Declaring \/ kind_of (classify_declare_cursor sql) = Local.
Proof. unfold classify_declare_cursor. cbv zeta. repeat case_match; auto. Qed.

Lemma close_kind sql : kind_of (classify_close_cursor sql) = Local.
Proof. unfold classify_close_cursor. by repeat case_match. Qed.

Lemma ddl_kind sql :
  (kind_of (classify_create sql) = Sending \/ kind_of (classify_create sql) = Local)
  /\ (kind_of (classify_alter sql) = Sending \/ kind_of (classify_alter sql) = Local)
  /\ (kind_of (classify_drop sql) = Sending \/ kind_of (classify_drop sql) = Local).
Proof.
  unfold classify_create, classify_alter, classify_drop. split_and!; repeat case_match; auto.
Qed.

Lemma show_kind sql p : local_show sql = Some p -> kind_of p = Local.
Proof.
  unfold local_show. intros (cap & _ & Hp)%bind_Some. apply bind_Some in Hp as (g & _ & Hp).
  case_match; [by injection Hp as <-|]. by apply bind_Some in Hp as (v & _ & [= <-]).
Qed.

Lemma select_kind sql p : local_select sql = Some p -> kind_of p = Local.
Proof.
  unfold local_select, catalog_pg_settings, catalog_response_many, single_value. cbv zeta.
  intros Hp. by repeat (case_match; try discriminate); simplify_eq.
Qed.

(** The three kinds of definition statements, whose second word counts. *)
Lemma ddl_executes sql command rc :
  (classify_create sql = Execute command rc ->
   one_of (second_keyword sql) ddl_objects = true
   /\ command = lit "CREATE" ++ lit " " ++ second_keyword sql)
  /\ (classify_alter sql = Execute command rc ->
   one_of (second_keyword sql) ddl_objects = true
   /\ command = lit "ALTER" ++ lit " " ++ second_keyword sql)
  /\ (classify_drop sql = Execute command rc ->
   one_of (second_keyword sql) ddl_objects = true
   /\ command = lit "DROP" ++ lit " " ++ second_keyword sql).
Proof.
  unfold classify_create, classify_alter, classify_drop.
  split_and!; intros E; eapply ddl_command; try exact E; try reflexivity;
    intros c k; by repeat case_match.
Qed.

Lemma keyword_executes cleaned command rc :
  classify_keyword cleaned = Ok (Execute command rc) ->
  command_of (first_keyword cleaned) (second_keyword cleaned) = Some command.
Proof.
  unfold classify_keyword. cbv zeta. set (k := first_keyword cleaned). intros E.
  destruct (ddl_executes cleaned command rc) as (Hc & Ha & Hd).
  pose proof (declare_kind cleaned) as Hdecl. pose proof (close_kind cleaned) as Hclose.
  by_keyword E k; try (apply position_kind in E; discriminate);
    try (injection E as E); try (rewrite E in *; cbn in *; intuition discriminate); try discriminate.
  all: try (destruct (one_of (second_keyword cleaned) _); discriminate).
  all: cbn [In] in Hin; destruct_or? Hin; try done; subst.
  all: try reflexivity.
  all: first [apply Hc in E | apply Ha in E | apply Hd in E]; destruct E as [Ho ->];
    match goal with
    | |- command_of ?v ?w = _ =>
        change (command_of v w) with (if one_of w ddl_objects then Some (v ++ lit " " ++ w) else None)
    end; by rewrite Ho.
Qed.

Lemma keyword_kind cleaned p :
  classify_keyword cleaned = Ok p ->
  kind_of p <> Setting
  /\ (kind_of p = Declaring -> one_of (first_keyword cleaned) ["DECLARE"]%string = true).
Proof.
  unfold classify_keyword. cbv zeta. set (k := first_keyword cleaned). intros E.
  destruct (ddl_kind cleaned) as (Hc & Ha & Hd).
  pose proof (declare_kind cleaned) as Hdecl. pose proof (close_kind cleaned) as Hclose.
  by_keyword E k; try (apply position_kind in E; by rewrite E);
    try (injection E as <-); try (by split);
    try (by (destruct (one_of (second_keyword cleaned) _)); simplify_eq);
    try (split; [intuition congruence|]); try (intuition congruence).
Qed.

(** What is executed is what the statement says it is. *)
Lemma classified sql p :
  classify_statement sql = Ok p ->
  match kind_of p with
  | Sending => exists command rc, p = Execute command rc /\ statement_command sql = Some command
  | Setting => sets_search_path sql = true
  | Declaring => is_declare sql = true
  | Local => True
  end.
Proof.
  unfold classify_statement, statement_command, is_declare, sets_search_path, is_match.
  destruct (normalize_sql sql) as [|c t]; [by intros [= <-]|].
  generalize (c :: t) as cleaned; clear c t; intros cleaned.
  destruct (captures_of SET_SEARCH_PATH_RE cleaned) as [cap|].
  { intros [= <-]. by destruct (parse_search_path_value _). }
  destruct (is_safe_set cleaned || _); [by intros [= <-]|].
  destruct (local_show cleaned) as [q|] eqn:Es; [intros [= <-]; by rewrite (show_kind _ _ Es)|].
  destruct (local_select cleaned) as [q|] eqn:El; [intros [= <-]; by rewrite (select_kind _ _ El)|].
  intros E. destruct (keyword_kind _ _ E) as [Hset Hdecl]. destruct (kind_of p) eqn:Ek; [|done|by apply Hdecl|done].
  destruct p; try done; [|by destruct plan]. eauto using keyword_executes.
Qed.
End gate.

(** ** What a plan says of its statement *)

Section said.
Context `{BuildProfile} `{RegexEngine}.

(** A plan is for the statement it was made from: the command tag is the one of the
    first words, and a transaction, cursor or empty plan belongs to its own keywords. *)
Definition keyword_said (first : str) (p : StatementPlan) : Prop :=
  match p with
  | ClientTransactionStart => one_of first ["BEGIN"; "START"]%string = true
  | ClientTransactionEnd command =>
      (command = lit "COMMIT" /\ one_of first ["COMMIT"; "END"]%string = true)
      \/ (command = lit "ROLLBACK" /\ one_of first ["ROLLBACK"; "ABORT"]%string = true)
  | Cursor (PlanDeclare _) => first = lit "DECLARE"
  | Cursor (PlanFetch _) => first = lit "FETCH"
  | Cursor (PlanMove _) => first = lit "MOVE"
  | Cursor (PlanClose _) => first = lit "CLOSE"
  | _ => True
  end.
Definition said_by (sql : str) (p : StatementPlan) : Prop :=
  keyword_said (first_keyword (normalize_sql sql)) p
  /\ match p with
     | Execute command _ => statement_command sql = Some command
     | SetSearchPath _ => sets_search_path sql = true
     | Empty => normalize_sql sql = []
     | _ => True
     end.

Lemma position_said command cleaned p :
  classify_cursor_position command cleaned = Ok p ->
  match p with
  | Cursor (PlanFetch _) => command = lit "FETCH"
  | Cursor (PlanMove _) => command = lit "MOVE"
  | Reject _ _ => True
  | _ => False
  end.
Proof.
  unfold classify_cursor_position. intros E. apply outcome_bind_Ok in E as ([pos|] & _ & E).
  - destruct (str_eqb_spec command (lit "FETCH")); [by injection E as <-|].
    destruct (str_eqb_spec command (lit "MOVE")); [by injection E as <-|done].
  - by injection E as <-.
Qed.

Lemma declare_said cleaned : keyword_said (lit "DECLARE") (classify_declare_cursor cleaned).
Proof. unfold classify_declare_cursor. cbv zeta. by repeat case_match. Qed.
Lemma close_said cleaned : keyword_said (lit "CLOSE") (classify_close_cursor cleaned).
Proof. unfold classify_close_cursor. by repeat case_match. Qed.
Lemma ddl_said first cleaned :
  keyword_said first (classify_create cleaned) /\ keyword_said first (classify_alter cleaned)
  /\ keyword_said first (classify_drop cleaned).
Proof. unfold classify_create, classify_alter, classify_drop. split_and!; by split_ifs. Qed.

Lemma keyword_says cleaned p :
  classify_keyword cleaned = Ok p -> keyword_said (first_keyword cleaned) p /\ p <> Empty.
Proof.
  intros E. split; [|intros ->; revert E; unfold classify_keyword, classify_create, classify_alter,
    classify_drop, classify_declare_cursor, classify_close_cursor, ok; cbv zeta].
  - revert E. unfold classify_keyword. cbv zeta. set (k := first_keyword cleaned). intros E.
    destruct (ddl_said k cleaned) as (Hc & Ha & Hd).
    by_keyword E k; cbn [In] in *; destruct_or?; subst; try done;
      try (injection E as <-); try done; try apply declare_said; try apply close_said.
    all: try (apply position_said in E; destruct p as [| | | | | | | | |[]| |]; done).
    all: try (destruct (one_of (second_keyword cleaned) _); injection E as <-; cbn; auto).
    all: cbn; auto.
  - repeat case_match; try discriminate; intros E; try (apply position_said in E; done).
Qed.

Lemma show_said first sql p : local_show sql = Some p -> keyword_said first p /\ p <> Empty.
Proof.
  unfold local_show. intros (cap & _ & Hp)%bind_Some. apply bind_Some in Hp as (g & _ & Hp).
  case_match; [by injection Hp as <-|]. by apply bind_Some in Hp as (v & _ & [= <-]).
Qed.

Lemma select_said first sql p : local_select sql = Some p -> keyword_said first p /\ p <> Empty.
Proof.
  unfold local_select, catalog_pg_settings, catalog_response_many, single_value. cbv zeta.
  intros Hp. by repeat (case_match; try discriminate); simplify_eq.
Qed.

(** A statement that is not answered by the gateway itself: no SET, SHOW or RESET it
    knows, and no query it answers from its own tables. *)
Definition forwarded (sql : str) : bool :=
  let cleaned := normalize_sql sql in
  negb (sets_search_path sql) && negb (is_safe_set cleaned) && negb (is_match RESET_RE cleaned)
  && match local_show cleaned, local_select cleaned with None, None => true | _, _ => false end.

Lemma command_executes cleaned command :
  command_of (first_keyword cleaned) (second_keyword cleaned) = Some command ->
  classify_keyword cleaned = Ok (Execute command (if dml_command command then Include else Omit)).
Proof.
  unfold classify_keyword, classify_create, classify_alter, classify_drop, command_of. cbv zeta.
  generalize (first_keyword cleaned) as k, (second_keyword cleaned) as w. intros k w E.
  assert (Hddl : one_of k ddl_verbs && one_of w ddl_objects = true ->
    Some (k ++ lit " " ++ w) = Some command -> exists v o, In v ddl_verbs /\ In o ddl_objects
      /\ k = lit v /\ w = lit o /\ command = lit v ++ lit " " ++ lit o).
  { intros [(v & Hv & ->)%one_of_case (o & Ho & ->)%one_of_case]%andb_true_iff [= <-].
    by exists v, o. }
  destruct (one_of k query_verbs) eqn:E1; [|destruct (one_of k plain_verbs) eqn:E2;
    [|destruct (one_of k ["TRUNCATE"]%string) eqn:E3; [|destruct (one_of k ddl_verbs && _) eqn:E4; [|done]]]].
  - apply one_of_case in E1 as (v & Hv & ->). injection E as <-.
    destruct Hv as [<-|[<-|[<-|[]]]]; reflexivity.
  - apply one_of_case in E2 as (v & Hv & ->). injection E as <-.
    destruct Hv as [<-|[<-|[<-|[<-|[<-|[<-|[<-|[]]]]]]]]; reflexivity.
  - apply one_of_case in E3 as (v & [<-|[]] & ->). by injection E as <-.
  - destruct (Hddl eq_refl E) as (v & o & Hv & Ho & -> & -> & ->).
    destruct Hv as [<-|[<-|[<-|[]]]], Ho as [<-|[<-|[<-|[]]]]; reflexivity.
Qed.

End said.

(** ** search_path *)

(** The reference reading of quotes: a quote character toggles its own kind unless
    the other kind is open.  A doubled quote toggles twice, which is why it needs no
    rule of its own. *)
Definition quote_step (st : bool * bool) (c : char) : bool * bool :=
  let '(in_double, in_single) := st in
  if (c =? 34)%N && negb in_single then (negb in_double, in_single)
  else if (c =? 39)%N && negb in_double then (in_double, negb in_single)
  else st.
Definition quote_state (s : str) : bool * bool := fold_left quote_step s (false, false).

(** The comma at [i] separates two entries. *)
Definition separates (s : str) (i : nat) : Prop :=
  s !! i = Some 44%N /\ quote_state (take i s) = (false, false).

Fixpoint toggle_go (st : bool * bool) (idx : nat) (s : str) : option nat :=
  match s with
  | [] => None
  | c :: s' =>
      if (c =? 44)%N && negb st.1 && negb st.2 then Some idx
      else toggle_go (quote_step st c) (S idx) s'
  end.

Lemma comma_go_toggle d q idx s : comma_go d q idx s = toggle_go (d, q) idx s.
Proof.
  revert d q idx. induction s as [s IH] using (induction_ltof1 _ length); unfold ltof in IH.
  intros d q idx. destruct s as [|c s]; [done|]. cbn [comma_go toggle_go fst snd quote_step].
  destruct (c =? 34)%N eqn:E1; [|destruct (c =? 39)%N eqn:E2].
  - breflect. subst c. change (34 =? 44)%N with false. change (34 =? 39)%N with false. cbn [andb].
    destruct q; cbn [negb]; [apply IH; simpl; lia|].
    destruct s as [|c' s]; [done|].
    destruct (decide (c' = 34%N)) as [->|Hne].
    + destruct d; rewrite IH by (simpl; lia); [|done].
      cbn [toggle_go quote_step fst snd]. done.
    + assert (forall X Y : option nat, match c' with 34%N => X | _ => Y end = Y) as Hm.
      { intros. destruct c' as [|p]; [done|]. do 6 (destruct p as [p|p|]; try done). }
      rewrite Hm. apply IH. simpl. lia.
  - breflect. subst c. change (39 =? 44)%N with false. cbn [andb].
    destruct d; cbn [negb]; [apply IH; simpl; lia|].
    destruct s as [|c' s]; [done|].
    destruct (decide (c' = 39%N)) as [->|Hne].
    + destruct q; rewrite IH by (simpl; lia); [|done].
      cbn [toggle_go quote_step fst snd]. done.
    + assert (forall X Y : option nat, match c' with 39%N => X | _ => Y end = Y) as Hm.
      { intros. destruct c' as [|p]; [done|]. do 6 (destruct p as [p|p|]; try done). }
      rewrite Hm. apply IH. simpl. lia.
  - cbn [andb]. destruct ((c =? 44)%N && negb d && negb q); [done|]. apply IH. simpl. lia.
Qed.

Lemma toggle_go_spec st idx s i :
  toggle_go st idx s = Some i <->
  exists k, i = idx + k /\ s !! k = Some 44%N
    /\ fold_left quote_step (take k s) st = (false, false)
    /\ forall j, j < k -> s !! j = Some 44%N ->
         fold_left quote_step (take j s) st <> (false, false).
Proof.
  revert st idx. induction s as [|c s IH]; intros st idx; cbn [toggle_go].
  { split; [done|]. by intros (k & _ & ? & _). }
  destruct ((c =? 44)%N && negb st.1 && negb st.2) eqn:E.
  - apply andb_true_iff in E as [E E2]. breflect. subst c. destruct st as [[] []]; try done.
    split.
    + intros [= <-]. exists 0. split_and!; [lia|done|done|lia].
    + intros (k & -> & _ & _ & Hmin). destruct k as [|k]; [f_equal; lia|].
      by destruct (Hmin 0 ltac:(lia) eq_refl).
  - rewrite IH. split.
    + intros (k & -> & Hk & Hst & Hmin). exists (S k). split_and!; [lia|done|done|].
      intros [|j] Hj Hc; [|apply Hmin; [lia|done]].
      injection Hc as ->. by destruct st as [[] []].
    + intros ([|k] & -> & Hk & Hst & Hmin).
      { injection Hk as ->. cbn in Hst. by rewrite Hst in E. }
      exists k. split_and!; [lia|done|done|].
      intros j Hj Hc. by apply (Hmin (S j)); [lia|].
Qed.

(** The search_path scanner finds the first separating comma.
    [top_level_comma_index] returns [i] exactly when there is a comma at [i] outside
    double and single quotes (read by toggling) and none before it. *)
Theorem top_level_comma_index_spec s i :
  top_level_comma_index s = Some i
  <-> separates s i /\ forall j, j < i -> ~ separates s j.
Proof.
  unfold top_level_comma_index, separates, quote_state.
  rewrite comma_go_toggle, toggle_go_spec. split.
  - intros (k & -> & Hk & Hst & Hmin). split; [done|]. intros j Hj [Hc Hs]. by apply (Hmin j).
  - intros [[Hc Hs] Hmin]. exists i. split_and!; [lia|done|done|].
    intros j Hj Hcj Hsj. by apply (Hmin j).
Qed.

Lemma drop_while_length p s : length (drop_while p s) <= length s.
Proof. induction s as [|c s IH]; cbn; [lia|]. case_match; cbn; lia. Qed.

Lemma trim_length s : length (trim s) <= length s.
Proof.
  unfold trim, trim_end, trim_start, drop_while_end. rewrite length_rev.
  etransitivity; [apply drop_while_length|]. rewrite length_rev. apply drop_while_length.
Qed.

Lemma comma_index_lt s i : top_level_comma_index s = Some i -> i < length s.
Proof.
  unfold top_level_comma_index. rewrite comma_go_toggle, toggle_go_spec.
  intros (k & -> & Hk & _). by apply lookup_lt_Some in Hk.
Qed.

(** Enough fuel: every call shortens the value. *)
Lemma parse_search_path_fuel f1 f2 rhs :
  length rhs < f1 -> length rhs < f2 ->
  parse_search_path_go f1 rhs = parse_search_path_go f2 rhs
  /\ is_Some (parse_search_path_go f1 rhs).
Proof.
  revert f2 rhs; induction f1 as [|f1 IH]; intros f2 rhs H1 H2; [lia|].
  destruct f2 as [|f2]; [lia|]. cbn [parse_search_path_go].
  pose proof (trim_length rhs). destruct (trim rhs) as [|c t] eqn:E; [eauto|].
  destruct (top_level_comma_index (c :: t)) as [i|] eqn:Ei; [|eauto].
  apply comma_index_lt in Ei. apply IH; rewrite length_take; lia.
Qed.

(** [parse_search_path_value] terminates and keeps the first entry.  The
    recursive equation of the source holds: an empty value is invalid, a value with
    a separating comma is read as its part before the first one, any other value is
    an entry; the fuel never runs out. *)
Theorem parse_search_path_value_eq rhs :
  is_Some (parse_search_path_go (S (length rhs)) rhs)
  /\ parse_search_path_value rhs
     = match trim rhs with
       | [] => Invalid
       | _ =>
           match top_level_comma_index (trim rhs) with
           | Some idx => parse_search_path_value (take idx (trim rhs))
           | None => parse_search_path_entry (trim rhs)
           end
       end.
Proof.
  split; [eapply (parse_search_path_fuel _ (S (length rhs))); lia|].
  unfold parse_search_path_value at 1. cbn [parse_search_path_go].
  pose proof (trim_length rhs). destruct (trim rhs) as [|c t] eqn:E; [done|].
  destruct (top_level_comma_index (c :: t)) as [i|] eqn:Ei; [|done].
  apply comma_index_lt in Ei. unfold parse_search_path_value. f_equal.
  apply parse_search_path_fuel; rewrite length_take; lia.
Qed.

(** ** Cursor directions *)

(** A direction as the client writes it. *)
Definition direction_tokens (d : CursorDirection) : list str :=
  match d with
  | Next => [lit "NEXT"]
  | Prior => [lit "PRIOR"]
  | First => [lit "FIRST"]
  | Last => [lit "LAST"]
  | Absolute k => [lit "ABSOLUTE"; show_int k]
  | Relative k => [lit "RELATIVE"; show_int k]
  | Forward (Some k) => [lit "FORWARD"; show_int k]
  | Forward None => [lit "FORWARD"; lit "ALL"]
  | Backward (Some k) => [lit "BACKWARD"; show_int k]
  | Backward None => [lit "BACKWARD"; lit "ALL"]
  | All => [lit "ALL"]
  | Count k => [show_int k]
  end.

Definition is_letter_first (s : str) : bool :=
  match s with c :: _ => is_ascii_uppercase c | [] => false end.

Lemma show_int_not_word w k :
  is_letter_first (lit w) = true -> is_word w (show_int k) = false.
Proof.
  intros Hw. unfold is_word, eq_ignore_ascii_case.
  destruct (str_eqb_spec (to_ascii_lowercase (show_int k)) (to_ascii_lowercase (lit w)))
    as [E|]; [|done].
  assert (exists c s, show_int k = c :: s /\ (c = 45%N \/ is_ascii_digit c = true)) as (c & s & Hs & Hc).
  { unfold show_int. case_match; [eauto|]. unfold show_nonneg.
    destruct (show_digits_head (S (Z.to_nat (Z.log2 k))) k []) as (c & s & Hs & Hc);
      [done | breflect; lia | eauto]. }
  rewrite Hs in E. destruct (lit w) as [|d t]; [done|]. cbn in E. injection E as Ec _.
  exfalso. cbn in Hw. unfold char_to_ascii_lowercase in Ec. rewrite Hw in Ec.
  unfold is_ascii_uppercase, is_ascii_digit in *.
  repeat match goal with
  | H : (_ && _)%bool = true |- _ => apply andb_true_iff in H as [? ?]
  | H : (_ <=? _)%N = true |- _ => apply N.leb_le in H
  end.
  destruct ((65 <=? c)%N && (c <=? 90)%N); destruct Hc as [->|Hc]; try lia;
    apply andb_true_iff in Hc as [H1%N.leb_le H2%N.leb_le]; lia.
Qed.

Lemma parse_i64_show k : is_i64 k -> parse_i64 (show_int k) = Some k.
Proof. apply parse_show_int. Qed.

(** Cursor directions round trip.  For every direction the parser can produce
    other than those with [i64::MIN], writing it as keywords and numbers and
    parsing the tokens gives it back. *)
Theorem direction_roundtrip `{BuildProfile} d :
  (match d with
   | Absolute k | Relative k | Count k => is_i64 k
   | Forward (Some k) | Backward (Some k) => 0 <= k <= i64_max
   | _ => True
   end)%Z ->
  parse_cursor_direction (direction_tokens d) = Ok (Some d).
Proof.
  intros Hd. destruct d as [| | | |k|k|[k|]|[k|]| |k]; try reflexivity; cbn [direction_tokens].
  - change (parse_cursor_direction _) with
      (@Ok PgError _ (Absolute <$> parse_i64 (show_int k))). by rewrite parse_i64_show.
  - change (parse_cursor_direction _) with
      (@Ok PgError _ (Relative <$> parse_i64 (show_int k))). by rewrite parse_i64_show.
  - unfold parse_cursor_direction, signed_count.
    rewrite (show_int_not_word "ALL") by done. rewrite parse_i64_show by (unfold_bounds; lia).
    rewrite (proj2 (Z.ltb_ge k 0)) by lia. reflexivity.
  - unfold parse_cursor_direction, signed_count.
    rewrite (show_int_not_word "ALL") by done. rewrite parse_i64_show by (unfold_bounds; lia).
    rewrite (proj2 (Z.ltb_ge k 0)) by lia. reflexivity.
  - unfold parse_cursor_direction. rewrite !show_int_not_word by done.
    by rewrite parse_i64_show.
Qed.

Lemma direction_roundtrip_witness :
  @parse_cursor_direction dev_profile [lit "BACKWARD"; lit "12"] = Ok (Some (Backward (Some 12%Z))).
Proof. apply (@direction_roundtrip dev_profile (Backward (Some 12%Z))). unfold_bounds; lia. Defined.


(** ** Statements that are read otherwise than they are meant *)

Section surprises.
#[local] Existing Instance dev_profile.
#[local] Existing Instance reference_engine.

Definition declared (sql : string) : option CursorDeclare :=
  match classify_statement (lit sql) with
  | Ok (Cursor (PlanDeclare d)) => Some d
  | _ => None
  end.

(** [NO SCROLL] and [WITH HOLD] are not recognized when more than one space stands
    between their words. *)
Theorem spaced_cursor_options :
  (declare_scroll <$> declared "declare c no  scroll cursor for select 1") = Some true
  /\ (declare_hold <$> declared "declare c cursor with  hold for select 1") = Some false.
Proof. split; vm_compute; reflexivity. Qed.

(** A comment marker inside a literal of a cursor's query cuts the query. *)
Theorem declared_query_loses_literals :
  (declare_query <$> declared "declare c cursor for select '/* a */' as x")
  = Some (lit "select ' ' as x").
Proof. vm_compute. reflexivity. Qed.

(** Any statement with the text [ pg_settings] is answered as a query of the settings,
    a DELETE too. *)
Theorem pg_settings_shadows_statements :
  exists columns rows,
    classify_statement (lit "delete from log where note = 'old pg_settings'")
    = Ok (ClientSelect columns rows).
Proof. eexists _, _. vm_compute. reflexivity. Qed.

(** Of several schemas in a search path the first is taken. *)
Theorem search_path_takes_first :
  parse_search_path_value (lit "sales, public") = Single (lit "sales").
Proof. vm_compute. reflexivity. Qed.
End surprises.
