(* ===== verification/TextScan.v ===== *)
(** * Reading SQL text (src/src/translator.rs)

    The scanners the translator uses to look at a statement: normalisation for
    matching, whole-word search, and the removal of comments before a statement is
    tested for PostgreSQL constructs. *)

From S2P Require Import Prelude RustStr Regex.
#[local] Open Scope nat_scope.

Definition normalize_for_match (sql : str) : str :=
  to_ascii_lowercase (join (lit " ") (split_whitespace sql)).

Definition is_ident_char (ch : char) : bool := is_ascii_alphanumeric ch || (ch =? 95)%N.

(** ** [contains_word] *)

(** The character before position [i], and the one at it. *)
Definition char_before (s : str) (i : nat) : option char :=
  match i with O => None | S j => s !! j end.
Definition ident_at (o : option char) : bool :=
  match o with Some c => is_ident_char c | None => false end.

(** The loop from [start]: every round starts after the last occurrence, so the
    length of the text bounds the rounds of a non-empty needle. *)
Fixpoint contains_word_go (fuel : nat) (haystack needle : str) (start : nat) : bool :=
  match fuel with
  | O => false
  | S fuel =>
      match find needle (drop start haystack) with
      | None => false
      | Some idx =>
          let match_start := start + idx in
          let match_end := match_start + length needle in
          if negb (ident_at (char_before haystack match_start))
             && negb (ident_at (haystack !! match_end))
          then true
          else contains_word_go fuel haystack needle match_end
      end
  end.
Definition contains_word (haystack needle : str) : bool :=
  match find needle haystack with
  | None => false
  | Some start => contains_word_go (S (length haystack)) haystack needle start
  end.

(** ** [strip_sql_comments_for_detection] *)

(** Where the scanner is; inside a block comment it remembers the previous
    character. *)
Inductive scan_mode :=
| Code
| InSingle
| InDouble
| InLine
| InBlock (previous : char).

Fixpoint strip_comments_go (m : scan_mode) (s : str) : str :=
  match s with
  | [] => []
  | ch :: rest =>
      match m with
      | InSingle =>
          if (ch =? 39)%N then
            match rest with
            | 39%N :: rest' => ch :: 39%N :: strip_comments_go InSingle rest'
            | _ => ch :: strip_comments_go Code rest
            end
          else ch :: strip_comments_go InSingle rest
      | InDouble =>
          if (ch =? 34)%N then
            match rest with
            | 34%N :: rest' => ch :: 34%N :: strip_comments_go InDouble rest'
            | _ => ch :: strip_comments_go Code rest
            end
          else ch :: strip_comments_go InDouble rest
      | InLine =>
          if (ch =? 10)%N then 10%N :: strip_comments_go Code rest
          else strip_comments_go InLine rest
      | InBlock previous =>
          let after :=
            if (previous =? 42)%N && (ch =? 47)%N then strip_comments_go Code rest
            else strip_comments_go (InBlock ch) rest in
          if (ch =? 10)%N then 10%N :: after else after
      | Code =>
          if (ch =? 39)%N then ch :: strip_comments_go InSingle rest
          else if (ch =? 34)%N then ch :: strip_comments_go InDouble rest
          else if (ch =? 45)%N then
            match rest with
            | 45%N :: rest' => 32%N :: strip_comments_go InLine rest'
            | _ => ch :: strip_comments_go Code rest
            end
          else if (ch =? 47)%N then
            match rest with
            | 42%N :: rest' => 32%N :: strip_comments_go (InBlock 0) rest'
            | _ => ch :: strip_comments_go Code rest
            end
          else ch :: strip_comments_go Code rest
      end
  end.
Definition strip_sql_comments_for_detection (sql : str) : str := strip_comments_go Code sql.

Example ex_strip :
  strip_sql_comments_for_detection (lit "a '--x' /*/ b */ c -- d
e") = lit "a '--x'   c  
e".
Proof. reflexivity. Qed.

(** ** What the scanners compute *)

(** An occurrence of [needle] at [i] that no identifier character touches. *)
Definition word_at (haystack needle : str) (i : nat) : Prop :=
  starts_with needle (drop i haystack) = true
  /\ i + length needle <= length haystack
  /\ ident_at (char_before haystack i) = false
  /\ ident_at (haystack !! (i + length needle)) = false.

Lemma starts_with_lookup pat s i k :
  starts_with pat (drop i s) = true -> k < length pat -> s !! (i + k) = pat !! k.
Proof.
  intros [r Hr]%starts_with_spec Hk.
  by rewrite <- lookup_drop, Hr, lookup_app_l.
Qed.

Lemma starts_with_length pat s i :
  starts_with pat (drop i s) = true -> i <= length s -> i + length pat <= length s.
Proof.
  intros [r Hr]%starts_with_spec Hi. apply (f_equal length) in Hr.
  rewrite length_drop, length_app in Hr. lia.
Qed.

Section contains_word.
Context (haystack needle : str).
Hypothesis (Hne : needle <> []).
Hypothesis (Hident : Forall (fun c => is_ident_char c = true) needle).

(** A word does not start inside an occurrence: the character before it would
    belong to the needle. *)
Lemma word_not_inside i j :
  starts_with needle (drop i haystack) = true ->
  word_at haystack needle j -> i < j -> i + length needle <= j.
Proof.
  intros Hi (_ & _ & Hb & _) Hlt. apply not_gt. intros Hgt.
  destruct j as [|j]; [lia|]. cbn [char_before] in Hb.
  pose proof (starts_with_lookup needle haystack i (j - i) Hi ltac:(lia)) as Hl.
  replace (i + (j - i)) with j in Hl by lia.
  destruct (lookup_lt_is_Some_2 needle (j - i)) as [c Hc]; [lia|].
  rewrite Hl, Hc in Hb. cbn in Hb.
  rewrite (Forall_lookup_1 _ _ _ _ Hident Hc) in Hb. done.
Qed.

Lemma contains_word_go_spec fuel start :
  length haystack - start < fuel -> start <= length haystack ->
  contains_word_go fuel haystack needle start = true
  <-> exists i, start <= i /\ word_at haystack needle i.
Proof.
  revert start; induction fuel as [|fuel IH]; intros start Hf Hs; [lia|].
  assert (0 < length needle) by (destruct needle; [done|simpl; lia]).
  cbn [contains_word_go]. destruct (find needle (drop start haystack)) as [idx|] eqn:E.
  - apply find_spec in E as (Hat & Hl & Hmin). rewrite drop_drop in Hat. rewrite length_drop in Hl.
    pose proof (starts_with_length _ _ _ Hat ltac:(lia)) as Hend.
    assert (Hfirst : forall j, start <= j -> word_at haystack needle j -> start + idx <= j).
    { intros j Hj Hw. apply not_gt. intros Hgt. destruct Hw as [Hw _].
      specialize (Hmin (j - start) ltac:(lia)). rewrite drop_drop in Hmin.
      replace (start + (j - start)) with j in Hmin by lia. by rewrite Hw in Hmin. }
    destruct (negb _ && negb _) eqn:Eb.
    + breflect. split; [intros _|done]. exists (start + idx). split; [lia|].
      by split_and!.
    + rewrite IH by lia. split.
      * intros (j & Hj & Hw). exists j. split; [lia|done].
      * intros (j & Hj & Hw). exists j. split; [|done].
        pose proof (Hfirst j Hj Hw).
        destruct (decide (j = start + idx)) as [->|Hne'].
        -- destruct Hw as (_ & _ & Hb & Ha). by rewrite Hb, Ha in Eb.
        -- apply (word_not_inside _ _ Hat Hw). lia.
  - split; [done|]. intros (j & Hj & Hw & Hl & _).
    apply find_none with (j := j - start) in E; [|rewrite length_drop; lia].
    rewrite drop_drop in E. replace (start + (j - start)) with j in E by lia. congruence.
Qed.

Lemma contains_word_iff :
  contains_word haystack needle = true <-> exists i, word_at haystack needle i.
Proof.
  unfold contains_word. destruct (find needle haystack) as [start|] eqn:E.
  - apply find_spec in E as (_ & Hl & Hmin). rewrite contains_word_go_spec by lia.
    split; [intros (i & _ & Hi); eauto|]. intros (i & Hi). exists i. split; [|done].
    apply not_gt. intros Hgt. destruct Hi as [Hi _]. by rewrite Hmin in Hi by lia.
  - split; [done|]. intros (i & Hi & Hl & _).
    apply find_none with (j := i) in E; [congruence|lia].
Qed.
End contains_word.

(** [contains_word] is whole-word search.  For a needle of identifier
    characters (every name the translator looks for is one), it returns true exactly
    when the needle occurs with no identifier character before or after it; skipping
    past a rejected occurrence loses nothing, and the loop ends. *)
Theorem contains_word_spec haystack needle :
  needle <> [] -> Forall (fun c => is_ident_char c = true) needle ->
  contains_word haystack needle = true <-> exists i, word_at haystack needle i.
Proof. apply contains_word_iff. Qed.

Lemma contains_word_spec_witness :
  contains_word (lit " x from pg_class_x, pg_class c ") (lit "pg_class") = true.
Proof.
  apply (contains_word_spec (lit " x from pg_class_x, pg_class c ") (lit "pg_class"));
    [done | repeat constructor | exists 20; split_and!; try reflexivity; cbn; lia].
Defined.

(** *** Comments *)

(** The pieces of a SQL text: plain code, quoted texts (with the quote doubled
    inside), and the two kinds of comment. *)
Inductive piece :=
| PCode (s : str)
| PQuoted (quote : char) (s : str)
| PLine (s : str)
| PBlock (s : str).

Definition quote_body (q : char) (s : str) : str :=
  s ≫= (fun c => if (c =? q)%N then [q; q] else [c]).

Definition render_piece (p : piece) : str :=
  match p with
  | PCode s => s
  | PQuoted q s => q :: quote_body q s ++ [q]
  | PLine s => [45; 45]%N ++ s ++ [10%N]
  | PBlock s => [47; 42]%N ++ s ++ [42; 47]%N
  end.
Definition render (ps : list piece) : str := ps ≫= render_piece.

(** What is left of a piece: comments become a space, and keep their line feeds. *)
Definition strip_piece (p : piece) : str :=
  match p with
  | PLine s => [32; 10]%N
  | PBlock s => 32%N :: filter (fun c => c = 10%N) s
  | _ => render_piece p
  end.

Definition code_char (c : char) : bool :=
  negb ((c =? 39) || (c =? 34) || (c =? 45) || (c =? 47))%N.

(** No [*/] inside a block comment's body (nor completed by its closing star). *)
Fixpoint no_close (previous : char) (s : str) : Prop :=
  match s with
  | [] => True
  | c :: s' => ~ (previous = 42%N /\ c = 47%N) /\ no_close c s'
  end.

(** Pieces that can be told apart: the code of a piece has no quote, dash or slash,
    a quoted text is followed by code, a line comment has no line feed. *)
Definition piece_ok (p : piece) (rest : str) : Prop :=
  match p with
  | PCode s => Forall (fun c => code_char c = true) s
  | PQuoted q s => (q = 39%N \/ q = 34%N) /\ head rest <> Some q
  | PLine s => ~ In 10%N s
  | PBlock s => no_close 0 s
  end.
Fixpoint pieces_ok (ps : list piece) : Prop :=
  match ps with
  | [] => True
  | p :: ps' => piece_ok p (render ps') /\ pieces_ok ps'
  end.

Lemma strip_code s rest :
  Forall (fun c => code_char c = true) s ->
  strip_comments_go Code (s ++ rest) = s ++ strip_comments_go Code rest.
Proof.
  induction 1 as [|c s Hc _ IH]; [done|]. cbn [app].
  unfold code_char in Hc. apply negb_true_iff in Hc.
  apply orb_false_iff in Hc as [Hc E4]. apply orb_false_iff in Hc as [Hc E3].
  apply orb_false_iff in Hc as [E1 E2].
  cbn [strip_comments_go]. by rewrite E1, E2, E3, E4, IH.
Qed.

Definition quote_mode (q : char) : scan_mode := if (q =? 39)%N then InSingle else InDouble.

Lemma strip_quoted q s rest :
  q = 39%N \/ q = 34%N -> head rest <> Some q ->
  strip_comments_go (quote_mode q) (quote_body q s ++ q :: rest)
  = quote_body q s ++ q :: strip_comments_go Code rest.
Proof.
  intros Hq Hr. unfold quote_body, quote_mode.
  induction s as [|c s IH].
  - destruct Hq as [-> | ->]; cbn; (destruct rest as [|d r]; [done|];
      repeat (case_match; try done); by destruct Hr).
  - cbn [mbind list_bind]. rewrite <- !app_assoc.
    destruct (N.eqb_spec c q) as [->|Hne].
    + destruct Hq as [-> | ->]; cbn [app strip_comments_go N.eqb Pos.eqb]; do 2 f_equal; exact IH.
    + destruct Hq as [-> | ->]; cbn [app strip_comments_go N.eqb Pos.eqb];
        rewrite (proj2 (N.eqb_neq c _)) by done; f_equal; exact IH.
Qed.

Lemma strip_line s rest :
  ~ In 10%N s ->
  strip_comments_go InLine (s ++ 10%N :: rest) = 10%N :: strip_comments_go Code rest.
Proof.
  induction s as [|c s IH]; intros Hs; [done|]. cbn [app strip_comments_go].
  rewrite (proj2 (N.eqb_neq c 10)) by (intros ->; apply Hs; by left).
  apply IH. intros Hin. apply Hs. by right.
Qed.

Lemma strip_block p s rest :
  no_close p s ->
  strip_comments_go (InBlock p) (s ++ 42%N :: 47%N :: rest)
  = filter (fun c => c = 10%N) s ++ strip_comments_go Code rest.
Proof.
  revert p; induction s as [|c s IH]; intros p; cbn [app no_close].
  { intros _. cbn [strip_comments_go].
    change (42 =? 47)%N with false. change (42 =? 10)%N with false.
    rewrite andb_false_r. cbn. done. }
  intros [Hp Hs]. cbn [strip_comments_go].
  assert ((p =? 42)%N && (c =? 47)%N = false) as ->.
  { destruct (N.eqb_spec p 42), (N.eqb_spec c 47); try done. by destruct Hp. }
  rewrite IH by done. rewrite filter_cons.
  destruct (N.eqb_spec c 10) as [->|Hne]; [by rewrite decide_True|by rewrite decide_False].
Qed.

(** Comment removal.  On any text put together from code, quoted texts and
    comments, [strip_sql_comments_for_detection] keeps the code and the quoted texts
    (with whatever comment signs or quotes they hold) and replaces each comment by a
    space and its line feeds. *)
Theorem strip_comments_pieces ps :
  pieces_ok ps ->
  strip_sql_comments_for_detection (render ps) = ps ≫= strip_piece.
Proof.
  unfold strip_sql_comments_for_detection, render.
  induction ps as [|p ps IH]; [done|]. intros [Hp Hps].
  specialize (IH Hps). cbn [mbind list_bind] in *. fold (render ps) in *.
  rewrite <- IH. clear IH Hps.
  destruct p as [s|q s|s|s]; cbn [render_piece strip_piece piece_ok] in *.
  - by apply strip_code.
  - destruct Hp as [Hq Hr].
    assert (strip_comments_go Code ((q :: quote_body q s ++ [q]) ++ render ps)
      = q :: strip_comments_go (quote_mode q) (quote_body q s ++ q :: render ps)) as ->.
    { rewrite <- app_comm_cons, <- app_assoc. by destruct Hq as [-> | ->]. }
    rewrite strip_quoted by done. by rewrite <- app_comm_cons, <- app_assoc.
  - rewrite <- !app_assoc. cbn [app]. cbn [strip_comments_go N.eqb Pos.eqb].
    by rewrite strip_line.
  - rewrite <- !app_assoc. cbn [app]. cbn [strip_comments_go N.eqb Pos.eqb].
    by rewrite strip_block.
Qed.

Lemma strip_comments_pieces_witness :
  strip_sql_comments_for_detection (lit "select '--' /* x */ from t") = lit "select '--'   from t".
Proof.
  apply (strip_comments_pieces
    [PCode (lit "select "); PQuoted 39 (lit "--"); PCode (lit " "); PBlock (lit " x ");
     PCode (lit " from t")]).
  cbn. split_and!; try done; try (by repeat constructor); try (by left); by intros [].
Defined.
