(* ===== verification/MetadataQueries.v ===== *)
(** * Recognised metadata queries (src/src/translator.rs, [rewrite_known_metadata_query])

    Queries that client tools send to read the catalog and that have no translation
    by rewriting are recognised by their text and answered with a query on Exasol's
    own system tables.  Each rule is a definition that returns the replacement; the
    first rule that applies wins.  The templates are those of the source. *)

From S2P Require Import Prelude RustStr Regex TextScan.
#[local] Open Scope nat_scope.

Section metadata_queries.
Context `{RegexEngine}.

(** ** Filters carried over from the client's query *)

(** [format!] of a pattern around an escaped column name. *)
Definition in_filter_re (column : str) : str :=
  lit "(?is)\b"
  ++ escape column
  ++ lit "\s+IN\s*\(([^)]*)\)".
Definition eq_filter_re (column : str) : str :=
  lit "(?is)\b"
  ++ escape column
  ++ lit "\s*=\s*('(?:''|[^'])*'|[A-Za-z_][A-Za-z0-9_.]*)".
Definition like_filter_re (column : str) : str :=
  lit "(?is)\b"
  ++ escape column
  ++ lit "\s+LIKE\s+('(?:''|[^'])*')".

Definition extract_in_filter (sql : str) (source_column target_column : string) : str :=
  match captures_of (in_filter_re (lit source_column)) sql with
  | Some cap => lit " AND " ++ lit target_column ++ lit " IN ("
                ++ trim (default [] (cap_get sql cap 1)) ++ lit ")"
  | None => []
  end.
Definition extract_eq_filter (sql : str) (source_column target_column : string) : str :=
  match captures_of (eq_filter_re (lit source_column)) sql with
  | Some cap => lit " AND " ++ lit target_column ++ lit " = "
                ++ trim (default [] (cap_get sql cap 1))
  | None => []
  end.
Definition extract_in_or_eq_filter (sql : str) (source_column target_column : string) : str :=
  match extract_in_filter sql source_column target_column with
  | [] => extract_eq_filter sql source_column target_column
  | filter => filter
  end.
Definition extract_like_filter (sql : str) (source_column target_column : string)
    : option str :=
  cap ← captures_of (like_filter_re (lit source_column)) sql;
  Some (lit target_column ++ lit " LIKE " ++ trim (default [] (cap_get sql cap 1))).

(** ** Native lookups *)

Definition REGCLASS_STRING_RE := lit "(?i)'([^']*)'\s*::\s*regclass".
Definition FK_OUT_SCHEMA_RE := lit "(?i)\bn\.nspname\s*=\s*'([^']*)'".
Definition FK_OUT_TABLE_RE := lit "(?i)\bt\.relname\s*=\s*'([^']*)'".
Definition FK_IN_SCHEMA_RE := lit "(?i)\bnf\.nspname\s*=\s*'([^']*)'".
Definition FK_IN_TABLE_RE := lit "(?i)\btf\.relname\s*=\s*'([^']*)'".
Definition CREATE_SCRIPT_TABLE_RE := lit "(?i)\bc\.relname\s*=\s*'([^']*)'".

(** A literal's quotes doubled. *)
Definition esc (s : str) : str := replace (lit "'") (lit "''") s.

Definition regclass_schema_table (sql : str) : option (option str * str) :=
  cap ← captures_of REGCLASS_STRING_RE sql;
  raw ← cap_get sql cap 1;
  match rev (split_char 46 (replace (lit "`") [] raw)) with
  | [] | [] :: _ => None
  | table :: [] :: _ | [table] => Some (None, table)
  | table :: schema :: _ => Some (Some schema, table)
  end.

Definition primary_key_query (schema : option str) (table : str) : str :=
  let filter :=
    (lit "cc.CONSTRAINT_TYPE = 'PRIMARY KEY' AND cc.CONSTRAINT_TABLE = '"
  ++ esc table
  ++ lit "'")
    ++ match schema with
       | Some schema => lit " AND cc.CONSTRAINT_SCHEMA = '"
  ++ esc schema
  ++ lit "'"
       | None => []
       end in
  lit "SELECT cc.COLUMN_NAME AS `column_name`, c.COLUMN_TYPE AS `data_type`, cc.ORDINAL_POSITION AS `position` FROM SYS.EXA_ALL_CONSTRAINT_COLUMNS cc LEFT JOIN SYS.EXA_ALL_COLUMNS c ON c.COLUMN_SCHEMA = cc.CONSTRAINT_SCHEMA AND c.COLUMN_TABLE = cc.CONSTRAINT_TABLE AND c.COLUMN_NAME = cc.COLUMN_NAME WHERE "
  ++ filter
  ++ lit " ORDER BY cc.ORDINAL_POSITION".

Definition foreign_key_query (schema table : str) (incoming : bool) : str :=
  let '(schema_col, table_col) :=
    if incoming then (lit "cc.REFERENCED_SCHEMA", lit "cc.REFERENCED_TABLE")
    else (lit "cc.CONSTRAINT_SCHEMA", lit "cc.CONSTRAINT_TABLE") in
  let local_column_alias := if incoming then lit "from_column" else lit "column_name" in
  lit "SELECT cc.CONSTRAINT_NAME AS `constraint_name`, cc.COLUMN_NAME AS `"
  ++ local_column_alias
  ++ lit "`, cc.CONSTRAINT_SCHEMA AS `from_schema`, cc.CONSTRAINT_TABLE AS `from_table`, cc.REFERENCED_COLUMN AS `to_column`, cc.REFERENCED_TABLE AS `to_table`, cc.REFERENCED_SCHEMA AS `to_schema`, 'NO ACTION' AS `update_rule`, 'NO ACTION' AS `delete_rule`, cc.ORDINAL_POSITION AS `ordinal_position` FROM SYS.EXA_ALL_CONSTRAINT_COLUMNS cc WHERE cc.CONSTRAINT_TYPE = 'FOREIGN KEY' AND "
  ++ schema_col
  ++ lit " = '"
  ++ esc schema
  ++ lit "' AND "
  ++ table_col
  ++ lit " = '"
  ++ esc table
  ++ lit "' ORDER BY cc.CONSTRAINT_NAME, cc.ORDINAL_POSITION".

Definition create_table_script_query (schema table : str) : str :=
  let schema := esc schema in
  let table := esc table in
  lit "SELECT 'CREATE TABLE `' || cols.COLUMN_SCHEMA || '`.`' || cols.COLUMN_TABLE || '` (' || CHR(10) || cols.col_defs || CHR(10) || ');' || CASE WHEN pk.pk_cols IS NOT NULL THEN CHR(10) || 'ALTER TABLE `' || cols.COLUMN_SCHEMA || '`.`' || cols.COLUMN_TABLE || '` ADD PRIMARY KEY (' || pk.pk_cols || ');' ELSE '' END AS `createtable` FROM (SELECT COLUMN_SCHEMA, COLUMN_TABLE, LISTAGG('  `' || COLUMN_NAME || '` ' || COLUMN_TYPE || CASE WHEN COLUMN_IS_NULLABLE THEN '' ELSE ' NOT NULL' END || CASE WHEN COLUMN_DEFAULT IS NOT NULL THEN ' DEFAULT ' || COLUMN_DEFAULT ELSE '' END, ',' || CHR(10)) WITHIN GROUP (ORDER BY COLUMN_ORDINAL_POSITION) AS col_defs FROM SYS.EXA_ALL_COLUMNS WHERE COLUMN_SCHEMA = '"
  ++ schema
  ++ lit "' AND COLUMN_TABLE = '"
  ++ table
  ++ lit "' GROUP BY COLUMN_SCHEMA, COLUMN_TABLE) cols LEFT JOIN (SELECT CONSTRAINT_SCHEMA, CONSTRAINT_TABLE, LISTAGG('`' || COLUMN_NAME || '`', ', ') WITHIN GROUP (ORDER BY ORDINAL_POSITION) AS pk_cols FROM SYS.EXA_ALL_CONSTRAINT_COLUMNS WHERE CONSTRAINT_TYPE = 'PRIMARY KEY' AND CONSTRAINT_SCHEMA = '"
  ++ schema
  ++ lit "' AND CONSTRAINT_TABLE = '"
  ++ table
  ++ lit "' GROUP BY CONSTRAINT_SCHEMA, CONSTRAINT_TABLE) pk ON pk.CONSTRAINT_SCHEMA = cols.COLUMN_SCHEMA AND pk.CONSTRAINT_TABLE = cols.COLUMN_TABLE".

(** ** The rules *)

Definition rule_collations (normalized : str) : option str :=
  if str_eqb normalized (lit "select collation_schema, collation_name from information_schema.collations")
  then Some (lit "SELECT `COLLATION_SCHEMA`, `COLLATION_NAME` FROM INFORMATION_SCHEMA.`COLLATIONS`")
  else None.

Definition rule_foreign_server (compact : str) : option str :=
  if str_eqb compact (lit "selectl.oid,l.*frompg_catalog.pg_foreign_serverl")
  then Some (lit "SELECT l.oid, l.srvname, l.srvowner, l.srvfdw, l.srvtype, "
    ++ lit "l.srvversion, l.srvacl, l.srvoptions "
    ++ lit "FROM PG_CATALOG.`PG_FOREIGN_SERVER` l")
  else None.

Definition rule_foreign_data_wrapper (compact : str) : option str :=
  if str_eqb compact
    (lit "selectl.oid,l.*frompg_catalog.pg_foreign_data_wrapperlleftouterjoinpg_catalog.pg_procponp.oid=l.fdwhandler")
  then Some (lit "SELECT l.oid, l.fdwname, l.fdwowner, l.fdwhandler, "
    ++ lit "l.fdwvalidator, l.fdwacl, l.fdwoptions "
    ++ lit "FROM PG_CATALOG.`PG_FOREIGN_DATA_WRAPPER` l "
    ++ lit "LEFT OUTER JOIN PG_CATALOG.PG_PROC p ON p.oid = l.fdwhandler")
  else None.

Definition user_mappings_prefix : str :=
  lit "select distinct fs.srvname, case when rolname is null then 'public' else rolname end "
  ++ lit "rolname, srvoptions, umoptions from pg_user_mappings um join pg_foreign_server fs "
  ++ lit "on um.srvid = fs.oid left join pg_authid pa on um.umuser = pa.oid where fs.oid = ".
Definition rule_user_mappings (normalized : str) : option str :=
  if starts_with user_mappings_prefix normalized && ends_with (lit " order by srvname") normalized
  then
    let oid := trim (trim_end_str (lit " order by srvname")
                 (trim_start_str user_mappings_prefix normalized)) in
    Some ((lit "SELECT DISTINCT fs.srvname, "
    ++ lit "CASE WHEN rolname IS NULL THEN 'public' ELSE rolname END AS rolname, "
    ++ lit "srvoptions, umoptions "
    ++ lit "FROM PG_CATALOG.PG_USER_MAPPINGS um "
    ++ lit "JOIN PG_CATALOG.`PG_FOREIGN_SERVER` fs ON um.srvid = fs.oid "
    ++ lit "LEFT JOIN PG_CATALOG.PG_AUTHID pa ON um.umuser = pa.oid "
    ++ lit "WHERE fs.oid = ")
      ++ oid ++ lit " ORDER BY srvname")
  else None.

Definition rule_table_privileges (normalized : str) : option str :=
  if starts_with (lit "with table_privileges as (") normalized
   && contains (lit "has_any_column_privilege") normalized
   && contains (lit "has_table_privilege") normalized
   && contains (lit "from table_privileges") normalized
  then Some (lit "
SELECT
    CAST(NULL AS VARCHAR(128)) AS `role`,
    object_schema AS `schema`,
    object_name AS `table`,
    TRUE AS `update`,
    TRUE AS `select`,
    TRUE AS `insert`,
    TRUE AS `delete`
FROM (
    SELECT TABLE_SCHEMA AS object_schema, TABLE_NAME AS object_name
    FROM SYS.EXA_ALL_TABLES
    UNION
    SELECT VIEW_SCHEMA AS object_schema, VIEW_NAME AS object_name
    FROM SYS.EXA_ALL_VIEWS
) t
WHERE LOWER(object_schema) NOT LIKE 'pg\_%'
  AND LOWER(object_schema) <> 'information_schema'
")
  else None.

Definition rule_columns (sql normalized : str) : option str :=
  if contains (lit "from information_schema.columns") normalized
   && contains (lit "col_description") normalized
   && contains (lit "union all") normalized
   && contains (lit "from pg_catalog.pg_class") normalized
  then
    let schema_filter := extract_in_filter sql "c.table_schema" "C.TABLE_SCHEMA" in
    let table_filter := extract_in_filter sql "c.table_name" "C.TABLE_NAME" in
    Some (lit "
SELECT
    C.COLUMN_NAME AS `name`,
    CASE
        WHEN COALESCE(C.UDT_SCHEMA, 'pg_catalog') IN ('public', 'pg_catalog') THEN C.UDT_NAME
        ELSE '`' || C.UDT_SCHEMA || '`.`' || C.UDT_NAME || '`'
    END AS `database-type`,
    C.ORDINAL_POSITION - 1 AS `database-position`,
    C.TABLE_SCHEMA AS `table-schema`,
    C.TABLE_NAME AS `table-name`,
    CASE WHEN PK.COLUMN_NAME IS NULL THEN FALSE ELSE TRUE END AS `pk?`,
    CAST(NULL AS VARCHAR(2000000)) AS `field-comment`,
    CASE
        WHEN (C.COLUMN_DEFAULT IS NULL OR LOWER(C.COLUMN_DEFAULT) = 'null')
         AND C.IS_NULLABLE = 'NO'
         AND C.IS_IDENTITY = 'NO'
        THEN TRUE ELSE FALSE
    END AS `database-required`,
    C.COLUMN_DEFAULT AS `database-default`,
    CASE WHEN C.IS_IDENTITY <> 'NO' THEN TRUE ELSE FALSE END AS `database-is-auto-increment`,
    CASE WHEN C.IS_GENERATED = 'ALWAYS' THEN TRUE ELSE FALSE END AS `database-is-generated`,
    CASE WHEN C.IS_NULLABLE = 'YES' THEN TRUE ELSE FALSE END AS `database-is-nullable`
FROM INFORMATION_SCHEMA.COLUMNS C
LEFT JOIN (
    SELECT
        TC.TABLE_SCHEMA,
        TC.TABLE_NAME,
        KC.COLUMN_NAME
    FROM INFORMATION_SCHEMA.TABLE_CONSTRAINTS TC
    JOIN INFORMATION_SCHEMA.KEY_COLUMN_USAGE KC
      ON TC.CONSTRAINT_NAME = KC.CONSTRAINT_NAME
     AND TC.TABLE_SCHEMA = KC.TABLE_SCHEMA
     AND TC.TABLE_NAME = KC.TABLE_NAME
    WHERE TC.CONSTRAINT_TYPE = 'PRIMARY KEY'
) PK
  ON C.TABLE_SCHEMA = PK.TABLE_SCHEMA
 AND C.TABLE_NAME = PK.TABLE_NAME
 AND C.COLUMN_NAME = PK.COLUMN_NAME
WHERE REGEXP_INSTR(C.TABLE_SCHEMA, '^information_schema|catalog_history|pg_') = 0
"
  ++ schema_filter
  ++ lit "
"
  ++ table_filter
  ++ lit "
ORDER BY `table-schema`, `table-name`, `database-position`
")
  else None.

Definition rule_foreign_keys (sql normalized : str) : option str :=
  if contains (lit "from pg_constraint") normalized
   && contains (lit "fk-table-schema") normalized
   && contains (lit "pk-table-schema") normalized
   && contains (lit "any(c.conkey)") normalized
  then
    let schema_filter := extract_in_filter sql "fk_ns.nspname" "CC.CONSTRAINT_SCHEMA" in
    let table_filter := extract_in_filter sql "fk_table.relname" "CC.CONSTRAINT_TABLE" in
    Some (lit "
SELECT
    CC.CONSTRAINT_SCHEMA AS `fk-table-schema`,
    CC.CONSTRAINT_TABLE AS `fk-table-name`,
    CC.COLUMN_NAME AS `fk-column-name`,
    CC.REFERENCED_SCHEMA AS `pk-table-schema`,
    CC.REFERENCED_TABLE AS `pk-table-name`,
    CC.REFERENCED_COLUMN AS `pk-column-name`
FROM SYS.EXA_DBA_CONSTRAINT_COLUMNS CC
JOIN SYS.EXA_DBA_CONSTRAINTS C
  ON C.CONSTRAINT_SCHEMA = CC.CONSTRAINT_SCHEMA
 AND C.CONSTRAINT_TABLE = CC.CONSTRAINT_TABLE
 AND C.CONSTRAINT_NAME = CC.CONSTRAINT_NAME
WHERE C.CONSTRAINT_TYPE = 'FOREIGN KEY'
  AND REGEXP_INSTR(CC.CONSTRAINT_SCHEMA, '^information_schema|catalog_history|pg_') = 0
"
  ++ schema_filter
  ++ lit "
"
  ++ table_filter
  ++ lit "
ORDER BY `fk-table-schema`, `fk-table-name`
")
  else None.

Definition rule_jdbc_primary_keys (sql normalized : str) : option str :=
  if contains (lit "information_schema._pg_expandarray") normalized
   && contains (lit "pg_index") normalized
   && contains (lit "i.indisprimary") normalized
   && contains (lit "key_seq") normalized
   && contains (lit "pk_name") normalized
  then
    let schema_filter := extract_in_or_eq_filter sql "n.nspname" "CC.CONSTRAINT_SCHEMA" in
    let table_filter := extract_in_or_eq_filter sql "ct.relname" "CC.CONSTRAINT_TABLE" in
    Some (lit "
SELECT
    'exasol' AS `TABLE_CAT`,
    CC.CONSTRAINT_SCHEMA AS `TABLE_SCHEM`,
    CC.CONSTRAINT_TABLE AS `TABLE_NAME`,
    CC.COLUMN_NAME AS `COLUMN_NAME`,
    CC.ORDINAL_POSITION AS `KEY_SEQ`,
    CC.CONSTRAINT_NAME AS `PK_NAME`
FROM SYS.EXA_DBA_CONSTRAINT_COLUMNS CC
JOIN SYS.EXA_DBA_CONSTRAINTS C
  ON C.CONSTRAINT_SCHEMA = CC.CONSTRAINT_SCHEMA
 AND C.CONSTRAINT_TABLE = CC.CONSTRAINT_TABLE
 AND C.CONSTRAINT_NAME = CC.CONSTRAINT_NAME
WHERE C.CONSTRAINT_TYPE = 'PRIMARY KEY'
"
  ++ schema_filter
  ++ lit "
"
  ++ table_filter
  ++ lit "
ORDER BY CC.CONSTRAINT_TABLE, CC.CONSTRAINT_NAME, CC.ORDINAL_POSITION
")
  else None.

Definition rule_indexes (normalized : str) : option str :=
  if contains (lit "information_schema._pg_expandarray") normalized
   && contains (lit "pg_get_indexdef") normalized
   && contains (lit "pg_catalog.pg_index") normalized
  then Some (lit "
SELECT
    CAST(NULL AS VARCHAR(128)) AS `table-schema`,
    CAST(NULL AS VARCHAR(128)) AS `table-name`,
    CAST(NULL AS VARCHAR(128)) AS `field-name`
FROM (SELECT 1 AS DUMMY)
WHERE 1 = 0
")
  else None.

Definition rule_constraints (sql normalized : str) : option str :=
  if contains (lit "from pg_constraint") normalized
   && contains (lit "lateral unnest") normalized
   && contains (lit "array_agg(col.attname") normalized
  then
    let schema_filter := default (lit "1 = 1")
      (extract_like_filter sql "sch.nspname" "C.CONSTRAINT_SCHEMA") in
    let table_filter := default (lit "1 = 1")
      (extract_like_filter sql "tbl.relname" "C.CONSTRAINT_TABLE") in
    Some (lit "
WITH CONSTRAINT_COLUMNS AS (
    SELECT
        CONSTRAINT_SCHEMA,
        CONSTRAINT_TABLE,
        CONSTRAINT_NAME,
        GROUP_CONCAT(COLUMN_NAME ORDER BY COALESCE(ORDINAL_POSITION, 0) SEPARATOR ',') AS COLUMNS,
        MAX(REFERENCED_SCHEMA) AS FOREIGN_SCHEMA_NAME,
        MAX(REFERENCED_TABLE) AS FOREIGN_TABLE_NAME,
        GROUP_CONCAT(REFERENCED_COLUMN ORDER BY COALESCE(ORDINAL_POSITION, 0) SEPARATOR ',') AS FOREIGN_COLUMNS
    FROM SYS.EXA_DBA_CONSTRAINT_COLUMNS
    GROUP BY CONSTRAINT_SCHEMA, CONSTRAINT_TABLE, CONSTRAINT_NAME
)
SELECT
    C.CONSTRAINT_NAME AS constraint_name,
    CASE
        WHEN C.CONSTRAINT_TYPE = 'PRIMARY KEY' THEN 'Primary Key'
        WHEN C.CONSTRAINT_TYPE = 'FOREIGN KEY' THEN 'Foreign Key'
        WHEN C.CONSTRAINT_TYPE = 'NOT NULL' THEN 'Check'
        ELSE C.CONSTRAINT_TYPE
    END AS constraint_type,
    C.CONSTRAINT_SCHEMA AS `schema_name`,
    C.CONSTRAINT_TABLE AS `table_name`,
    CC.COLUMNS AS `columns`,
    CC.FOREIGN_SCHEMA_NAME AS `foreign_schema_name`,
    CC.FOREIGN_TABLE_NAME AS `foreign_table_name`,
    CC.FOREIGN_COLUMNS AS `foreign_columns`,
    CASE
        WHEN C.CONSTRAINT_TYPE = 'PRIMARY KEY'
            THEN 'PRIMARY KEY (' || COALESCE(CC.COLUMNS, '') || ')'
        WHEN C.CONSTRAINT_TYPE = 'FOREIGN KEY'
            THEN 'FOREIGN KEY (' || COALESCE(CC.COLUMNS, '') || ') REFERENCES '
                 || COALESCE(CC.FOREIGN_SCHEMA_NAME, '') || '.'
                 || COALESCE(CC.FOREIGN_TABLE_NAME, '') || '('
                 || COALESCE(CC.FOREIGN_COLUMNS, '') || ')'
        WHEN C.CONSTRAINT_TYPE = 'NOT NULL'
            THEN COALESCE(CC.COLUMNS, '') || ' IS NOT NULL'
        ELSE C.CONSTRAINT_TYPE
    END AS definition
FROM SYS.EXA_DBA_CONSTRAINTS C
LEFT JOIN CONSTRAINT_COLUMNS CC
  ON CC.CONSTRAINT_SCHEMA = C.CONSTRAINT_SCHEMA
 AND CC.CONSTRAINT_TABLE = C.CONSTRAINT_TABLE
 AND CC.CONSTRAINT_NAME = C.CONSTRAINT_NAME
WHERE "
  ++ schema_filter
  ++ lit "
  AND "
  ++ table_filter
  ++ lit "
ORDER BY `schema_name`, `table_name`
")
  else None.

Definition rule_triggers (normalized : str) : option str :=
  if contains (lit "from pg_catalog.pg_trigger") normalized
   && contains (lit "information_schema.triggers") normalized
   && contains (lit "array_agg(") normalized
  then Some (lit "
SELECT
    trigger_name AS `Trigger Name`,
    trigger_catalog AS `Trigger Catalog`,
    trigger_schema AS `Trigger Schema`,
    CAST(NULL AS VARCHAR(2000000)) AS `Event Manipulation`,
    action_orientation AS `Action Orientation`,
    action_condition AS `Action Condition`,
    action_statement AS `Action Statement`,
    CAST(NULL AS VARCHAR(2000000)) AS `Procedure Name`,
    CAST(NULL AS DECIMAL(18,0)) AS `proc_oid`,
    action_timing AS `Condition Timing`,
    event_object_catalog AS `Event Object Catalog`,
    event_object_schema AS `Event Object Schema`,
    event_object_table AS `Event Object Table`,
    action_reference_old_table AS `Action ref Old Table`,
    action_reference_new_table AS `Action ref New Table`,
    CAST(NULL AS VARCHAR(32)) AS `Status`
FROM information_schema.triggers
WHERE 1 = 0
")
  else None.

Definition rule_table_list (normalized : str) : option str :=
  if contains (lit "information_schema.tables") normalized
   && contains (lit "pg_inherits") normalized
   && contains (lit "relkind") normalized
  then Some (lit "SELECT
"
    ++ lit "    TABLE_SCHEMA AS `schema`,
"
    ++ lit "    TABLE_NAME AS `name`,
"
    ++ lit "    'r' AS `tabletype`,
"
    ++ lit "    CAST(NULL AS CHAR(1)) AS `parenttype`
"
    ++ lit "FROM SYS.EXA_ALL_TABLES
"
    ++ lit "ORDER BY TABLE_SCHEMA, TABLE_NAME")
  else None.

Definition rule_primary_keys (sql normalized : str) : option str :=
  if contains (lit "pg_index") normalized
   && contains (lit "indisprimary") normalized
   && contains (lit "::regclass") normalized
  then '(schema, table) ← regclass_schema_table sql; Some (primary_key_query schema table)
  else None.

(** [RE.captures(sql).map(|c| c[1].to_owned())]. *)
Definition literal_of (re sql : str) : option str :=
  (fun cap => default [] (cap_get sql cap 1)) <$> captures_of re sql.

Definition rule_key_columns (sql normalized : str) : option str :=
  if contains (lit "pg_constraint") normalized
   && contains (lit "generate_subscripts") normalized
   && contains (lit "contype = 'f'") normalized
  then
    match literal_of FK_OUT_SCHEMA_RE sql, literal_of FK_OUT_TABLE_RE sql with
    | Some schema, Some table => Some (foreign_key_query schema table false)
    | _, _ =>
        match literal_of FK_IN_SCHEMA_RE sql, literal_of FK_IN_TABLE_RE sql with
        | Some schema, Some table => Some (foreign_key_query schema table true)
        | _, _ => None
        end
    end
  else None.

Definition rule_create_script (sql normalized : str) : option str :=
  if contains (lit "as createtable") normalized
   && contains (lit "array_agg") normalized
  then
    match literal_of CREATE_SCRIPT_TABLE_RE sql, literal_of FK_OUT_SCHEMA_RE sql with
    | Some table, Some schema => Some (create_table_script_query schema table)
    | _, _ => None
    end
  else None.

Definition rewrite_known_metadata_query (sql : str) : str :=
  let normalized := normalize_for_match sql in
  let compact := replace (lit " ") [] normalized in
  let rules :=
    [rule_collations normalized; rule_foreign_server compact;
     rule_foreign_data_wrapper compact; rule_user_mappings normalized;
     rule_table_privileges normalized; rule_columns sql normalized;
     rule_foreign_keys sql normalized; rule_jdbc_primary_keys sql normalized;
     rule_indexes normalized; rule_constraints sql normalized; rule_triggers normalized;
     rule_table_list normalized; rule_primary_keys sql normalized;
     rule_key_columns sql normalized; rule_create_script sql normalized] in
  default sql (head (omap id rules)).
End metadata_queries.
