(* ===== verification/Translator.v ===== *)
(** * SQL translation (src/src/translator.rs)

    [translate_postgres_to_exasol] sends a statement through one of three pipelines:
    statements without PostgreSQL constructs pass with their reserved aliases quoted,
    recognised metadata queries are replaced, all others are rewritten, transpiled by
    the polyglot library ([Transpiler], a parameter) and patched.  Every pattern and
    replacement is that of the source and runs on the engine of Regex.v. *)

From S2P Require Import Prelude RustStr Regex TextScan MetadataQueries.
#[local] Open Scope nat_scope.

(** [polyglot_sql::transpile_by_name]. *)
Class Transpiler := transpile_by_name : str -> string -> string -> outcome str (list str).

(** [TranslationError], with its [Display] text. *)
Record TranslationError := { translation_message : str }.
Definition TranslationError_to_string (e : TranslationError) : str :=
  lit "PostgreSQL-to-Exasol SQL translation failed: " ++ translation_message e.

(** ** Tables *)

Definition CATALOG_RELATIONS : list str := lit <$>
    [
     "pg_aggregate"; "pg_am"; "pg_amop"; "pg_amproc"; "pg_available_extensions"; "pg_attrdef";
     "pg_attribute"; "pg_auth_members"; "pg_authid"; "pg_cast"; "pg_class"; "pg_collation";
     "pg_constraint"; "pg_conversion"; "pg_database"; "pg_db_role_setting"; "pg_default_acl";
     "pg_depend"; "pg_description"; "pg_enum"; "pg_event_trigger"; "pg_extension";
     "pg_foreign_data_wrapper"; "pg_foreign_server"; "pg_foreign_table"; "pg_group"; "pg_index";
     "pg_inherits"; "pg_init_privs"; "pg_language"; "pg_largeobject"; "pg_largeobject_metadata";
     "pg_locks"; "pg_matviews"; "pg_namespace"; "pg_opclass"; "pg_operator"; "pg_opfamily";
     "pg_parameter_acl"; "pg_partitioned_table"; "pg_policy"; "pg_proc"; "pg_publication";
     "pg_publication_namespace"; "pg_publication_rel"; "pg_range"; "pg_replication_origin";
     "pg_rewrite"; "pg_roles"; "pg_rules"; "pg_sequences"; "pg_seclabel"; "pg_sequence";
     "pg_settings"; "pg_shdepend"; "pg_shdescription"; "pg_shseclabel"; "pg_stat_activity";
     "pg_stat_user_tables"; "pg_statistic"; "pg_statistic_ext"; "pg_statistic_ext_data";
     "pg_subscription"; "pg_subscription_rel"; "pg_tables"; "pg_tablespace"; "pg_transform";
     "pg_trigger"; "pg_ts_config"; "pg_ts_config_map"; "pg_ts_dict"; "pg_ts_parser";
     "pg_ts_template"; "pg_type"; "pg_user"; "pg_user_mapping"; "pg_user_mappings"; "pg_views"]%string.

Definition FUNCTION_REPLACEMENTS : list (str * str) := (fun p => (lit p.1, lit p.2)) <$>
    [("format_type", "PG_CATALOG.FORMAT_TYPE");
     ("pg_identify_object", "PG_CATALOG.PG_IDENTIFY_OBJECT");
     ("pg_get_functiondef", "PG_CATALOG.PG_GET_FUNCTIONDEF");
     ("pg_get_userbyid", "PG_CATALOG.PG_GET_USERBYID");
     ("pg_get_expr", "PG_CATALOG.PG_GET_EXPR");
     ("pg_get_constraintdef", "PG_CATALOG.PG_GET_CONSTRAINTDEF");
     ("pg_get_indexdef", "PG_CATALOG.PG_GET_INDEXDEF");
     ("oidvectortypes", "PG_CATALOG.OIDVECTORTYPES");
     ("pg_get_partkeydef", "PG_CATALOG.PG_GET_PARTKEYDEF");
     ("pg_get_ruledef", "PG_CATALOG.PG_GET_RULEDEF");
     ("pg_get_triggerdef", "PG_CATALOG.PG_GET_TRIGGERDEF");
     ("pg_get_viewdef", "PG_CATALOG.PG_GET_VIEWDEF");
     ("pg_encoding_to_char", "PG_CATALOG.PG_ENCODING_TO_CHAR");
     ("pg_total_relation_size", "PG_CATALOG.PG_TOTAL_RELATION_SIZE");
     ("pg_relation_size", "PG_CATALOG.PG_RELATION_SIZE");
     ("pg_size_pretty", "PG_CATALOG.PG_SIZE_PRETTY");
     ("pg_tablespace_size", "PG_CATALOG.PG_TABLESPACE_SIZE");
     ("pg_tablespace_location", "PG_CATALOG.PG_TABLESPACE_LOCATION");
     ("pg_stat_get_numscans", "PG_CATALOG.PG_STAT_GET_NUMSCANS");
     ("pg_stat_get_blocks_fetched", "PG_CATALOG.PG_STAT_GET_BLOCKS_FETCHED");
     ("pg_stat_get_blocks_hit", "PG_CATALOG.PG_STAT_GET_BLOCKS_HIT");
     ("to_regclass", "PG_CATALOG.TO_REGCLASS");
     ("shobj_description", "PG_CATALOG.SHOBJ_DESCRIPTION");
     ("col_description", "PG_CATALOG.COL_DESCRIPTION");
     ("has_schema_privilege", "PG_CATALOG.HAS_SCHEMA_PRIVILEGE")]%string.

Definition INFORMATION_SCHEMA_COLUMNS : list str := lit <$>
    [
     "TABLE_CATALOG"; "TABLE_SCHEMA"; "TABLE_NAME"; "COLUMN_NAME"; "ORDINAL_POSITION";
     "COLUMN_DEFAULT"; "IS_NULLABLE"; "DATA_TYPE"; "CHARACTER_MAXIMUM_LENGTH";
     "CHARACTER_OCTET_LENGTH"; "NUMERIC_PRECISION"; "NUMERIC_PRECISION_RADIX"; "NUMERIC_SCALE";
     "DATETIME_PRECISION"; "INTERVAL_TYPE"; "INTERVAL_PRECISION"; "CHARACTER_SET_CATALOG";
     "CHARACTER_SET_SCHEMA"; "CHARACTER_SET_NAME"; "COLLATION_CATALOG"; "COLLATION_SCHEMA";
     "COLLATION_NAME"; "DOMAIN_CATALOG"; "DOMAIN_SCHEMA"; "DOMAIN_NAME"; "UDT_CATALOG";
     "UDT_SCHEMA"; "UDT_NAME"; "SCOPE_CATALOG"; "SCOPE_SCHEMA"; "SCOPE_NAME";
     "MAXIMUM_CARDINALITY"; "DTD_IDENTIFIER"; "IS_SELF_REFERENCING"; "IS_IDENTITY";
     "IDENTITY_GENERATION"; "IDENTITY_START"; "IDENTITY_INCREMENT"; "IDENTITY_MAXIMUM";
     "IDENTITY_MINIMUM"; "IDENTITY_CYCLE"; "IS_GENERATED"; "GENERATION_EXPRESSION";
     "IS_UPDATABLE"]%string.

Definition RESERVED_ALIAS_WORDS : list str := lit <$>
    [
     "absolute"; "action"; "add"; "after"; "all"; "allocate"; "alter"; "and"; "any"; "append";
     "are"; "array"; "as"; "asc"; "asensitive"; "assertion"; "at"; "attribute"; "authid";
     "authorization"; "before"; "begin"; "between"; "bigint"; "binary"; "bit"; "blob"; "blocked";
     "bool"; "boolean"; "both"; "by"; "byte"; "call"; "called"; "cardinality"; "cascade";
     "cascaded"; "case"; "casespecific"; "cast"; "catalog"; "chain"; "char"; "character";
     "character_set_catalog"; "character_set_name"; "character_set_schema"; "characteristics";
     "check"; "checked"; "clob"; "close"; "coalesce"; "collate"; "collation";
     "collation_catalog"; "collation_name"; "collation_schema"; "column"; "commit"; "condition";
     "connect_by_iscycle"; "connect_by_isleaf"; "connect_by_root"; "connection"; "constant";
     "constraint"; "constraint_state_default"; "constraints"; "constructor"; "contains";
     "continue"; "control"; "convert"; "corresponding"; "create"; "cs"; "csv"; "cube"; "current";
     "current_cluster"; "current_cluster_uid"; "current_date"; "current_path"; "current_role";
     "current_schema"; "current_session"; "current_statement"; "current_time";
     "current_timestamp"; "current_user"; "cursor"; "cycle"; "data"; "datalink"; "date";
     "datetime_interval_code"; "datetime_interval_precision"; "day"; "dbtimezone"; "deallocate";
     "dec"; "decimal"; "declare"; "default"; "default_like_escape_character"; "deferrable";
     "deferred"; "defined"; "definer"; "delete"; "deref"; "derived"; "desc"; "describe";
     "descriptor"; "deterministic"; "disable"; "disabled"; "disconnect"; "dispatch"; "distinct";
     "dlurlcomplete"; "dlurlpath"; "dlurlpathonly"; "dlurlscheme"; "dlurlserver"; "dlvalue";
     "do"; "domain"; "double"; "drop"; "dynamic"; "dynamic_function"; "dynamic_function_code";
     "each"; "else"; "elseif"; "elsif"; "emits"; "enable"; "enabled"; "end"; "end-exec"; "endif";
     "enforce"; "equals"; "errors"; "escape"; "except"; "exception"; "exec"; "execute"; "exists";
     "exit"; "export"; "external"; "extract"; "false"; "fbv"; "fetch"; "file"; "final"; "first";
     "float"; "following"; "for"; "forall"; "force"; "format"; "found"; "free"; "from"; "fs";
     "full"; "function"; "general"; "generated"; "geometry"; "get"; "global"; "go"; "goto";
     "grant"; "granted"; "group"; "group_concat"; "grouping"; "groups"; "hashtype";
     "hashtype_format"; "having"; "high"; "hold"; "hour"; "identity"; "if"; "ifnull";
     "immediate"; "impersonate"; "implementation"; "import"; "in"; "index"; "indicator"; "inner";
     "inout"; "input"; "insensitive"; "insert"; "instance"; "instantiable"; "int"; "integer";
     "integrity"; "intersect"; "interval"; "into"; "inverse"; "invoker"; "is"; "iterate"; "join";
     "key_member"; "key_type"; "large"; "last"; "lateral"; "ldap"; "leading"; "leave"; "left";
     "level"; "like"; "limit"; "listagg"; "local"; "localtime"; "localtimestamp"; "locator";
     "log"; "longvarchar"; "loop"; "low"; "map"; "match"; "matched"; "merge"; "method"; "minus";
     "minute"; "mod"; "modifies"; "modify"; "module"; "month"; "names"; "national"; "natural";
     "nchar"; "nclob"; "new"; "next"; "nls_date_format"; "nls_date_language";
     "nls_first_day_of_week"; "nls_numeric_characters"; "nls_timestamp_format"; "no"; "nocycle";
     "nologging"; "none"; "not"; "null"; "nullif"; "number"; "numeric"; "nvarchar"; "nvarchar2";
     "object"; "of"; "off"; "old"; "on"; "only"; "open"; "option"; "options"; "or"; "order";
     "ordering"; "ordinality"; "others"; "out"; "outer"; "output"; "over"; "overlaps"; "overlay";
     "overriding"; "pad"; "parallel_enable"; "parameter"; "parameter_specific_catalog";
     "parameter_specific_name"; "parameter_specific_schema"; "parquet"; "partial"; "path";
     "permission"; "placing"; "plus"; "position"; "preceding"; "preferring"; "prepare";
     "preserve"; "prior"; "privileges"; "procedure"; "profile"; "qualify"; "random"; "range";
     "read"; "reads"; "real"; "recovery"; "recursive"; "ref"; "references"; "referencing";
     "refresh"; "regexp_like"; "relative"; "release"; "rename"; "repeat"; "replace"; "restore";
     "restrict"; "result"; "return"; "returned_length"; "returned_octet_length"; "returns";
     "revoke"; "right"; "rollback"; "rollup"; "routine"; "row"; "rows"; "rowtype"; "savepoint";
     "schema"; "scope"; "scope_user"; "script"; "scroll"; "search"; "second"; "section";
     "security"; "select"; "selective"; "self"; "sensitive"; "separator"; "sequence"; "session";
     "session_user"; "sessiontimezone"; "set"; "sets"; "shortint"; "similar"; "smallint"; "some";
     "source"; "space"; "specific"; "specifictype"; "sql"; "sql_bigint"; "sql_bit"; "sql_char";
     "sql_date"; "sql_decimal"; "sql_double"; "sql_float"; "sql_integer"; "sql_longvarchar";
     "sql_numeric"; "sql_preprocessor_script"; "sql_real"; "sql_smallint"; "sql_timestamp";
     "sql_tinyint"; "sql_type_date"; "sql_type_timestamp"; "sql_varchar"; "sqlexception";
     "sqlstate"; "sqlwarning"; "start"; "state"; "statement"; "static"; "structure"; "style";
     "substring"; "subtype"; "sysdate"; "system"; "system_user"; "systimestamp"; "table";
     "temporary"; "text"; "then"; "time"; "timestamp"; "timezone_hour"; "timezone_minute";
     "tinyint"; "to"; "trailing"; "transaction"; "transform"; "transforms"; "translation";
     "treat"; "trigger"; "trim"; "true"; "truncate"; "under"; "union"; "unique"; "unknown";
     "unlink"; "unnest"; "until"; "update"; "usage"; "user"; "using"; "value"; "values";
     "varchar"; "varchar2"; "varray"; "verify"; "view"; "when"; "whenever"; "where"; "while";
     "window"; "with"; "within"; "without"; "work"; "year"; "yes"; "zone"]%string.

(** ** Patterns *)

Definition QUOTED_QUALIFIED_IDENTIFIER_RE : str :=
  lit "`([A-Za-z_][A-Za-z0-9_]*)`\s*\.\s*`([A-Za-z_][A-Za-z0-9_]*)`".
Definition RELATION_ALIAS_RE : str :=
  lit "(?is)(\b(?:from|join|left(?:\s+outer)?\s+join|right(?:\s+outer)?\s+join|inner\s+join|full(?:\s+outer)?\s+join|cross\s+join)\s+(?:[A-Za-z_][A-Za-z0-9_]*(?:\.[A-Za-z_][A-Za-z0-9_]*)?|`[A-Za-z_][A-Za-z0-9_]*`)(?:\s+AS)?)\s+`([A-Za-z_][A-Za-z0-9_]*)`".
Definition REGEX_NOT_MATCH_RE : str :=
  lit "(?i)([A-Za-z_][A-Za-z0-9_.]*|`[^`]+`)\s*!~\s*('(?:''|[^'])*')".
Definition REGEX_MATCH_RE : str :=
  lit "(?i)([A-Za-z_][A-Za-z0-9_.]*|`[^`]+`)\s*~\s*('(?:''|[^'])*')".
Definition ILIKE_RE : str :=
  lit "(?i)(CAST\([^)]+\)|'(?:''|[^'])*'|[A-Za-z_][A-Za-z0-9_]*|`[^`]+`)\s+ILIKE\s+('(?:''|[^'])*'|[A-Za-z_][A-Za-z0-9_]*|`[^`]+`)".
Definition CURRENT_DATABASE_RE : str :=
  lit "(?i)\bcurrent_database\s*\(\s*\)".
Definition CURRENT_CATALOG_RE : str :=
  lit "(?i)\bcurrent_catalog(?:\s*\(\s*\))?".
Definition CURRENT_SCHEMA_CALL_RE : str :=
  lit "(?i)\bcurrent_schema\s*\(\s*\)".
Definition SESSION_USER_RE : str :=
  lit "(?i)\bsession_user(?:\s*\(\s*\))?".
Definition CURRENT_SCHEMAS_FIRST_RE : str :=
  lit "(?i)\(?\s*(?:pg_catalog\.)?current_schemas\s*\(\s*true\s*\)\s*\)?\s*\[\s*1\s*\]".
Definition QUALIFIED_OPERATOR_RE : str :=
  lit "(?i)\s+OPERATOR\s*\(\s*(?:PG_CATALOG|pg_catalog)\s*\.\s*(<>|!=|<=|>=|=|<|>)\s*\)\s*".
Definition PG_IDENTIFY_OBJECT_IDENTITY_RE : str :=
  lit "(?is)\(\s*(?:pg_catalog\.)?pg_identify_object\s*\(\s*([^,]+?)\s*,\s*([^,]+?)\s*,\s*([^)]+?)\s*\)\s*\)\s*\.\s*identity\b".
Definition PG_GET_VIEWDEF_PRETTY_RE : str :=
  lit "(?is)(?:pg_catalog\.)?pg_get_viewdef\s*\(\s*([^,]+?)\s*,\s*(?:true|false)\s*\)".
Definition PG_GET_EXPR_PRETTY_RE : str :=
  lit "(?is)(?:pg_catalog\.)?pg_get_expr\s*\(\s*([^,]+?)\s*,\s*([^,]+?)\s*,\s*(?:true|false)\s*\)".
Definition PG_GET_CONSTRAINTDEF_PRETTY_RE : str :=
  lit "(?is)(?:pg_catalog\.)?pg_get_constraintdef\s*\(\s*([^,]+?)\s*,\s*(?:true|false)\s*\)".
Definition OBJ_DESCRIPTION_RE : str :=
  lit "(?is)(?:pg_catalog\.)?obj_description\s*\(\s*([^,]+?)\s*,\s*'(pg_namespace|pg_class)'\s*\)".
Definition REGCLASS_LITERAL_RE : str :=
  lit "(?i)'((?:pg_catalog\.)?[A-Za-z_][A-Za-z0-9_]*)'\s*::\s*regclass".
Definition QUOTE_IDENT_RE : str :=
  lit "(?i)\bquote_ident\s*\(\s*([^()]+?)\s*\)".
Definition COL_DESCRIPTION_FORMAT_RE : str :=
  lit "(?i)(?:pg_catalog\.)?col_description\s*\(\s*format\s*\([^)]*\)\s*::\s*regclass\s*(?:::\s*oid\s*)?,[^)]*\)".
Definition EXASOL_CATALOG_PREFIX_RE : str :=
  lit "(?i)(^|[\s,(\[])`?exasol`?\s*\.\s*(`?[A-Za-z_][A-Za-z0-9_]*`?\s*\.\s*`?[A-Za-z_][A-Za-z0-9_]*`?)".
Definition ALIAS_RE : str :=
  lit "(?i)\bAS\s+([A-Za-z_][A-Za-z0-9_]*)(\s*[()]?)".
Definition REDUNDANT_OFFSET_RE : str :=
  lit "(?i)\s+OFFSET\s+(?:0|NULL)\b(?:\s+ROWS?\b)?".
Definition CATALOG_RELATION_RE : str :=
  lit "(?i)(\bfrom\s+|\bjoin\s+|\bleft(?:\s+outer)?\s+join\s+|\bright(?:\s+outer)?\s+join\s+|\binner\s+join\s+|\bfull(?:\s+outer)?\s+join\s+|\bcross\s+join\s+|,\s*)`?(?P<rel>"
  ++ join (lit "|") CATALOG_RELATIONS
  ++ lit ")`?(\s|,|\)|$)".

(** ** Rewriting steps *)

Section translator.
Context `{RegexEngine} `{Transpiler}.

(** A capture group as text: [cap.get(i).map_or("", |m| m.as_str())], which is
    [&cap[i]] for the groups that always take part in a match. *)
Definition cap_str (s : str) (cap : captures) (i : nat) : str := default [] (cap_get s cap i).

Definition strip_exasol_catalog_prefix (sql : str) : str :=
  replace_all_with EXASOL_CATALOG_PREFIX_RE
    (fun cap => cap_str sql cap 1 ++ cap_str sql cap 2) sql.

Definition normalize_ansi_quoted_postgres_identifiers (sql : str) : str :=
  let sql := replace_all QUOTED_QUALIFIED_IDENTIFIER_RE (lit "$1.$2") sql in
  let sql := replace_all RELATION_ALIAS_RE (lit "$1 $2") sql in
  replace_all_with CATALOG_RELATION_RE
    (fun cap => cap_str sql cap 1
                ++ default [] (cap_name CATALOG_RELATION_RE sql cap (lit "rel"))
                ++ cap_str sql cap 3) sql.

Definition postgres_specific_tokens : list str := lit <$>
  [
   "::"; " ilike "; " operator("; " current_database("; " current_catalog"; " session_user";
   " current_schemas("; " current_schema("; " obj_description("; " shobj_description(";
   " col_description("; " format_type("; " oidvectortypes("; " to_regclass("; " unnest(";
   " generate_series("; " returning "; " any("; " array["; " regexp_matches(";
   " regexp_replace("; " quote_ident("]%string.

Definition is_exasol_passthrough_sql (sql : str) : bool :=
  let detection_sql := strip_sql_comments_for_detection sql in
  let normalized := normalize_for_match detection_sql in
  if starts_with (lit "with ") normalized then false
  else
    let padded := lit " " ++ normalized ++ lit " " in
    if existsb (fun token => contains token padded) postgres_specific_tokens then false
    else if contains (lit "pg_catalog.") padded
            || contains (lit "information_schema.") padded
            || existsb (fun rel => contains_word padded rel) CATALOG_RELATIONS
    then false
    else if is_match REGEX_MATCH_RE sql || is_match REGEX_NOT_MATCH_RE sql then false
    else true.

Definition is_passthrough_query (sql : str) : bool :=
  is_exasol_passthrough_sql (strip_exasol_catalog_prefix sql).

Definition rewrite_quote_ident (sql : str) : str :=
  replace_all_with QUOTE_IDENT_RE
    (fun cap => lit "('`' || REPLACE(" ++ trim (cap_str sql cap 1)
                ++ lit ", '`', '``') || '`')") sql.

Definition rewrite_qualified_operators (sql : str) : str :=
  replace_all_with QUALIFIED_OPERATOR_RE
    (fun cap => lit " " ++ cap_str sql cap 1 ++ lit " ") sql.

Definition rewrite_object_description (sql : str) : str :=
  replace_all_with OBJ_DESCRIPTION_RE
    (fun cap =>
       let classoid := if eq_ignore_ascii_case (cap_str sql cap 2) (lit "pg_namespace")
                       then lit "2615" else lit "1259" in
       
       lit "(SELECT D.DESCRIPTION FROM PG_CATALOG.PG_DESCRIPTION D WHERE D.OBJOID = "
       ++ trim (cap_str sql cap 1) ++ lit " AND D.CLASSOID = "
       ++ classoid ++ lit " AND D.OBJSUBID = 0)") sql.

Definition rewrite_regex_operators (sql : str) : str :=
  let sql := replace_all REGEX_NOT_MATCH_RE (lit "REGEXP_INSTR($1, $2) = 0") sql in
  replace_all REGEX_MATCH_RE (lit "REGEXP_INSTR($1, $2) > 0") sql.

Definition regclass_oid (name : str) : str :=
  if one_of name ["pg_class"]%string then lit "1259"
  else if one_of name ["pg_database"]%string then lit "1262"
  else if one_of name ["pg_namespace"]%string then lit "2615"
  else if one_of name ["pg_proc"]%string then lit "1255"
  else if one_of name ["pg_type"]%string then lit "1247"
  else lit "0".
Definition rewrite_regclass_literals (sql : str) : str :=
  replace_all_with REGCLASS_LITERAL_RE
    (fun cap => regclass_oid (to_ascii_lowercase (rsplit_first 46 (cap_str sql cap 1)))) sql.

Definition qualify_schema_prefix (sql : str) (source target : string) : str :=
  replace_all (lit "(?i)\b" ++ escape (lit source) ++ lit "\.") (lit target ++ lit ".") sql.

(** The loop of [qualify_function] over the matches, from the end of the last
    replaced one. *)
Fixpoint qualify_spans (sql target : str) (last : nat) (l : list captures) : str :=
  match l with
  | [] => drop last sql
  | cap :: l' =>
      match cap_span cap 0 with
      | None => qualify_spans sql target last l'
      | Some (start, end_) =>
          let before := char_before sql start in
          if bool_decide (before = Some 46%N) || bool_decide (before = Some 34%N)
             || ident_at before
          then qualify_spans sql target last l'
          else slice last start sql ++ target ++ lit "(" ++ qualify_spans sql target end_ l'
      end
  end.
Definition qualify_function (sql source target : str) : str :=
  let pattern := lit "(?i)\b" ++ escape source ++ lit "\s*\(" in
  qualify_spans sql target 0 (captures_iter pattern sql).

Definition rewrite_catalog_relations (sql : str) : str :=
  replace_all_with CATALOG_RELATION_RE
    (fun cap =>
       let prefix := cap_str sql cap 1 in
       let relation := default [] (cap_name CATALOG_RELATION_RE sql cap (lit "rel")) in
       let suffix := cap_str sql cap 3 in
       let upper := to_ascii_uppercase relation in
       if eq_ignore_ascii_case relation (lit "pg_foreign_server")
          || eq_ignore_ascii_case relation (lit "pg_foreign_data_wrapper")
       then prefix ++ lit "PG_CATALOG.`" ++ upper ++ lit "`" ++ suffix
       else prefix ++ lit "PG_CATALOG." ++ upper ++ suffix) sql.

Definition rewrite_pg_catalog (sql : str) : str :=
  let sql := normalize_ansi_quoted_postgres_identifiers sql in
  let sql := replace_all COL_DESCRIPTION_FORMAT_RE (lit "CAST(NULL AS VARCHAR(2000000))") sql in
  let sql := rewrite_quote_ident sql in
  let sql := rewrite_qualified_operators sql in
  let sql := rewrite_object_description sql in
  let sql := replace_all_with PG_IDENTIFY_OBJECT_IDENTITY_RE
    (fun cap => lit "PG_CATALOG.PG_IDENTIFY_OBJECT(" ++ trim (cap_str sql cap 1) ++ lit ", "
                ++ trim (cap_str sql cap 2) ++ lit ", " ++ trim (cap_str sql cap 3) ++ lit ")")
    sql in
  let sql := replace_all PG_GET_VIEWDEF_PRETTY_RE (lit "PG_CATALOG.PG_GET_VIEWDEF($1)") sql in
  let sql := replace_all PG_GET_EXPR_PRETTY_RE (lit "PG_CATALOG.PG_GET_EXPR($1, $2)") sql in
  let sql := replace_all PG_GET_CONSTRAINTDEF_PRETTY_RE
               (lit "PG_CATALOG.PG_GET_CONSTRAINTDEF($1)") sql in
  let sql := replace_all CURRENT_DATABASE_RE (lit "'exasol'") sql in
  let sql := replace_all CURRENT_CATALOG_RE (lit "'exasol'") sql in
  let sql := replace_all CURRENT_SCHEMA_CALL_RE (lit "CURRENT_SCHEMA") sql in
  let sql := replace_all SESSION_USER_RE (lit "CURRENT_USER") sql in
  let sql := replace_all CURRENT_SCHEMAS_FIRST_RE (lit "'pg_catalog'") sql in
  let sql := qualify_schema_prefix sql "pg_catalog" "PG_CATALOG" in
  let sql := qualify_schema_prefix sql "information_schema" "INFORMATION_SCHEMA" in
  let sql := rewrite_catalog_relations sql in
  let sql := fold_left (fun sql p => qualify_function sql p.1 p.2) FUNCTION_REPLACEMENTS sql in
  rewrite_regex_operators (rewrite_regclass_literals sql).

Definition replace_case_type_name_star (sql projection : str) : str :=
  replace_all
    (lit "(?is)\bEND\s+AS\s+type_name\s*,\s*(?:[A-Z_][A-Z0-9_]*\.)?\*\s+FROM\s+INFORMATION_SCHEMA\.COLUMNS\b")
    (lit "END AS type_name, " ++ projection ++ lit " FROM INFORMATION_SCHEMA.COLUMNS") sql.

(** The literal replacements of [rewrite_sqlglot_edge_cases], in order. *)
Definition edge_case_replacements : list (str * str) :=
  [(lit "PG_CATALOG.`PG_FOREIGN_SERVER` AS fs",
    lit "PG_CATALOG.`PG_FOREIGN_SERVER` AS srv");
   (lit "ARRAY_AGG(CAST(event_manipulation AS LONG VARCHAR))",
    lit "LISTAGG(CAST(event_manipulation AS VARCHAR(2000000)), ', ') WITHIN GROUP (ORDER BY event_manipulation)");
   (lit " WHERE p.prorettype <> CAST('PG_CATALOG.cstring' AS PG_CATALOG.regtype) AND (p.proargtypes[-1] IS NULL OR p.proargtypes[-1] <> CAST('PG_CATALOG.cstring' AS PG_CATALOG.regtype)) AND",
    lit " WHERE");
   (lit " WHERE p.prorettype <> CAST('PG_CATALOG.cstring' AS PG_CATALOG.regtype) AND (p.proargtypes[-1] IS NULL OR p.proargtypes[-1] <> CAST('PG_CATALOG.cstring' AS PG_CATALOG.regtype))",
    lit " WHERE 1 = 1");
   (lit "CASE p.proargtypes[-1] WHEN CAST('PG_CATALOG.`any`' AS PG_CATALOG.regtype) THEN CAST('(all types)' AS PG_CATALOG.text) ELSE PG_CATALOG.format_type(p.proargtypes[-1], NULL) END",
    lit "PG_CATALOG.OIDVECTORTYPES(p.proargtypes)");
   (lit "(t.typrelid = 0 OR (SELECT c.relkind = 'c' FROM PG_CATALOG.pg_class AS c WHERE c.oid = t.typrelid))",
    lit "(t.typrelid = 0)");
   (lit "(t.typrelid = 0 OR (SELECT c.relkind = 'c' FROM PG_CATALOG.pg_class c WHERE c.oid = t.typrelid))",
    lit "(t.typrelid = 0)");
   (lit "ON (C.TABLE_CATALOG, C.TABLE_SCHEMA, C.TABLE_NAME, 'TABLE', C.DTD_IDENTIFIER) = (E.OBJECT_CATALOG, E.OBJECT_SCHEMA, E.OBJECT_NAME, E.OBJECT_TYPE, E.DTD_IDENTIFIER)",
    lit "ON C.TABLE_CATALOG = E.OBJECT_CATALOG AND C.TABLE_SCHEMA = E.OBJECT_SCHEMA AND C.TABLE_NAME = E.OBJECT_NAME AND E.OBJECT_TYPE = 'TABLE' AND C.DTD_IDENTIFIER = E.DTD_IDENTIFIER");
   (lit "ON (C.TABLE_CATALOG, C.TABLE_SCHEMA, C.TABLE_NAME, C.COLUMN_NAME, 'column_name') = (CO.TABLE_CATALOG, CO.TABLE_SCHEMA, CO.TABLE_NAME, CO.COLUMN_NAME, CO.OPTION_NAME)",
    lit "ON C.TABLE_CATALOG = CO.TABLE_CATALOG AND C.TABLE_SCHEMA = CO.TABLE_SCHEMA AND C.TABLE_NAME = CO.TABLE_NAME AND C.COLUMN_NAME = CO.COLUMN_NAME AND CO.OPTION_NAME = 'column_name'");
   (lit "CO.OPTION_VALUE AS COLUMN_OPTION, C.ORDINAL_POSITION, C.IS_IDENTITY",
    lit "CO.OPTION_VALUE AS COLUMN_OPTION, C.ORDINAL_POSITION AS ORDINAL_POSITION_DUP, C.IS_IDENTITY")].

Definition rewrite_sqlglot_edge_cases (sql : str) : str :=
  let projection :=
    join (lit ", ") ((fun column => lit "`" ++ column ++ lit "`") <$> INFORMATION_SCHEMA_COLUMNS) in
  let sql := fold_left (fun sql p => replace p.1 p.2 sql) edge_case_replacements sql in
  let sql := replace_case_type_name_star sql projection in
  let sql := replace_all (lit "(?i)\bAS\s+VARCHAR\s*\)") (lit "AS VARCHAR(2000000))") sql in
  if contains (lit "PG_CATALOG.`PG_FOREIGN_SERVER` AS srv") sql
  then replace_all (lit "(?i)\bfs\.") (lit "srv.") sql
  else sql.

Definition quote_reserved_aliases (sql : str) : str :=
  replace_all_with ALIAS_RE
    (fun cap =>
       let whole := cap_str sql cap 0 in
       let ident := cap_str sql cap 1 in
       let trailing := cap_str sql cap 2 in
       if contains_char 41 trailing || contains_char 40 trailing then whole
       else if existsb (str_eqb (to_ascii_lowercase ident)) RESERVED_ALIAS_WORDS
       then lit "AS `" ++ ident ++ lit "`" ++ trailing
       else whole) sql.

Definition rewrite_ilike (sql : str) : str :=
  replace_all ILIKE_RE (lit "UPPER($1) LIKE UPPER($2)") sql.

Definition strip_redundant_offset (sql : str) : str := replace_all REDUNDANT_OFFSET_RE [] sql.

(** ** [translate_postgres_to_exasol] *)

Definition translate_postgres_to_exasol (sql : str) : outcome TranslationError str :=
  let sql := strip_exasol_catalog_prefix sql in
  translated ←
    (if is_exasol_passthrough_sql sql then Ok (quote_reserved_aliases sql)
     else
       let normalized := normalize_ansi_quoted_postgres_identifiers sql in
       let known_metadata_query := rewrite_known_metadata_query normalized in
       if negb (str_eqb known_metadata_query normalized)
       then Ok (quote_reserved_aliases (rewrite_ilike known_metadata_query))
       else
         let rewritten := rewrite_pg_catalog normalized in
         transpiled ← map_err Build_TranslationError
                        (transpile_by_name rewritten "postgres" "exasol");
         let transpiled := rewrite_sqlglot_edge_cases (join (lit "; ") transpiled) in
         Ok (quote_reserved_aliases (rewrite_ilike transpiled)));
  Ok (strip_redundant_offset translated).
End translator.
