(* ===== verification/TranslatorTheorems.v ===== *)
(** * Theorems about translation

    When a statement passes through unchanged, what the passthrough test rules out,
    where an error can come from, and two inputs the rewriting damages. *)

From S2P Require Import Prelude RustStr Regex RegexLemmas TextScan MetadataQueries.
From S2P Require Import Translator.
#[local] Open Scope nat_scope.

(** A pattern whose matches all contain the word [w], up to case. *)
Definition needs_word (w pat : str) : bool :=
  match parse_regex pat with
  | Some rx => must (fun l => bool_decide (folded <$> w `prefix_of` l)) (rx_re rx)
  | None => false
  end.

Definition lacks (w s : str) : Prop :=
  contains (to_ascii_lowercase w) (to_ascii_lowercase s) = false.

Lemma to_ascii_lowercase_drop k s : to_ascii_lowercase (drop k s) = drop k (to_ascii_lowercase s).
Proof. apply fmap_drop. Qed.

Lemma lacks_starts w s k :
  lacks w s -> starts_with (to_ascii_lowercase w) (to_ascii_lowercase (drop k s)) = false.
Proof.
  unfold lacks, contains. destruct (find _ _) eqn:E; [done|]. intros _.
  rewrite to_ascii_lowercase_drop. destruct (decide (k <= length (to_ascii_lowercase s))) as [Hk|Hk].
  - by apply (proj1 (find_none _ _) E).
  - pose proof (proj1 (find_none _ _) E (length (to_ascii_lowercase s)) ltac:(lia)) as Hl.
    by rewrite drop_ge in Hl |- * by lia.
Qed.

Section absent.
Context `{RegexEngine}.

Lemma word_absent w pat s i :
  is_ascii w -> is_ascii s -> needs_word w pat = true -> lacks w s ->
  re_captures_at pat s i = None.
Proof.
  intros Hw Hs Hn Hl. unfold needs_word in Hn.
  destruct (parse_regex pat) as [rx|] eqn:E; [|done].
  apply (must_no_match pat rx _ s i E Hn). intros l k Hp%bool_decide_eq_true.
  destruct (run_at re_unicode l (drop k s)) eqn:Er; [|done].
  apply (run_at_prefix _ _ _ _ Hp) in Er.
  pose proof (run_at_folded _ _ _ Hw (is_ascii_drop k s Hs) Er) as Hst.
  by rewrite lacks_starts in Hst.
Qed.

Lemma replace_absent w pat f s :
  is_ascii w -> is_ascii s -> needs_word w pat = true -> lacks w s ->
  replace_all_with pat f s = s.
Proof. intros. apply no_match_replace. intros. by apply (word_absent w). Qed.

Lemma lit_ascii w : forallb (fun c => (c <? 128)%N) (lit w) = true -> is_ascii (lit w).
Proof.
  intros Hw. apply Forall_forall. intros c Hc. rewrite forallb_forall in Hw.
  by apply N.ltb_lt, Hw.
Qed.
End absent.

Section theorems.
Context `{RegexEngine} `{Transpiler}.

(** Statements without PostgreSQL constructs reach Exasol verbatim.  An ASCII
    statement that the passthrough test accepts and that contains neither an [AS]
    nor an [OFFSET] (in any case, as text) is translated to itself, whatever the
    regular expression engine's Unicode tables and the transpiler are. *)
Theorem passthrough_verbatim sql :
  is_ascii sql -> is_exasol_passthrough_sql sql = true ->
  lacks (lit "AS") sql -> lacks (lit "OFFSET") sql ->
  translate_postgres_to_exasol sql = Ok sql.
Proof.
  intros Ha Hp Has Hoff.
  assert (Hex : lacks (lit "exasol") sql).
  { unfold lacks, contains in *.
    destruct (find (to_ascii_lowercase (lit "exasol")) _) as [i|] eqn:E; [|done].
    apply find_spec in E as (Hat & Hi & _).
    destruct (find (to_ascii_lowercase (lit "AS")) _) eqn:E2; [done|].
    assert (Hle : i + 2 <= length (to_ascii_lowercase sql)).
    { apply starts_with_length in Hat; [|done]. cbn in Hat. lia. }
    pose proof (proj1 (find_none _ _) E2 _ Hle) as Hno. rewrite <- drop_drop in Hno.
    apply starts_with_spec in Hat as [r Hr]. by rewrite Hr in Hno. }
  assert (Hstrip : strip_exasol_catalog_prefix sql = sql).
  { apply (replace_absent (lit "exasol")); [by apply lit_ascii|done|vm_compute; reflexivity|done]. }
  assert (Hquote : quote_reserved_aliases sql = sql).
  { apply (replace_absent (lit "AS")); [by apply lit_ascii|done|vm_compute; reflexivity|done]. }
  assert (Hoffset : strip_redundant_offset sql = sql).
  { apply (replace_absent (lit "OFFSET")); [by apply lit_ascii|done|vm_compute; reflexivity|done]. }
  unfold translate_postgres_to_exasol. rewrite Hstrip, Hp. cbn [mbind outcome_bind].
  by rewrite Hquote, Hoffset.
Qed.

(** The text in which the passthrough test looks for PostgreSQL constructs. *)
Definition detection_text (sql : str) : str :=
  lit " " ++ normalize_for_match (strip_sql_comments_for_detection sql) ++ lit " ".

(** No statement on the PostgreSQL catalog passes through.  When the
    passthrough test accepts a statement, none of the catalog relations occurs in it
    as a word outside comments, and neither does a [pg_catalog.] or
    [information_schema.] prefix or a cast. *)
Theorem passthrough_not_catalog sql :
  is_exasol_passthrough_sql sql = true ->
  (forall rel i, In rel CATALOG_RELATIONS -> ~ word_at (detection_text sql) rel i)
  /\ contains (lit "pg_catalog.") (detection_text sql) = false
  /\ contains (lit "information_schema.") (detection_text sql) = false
  /\ contains (lit "::") (detection_text sql) = false.
Proof.
  unfold is_exasol_passthrough_sql. cbv zeta. fold (detection_text sql).
  destruct (starts_with (lit "with ") _); [done|].
  destruct (existsb _ postgres_specific_tokens) eqn:Et; [done|].
  destruct (contains (lit "pg_catalog.") _ || _ || _) eqn:Ec; [done|]. intros _.
  apply orb_false_iff in Ec as [Ec Er]. apply orb_false_iff in Ec as [Ep Ei].
  split_and!; try done.
  - intros rel i Hrel Hw. apply not_true_iff_false in Er. apply Er.
    apply existsb_exists. exists rel. split; [done|].
    assert (Hall : forallb (fun r => match r with [] => false | _ => forallb is_ident_char r end)
                     CATALOG_RELATIONS = true) by (vm_compute; reflexivity).
    rewrite forallb_forall in Hall. specialize (Hall rel Hrel).
    apply contains_word_iff; [by destruct rel| |eauto].
    destruct rel; [done|]. apply Forall_forall. by apply forallb_forall.
  - apply not_true_iff_false. intros Hc. apply not_true_iff_false in Et. apply Et.
    apply existsb_exists. exists (lit "::"). split; [by left|done].
Qed.

(** Only the transpiler can fail a translation.  [translate_postgres_to_exasol]
    returns a text, or the transpiler's own error; a passthrough statement and a
    recognised metadata query never fail. *)
Theorem translate_error_source sql :
  (forall e, translate_postgres_to_exasol sql = Err e ->
     exists text m, transpile_by_name text "postgres" "exasol" = Err m
                    /\ translation_message e = m)
  /\ (is_passthrough_query sql = true
      \/ rewrite_known_metadata_query
           (normalize_ansi_quoted_postgres_identifiers (strip_exasol_catalog_prefix sql))
         <> normalize_ansi_quoted_postgres_identifiers (strip_exasol_catalog_prefix sql) ->
      exists out, translate_postgres_to_exasol sql = Ok out).
Proof.
  unfold translate_postgres_to_exasol, is_passthrough_query.
  set (s := strip_exasol_catalog_prefix sql). cbv zeta. split.
  - intros e. destruct (is_exasol_passthrough_sql s); [done|].
    destruct (negb _); [done|].
    destruct (transpile_by_name _ _ _) as [l|m| |] eqn:E; try done.
    cbn [map_err mbind outcome_bind]. intros [= <-]. eauto.
  - intros [-> | Hne]; [by eexists|]. destruct (is_exasol_passthrough_sql s); [by eexists|].
    destruct (str_eqb_spec (rewrite_known_metadata_query
      (normalize_ansi_quoted_postgres_identifiers s))
      (normalize_ansi_quoted_postgres_identifiers s)); [done|].
    cbn [negb mbind outcome_bind]. by eexists.
Qed.
End theorems.

(** ** Witnesses, and inputs that are damaged *)

#[local] Existing Instance reference_engine.
#[local] Instance no_transpiler : Transpiler := fun _ _ _ => Err (lit "unsupported").

Lemma passthrough_verbatim_witness :
  translate_postgres_to_exasol (lit "INSERT INTO t VALUES (1, 'a -- b')")
  = Ok (lit "INSERT INTO t VALUES (1, 'a -- b')").
Proof.
  apply passthrough_verbatim.
  - by apply lit_ascii.
  - vm_compute. reflexivity.
  - reflexivity.
  - reflexivity.
Defined.

Lemma passthrough_not_catalog_witness :
  contains (lit "::") (detection_text (lit "select 1 /* from pg_class */")) = false.
Proof.
  apply (passthrough_not_catalog (lit "select 1 /* from pg_class */")). vm_compute. reflexivity.
Defined.

Lemma translate_error_source_witness :
  exists text m, transpile_by_name text "postgres" "exasol" = Err m /\ lit "unsupported" = m.
Proof.
  destruct (translate_error_source (lit "select 1::int")) as [He _].
  exact (He {| translation_message := lit "unsupported" |} ltac:(vm_compute; reflexivity)).
Defined.

(** The final rewriting steps do not look at quotes: a string literal that holds
    [as <reserved word>] or [offset 0] is changed, and the client's data with it. *)
Theorem literals_are_rewritten :
  translate_postgres_to_exasol (lit "INSERT INTO t VALUES ('known as time')")
    = Ok (lit "INSERT INTO t VALUES ('known AS `time`')")
  /\ translate_postgres_to_exasol (lit "INSERT INTO t VALUES ('at offset 0')")
    = Ok (lit "INSERT INTO t VALUES ('at')").
Proof. split; vm_compute; reflexivity. Qed.

(** ILIKE on a qualified column loses its qualifier to the function call:
    the pattern does not include the dot. *)
Theorem ilike_qualified_column :
  rewrite_ilike (lit "n.nspname ILIKE 'a%'") = lit "n.UPPER(nspname) LIKE UPPER('a%')".
Proof. vm_compute. reflexivity. Qed.
