(* ===== verification/FinalSteps.v ===== *)
(** * What the final steps of a translation do

    [quote_reserved_aliases] and [strip_redundant_offset] are defined by patterns.  Here
    each is one pass over the statement, without patterns: [quote_aliases] and
    [drop_offsets] say character by character what is replaced, for ASCII statements. *)

From Stdlib Require Import ZifyN ZifyBool.
From S2P Require Import Prelude RustStr Regex RegexLemmas RegexMatches RegexReplace.
From S2P Require Import TextScan MetadataQueries Translator TranslatorTheorems.
#[local] Open Scope nat_scope.

(** ** Aliases *)

Definition name_start (c : char) : bool := is_ident_char c && negb (is_ascii_digit c).
Definition is_paren (c : char) : bool := (c =? 40)%N || (c =? 41)%N.
Definition starts_with_char (p : char -> bool) (s : str) : bool :=
  match s with c :: _ => p c | [] => false end.

(** AS, white space, a name and the white space after it; with the next character when
    it is a parenthesis. *)
Record alias_words := {
  alias_gap : str;
  alias_name : str;
  alias_blanks : str;
  alias_called : bool }.
Definition alias_length (w : alias_words) : nat :=
  2 + length (alias_gap w) + length (alias_name w) + length (alias_blanks w)
  + (if alias_called w then 1 else 0).

Definition read_alias (s : str) : option alias_words :=
  let gap := take_while is_whitespace (drop 2 s) in
  let s1 := drop (length gap) (drop 2 s) in
  let name := take_while is_ident_char s1 in
  let s2 := drop (length name) s1 in
  let blanks := take_while is_whitespace s2 in
  let s3 := drop (length blanks) s2 in
  if eq_ignore_ascii_case (take 2 s) (lit "AS") && negb (bool_decide (gap = []))
     && starts_with_char name_start s1
  then Some {| alias_gap := gap; alias_name := name; alias_blanks := blanks;
               alias_called := starts_with_char is_paren s3 |}
  else None.

Definition is_reserved (name : str) : bool :=
  existsb (str_eqb (to_ascii_lowercase name)) RESERVED_ALIAS_WORDS.

(** A reserved name after AS is quoted, unless it is a type with parentheses, or the type
    of a CAST. *)
Definition alias_step (prev : option char) (s : str) : option (nat * str) :=
  if ident_at prev then None
  else match read_alias s with
       | None => None
       | Some w =>
           Some (alias_length w,
                 if negb (alias_called w) && is_reserved (alias_name w)
                 then lit "AS `" ++ alias_name w ++ lit "`" ++ alias_blanks w
                 else take (alias_length w) s)
       end.
Definition quote_aliases (sql : str) : str := scan alias_step 0 None sql.

Example ex_quote_aliases :
  quote_aliases (lit "SELECT a as date, b AS x, has year, CAST(c AS date) As  level FROM t")
  = lit "SELECT a AS `date`, b AS x, has year, CAST(c AS date) AS `level` FROM t".
Proof. vm_compute. reflexivity. Qed.

(** *** The pattern *)

Definition paren_class : char_class := folded_class [CRange 40 40; CRange 41 41].
Definition alias_tail : re :=
  RSeq (RGroup 1 (RSeq (RSet name_first) (RSeq (RStar true (RSet name_next)) REps)))
    (RSeq (RGroup 2 (RSeq (RStar true space) (RSeq (ROpt true (RSet paren_class)) REps))) REps).
Definition alias_re : re :=
  RSeq (RAssert AWordBoundary) (literal (lit "AS") (RSeq spaces alias_tail)).

Lemma alias_pattern : parse_regex ALIAS_RE = Some {| rx_re := alias_re; rx_names := [] |}.
Proof. vm_compute. reflexivity. Qed.

Lemma paren_ascii u c : (c < 128)%N -> class_matches u paren_class c = is_paren c.
Proof. revert c. apply ascii_agree. vm_compute. reflexivity. Qed.

Lemma word_ascii u o :
  match o with Some c => (c < 128)%N | None => True end -> Regex.word_at u o = ident_at o.
Proof. intros Ho. rewrite word_at_ascii by done. by destruct o. Qed.

Lemma is_ascii_app a b : is_ascii (a ++ b) <-> is_ascii a /\ is_ascii b.
Proof. apply Forall_app. Qed.

Section alias.
Context (u : unicode).

(** White space and a parenthesis, if there are any. *)
Lemma blanks_and_paren st blanks rest :
  ms_rest st = blanks ++ rest -> Forall (fun c => is_whitespace c = true) blanks ->
  match rest with c :: _ => is_whitespace c = false | [] => True end -> is_ascii rest ->
  exists st', first_match u (RSeq (RStar true space) (RSeq (ROpt true (RSet paren_class)) REps)) st
              = Some st'
    /\ ms_pos st' = ms_pos st + (length blanks + (if starts_with_char is_paren rest then 1 else 0))
    /\ ms_caps st' = ms_caps st.
Proof.
  intros Hr Hb Hd Ha. set (st1 := ms_run blanks rest st).
  assert (H1 : first_match u (RStar true space) st = Some st1).
  { apply first_star; [done| |].
    - eapply list.Forall_impl; [exact Hb|]. intros x Hx. unfold class_matches. cbn. by rewrite Hx.
    - destruct rest as [|c rest]; [done|]. unfold class_matches. cbn. by rewrite Hd. }
  assert (Hp : forall c rest', rest = c :: rest' -> class_matches u paren_class c = is_paren c).
  { intros c rest' ->. inversion Ha; subst. by apply paren_ascii. }
  destruct rest as [|c rest]; [|specialize (Hp c rest eq_refl)]; cbn [starts_with_char].
  { exists st1. split_and!; [|subst st1; cbn; lia|done]. eapply first_seq; [exact H1|].
    eapply first_seq; [|apply first_eps]. unfold ROpt. by rewrite first_alt_r. }
  destruct (is_paren c).
  - exists (ms_advance st1 c rest). split_and!; [|subst st1; cbn; lia|done].
    eapply first_seq; [exact H1|]. eapply first_seq; [|apply first_eps].
    unfold ROpt. apply first_alt_l. by apply first_set.
  - exists st1. split_and!; [|subst st1; cbn; lia|done]. eapply first_seq; [exact H1|].
    eapply first_seq; [|apply first_eps]. unfold ROpt. rewrite first_alt_r; [done|].
    cbn [all_matches]. subst st1. cbn [ms_run ms_rest]. by rewrite Hp.
Qed.

Definition name_group : re :=
  RGroup 1 (RSeq (RSet name_first) (RSeq (RStar true (RSet name_next)) REps)).

Lemma alias_name_match s st :
  is_ascii s -> ms_rest st = s -> starts_with_char name_start s = true ->
  let name := take_while is_ident_char s in
  first_match u name_group st
  = Some (ms_close 1 (ms_pos st) (ms_run name (drop (length name) s) st)).
Proof.
  intros Ha Hr Hs. destruct s as [|c s]; [done|]. cbn [starts_with_char] in Hs.
  inversion Ha as [|? ? Hc Ha']; subst.
  destruct (take_while_split is_ident_char s) as (Hn & Hd & Hsp).
  cbn [take_while]. pose proof Hs as [-> _]%andb_true_iff. cbn [length drop].
  apply first_group. eapply first_seq.
  { eapply first_set; [exact Hr|]. by rewrite name_first_ascii. }
  eapply first_seq; [|apply first_eps]. rewrite <- ms_run_cons, Hsp.
  rewrite <- Hsp in Ha' at 1. apply is_ascii_app in Ha' as [Hna Hra].
  apply first_star; [by rewrite Hsp| |].
  - unfold is_ascii in Hna. rewrite Forall_forall in *. intros x Hx.
    rewrite name_next_ascii by auto. by apply Hn.
  - destruct (drop _ s); [done|]. inversion Hra; subst. by rewrite name_next_ascii.
Qed.

(** The name and what comes after it. *)
Lemma alias_tail_match s st :
  is_ascii s -> ms_rest st = s -> starts_with_char name_start s = true ->
  let name := take_while is_ident_char s in
  let s2 := drop (length name) s in
  let blanks := take_while is_whitespace s2 in
  let called := starts_with_char is_paren (drop (length blanks) s2) in
  let stop := length blanks + (if called then 1 else 0) in
  exists st', first_match u alias_tail st = Some st'
    /\ ms_pos st' = ms_pos st + length name + stop
    /\ ms_caps st' = (2, (ms_pos st + length name, ms_pos st'))
                     :: (1, (ms_pos st, ms_pos st + length name)) :: ms_caps st.
Proof.
  intros Ha Hr Hs name s2 blanks called stop.
  pose proof (alias_name_match s st Ha Hr Hs) as H1. cbv zeta in H1. fold name s2 in H1.
  set (st1 := ms_close 1 (ms_pos st) (ms_run name s2 st)) in H1.
  destruct (take_while_split is_whitespace s2) as (Hb & Hd & Hs2). fold blanks in Hb, Hd, Hs2.
  destruct (blanks_and_paren st1 blanks (drop (length blanks) s2)) as (st2 & H2 & P2 & C2);
    [by symmetry|done|done|by do 2 apply Forall_drop|].
  fold called stop in P2. exists (ms_close 2 (ms_pos st1) st2). split_and!.
  - eapply first_seq; [exact H1|]. eapply first_seq; [|apply first_eps]. by apply first_group.
  - cbn [ms_close ms_pos]. by rewrite P2.
  - cbn [ms_close ms_caps ms_pos]. by rewrite C2.
Qed.

Lemma alias_tail_none s st :
  is_ascii s -> ms_rest st = s -> starts_with_char name_start s = false ->
  all_matches u alias_tail st = [].
Proof.
  intros Ha Hr Hs. unfold alias_tail. cbn [all_matches]. rewrite Hr.
  destruct s as [|c s]; [done|]. inversion Ha; subst. cbn [starts_with_char] in Hs.
  assert (class_matches u name_first c = name_start c) as -> by by apply name_first_ascii.
  by rewrite Hs.
Qed.

Lemma alias_tail_space st c s :
  ms_rest st = c :: s -> is_whitespace c = true -> all_matches u alias_tail st = [].
Proof.
  intros Hr Hc. unfold alias_tail. cbn [all_matches]. by rewrite Hr, space_not_name.
Qed.

Lemma as_is_word s :
  is_ascii s -> eq_ignore_ascii_case (take 2 s) (lit "AS") = true ->
  Regex.word_at u (head s) = true.
Proof.
  intros Ha E. destruct s as [|a s]; [done|]. rewrite word_ascii by by inversion Ha.
  revert E. unfold eq_ignore_ascii_case. cbn [take to_ascii_lowercase fmap list_fmap].
  change (lit "AS") with [65; 83]%N. cbn [fmap list_fmap str_eqb head ident_at].
  intros [Ea%N.eqb_eq _]%andb_true_iff. revert Ea.
  change (char_to_ascii_lowercase 65) with 97%N.
  unfold char_to_ascii_lowercase, is_ident_char, is_ascii_alphanumeric.
  destruct (is_ascii_uppercase a) eqn:Eu; [done|]. intros ->. done.
Qed.

(** What the pattern matches at a position is what [read_alias] reads. *)
Lemma alias_match st :
  is_ascii (ms_rest st) -> match ms_prev st with Some c => (c < 128)%N | None => True end ->
  match (if ident_at (ms_prev st) then None else read_alias (ms_rest st)) with
  | None => first_match u alias_re st = None
  | Some w =>
      let start := ms_pos st + 2 + length (alias_gap w) in
      let stop := start + length (alias_name w) in
      exists st', first_match u alias_re st = Some st'
        /\ ms_pos st' = ms_pos st + alias_length w
        /\ ms_caps st' = (2, (stop, ms_pos st')) :: (1, (start, stop)) :: ms_caps st
  end.
Proof.
  intros Ha Hp. unfold first_match, alias_re. rewrite assert_then. cbn [assertion_holds].
  rewrite word_ascii by done. rewrite literal_then by (done || by repeat constructor).
  change (length (lit "AS")) with 2. unfold read_alias.
  set (s := ms_rest st) in *. set (st1 := ms_run _ _ st).
  destruct (eq_ignore_ascii_case (take 2 s) (lit "AS")) eqn:E.
  2: { cbn [andb]. by destruct (ident_at _); destruct (xorb _ _). }
  rewrite (as_is_word s) by done. destruct (ident_at (ms_prev st)); [done|]. cbn [xorb andb].
  rewrite spaces_then by (intros; by eapply alias_tail_space).
  cbv zeta. set (gap := take_while is_whitespace (ms_rest st1)).
  change (take_while is_whitespace (drop 2 s)) with gap.
  set (s1 := drop (length gap) (drop 2 s)).
  destruct (decide (gap = [])) as [Hg|Hg].
  { rewrite bool_decide_eq_true_2 by done. by rewrite Hg. }
  rewrite bool_decide_eq_false_2 by done. cbn [negb andb].
  set (st2 := ms_run gap s1 st1).
  assert (Ha1 : is_ascii s1) by (by do 2 apply Forall_drop).
  assert (Hm : forall A (x y : A), match gap with [] => x | _ => y end = y)
    by (intros; by destruct gap).
  change (drop (length gap) (ms_rest st1)) with s1. rewrite Hm. fold st2.
  destruct (starts_with_char name_start s1) eqn:En.
  - destruct (alias_tail_match s1 st2 Ha1 eq_refl En) as (st' & E' & P & C).
    assert (Hp2 : ms_pos st2 = ms_pos st + 2 + length gap).
    { subst st2 st1. cbn [ms_run ms_pos]. apply eq_ignore_length in E. rewrite E. cbn. lia. }
    exists st'. unfold alias_length. cbn [alias_gap alias_name alias_blanks alias_called].
    rewrite <- Hp2. split_and!; [exact E'|rewrite P, Hp2; clear; lia|exact C].
  - by rewrite (alias_tail_none s1).
Qed.
End alias.

(** *** The equality *)

Lemma read_alias_split s w :
  read_alias s = Some w ->
  exists kw rest, s = kw ++ alias_gap w ++ alias_name w ++ alias_blanks w ++ rest
    /\ length kw = 2 /\ alias_called w = starts_with_char is_paren rest
    /\ Forall (fun c => is_whitespace c = true) (alias_blanks w).
Proof.
  unfold read_alias. cbv zeta. destruct (_ && _ && _) eqn:E; [|done]. intros [= <-].
  cbn [alias_gap alias_name alias_blanks alias_called].
  apply andb_true_iff in E as [[E _]%andb_true_iff _]. apply eq_ignore_length in E.
  destruct (take_while_split is_whitespace (drop 2 s)) as (_ & _ & H1).
  set (s1 := drop _ (drop 2 s)) in *.
  destruct (take_while_split is_ident_char s1) as (_ & _ & H2). set (s2 := drop _ s1) in *.
  destruct (take_while_split is_whitespace s2) as (Hb & _ & H3). set (s3 := drop _ s2) in *.
  exists (take 2 s), s3. split_and!; [|exact E|done|done]. by rewrite H3, H2, H1, take_drop.
Qed.

Lemma slice_drop i a b s : slice (i + a) (i + b) s = slice a b (drop i s).
Proof. unfold slice. rewrite drop_drop. f_equal. lia. Qed.

Lemma before_ascii s i :
  is_ascii s -> match before s i with Some c => (c < 128)%N | None => True end.
Proof.
  intros Ha. destruct i as [|i]; [done|]. cbn. destruct (s !! i) eqn:E; [|done].
  exact (Forall_lookup_1 _ _ _ _ Ha E).
Qed.

Lemma slice_part i s pre part post :
  drop i s = pre ++ part ++ post ->
  slice (i + length pre) (i + length pre + length part) s = part.
Proof. intros Hs. rewrite <- Nat.add_assoc, slice_drop, Hs. by apply slice_middle. Qed.

(** What the closure of [quote_reserved_aliases] makes of a match. *)
Lemma alias_replacement s i w st' :
  read_alias (drop i s) = Some w -> ms_pos st' = i + alias_length w ->
  ms_caps st' = [(2, (i + 2 + length (alias_gap w) + length (alias_name w), ms_pos st'));
                 (1, (i + 2 + length (alias_gap w),
                      i + 2 + length (alias_gap w) + length (alias_name w)))] ->
  i + alias_length w <= length s
  /\ cap_str s (whole i st') 0 = take (alias_length w) (drop i s)
  /\ cap_str s (whole i st') 1 = alias_name w
  /\ exists paren, cap_str s (whole i st') 2 = alias_blanks w ++ paren
     /\ (if alias_called w then exists c, paren = [c] /\ is_paren c = true else paren = []).
Proof.
  intros Hw Hp Hc. destruct (read_alias_split _ _ Hw) as (kw & rest & Hs & Hk & Hcl & _).
  set (g := alias_gap w) in *. set (n := alias_name w) in *. set (b := alias_blanks w) in *.
  set (paren := if alias_called w then take 1 rest else []).
  assert (Hparen : length paren = if alias_called w then 1 else 0).
  { subst paren. rewrite Hcl. by destruct rest as [|c rest]; [|cbn; destruct (is_paren c)]. }
  assert (Hl : alias_length w = length kw + length g + length n + length (b ++ paren))
    by (rewrite length_app, Hparen, Hk; unfold alias_length; fold g n b; lia).
  assert (Hs2 : drop i s = ((kw ++ g) ++ n) ++ (b ++ paren)
                           ++ (if alias_called w then drop 1 rest else rest)).
  { rewrite Hs, <- !app_assoc. subst paren. by destruct (alias_called w); rewrite ?take_drop. }
  assert (Hn : slice (i + 2 + length g) (i + 2 + length g + length n) s = n).
  { rewrite <- Nat.add_assoc, <- Hk, <- length_app. eapply slice_part. by rewrite Hs2, <- !app_assoc. }
  assert (Hb : slice (i + 2 + length g + length n) (i + alias_length w) s = b ++ paren).
  { replace (i + 2 + length g + length n) with (i + length ((kw ++ g) ++ n))
      by (rewrite !length_app; lia).
    replace (i + alias_length w) with (i + length ((kw ++ g) ++ n) + length (b ++ paren))
      by (rewrite Hl, !length_app; lia).
    by eapply slice_part. }
  split.
  { apply (f_equal length) in Hs2. rewrite length_drop, !length_app in Hs2.
    rewrite Hl, length_app. lia. }
  unfold cap_str, cap_get, whole. rewrite Hc, Hp.
  cbn [cap_span Nat.eqb mbind option_bind default]. rewrite Hn, Hb. split_and!; [|done|].
  { change (slice i (i + alias_length w) s = take (alias_length w) (drop i s)). unfold slice. f_equal. lia. }
  exists paren. split; [done|]. subst paren. rewrite Hcl. destruct rest as [|c rest]; [done|].
  cbn [starts_with_char]. destruct (is_paren c) eqn:Ec; [|done]. by exists c.
Qed.

Lemma quote_aliases_spec `{RegexEngine} sql :
  is_ascii sql -> quote_reserved_aliases sql = quote_aliases sql.
Proof.
  intros Ha. unfold quote_reserved_aliases, quote_aliases.
  apply (replace_scan alias_step ALIAS_RE _ _ _ alias_pattern). intros i Hi.
  pose proof (alias_match re_unicode (state_at sql i) (Forall_drop _ _ _ Ha) (before_ascii _ _ Ha)) as Hm.
  cbn [state_at ms_prev ms_rest ms_pos ms_caps] in Hm. unfold alias_step.
  destruct (ident_at (before sql i)); [done|]. destruct (read_alias (drop i sql)) as [w|] eqn:Hw; [|done].
  destruct Hm as (st' & E & Hp & Hc).
  destruct (alias_replacement _ _ _ _ Hw Hp Hc) as (Hl & E0 & E1 & paren & E2 & Hcall).
  destruct (read_alias_split _ _ Hw) as (kw & rest & Hs & Hk & Hcl & Hb).
  split_and!; [unfold alias_length; lia|done|]. exists st'. split_and!; [done|done|].
  cbv beta zeta. rewrite E0, E1, E2.
  assert (Hno : forall c, is_whitespace c = false -> contains_char c (alias_blanks w) = false).
  { intros c Hc'. unfold contains_char. apply not_true_iff_false. intros (x & Hx & Ex)%existsb_exists.
    apply N.eqb_eq in Ex as <-.
    rewrite Forall_forall in Hb. apply Hb in Hx. congruence. }
  unfold contains_char in *. rewrite !existsb_app, !Hno by done.
  destruct (alias_called w).
  - destruct Hcall as (c & -> & Hpar). cbn [existsb orb]. unfold is_paren in Hpar.
    rewrite !orb_false_r, orb_comm, !(N.eqb_sym _ c), Hpar. done.
  - subst paren. cbn [existsb orb negb andb]. by rewrite app_nil_r.
Qed.

(** ** Offsets *)

(** How long the word ROW or ROWS is, with the white space before it. *)
Definition read_rows (s : str) : nat :=
  let gap := take_while is_whitespace s in
  let word := take_while is_name_char (drop (length gap) s) in
  if negb (bool_decide (gap = []))
     && (eq_ignore_ascii_case word (lit "ROWS") || eq_ignore_ascii_case word (lit "ROW"))
  then length gap + length word else 0.

(** How long an OFFSET of 0 or NULL is, with the white space before it and the word after
    it. *)
Definition read_offset (s : str) : option nat :=
  let gap := take_while is_whitespace s in
  let s1 := drop (length gap) s in
  let gap2 := take_while is_whitespace (drop 6 s1) in
  let s2 := drop (length gap2) (drop 6 s1) in
  let word := take_while is_name_char s2 in
  if negb (bool_decide (gap = [])) && eq_ignore_ascii_case (take 6 s1) (lit "OFFSET")
     && negb (bool_decide (gap2 = []))
     && (eq_ignore_ascii_case word (lit "0") || eq_ignore_ascii_case word (lit "NULL"))
  then Some (length gap + 6 + length gap2 + length word + read_rows (drop (length word) s2))
  else None.

Definition offset_step (prev : option char) (s : str) : option (nat * str) :=
  (fun n => (n, [])) <$> read_offset s.
Definition drop_offsets (sql : str) : str := scan offset_step 0 None sql.

Example ex_drop_offsets :
  drop_offsets (lit "SELECT a FROM t LIMIT 5  OFFSET  0 rows; SELECT 1 offset 01 OFFSET null rowset")
  = lit "SELECT a FROM t LIMIT 5; SELECT 1 offset 01 rowset".
Proof. vm_compute. reflexivity. Qed.

(** *** The pattern *)

Definition word_end : re := RSeq (RAssert AWordBoundary) REps.
Definition rows_re : re :=
  RSeq spaces (literal (lit "ROW") (RSeq (ROpt true (RSet (folded 83))) word_end)).
Definition zero_re : re :=
  RSeq (RAlt (literal (lit "0") REps) (literal (lit "NULL") REps))
    (RSeq (RAssert AWordBoundary) (RSeq (ROpt true rows_re) REps)).
Definition offset_re : re := RSeq spaces (literal (lit "OFFSET") (RSeq spaces zero_re)).

Lemma offset_pattern :
  parse_regex REDUNDANT_OFFSET_RE = Some {| rx_re := offset_re; rx_names := [] |}.
Proof. vm_compute. reflexivity. Qed.

Section offset.
Context (u : unicode).

(** After [spaces_then]: nothing without white space. *)
Lemma no_gap {A} (gap : str) (x y : A) :
  match gap with [] => x | _ => y end = if bool_decide (gap = []) then x else y.
Proof. by destruct gap. Qed.

Lemma rows_match st :
  is_ascii (ms_rest st) ->
  exists st', first_match u (RSeq (ROpt true rows_re) REps) st = Some st'
    /\ ms_pos st' = ms_pos st + read_rows (ms_rest st).
Proof.
  intros Ha. set (s := ms_rest st). set (gap := take_while is_whitespace s).
  set (st1 := ms_run gap (drop (length gap) s) st).
  set (word := take_while is_name_char (drop (length gap) s)).
  set (st2 := ms_run word (drop (length word) (drop (length gap) s)) st1).
  assert (Ha1 : is_ascii (ms_rest st1)) by (by apply Forall_drop).
  assert (Hm : all_matches u rows_re st
               = if bool_decide (gap = []) then [] else
                 (if eq_ignore_ascii_case word (lit "ROWS") then [st2] else [])
                 ++ (if eq_ignore_ascii_case word (lit "ROW") then [st2] else [])).
  { unfold rows_re. rewrite spaces_then by (intros; by eapply (literal_space u _ _ 82%N)).
    cbv zeta. rewrite no_gap. fold s gap st1. destruct (bool_decide _); [done|].
    change (lit "ROWS") with (lit "ROW" ++ lit "S").
    assert (Hopt : all_matches u (literal (lit "ROW") (RSeq (ROpt true (RSet (folded 83))) word_end)) st1
                   = all_matches u (literal (lit "ROW" ++ lit "S") word_end) st1
                     ++ all_matches u (literal (lit "ROW") word_end) st1).
    { rewrite literal_app, !(literal_then u (lit "ROW")) by (done || by repeat constructor).
      destruct (eq_ignore_ascii_case _ _); [|done]. unfold ROpt. rewrite alt_then. f_equal.
      apply bind_singleton. }
    rewrite Hopt. unfold word_end. by rewrite !word_then by (done || by repeat constructor). }
  unfold ROpt. assert (Hpos : ms_pos st2 = ms_pos st + (length gap + length word)) by (cbn; lia).
  unfold read_rows. fold s gap word. revert Hm.
  destruct (bool_decide (gap = [])); cbn [negb andb].
  { intros Hm. exists st. split; [|lia]. eapply first_seq; [|apply first_eps]. by rewrite first_alt_r. }
  destruct (eq_ignore_ascii_case word (lit "ROWS")), (eq_ignore_ascii_case word (lit "ROW"));
    cbn [orb app]; intros Hm.
  1-3: exists st2; split; [|done]; eapply first_seq; [|apply first_eps]; apply first_alt_l;
    unfold first_match; by rewrite Hm.
  exists st. split; [|lia]. eapply first_seq; [|apply first_eps]. by rewrite first_alt_r.
Qed.

Lemma zero_space st c s :
  ms_rest st = c :: s -> is_whitespace c = true -> all_matches u zero_re st = [].
Proof.
  intros Hr Hc. unfold zero_re. rewrite alt_then, !literal_seq.
  by rewrite (literal_space u _ _ 48%N c s), (literal_space u _ _ 78%N c s).
Qed.

(** 0 or NULL, and then perhaps ROWS. *)
Lemma zero_match st :
  is_ascii (ms_rest st) ->
  let word := take_while is_name_char (ms_rest st) in
  if eq_ignore_ascii_case word (lit "0") || eq_ignore_ascii_case word (lit "NULL")
  then exists st', first_match u zero_re st = Some st'
         /\ ms_pos st' = ms_pos st + length word + read_rows (drop (length word) (ms_rest st))
  else first_match u zero_re st = None.
Proof.
  intros Ha word. unfold first_match, zero_re. rewrite alt_then, !literal_seq.
  rewrite !word_then by (done || by repeat constructor). fold word.
  set (st1 := ms_run word (drop (length word) (ms_rest st)) st).
  destruct (rows_match st1) as (st' & E & P); [by apply Forall_drop|].
  unfold first_match in E. destruct (all_matches u (RSeq (ROpt true rows_re) REps) st1) as [|x l]; [done|].
  destruct (eq_ignore_ascii_case word (lit "0")); [by exists st'|].
  destruct (eq_ignore_ascii_case word (lit "NULL")); [by exists st'|done].
Qed.

Lemma offset_match st :
  is_ascii (ms_rest st) ->
  match read_offset (ms_rest st) with
  | Some n => exists st', first_match u offset_re st = Some st' /\ ms_pos st' = ms_pos st + n
  | None => first_match u offset_re st = None
  end.
Proof.
  intros Ha. unfold first_match, offset_re, read_offset. set (s := ms_rest st) in *.
  rewrite spaces_then by (intros; by eapply (literal_space u _ _ 79%N)). cbv zeta.
  rewrite no_gap. fold s. set (gap := take_while is_whitespace s).
  destruct (bool_decide (gap = [])); [done|]. cbn [negb andb].
  set (s1 := drop (length gap) s). set (st1 := ms_run gap s1 st).
  rewrite literal_then by (by repeat constructor || by apply Forall_drop).
  change (ms_rest st1) with s1. change (length (lit "OFFSET")) with 6.
  destruct (eq_ignore_ascii_case (take 6 s1) (lit "OFFSET")) eqn:E; [|done]. cbn [andb].
  apply eq_ignore_length in E. set (st2 := ms_run (take 6 s1) (drop 6 s1) st1).
  rewrite spaces_then by (intros; by eapply zero_space). cbv zeta.
  rewrite no_gap. change (ms_rest st2) with (drop 6 s1).
  set (gap2 := take_while is_whitespace (drop 6 s1)).
  destruct (bool_decide (gap2 = [])); [done|]. cbn [negb andb].
  set (s2 := drop (length gap2) (drop 6 s1)). set (st3 := ms_run gap2 s2 st2).
  pose proof (zero_match st3 ltac:(by do 3 apply Forall_drop)) as Hz. cbv zeta in Hz.
  change (ms_rest st3) with s2 in Hz. destruct (_ || _); [|exact Hz].
  destruct Hz as (st' & Ez & P). exists st'. split; [exact Ez|].
  rewrite P. cbn. rewrite E. change (length (lit "OFFSET")) with 6. lia.
Qed.
End offset.

Lemma read_rows_length s : read_rows s <= length s.
Proof.
  unfold read_rows. cbv zeta. destruct (_ && _); [|lia].
  destruct (take_while_split is_whitespace s) as (_ & _ & H1). set (s1 := drop _ s) in *.
  destruct (take_while_split is_name_char s1) as (_ & _ & H2).
  apply (f_equal length) in H1, H2. rewrite length_app in H1, H2. lia.
Qed.

Lemma read_offset_length s n : read_offset s = Some n -> 0 < n <= length s.
Proof.
  unfold read_offset. cbv zeta. destruct (_ && _ && _) eqn:E; [|done]. intros [= <-].
  apply andb_true_iff in E as [[[_ E]%andb_true_iff _]%andb_true_iff _].
  apply eq_ignore_length in E. set (s1 := drop _ s) in *.
  destruct (take_while_split is_whitespace (drop 6 s1)) as (_ & _ & H2). set (s2 := drop _ (drop 6 s1)) in *.
  destruct (take_while_split is_name_char s2) as (_ & _ & H3).
  pose proof (read_rows_length (drop (length (take_while is_name_char s2)) s2)) as Hr.
  assert (Hl : length s = length (take_while is_whitespace s) + length s1).
  { rewrite <- length_app. f_equal. symmetry. apply take_while_split. }
  assert (Hl1 : length s1 = 6 + length (drop 6 s1)).
  { rewrite <- (take_drop 6 s1) at 1. by rewrite length_app, E. }
  apply (f_equal length) in H2, H3. rewrite length_app in H2, H3. lia.
Qed.

Lemma drop_offsets_spec `{RegexEngine} sql :
  is_ascii sql -> strip_redundant_offset sql = drop_offsets sql.
Proof.
  intros Ha. unfold strip_redundant_offset, replace_all, drop_offsets.
  apply (replace_scan offset_step REDUNDANT_OFFSET_RE _ _ _ offset_pattern). intros i Hi.
  pose proof (offset_match re_unicode (state_at sql i) (Forall_drop _ _ _ Ha)) as Hm.
  cbn [state_at ms_rest ms_pos] in Hm. unfold offset_step.
  destruct (read_offset (drop i sql)) as [n|] eqn:En; [|done]. cbn [fmap option_fmap option_map].
  pose proof (read_offset_length _ _ En) as Hn. rewrite length_drop in Hn.
  destruct Hm as (st' & E & P). split_and!; [lia|lia|]. by exists st'.
Qed.

(** ** The theorem *)

(** A scan whose replacements have a property keeps it. *)
Lemma scan_Forall (P : char -> Prop) step k prev s :
  (forall prev s n out, Forall P s -> step prev s = Some (n, out) -> Forall P out) ->
  Forall P s -> Forall P (scan step k prev s).
Proof.
  intros Hstep Hs. revert k prev; induction Hs as [|c s Hc Hs IH]; intros k prev; [done|].
  cbn [scan]. destruct k as [|k]; [|apply IH].
  destruct (step prev (c :: s)) as [[[|n] out]|] eqn:E; [by constructor| |by constructor].
  apply Forall_app. split; [|apply IH]. eapply Hstep; [|exact E]. by constructor.
Qed.

Lemma quote_aliases_ascii sql : is_ascii sql -> is_ascii (quote_aliases sql).
Proof.
  apply scan_Forall. intros prev s n out Hs. unfold alias_step.
  destruct (ident_at prev); [done|]. destruct (read_alias s) as [w|] eqn:Hw; [|done].
  intros E. assert (Hout : out = (if negb (alias_called w) && is_reserved (alias_name w)
                 then lit "AS `" ++ alias_name w ++ lit "`" ++ alias_blanks w
                 else take (alias_length w) s)) by congruence. rewrite Hout.
  destruct (_ && _); [|by apply Forall_take].
  destruct (read_alias_split _ _ Hw) as (kw & rest & -> & _).
  rewrite !Forall_app in Hs. rewrite !Forall_app. destruct Hs as (_ & _ & Hn & Hb & _).
  split_and!; [by repeat constructor|done|by repeat constructor|done].
Qed.

(** C18: what reaches Exasol of a statement without PostgreSQL constructs.  An ASCII
    statement that the passthrough test accepts and that does not mention [exasol] is sent
    with its reserved aliases quoted and its OFFSETs of 0 or NULL removed, exactly as the
    two scans above do it, and unchanged everywhere else; whatever the regular expression
    engine's Unicode tables and the transpiler are. *)
Theorem passthrough_translation `{RegexEngine} `{Transpiler} sql :
  is_ascii sql -> is_exasol_passthrough_sql sql = true -> lacks (lit "exasol") sql ->
  translate_postgres_to_exasol sql = Ok (drop_offsets (quote_aliases sql)).
Proof.
  intros Ha Hp Hex.
  assert (Hstrip : strip_exasol_catalog_prefix sql = sql).
  { apply (replace_absent (lit "exasol")); [by apply lit_ascii|done|vm_compute; reflexivity|done]. }
  unfold translate_postgres_to_exasol. rewrite Hstrip, Hp. cbn [mbind outcome_bind].
  rewrite quote_aliases_spec by done. by rewrite drop_offsets_spec by by apply quote_aliases_ascii.
Qed.

#[local] Existing Instance reference_engine.
#[local] Instance no_transpiler : Transpiler := fun _ _ _ => Err (lit "unsupported").

Lemma passthrough_translation_witness :
  translate_postgres_to_exasol
    (lit "SELECT CAST(a AS date) as DATE, b AS x FROM t LIMIT 5 OFFSET 0 ROWS")
  = Ok (lit "SELECT CAST(a AS date) AS `DATE`, b AS x FROM t LIMIT 5").
Proof.
  rewrite passthrough_translation.
  - vm_compute. reflexivity.
  - by apply lit_ascii.
  - vm_compute. reflexivity.
  - reflexivity.
Defined.
