(* ===== verification/Metadata.v ===== *)
(** * Metadata requests and column types (src/src/metadata.rs)

    Which metadata query a statement is ([detect]), and the PostgreSQL type
    description of an Exasol column type ([map_exasol_column_type], on [i32]). *)

From S2P Require Import Prelude RustStr RustInt Regex Plan.
#[local] Open Scope Z_scope.

Inductive MetadataPlan :=
| PgNamespace
| JdbcSchemas
| JdbcTables (schema_pattern table_pattern : str)
| JdbcColumns (schema_pattern table_pattern column_pattern : str)
| PgTables (schema_exclude table_name : option str)
| InfoSchemaTableNames (catalog schema : str)
| InfoSchemaColumnNames (catalog schema table : str)
| PgUser
| PgGroup
| PgStatActivity
| PgLocks.

Section metadata.
Context `{BuildProfile} `{RegexEngine}.

Definition JDBC_SCHEMAS_RE : str :=
  lit "(?is)^select\s+nspname\s+as\s+`TABLE_SCHEM`.*from\s+pg_catalog\.pg_namespace".
Definition JDBC_TABLES_RE : str :=
  lit "(?is)^select\s+current_database\(\)\s+as\s+`TABLE_CAT`.*from\s+pg_catalog\.pg_namespace\s+n,\s+pg_catalog\.pg_class\s+c".
Definition JDBC_COLUMNS_RE : str :=
  lit "(?is)^select\s+\*\s+from\s+\(select\s+current_database\(\)\s+as\s+current_database.*join\s+pg_catalog\.pg_attribute\s+a".
Definition PG_NAMESPACE_RE : str :=
  lit "(?is)^select\s+\*\s+from\s+pg_catalog\.pg_namespace\b".
Definition PG_TABLES_RE : str :=
  lit "(?is)^select\s+\*\s+from\s+pg_tables\b".
Definition INFO_SCHEMA_TABLES_RE : str :=
  lit "(?is)^select\s+table_name\s+from\s+information_schema\.tables\b".
Definition INFO_SCHEMA_COLUMNS_RE : str :=
  lit "(?is)^select\s+column_name\s+from\s+information_schema\.columns\b".
Definition PG_USER_RE : str :=
  lit "(?is)^select\s+\*\s+from\s+pg_user\b".
Definition PG_GROUP_RE : str :=
  lit "(?is)^select\s+\*\s+from\s+pg_group\b".
Definition PG_STAT_ACTIVITY_RE : str :=
  lit "(?is)^select\s+\*\s+from\s+pg_stat_activity\b".
Definition PG_LOCKS_RE : str :=
  lit "(?is)^select\s+\*\s+from\s+pg_locks\b".
Definition NAMESPACE_LIKE_RE : str :=
  lit "(?i)\bn(?:\.nspname)?\s+like\s+'((?:[^']|'')*)'".
Definition RELNAME_LIKE_RE : str :=
  lit "(?i)\bc(?:\.relname)?\s+like\s+'((?:[^']|'')*)'".
Definition ATTNAME_LIKE_RE : str :=
  lit "(?i)\battname\s+like\s+'((?:[^']|'')*)'".
Definition SCHEMANAME_NE_RE : str :=
  lit "(?i)\bschemaname\s*!=\s*'((?:[^']|'')*)'".
Definition TABLENAME_EQ_RE : str :=
  lit "(?i)\btablename\s*=\s*'((?:[^']|'')*)'".
Definition TABLE_CATALOG_EQ_RE : str :=
  lit "(?i)\btable_catalog\s*=\s*'((?:[^']|'')*)'".
Definition TABLE_SCHEMA_EQ_RE : str :=
  lit "(?i)\btable_schema\s*=\s*'((?:[^']|'')*)'".
Definition TABLE_NAME_EQ_RE : str :=
  lit "(?i)\btable_name\s*=\s*'((?:[^']|'')*)'".
Definition DECIMAL_RE : str :=
  lit "(?i)^DECIMAL\((\d+),\s*(\d+)\)$".
Definition VARCHAR_RE : str :=
  lit "(?i)^VARCHAR\((\d+)\)".
Definition CHAR_RE : str :=
  lit "(?i)^CHAR\((\d+)\)".
Definition TIMESTAMP_RE : str :=
  lit "(?i)^TIMESTAMP(?:\((\d+)\))?".

Definition capture_literal (regex sql : str) : option str :=
  cap ← captures_of regex sql;
  replace (lit "''") (lit "'") <$> cap_get sql cap 1.

Definition detect (sql : str) : option MetadataPlan :=
  let trimmed := trim sql in
  let any := lit "%" in
  if is_match JDBC_COLUMNS_RE trimmed then
    Some (JdbcColumns (default any (capture_literal NAMESPACE_LIKE_RE trimmed))
                      (default any (capture_literal RELNAME_LIKE_RE trimmed))
                      (default any (capture_literal ATTNAME_LIKE_RE trimmed)))
  else if is_match JDBC_TABLES_RE trimmed then
    Some (JdbcTables (default any (capture_literal NAMESPACE_LIKE_RE trimmed))
                     (default any (capture_literal RELNAME_LIKE_RE trimmed)))
  else if is_match JDBC_SCHEMAS_RE trimmed then Some JdbcSchemas
  else if is_match PG_NAMESPACE_RE trimmed then Some PgNamespace
  else if is_match PG_TABLES_RE trimmed then
    Some (PgTables (capture_literal SCHEMANAME_NE_RE trimmed)
                   (capture_literal TABLENAME_EQ_RE trimmed))
  else if is_match INFO_SCHEMA_TABLES_RE trimmed then
    Some (InfoSchemaTableNames
            (default (lit "exasol") (capture_literal TABLE_CATALOG_EQ_RE trimmed))
            (default [] (capture_literal TABLE_SCHEMA_EQ_RE trimmed)))
  else if is_match INFO_SCHEMA_COLUMNS_RE trimmed then
    Some (InfoSchemaColumnNames
            (default (lit "exasol") (capture_literal TABLE_CATALOG_EQ_RE trimmed))
            (default [] (capture_literal TABLE_SCHEMA_EQ_RE trimmed))
            (default [] (capture_literal TABLE_NAME_EQ_RE trimmed)))
  else if is_match PG_USER_RE trimmed then Some PgUser
  else if is_match PG_GROUP_RE trimmed then Some PgGroup
  else if is_match PG_STAT_ACTIVITY_RE trimmed then Some PgStatActivity
  else if is_match PG_LOCKS_RE trimmed then Some PgLocks
  else None.

(** ** Column types *)

Record PgTypeInfo := {
  oid : Z;
  typmod : Z;
  typlen : Z;
  typtype : str;
  typbasetype : Z }.

Definition type_info (oid typmod typlen : Z) : PgTypeInfo :=
  {| oid := oid; typmod := typmod; typlen := typlen; typtype := lit "b"; typbasetype := 0 |}.

(** A captured number: [parse::<i32>().ok()], with its default. *)
Definition captured_i32 (s : str) (cap : captures) (i : nat) (d : Z) : Z :=
  default d (cap_get s cap i ≫= parse_i32).

(** [((precision << 16) | scale) + 4] on [i32]: the shift drops the high bits, the
    sum is checked. *)
Definition decimal_typmod (precision scale : Z) : outcome PgError Z :=
  add_i32 (Z.lor (wrap_signed 32 (Z.shiftl precision 16)) scale) 4.

Definition map_exasol_column_type (exasol_type : str) : outcome PgError PgTypeInfo :=
  let upper := to_ascii_uppercase (trim exasol_type) in
  match captures_of DECIMAL_RE upper with
  | Some cap =>
      typmod ← decimal_typmod (captured_i32 upper cap 1 36) (captured_i32 upper cap 2 0);
      Ok (type_info 1700 typmod (-1))
  | None =>
  match captures_of VARCHAR_RE upper with
  | Some cap =>
      typmod ← add_i32 (captured_i32 upper cap 1 2000) 4;
      Ok (type_info 1043 typmod (-1))
  | None =>
  match captures_of CHAR_RE upper with
  | Some cap =>
      typmod ← add_i32 (captured_i32 upper cap 1 1) 4;
      Ok (type_info 1042 typmod (-1))
  | None =>
  match captures_of TIMESTAMP_RE upper with
  | Some cap =>
      let oid := if contains (lit "WITH LOCAL TIME ZONE") upper
                    || contains (lit "WITH TIME ZONE") upper then 1184 else 1114 in
      typmod ← add_i32 (captured_i32 upper cap 1 6) 4;
      Ok (type_info oid typmod 8)
  | None =>
      Ok (if one_of upper ["BOOLEAN"]%string then type_info 16 (-1) 1
          else if one_of upper ["DATE"]%string then type_info 1082 (-1) 4
          else if one_of upper ["DOUBLE"; "DOUBLE PRECISION"]%string then type_info 701 (-1) 8
          else if one_of upper ["REAL"]%string then type_info 700 (-1) 4
          else if one_of upper ["INTERVAL DAY TO SECOND"; "INTERVAL YEAR TO MONTH";
                                "INTERVAL"]%string then type_info 1186 (-1) 16
          else type_info 25 (-1) (-1))
  end end end end.
End metadata.
