(* ===== verification/TypeModifiers.v ===== *)
(** * Type modifiers of columns

    What a client that decodes type modifiers as PostgreSQL does reads from the
    description of an Exasol column: the length of VARCHAR and CHAR, the precision and
    scale of DECIMAL, for every engine and build profile.  The modifier of TIMESTAMP is
    not what such a client expects. *)

From Stdlib Require Import ZifyN ZifyBool.
From S2P Require Import Prelude RustStr RustInt Regex RegexLemmas RegexMatches Plan Metadata.
#[local] Open Scope Z_scope.

(** ** Types as Exasol writes them *)

Inductive charset := DefaultCharset | Utf8 | Ascii.
Definition charset_text (cs : charset) : str :=
  match cs with DefaultCharset => [] | Utf8 => lit " UTF8" | Ascii => lit " ASCII" end.

Definition varchar_text (n : Z) (cs : charset) : str :=
  lit "VARCHAR(" ++ show_int n ++ lit ")" ++ charset_text cs.
Definition char_text (n : Z) (cs : charset) : str :=
  lit "CHAR(" ++ show_int n ++ lit ")" ++ charset_text cs.
Definition decimal_text (p s : Z) : str :=
  lit "DECIMAL(" ++ show_int p ++ lit "," ++ show_int s ++ lit ")".
Definition timestamp_text (p : Z) (zone : bool) : str :=
  lit "TIMESTAMP(" ++ show_int p ++ lit ")"
  ++ (if zone then lit " WITH LOCAL TIME ZONE" else []).

(** ** Type modifiers as PostgreSQL reads them *)

(** The declared length of [varchar] and [bpchar]. *)
Definition pg_length (typmod : Z) : option Z :=
  if typmod <? 4 then None else Some (typmod - 4).
(** [numeric_typmod_precision] and [numeric_typmod_scale]. *)
Definition pg_precision (typmod : Z) : Z := Z.land (Z.shiftr (typmod - 4) 16) 65535.
Definition pg_scale (typmod : Z) : Z := Z.lxor (Z.land (typmod - 4) 2047) 1024 - 1024.
(** The fractional digits of [timestamp] and [timestamptz]. *)
Definition pg_timestamp_precision (typmod : Z) : option Z :=
  if typmod <? 0 then None else Some typmod.

(** Bits below and above do not meet. *)
Lemma land_apart p k s : 0 <= k -> 0 <= s < 2 ^ k -> Z.land (Z.shiftl p k) s = 0.
Proof.
  intros Hk Hs. apply Z.bits_inj'. intros i Hi. rewrite Z.land_spec, Z.bits_0.
  destruct (decide (i < k)) as [Hlt|Hge]; [by rewrite Z.shiftl_spec_low|].
  replace s with (s mod 2 ^ k) by (by apply Z.mod_small).
  rewrite Z.mod_pow2_bits_high by lia. apply andb_false_r.
Qed.

(** The word of a DECIMAL: the precision above the scale. *)
Lemma decimal_sum p s : 0 <= s < 2 ^ 16 -> Z.lor (Z.shiftl p 16) s = p * 2 ^ 16 + s.
Proof.
  intros Hs. rewrite <- Z.add_nocarry_lor by (by apply land_apart).
  by rewrite Z.shiftl_mul_pow2.
Qed.

Lemma decimal_word p s :
  0 <= p < 2 ^ 15 -> 0 <= s < 2 ^ 15 ->
  wrap_signed 32 (Z.shiftl p 16) = Z.shiftl p 16
  /\ 0 <= Z.lor (Z.shiftl p 16) s < 2 ^ 31 - 4.
Proof.
  intros Hp Hs. split.
  - rewrite Z.shiftl_mul_pow2 by done. unfold wrap_signed. rewrite Z.mod_small by (cbn in *; lia). lia.
  - rewrite decimal_sum by (cbn in *; lia). cbn in *. lia.
Qed.

Lemma decimal_decoded p s :
  0 <= p < 2 ^ 15 -> 0 <= s < 2 ^ 10 ->
  pg_precision (Z.lor (Z.shiftl p 16) s + 4) = p /\ pg_scale (Z.lor (Z.shiftl p 16) s + 4) = s.
Proof.
  intros Hp Hs. unfold pg_precision, pg_scale.
  rewrite decimal_sum by (cbn in *; lia). rewrite Z.add_simpl_r.
  change 65535 with (Z.ones 16). change 2047 with (Z.ones 11).
  rewrite !Z.land_ones, Z.shiftr_div_pow2 by done. split.
  - rewrite Z.div_add_l, Z.div_small, Z.add_0_r, Z.mod_small by (cbn in *; lia). done.
  - replace (p * 2 ^ 16 + s) with (s + (p * 2 ^ 5) * 2 ^ 11) by (cbn; lia).
    rewrite Z.mod_add, Z.mod_small by (cbn in *; lia).
    rewrite <- Z.add_nocarry_lxor; [cbn; lia|]. rewrite Z.land_comm.
    by apply (land_apart 1 10).
Qed.

(** ** The texts are read as they stand *)

(** Upper-case text between two characters that are not space. *)
Definition settled_char (c : char) : bool := negb (is_ascii_lowercase c).

Lemma upper_settled s : Forall (fun c => settled_char c = true) s -> to_ascii_uppercase s = s.
Proof.
  intros Hs. induction Hs as [|c s Hc _ IH]; [done|]. cbn. fold (to_ascii_uppercase s).
  rewrite IH. f_equal. unfold settled_char in Hc. unfold char_to_ascii_uppercase.
  by destruct (is_ascii_lowercase c).
Qed.

Lemma digits_settled s :
  Forall (fun c => is_ascii_digit c = true) s -> Forall (fun c => settled_char c = true) s.
Proof.
  intros Hs. eapply list.Forall_impl; [exact Hs|]. intros c Hc.
  unfold settled_char, is_ascii_lowercase, is_ascii_digit in *. lia.
Qed.

Lemma settled_text c s d :
  is_whitespace c = false -> is_whitespace d = false ->
  Forall (fun c => settled_char c = true) (c :: s ++ [d]) ->
  to_ascii_uppercase (trim (c :: s ++ [d])) = c :: s ++ [d].
Proof. intros Hc Hd Hs. by rewrite trim_ends, upper_settled. Qed.

Lemma forallb_Forall {A} (f : A -> bool) l : forallb f l = true -> Forall (fun x => f x = true) l.
Proof. intros Hl. apply List.Forall_forall. by apply forallb_forall. Qed.

(** A number in a pattern's group. *)
Lemma captured_number pre n post cap i d :
  0 <= n <= i32_max -> 
  cap_span cap i = Some (length pre, (length pre + length (show_int n))%nat) ->
  captured_i32 (pre ++ show_int n ++ post) cap i d = n.
Proof.
  intros Hn Hc. unfold captured_i32, cap_get. rewrite Hc. cbn [mbind option_bind].
  rewrite slice_middle by done. unfold parse_i32. rewrite parse_show_int; [done|]. unfold_bounds. lia.
Qed.

Section modifiers.
Context `{BuildProfile} `{RegexEngine}.

(** The patterns, as expressions. *)
Definition digits_group (i : nat) : re := RGroup i (RSeq (RPlus true (class_of CDigit)) REps).
Definition anchored_to (w : string) (r : re) : regex :=
  {| rx_re := RSeq (RAssert AStart) (literal (lit w) r); rx_names := [] |}.
Definition varchar_rx : regex :=
  anchored_to "VARCHAR(" (RSeq (digits_group 1) (literal (lit ")") REps)).
Definition char_rx : regex :=
  anchored_to "CHAR(" (RSeq (digits_group 1) (literal (lit ")") REps)).
Definition decimal_rx : regex :=
  anchored_to "DECIMAL("
    (RSeq (digits_group 1) (literal (lit ",")
      (RSeq (RStar true (class_of (CSpace false))) (RSeq (digits_group 2)
        (literal (lit ")") (RSeq (RAssert AEnd) REps)))))).
Definition timestamp_rx : regex :=
  anchored_to "TIMESTAMP"
    (RSeq (ROpt true (literal (lit "(") (RSeq (digits_group 1) (literal (lit ")") REps)))) REps).

Lemma first_digits i n rest st :
  (0 <= n) -> ms_rest st = show_int n ++ rest ->
  match rest with c :: _ => is_ascii_digit c = false /\ (c < 128)%N | [] => True end ->
  first_match re_unicode (digits_group i) st
  = Some (ms_close i (ms_pos st) (ms_run (show_int n) rest st)).
Proof.
  intros Hn Hr Hrest. destruct (show_int_digits n Hn) as [Hne Hd]. apply first_group.
  eapply first_seq; [|apply first_eps]. apply first_plus; [done..|by apply digits_class|].
  destruct rest as [|c rest]; [done|]. destruct Hrest as [Hc Hlt]. unfold class_matches. cbn.
  unfold is_digit. by rewrite (proj2 (N.ltb_lt _ _) Hlt), Hc.
Qed.

(** A type with a number after its name. *)
Lemma number_captures w rx n tail :
  rx_re rx = RSeq (RAssert AStart)
               (literal (lit w) (RSeq (digits_group 1) (literal (lit ")") REps))) ->
  0 <= n ->
  exists st, first_match re_unicode (rx_re rx)
      {| ms_prev := None; ms_rest := lit w ++ show_int n ++ lit ")" ++ tail; ms_pos := 0;
         ms_caps := [] |} = Some st
    /\ ms_caps st = [(1, (length (lit w), length (lit w) + length (show_int n)))]%nat.
Proof.
  intros -> Hn. eexists. split.
  - eapply first_seq; [by apply first_assert|]. eapply first_literal; [reflexivity|].
    eapply first_seq; [by apply (first_digits 1 n (lit ")" ++ tail))|].
    eapply first_literal; [reflexivity|]. apply first_eps.
  - reflexivity.
Qed.

Lemma varchar_captures n tail :
  0 <= n ->
  exists st, captures_of VARCHAR_RE (lit "VARCHAR(" ++ show_int n ++ lit ")" ++ tail)
             = Some (whole 0 st)
    /\ ms_caps st = [(1, (8, 8 + length (show_int n)))]%nat.
Proof.
  intros Hn. destruct (number_captures "VARCHAR(" varchar_rx n tail) as (st & E & Hc); [done..|].
  exists st. split; [|done]. apply (captures_first _ varchar_rx); [by vm_compute|done].
Qed.

Lemma char_captures n tail :
  0 <= n ->
  exists st, captures_of CHAR_RE (lit "CHAR(" ++ show_int n ++ lit ")" ++ tail)
             = Some (whole 0 st)
    /\ ms_caps st = [(1, (5, 5 + length (show_int n)))]%nat.
Proof.
  intros Hn. destruct (number_captures "CHAR(" char_rx n tail) as (st & E & Hc); [done..|].
  exists st. split; [|done]. apply (captures_first _ char_rx); [by vm_compute|done].
Qed.

Lemma timestamp_captures n tail :
  0 <= n ->
  exists st, captures_of TIMESTAMP_RE (lit "TIMESTAMP(" ++ show_int n ++ lit ")" ++ tail)
             = Some (whole 0 st)
    /\ ms_caps st = [(1, (10, 10 + length (show_int n)))]%nat.
Proof.
  intros Hn. eexists. split.
  - apply (captures_first _ timestamp_rx); [by vm_compute|].
    eapply first_seq; [by apply first_assert|]. eapply first_literal; [reflexivity|].
    eapply first_seq; [|apply first_eps]. apply first_alt_l. eapply first_literal; [reflexivity|].
    eapply first_seq; [by apply (first_digits 1 n (lit ")" ++ tail))|].
    eapply first_literal; [reflexivity|]. apply first_eps.
  - reflexivity.
Qed.

Lemma decimal_captures p s :
  0 <= p -> 0 <= s ->
  exists st, captures_of DECIMAL_RE (decimal_text p s) = Some (whole 0 st)
    /\ ms_caps st = [(2, (9 + length (show_int p), 9 + length (show_int p) + length (show_int s)));
                     (1, (8, 8 + length (show_int p)))]%nat.
Proof.
  intros Hp Hs. destruct (show_int_digits s Hs) as [_ Hsd]. eexists. split.
  - apply (captures_first _ decimal_rx); [by vm_compute|].
    eapply first_seq; [by apply first_assert|]. eapply first_literal; [reflexivity|].
    eapply first_seq; [by apply (first_digits 1 p (lit "," ++ show_int s ++ lit ")"))|].
    eapply first_literal; [reflexivity|]. eapply first_seq.
    { apply (first_star _ _ [] (show_int s ++ lit ")")); [reflexivity|constructor|].
      destruct Hsd as [|c l Hc _]; [done|]. cbn [app]. unfold class_matches. cbn.
      unfold is_whitespace. unfold is_ascii_digit in Hc. lia. }
    eapply first_seq; [by apply (first_digits 2 s (lit ")"))|].
    eapply first_literal; [reflexivity|].
    eapply first_seq; [by apply first_assert|apply first_eps].
  - cbn. repeat f_equal; lia.
Qed.

(** *** The whole description *)

(** The parts of a type's text around a number. *)
Definition type_parts (pre post : str) : Prop :=
  forallb settled_char pre = true
  /\ forallb settled_char post = true
  /\ (exists c l, pre = c :: l /\ is_whitespace c = false)
  /\ exists l d, post = l ++ [d] /\ is_whitespace d = false.

Lemma plain_type pre n post :
  0 <= n -> type_parts pre post ->
  to_ascii_uppercase (trim (pre ++ show_int n ++ post)) = pre ++ show_int n ++ post.
Proof.
  intros Hn (Hpre & Hpost & (c & l & -> & Hc) & l' & d & -> & Hd).
  destruct (show_int_digits n Hn) as [_ Hdig].
  assert (Hall : Forall (fun c => settled_char c = true) ((c :: l) ++ show_int n ++ l' ++ [d])).
  { apply list.Forall_app_2; [by apply forallb_Forall|].
    apply list.Forall_app_2; [by apply digits_settled|by apply forallb_Forall]. }
  replace ((c :: l) ++ show_int n ++ l' ++ [d]) with (c :: (l ++ show_int n ++ l') ++ [d])
    in * by (cbn; by rewrite <- !app_assoc).
  by apply settled_text.
Qed.

Lemma charset_parts pre cs :
  forallb settled_char pre = true ->
  (exists c l, pre = c :: l /\ is_whitespace c = false) ->
  type_parts pre (lit ")" ++ charset_text cs).
Proof.
  intros Hpre Hhead. split_and!; [done|by destruct cs; vm_compute|done|].
  destruct cs.
  - by exists [], 41%N.
  - by exists (lit ") UTF"), 56%N.
  - by exists (lit ") ASCI"), 73%N.
Qed.

Lemma varchar_modifier n cs :
  0 <= n <= i32_max - 4 ->
  map_exasol_column_type (varchar_text n cs) = Ok (type_info 1043 (n + 4) (-1)).
Proof.
  intros Hn.
  assert (Hp : type_parts (lit "VARCHAR(") (lit ")" ++ charset_text cs))
    by (apply charset_parts; [vm_compute; reflexivity|by eexists _, _]).
  unfold varchar_text, map_exasol_column_type.
  rewrite (plain_type _ n _ (proj1 Hn) Hp). cbv zeta.
  assert (captures_of DECIMAL_RE (lit "VARCHAR(" ++ show_int n ++ lit ")" ++ charset_text cs) = None)
    as -> by (apply other_letter; by vm_compute).
  destruct (varchar_captures n (charset_text cs)) as (st & -> & Hc); [lia|].
  rewrite captured_number; [|unfold_bounds; lia|unfold whole; by rewrite Hc].
  unfold add_i32. by rewrite arith_in_range by (cbn; unfold_bounds; lia).
Qed.
Lemma char_modifier n cs :
  0 <= n <= i32_max - 4 ->
  map_exasol_column_type (char_text n cs) = Ok (type_info 1042 (n + 4) (-1)).
Proof.
  intros Hn.
  assert (Hp : type_parts (lit "CHAR(") (lit ")" ++ charset_text cs))
    by (apply charset_parts; [vm_compute; reflexivity|by eexists _, _]).
  unfold char_text, map_exasol_column_type.
  rewrite (plain_type _ n _ (proj1 Hn) Hp). cbv zeta.
  set (text := lit "CHAR(" ++ show_int n ++ lit ")" ++ charset_text cs).
  assert (captures_of DECIMAL_RE text = None) as -> by (apply other_letter; by vm_compute).
  assert (captures_of VARCHAR_RE text = None) as -> by (apply other_letter; by vm_compute).
  destruct (char_captures n (charset_text cs)) as (st & E & Hc); [lia|].
  fold text in E. rewrite E. unfold text.
  rewrite captured_number; [|unfold_bounds; lia|unfold whole; by rewrite Hc].
  unfold add_i32. by rewrite arith_in_range by (cbn; unfold_bounds; lia).
Qed.

(** The name of a type with a time zone. *)
Lemma no_zone n :
  0 <= n -> contains (lit "WITH LOCAL TIME ZONE") (timestamp_text n false)
            || contains (lit "WITH TIME ZONE") (timestamp_text n false) = false.
Proof.
  intros Hn. assert (Hw : Forall (fun c => c <> 87%N) (timestamp_text n false)).
  { destruct (show_int_digits n Hn) as [_ Hd]. apply list.Forall_app_2; [by repeat constructor|].
    apply list.Forall_app_2; [|by repeat constructor].
    eapply list.Forall_impl; [exact Hd|]. intros c Hc ->. done. }
  apply orb_false_iff.
  split; apply not_true_is_false; intros Hc; apply (contains_forall _ _ _ Hw) in Hc;
    by inversion Hc.
Qed.

Lemma timestamp_modifier n zone :
  0 <= n <= i32_max - 4 ->
  map_exasol_column_type (timestamp_text n zone)
  = Ok (type_info (if zone then 1184 else 1114) (n + 4) 8).
Proof.
  intros Hn. set (tail := if zone then lit " WITH LOCAL TIME ZONE" else []).
  assert (Hp : type_parts (lit "TIMESTAMP(") (lit ")" ++ tail)).
  { split_and!; [reflexivity|by destruct zone; vm_compute|by eexists _, _|]. destruct zone.
    - by exists (lit ") WITH LOCAL TIME ZON"), 69%N.
    - by exists [], 41%N. }
  assert (Hz : contains (lit "WITH LOCAL TIME ZONE") (timestamp_text n zone)
               || contains (lit "WITH TIME ZONE") (timestamp_text n zone) = zone).
  { destruct zone; [|apply no_zone; lia]. apply orb_true_iff. left. unfold timestamp_text.
    pose proof (contains_app (lit "WITH LOCAL TIME ZONE")
                  (lit "TIMESTAMP(" ++ show_int n ++ lit ") ") []) as Hc.
    rewrite <- !app_assoc, app_nil_r in Hc. exact Hc. }
  destruct (timestamp_captures n tail) as (st & E & Hc); [lia|].
  change (lit "TIMESTAMP(" ++ show_int n ++ lit ")" ++ tail) with (timestamp_text n zone) in E.
  assert (Hup : to_ascii_uppercase (trim (timestamp_text n zone)) = timestamp_text n zone)
    by apply (plain_type _ n _ (proj1 Hn) Hp).
  unfold map_exasol_column_type. rewrite Hup. cbv zeta.
  assert (captures_of DECIMAL_RE (timestamp_text n zone) = None) as -> by (apply other_letter; by vm_compute).
  assert (captures_of VARCHAR_RE (timestamp_text n zone) = None) as -> by (apply other_letter; by vm_compute).
  assert (captures_of CHAR_RE (timestamp_text n zone) = None) as -> by (apply other_letter; by vm_compute).
  rewrite E, Hz. unfold timestamp_text.
  rewrite captured_number; [|unfold_bounds; lia|unfold whole; by rewrite Hc].
  unfold add_i32. by rewrite arith_in_range by (cbn; unfold_bounds; lia).
Qed.

Lemma decimal_modifier p s :
  0 <= p < 2 ^ 15 -> 0 <= s < 2 ^ 15 ->
  map_exasol_column_type (decimal_text p s)
  = Ok (type_info 1700 (Z.lor (Z.shiftl p 16) s + 4) (-1)).
Proof.
  intros Hp Hs.
  assert (Hparts : type_parts (lit "DECIMAL(") (lit "," ++ show_int s ++ lit ")")).
  { destruct (show_int_digits s (proj1 Hs)) as [_ Hd]. split_and!; [reflexivity| |by eexists _, _|].
    - rewrite !forallb_app. apply andb_true_iff. split; [reflexivity|].
      apply andb_true_iff. split; [|reflexivity].
      apply forallb_forall. intros c Hc. apply list_elem_of_In in Hc.
      pose proof (proj1 (list.Forall_forall _ _) Hd c Hc) as Hx. cbn beta in Hx.
      unfold settled_char, is_ascii_lowercase, is_ascii_digit in *. lia.
    - by exists (lit "," ++ show_int s), 41%N. }
  destruct (decimal_captures p s) as (st & E & Hc); [lia|lia|].
  unfold decimal_text, map_exasol_column_type in *.
  rewrite (plain_type _ p _ (proj1 Hp) Hparts). cbv zeta. rewrite E.
  rewrite captured_number; [|unfold_bounds; lia|unfold whole; by rewrite Hc].
  assert (Hs2 : captured_i32 (lit "DECIMAL(" ++ show_int p ++ lit "," ++ show_int s ++ lit ")")
                  (whole 0 st) 2 0 = s).
  { replace (lit "DECIMAL(" ++ show_int p ++ lit "," ++ show_int s ++ lit ")")
      with ((lit "DECIMAL(" ++ show_int p ++ lit ",") ++ show_int s ++ lit ")")
      by (by rewrite <- !app_assoc).
    apply captured_number; [unfold_bounds; lia|].
    assert (length (lit "DECIMAL(" ++ show_int p ++ lit ",") = (9 + length (show_int p))%nat) as ->
      by (rewrite !length_app; cbn; lia).
    unfold whole. by rewrite Hc. }
  rewrite Hs2. unfold decimal_typmod. destruct (decimal_word p s Hp Hs) as [Hw Hb].
  unfold add_i32. rewrite Hw, arith_in_range by (cbn in *; lia). done.
Qed.

(** C34: a client that decodes type modifiers as PostgreSQL does reads the declaration of
    the column from them: the length of a VARCHAR or CHAR, the precision and scale of a
    DECIMAL, for all that the modifier can hold; only for TIMESTAMP the number it reads
    is the precision plus 4. *)
Theorem type_modifiers :
  (forall n cs, 0 <= n <= i32_max - 4 ->
     exists info, map_exasol_column_type (varchar_text n cs) = Ok info
       /\ oid info = 1043 /\ pg_length (typmod info) = Some n)
  /\ (forall n cs, 0 <= n <= i32_max - 4 ->
     exists info, map_exasol_column_type (char_text n cs) = Ok info
       /\ oid info = 1042 /\ pg_length (typmod info) = Some n)
  /\ (forall p s, 0 <= p < 2 ^ 15 -> 0 <= s < 2 ^ 10 ->
     exists info, map_exasol_column_type (decimal_text p s) = Ok info
       /\ oid info = 1700 /\ pg_precision (typmod info) = p /\ pg_scale (typmod info) = s)
  /\ (forall n zone, 0 <= n <= i32_max - 4 ->
     exists info, map_exasol_column_type (timestamp_text n zone) = Ok info
       /\ oid info = (if zone then 1184 else 1114)
       /\ pg_timestamp_precision (typmod info) = Some (n + 4)).
Proof.
  assert (Hlen : forall n, 0 <= n -> pg_length (n + 4) = Some n).
  { intros n Hn. unfold pg_length. rewrite (proj2 (Z.ltb_ge _ _)) by lia. f_equal. lia. }
  split_and!.
  - intros n cs Hn. eexists. split_and!; [by apply varchar_modifier|done|apply Hlen; lia].
  - intros n cs Hn. eexists. split_and!; [by apply char_modifier|done|apply Hlen; lia].
  - intros p s Hp Hs. eexists. split; [apply decimal_modifier; lia|]. split; [done|].
    by apply decimal_decoded.
  - intros n zone Hn. eexists. split_and!; [by apply timestamp_modifier|done|].
    unfold pg_timestamp_precision. cbn. by rewrite (proj2 (Z.ltb_ge _ _)) by lia.
Qed.
End modifiers.

Lemma type_modifiers_witness :
  (exists info, @map_exasol_column_type dev_profile reference_engine (lit "VARCHAR(2000) UTF8") = Ok info
     /\ oid info = 1043 /\ pg_length (typmod info) = Some 2000)
  /\ exists info, @map_exasol_column_type dev_profile reference_engine (lit "DECIMAL(18,4)") = Ok info
     /\ oid info = 1700 /\ pg_precision (typmod info) = 18 /\ pg_scale (typmod info) = 4.
Proof.
  destruct (@type_modifiers dev_profile reference_engine) as (Hv & _ & Hd & _). split.
  - apply (Hv 2000 Utf8). unfold_bounds. lia.
  - apply (Hd 18 4); lia.
Defined.
