(* ===== verification/Responses.v ===== *)
(** * Results on their way to the client (src/src/pg_server.rs)

    PostgreSQL types of result columns, column labels, the [GatewayResponse] of a
    statement, and the protocol response it becomes.  A row stream is the list of
    its items, each a row or the error that ends the stream; [FieldInfo] and the
    protocol's messages are records of what the program puts into them. *)

From S2P Require Import Prelude RustStr RustInt Regex Arrow Plan Exasol Cursor Metadata.
#[local] Open Scope nat_scope.

(** The types of [postgres_types::Type] that the program names. *)
Inductive PgType :=
| BOOL | INT2 | INT4 | INT8 | NUMERIC | FLOAT8 | DATE | TIMESTAMP | TIMESTAMPTZ
| TEXT | VARCHAR | BPCHAR | NAME | UNKNOWN
| OtherType (name : str).

#[export] Instance PgType_eq_dec : EqDecision PgType.
Proof. solve_decision. Defined.

(** [Type::name]. *)
Definition type_name (t : PgType) : str :=
  match t with
  | BOOL => lit "bool" | INT2 => lit "int2" | INT4 => lit "int4" | INT8 => lit "int8"
  | NUMERIC => lit "numeric" | FLOAT8 => lit "float8" | DATE => lit "date"
  | TIMESTAMP => lit "timestamp" | TIMESTAMPTZ => lit "timestamptz" | TEXT => lit "text"
  | VARCHAR => lit "varchar" | BPCHAR => lit "bpchar" | NAME => lit "name"
  | UNKNOWN => lit "unknown" | OtherType name => name
  end.

(** Every column of the gateway is sent in text format. *)
Record FieldInfo := { fi_name : str; fi_type : PgType }.

(** ** Column labels *)

Definition fold_exasol_column_name (name : str) : str :=
  if existsb is_ascii_lowercase name then name else to_ascii_lowercase name.
Definition maybe_fold_label (name : str) (fold_labels : bool) : str :=
  if fold_labels then fold_exasol_column_name name else name.

(** ** Types of Arrow columns *)

Definition decimal_pg_type (precision scale : Z) : PgType :=
  if (scale =? 0)%Z && (precision <=? 9)%Z then INT4 else NUMERIC.

Definition pg_type_for_arrow_data_type (t : DataType) : PgType :=
  match t with
  | DtBoolean => BOOL
  | DtInt8 | DtInt16 | DtInt32 | DtUInt8 | DtUInt16 | DtUInt32 => INT4
  | DtInt64 | DtUInt64 => NUMERIC
  | DtFloat32 | DtFloat64 => FLOAT8
  | DtDecimal128 precision scale | DtDecimal256 precision scale => decimal_pg_type precision scale
  | DtDate32 | DtDate64 => DATE
  | DtTimestamp None => TIMESTAMP
  | DtTimestamp (Some _) => TIMESTAMPTZ
  | DtUtf8 | DtLargeUtf8 => VARCHAR
  | DtOther _ => TEXT
  end.

Section types.
Context `{BuildProfile} `{RegexEngine} `{ArrowLib} `{JsonLib}.

Definition metadata_i64 (field : Field) (key : string) (d : Z) : Z :=
  default d (field_metadata field !! lit key ≫= parse_i64).

Definition pg_type_from_exasol_metadata (exasol_type_json : str) (field : Field)
    : option PgType :=
  value ← json_parse exasol_type_json;
  type_name ← (json_get (lit "type") value ≫= json_as_str);
  let type_name := to_ascii_uppercase type_name in
  if one_of type_name ["BOOLEAN"]%string then Some BOOL
  else if one_of type_name ["DECIMAL"]%string then
    Some (decimal_pg_type (metadata_i64 field "exasol:precision" 36)
                          (metadata_i64 field "exasol:scale" 0))
  else if one_of type_name ["DOUBLE"]%string then Some FLOAT8
  else if one_of type_name ["DATE"]%string then Some DATE
  else if one_of type_name ["TIMESTAMP"]%string then
    Some (match field_data_type field with DtTimestamp (Some _) => TIMESTAMPTZ | _ => TIMESTAMP end)
  else if one_of type_name ["CHAR"; "VARCHAR"; "HASHTYPE"]%string then Some VARCHAR
  else None.

Definition pg_type_for_arrow_field (field : Field) : PgType :=
  match field_metadata field !! lit "exasol:type"
          ≫= (fun exasol_type => pg_type_from_exasol_metadata exasol_type field) with
  | Some pg_type => pg_type
  | None => pg_type_for_arrow_data_type (field_data_type field)
  end.

Definition map_exasol_columns (schema : Schema) (fold_labels : bool) : list FieldInfo :=
  (fun field => {| fi_name := maybe_fold_label (field_name field) fold_labels;
                   fi_type := pg_type_for_arrow_field field |}) <$> schema.

(** ** Types of WebSocket columns *)

Definition pg_type_of_oid (oid : Z) : PgType :=
  (if oid =? 16 then BOOL
   else if oid =? 1082 then DATE
   else if oid =? 1114 then TIMESTAMP
   else if oid =? 1184 then TIMESTAMPTZ
   else if oid =? 1700 then NUMERIC
   else if (oid =? 700) || (oid =? 701) then FLOAT8
   else if (oid =? 1042) || (oid =? 1043) then VARCHAR
   else TEXT)%Z.

Definition exasol_type_name (data_type : json) : str :=
  match json_as_str data_type with
  | Some name => name
  | None =>
      match json_get (lit "type") data_type ≫= json_as_str with
      | Some name => name
      | None => default (lit "VARCHAR") (json_get (lit "name") data_type ≫= json_as_str)
      end
  end.

Definition pg_type_for_exasol_data_type (data_type : json) : outcome PgError PgType :=
  let upper := to_ascii_uppercase (exasol_type_name data_type) in
  if one_of upper ["BOOLEAN"; "BOOL"]%string then Ok BOOL
  else if one_of upper ["DECIMAL"; "NUMERIC"]%string then
    let scale := default 0%Z (json_get (lit "scale") data_type ≫= json_as_i64) in
    let precision := default 36%Z (json_get (lit "precision") data_type ≫= json_as_i64) in
    Ok (if (scale =? 0)%Z && (precision <=? 9)%Z then INT4 else NUMERIC)
  else if one_of upper ["DOUBLE"; "DOUBLE PRECISION"]%string then Ok FLOAT8
  else if one_of upper ["DATE"]%string then Ok DATE
  else if one_of upper ["TIMESTAMP"]%string then Ok TIMESTAMP
  else if one_of upper ["TIMESTAMP WITH LOCAL TIME ZONE"; "TIMESTAMP WITH TIME ZONE"]%string
  then Ok TIMESTAMPTZ
  else if one_of upper ["CHAR"; "VARCHAR"; "HASHTYPE"]%string then Ok VARCHAR
  else
    let rendered := match json_as_str data_type with
                    | Some s => s
                    | None => json_render data_type
                    end in
    info ← map_exasol_column_type rendered;
    Ok (pg_type_of_oid (oid info)).

(** ** Responses *)

Inductive GatewayResponse :=
| REmpty
| RQuery (columns : list str) (rows : list (list (option str)))
| RArrowQuery (schema : Schema) (batches : list RecordBatch)
    (command_tag : option str) (fold_labels : bool)
| RTypedQuery (columns : list ExasolColumn) (rows : list (list (option str)))
    (command_tag : option str) (fold_labels : bool)
| RExecution (command : str) (rows : option Z)
| RTransactionStart (command : str)
| RTransactionEnd (command : str)
| RError (sqlstate message : str).

Definition typed_fields (columns : list ExasolColumn) (fold_labels : bool)
    : outcome PgError (list FieldInfo) :=
  mapM (fun column =>
    t ← pg_type_for_exasol_data_type (column_data_type column);
    Ok {| fi_name := maybe_fold_label (column_name column) fold_labels; fi_type := t |}) columns.

Definition text_fields (columns : list str) : list FieldInfo :=
  (fun name => {| fi_name := name; fi_type := TEXT |}) <$> columns.

(** [GatewayResponse::fields]. *)
Definition fields (r : GatewayResponse) : outcome PgError (list FieldInfo) :=
  match r with
  | RQuery columns _ => Ok (text_fields columns)
  | RArrowQuery schema _ _ fold_labels => Ok (map_exasol_columns schema fold_labels)
  | RTypedQuery columns _ _ fold_labels => typed_fields columns fold_labels
  | _ => Ok []
  end.

(** *** Encoding rows *)

Definition DataRow : Type := list (option str).

(** The row loop of [query_response] and [query_response_typed]: as many values as
    columns, missing ones are null; no value fails, so every row finds the encoder
    empty. *)
Definition encode_row (column_count : nat) (row : list (option str)) : DataRow :=
  (fun idx => mjoin (row !! idx)) <$> seq 0 column_count.

(** The [DataRowEncoder] all rows of a response share: the values of the row so far,
    which [take_row] hands over.  A row that fails leaves its values behind. *)
Definition DataRowEncoder : Type := DataRow.
Definition encode_field (value : option str) : stateful DataRowEncoder PgError unit :=
  fun encoder => (Ok tt, encoder ++ [value]).
Definition take_row : stateful DataRowEncoder PgError DataRow := fun encoder => (Ok encoder, []).

Fixpoint encode_columns (columns : list ArrayRef) (row_idx : nat)
    : stateful DataRowEncoder PgError unit :=
  match columns with
  | [] => mret tt
  | col :: columns =>
      _ ← match mjoin (array_cells col !! row_idx) with
          | None => encode_field None
          | Some c =>
              match cell_text c with
              | inl value => encode_field (Some value)
              | inr err =>
                  lift (Err (pg_error "XX000" (lit "failed to render Arrow result row: " ++ err)))
              end
          end;
      encode_columns columns row_idx
  end.
Definition encode_one_row (batch : RecordBatch) (row_idx : nat)
    : stateful DataRowEncoder PgError DataRow :=
  _ ← encode_columns (batch_columns batch) row_idx;
  take_row.

(** One after the other with the same encoder. *)
Fixpoint encode_each {A B} (f : A -> DataRowEncoder -> B * DataRowEncoder) (l : list A)
    (encoder : DataRowEncoder) : list B * DataRowEncoder :=
  match l with
  | [] => ([], encoder)
  | x :: l =>
      let '(y, encoder) := f x encoder in
      let '(k, encoder) := encode_each f l encoder in
      (y :: k, encoder)
  end.

Definition encode_batch_rows (batch : RecordBatch) (encoder : DataRowEncoder)
    : list (outcome PgError DataRow) * DataRowEncoder :=
  if num_rows batch =? 0 then ([], encoder)
  else match omap formatter_error (batch_columns batch) with
       | err :: _ =>
           ([Err (pg_error "XX000" (lit "failed to build Arrow formatters: " ++ err))], encoder)
       | [] => encode_each (encode_one_row batch) (seq 0 (num_rows batch)) encoder
       end.

(** [render_arrow_batches_as_strings]; an error of a batch ends it. *)
Definition render_batch (batch : RecordBatch) : outcome str (list (list (option str))) :=
  if num_rows batch =? 0 then Ok []
  else match omap formatter_error (batch_columns batch) with
       | err :: _ => Err err
       | [] =>
           mapM (fun row_idx =>
             mapM (fun col =>
               match mjoin (array_cells col !! row_idx) with
               | None => Ok None
               | Some c => match cell_text c with inl value => Ok (Some value) | inr err => Err err end
               end) (batch_columns batch)) (seq 0 (num_rows batch))
       end.
Definition render_arrow_batches_as_strings (batches : list RecordBatch)
    : outcome str (list (list (option str))) :=
  mjoin <$> mapM render_batch batches.
Definition arrow_batches_to_text_rows (batches : list RecordBatch)
    : list (list (option str)) :=
  match render_arrow_batches_as_strings batches with Ok rows => rows | _ => [] end.

(** *** [TryFrom<GatewayResponse> for Response] *)

(** The rows are the whole stream; what is read of it ends at the first error. *)
Record QueryResponse := {
  qr_schema : list FieldInfo;
  qr_rows : list (outcome PgError DataRow);
  qr_command_tag : option str }.

Record Tag := { tag_command : str; tag_oid : option Z; tag_rows : option Z }.

Inductive Response :=
| EmptyQuery
| QueryR (q : QueryResponse)
| ExecutionR (tag : Tag)
| TransactionStartR (tag : Tag)
| TransactionEndR (tag : Tag)
| ErrorR (e : PgError).

Definition query_response (columns : list str) (rows : list (list (option str)))
    : QueryResponse :=
  {| qr_schema := text_fields columns;
     qr_rows := (fun row => Ok (encode_row (length columns) row)) <$> rows;
     qr_command_tag := None |}.

Definition query_response_typed (columns : list ExasolColumn) (rows : list (list (option str)))
    (command_tag : option str) (fold_labels : bool) : outcome PgError QueryResponse :=
  fields ← typed_fields columns fold_labels;
  Ok {| qr_schema := fields;
        qr_rows := (fun row => Ok (encode_row (length fields) row)) <$> rows;
        qr_command_tag := command_tag |}.

Definition query_response_arrow (arrow_schema : Schema) (batches : list RecordBatch)
    (command_tag : option str) (fold_labels : bool) : QueryResponse :=
  {| qr_schema := map_exasol_columns arrow_schema fold_labels;
     qr_rows := mjoin (encode_each encode_batch_rows batches []).1;
     qr_command_tag := command_tag |}.

Definition plain_tag (command : str) : Tag :=
  {| tag_command := command; tag_oid := None; tag_rows := None |}.

Definition try_from (response : GatewayResponse) : outcome PgError Response :=
  match response with
  | REmpty => Ok EmptyQuery
  | RQuery columns rows => Ok (QueryR (query_response columns rows))
  | RArrowQuery schema batches command_tag fold_labels =>
      Ok (QueryR (query_response_arrow schema batches command_tag fold_labels))
  | RTypedQuery columns rows command_tag fold_labels =>
      q ← query_response_typed columns rows command_tag fold_labels; Ok (QueryR q)
  | RExecution command rows =>
      Ok (ExecutionR
        match rows with
        | Some rows =>
            if str_eqb command (lit "INSERT")
            then {| tag_command := command; tag_oid := Some 0%Z; tag_rows := Some rows |}
            else {| tag_command := command; tag_oid := None; tag_rows := Some rows |}
        | None => plain_tag command
        end)
  | RTransactionStart command => Ok (TransactionStartR (plain_tag command))
  | RTransactionEnd command => Ok (TransactionEndR (plain_tag command))
  | RError sqlstate message =>
      Ok (ErrorR {| err_sqlstate := sqlstate; err_message := message |})
  end.

(** ** Results of Exasol as responses *)

Definition cursor_schema_for (batches : list RecordBatch) : Schema :=
  match batches with batch :: _ => batch_schema batch | [] => Schema_empty end.

Definition map_exasol_result (outcome : ExasolOutcome) (command : str)
    (row_count_policy : RowCountPolicy) (fold_labels : bool) : list GatewayResponse :=
  match outcome with
  | ArrowRows batches => [RArrowQuery (cursor_schema_for batches) batches None fold_labels]
  | TypedRows columns rows => [RTypedQuery columns rows None fold_labels]
  | RowCount rows =>
      [RExecution command
         (match row_count_policy with Include => Some (Z.max rows 0) | Omit => None end)]
  end.

Definition empty_query (columns : list string) : GatewayResponse :=
  RQuery (lit <$> columns) [].

Definition map_exasol_connection_error (e : ExasolError) : PgError :=
  pg_error "28000" (lit "Exasol authentication or connection failed: " ++ ExasolError_to_string e).
Definition map_exasol_execution_error (e : ExasolError) : PgError :=
  pg_error "XX000" (ExasolError_to_string e).
End types.
