(* ===== verification/ResponsesTheorems.v ===== *)
(** * Properties of results

    Rows as wide as their description, the column types that do not depend on the
    transport and those that do, labels, and the bounds of type modifiers. *)

From S2P Require Import Prelude RustStr RustInt Regex RegexLemmas Arrow Plan Exasol Cursor.
From S2P Require Import Metadata Responses.
#[local] Open Scope nat_scope.

Lemma mapM_length {E A B} (f : A -> outcome E B) l k :
  mapM f l = Ok k -> length k = length l.
Proof.
  revert k. induction l as [|x l IH]; intros k; cbn; [by intros [= <-]|].
  intros (y & _ & E1)%outcome_bind_Ok. apply outcome_bind_Ok in E1 as (k' & Hk & [= <-]).
  cbn. by rewrite (IH k').
Qed.

Section results.
Context `{BuildProfile} `{RegexEngine} `{ArrowLib} `{JsonLib}.

(** The batches of an Arrow response have the columns of its schema. *)
Definition batches_fit (r : GatewayResponse) : Prop :=
  match r with
  | RArrowQuery schema batches _ _ =>
      Forall (fun b => length (batch_columns b) = length schema) batches
  | _ => True
  end.

Lemma encode_row_width n row : length (encode_row n row) = n.
Proof. unfold encode_row. by rewrite length_fmap, length_seq. Qed.

(** A row of the stream, if it is not an error, has the width of the description. *)
Definition width_ok (n : nat) (row : outcome PgError DataRow) : Prop :=
  match row with Ok row => length row = n | _ => True end.

Lemma encoded_rows_width n (rows : list (list (option str))) :
  Forall (width_ok n) ((fun row => Ok (encode_row n row)) <$> rows).
Proof. apply Forall_fmap, Forall_true. intros row. apply encode_row_width. Qed.

(** What is read of a stream of rows: up to the first error, which ends it. *)
Fixpoint rows_read (rows : list (outcome PgError DataRow)) : list (outcome PgError DataRow) :=
  match rows with
  | Ok row :: rows => Ok row :: rows_read rows
  | row :: _ => [row]
  | [] => []
  end.

Lemma rows_read_Forall P rows : Forall P rows -> Forall P (rows_read rows).
Proof. induction 1 as [|[] rows Hr _ IH]; cbn; by repeat constructor. Qed.

Lemma encode_columns_clean cols i e e' :
  encode_columns cols i e = (Ok tt, e') -> length e' = length e + length cols.
Proof.
  revert e. induction cols as [|col cols IH]; intros e; cbn [encode_columns length].
  - intros [= <-]. lia.
  - intros (u & e1 & E1 & E2)%stateful_bind_Ok. rewrite (IH _ E2).
    assert (length e1 = length e + 1) as ->; [|lia].
    destruct (mjoin (array_cells col !! i)) as [c|].
    + destruct (cell_text c); [|done]. injection E1 as _ <-. by rewrite length_app.
    + injection E1 as _ <-. by rewrite length_app.
Qed.

Lemma encode_columns_outcome cols i e r e' :
  encode_columns cols i e = (r, e') -> r = Ok tt \/ exists err, r = Err err.
Proof.
  revert e. induction cols as [|col cols IH]; intros e; cbn [encode_columns].
  - intros [= <- _]. by left.
  - unfold mbind, stateful_bind.
    destruct (mjoin (array_cells col !! i)) as [c|]; [destruct (cell_text c)|]; cbn; eauto.
    intros [= <- _]. eauto.
Qed.

(** A row that is encoded has a value for every column and leaves the encoder empty. *)
Lemma encode_one_row_clean b i r e :
  encode_one_row b i [] = (r, e) ->
  (exists row, r = Ok row /\ length row = length (batch_columns b) /\ e = [])
  \/ exists err, r = Err err.
Proof.
  unfold encode_one_row, mbind, stateful_bind.
  destruct (encode_columns _ i []) as [[u|err| |] e1] eqn:E1; intros [= <- <-]; eauto.
  - left. exists e1. destruct u. by rewrite (encode_columns_clean _ _ _ _ E1).
  - by apply encode_columns_outcome in E1 as [|[]].
  - by apply encode_columns_outcome in E1 as [|[]].
Qed.

Definition is_row (row : outcome PgError DataRow) : Prop := exists values, row = Ok values.

Lemma rows_read_app a b :
  rows_read (a ++ b) = rows_read a \/ (Forall is_row a /\ rows_read (a ++ b) = a ++ rows_read b).
Proof.
  induction a as [|r a IH]; [by right|]. destruct r as [row| | |]; cbn [app rows_read]; [|by left..].
  destruct IH as [->|[Ha ->]]; [by left|]. right. split; [|done]. by repeat econstructor.
Qed.

(** What an encoder that was empty makes: rows of width [n] up to the first error, and
    an empty encoder if there is none. *)
Definition clean_stream (n : nat) (p : list (outcome PgError DataRow) * DataRowEncoder) : Prop :=
  Forall (width_ok n) (rows_read p.1) /\ (Forall is_row p.1 -> p.2 = []).

Lemma encode_rows_clean b l :
  clean_stream (length (batch_columns b)) (encode_each (encode_one_row b) l []).
Proof.
  induction l as [|i l [IH1 IH2]]; [by repeat constructor|]. cbn [encode_each].
  destruct (encode_one_row b i []) as [r e] eqn:Er.
  destruct (encode_one_row_clean _ _ _ _ Er) as [(row & -> & Hl & ->)|[err ->]].
  - destruct (encode_each (encode_one_row b) l []) as [k e']. split; cbn in *.
    + by constructor.
    + intros [_ Hk]%list.Forall_cons. by apply IH2.
  - destruct (encode_each (encode_one_row b) l e) as [k e']. split; cbn.
    + by repeat constructor.
    + by intros [[? ?] _]%list.Forall_cons.
Qed.

Lemma encode_batch_clean b :
  clean_stream (length (batch_columns b)) (encode_batch_rows b []).
Proof.
  unfold encode_batch_rows. case_match; [by repeat constructor|].
  case_match; [apply encode_rows_clean|]. split; cbn; [by repeat constructor|].
  by intros [[? ?] _]%list.Forall_cons.
Qed.

Lemma encode_batches_clean n batches :
  Forall (fun b => length (batch_columns b) = n) batches ->
  Forall (width_ok n) (rows_read (mjoin (encode_each encode_batch_rows batches []).1)).
Proof.
  induction 1 as [|b bs <- _ IH]; [by constructor|]. cbn [encode_each].
  destruct (encode_batch_clean b) as [Hw He].
  destruct (encode_batch_rows b []) as [rows e] eqn:Eb. cbn [fst snd] in *.
  destruct (encode_each encode_batch_rows bs e) as [k e'] eqn:Ek.
  change (mjoin _) with (rows ++ mjoin k).
  destruct (rows_read_app rows (mjoin k)) as [->|[Hr ->]]; [done|]. apply Forall_app. split.
  - clear -Hr Hw. induction Hr as [|r rows [row ->] _ IH]; [constructor|].
    cbn [rows_read] in Hw. apply list.Forall_cons in Hw as [Hr Hw]. constructor; auto.
  - rewrite (He Hr) in Ek. by rewrite Ek in IH.
Qed.

(** C32: every row that is sent has exactly as many values as the row description has
    columns, whatever the rows of the result hold: short rows are filled with nulls
    and the surplus of long ones is dropped.  Reading a response ends at its first
    error, so the values a failed row leaves in the encoder reach no later row. *)
Theorem rows_as_wide_as_described r q :
  batches_fit r -> try_from r = Ok (QueryR q) ->
  Forall (width_ok (length (qr_schema q))) (rows_read (qr_rows q)).
Proof.
  intros Hb E. destruct r as [|columns rows|schema batches tag fold|columns rows tag fold| | | |];
    try done.
  - injection E as <-. cbn. unfold text_fields. rewrite length_fmap.
    apply rows_read_Forall, encoded_rows_width.
  - injection E as <-. cbn. unfold map_exasol_columns. rewrite length_fmap.
    by apply encode_batches_clean.
  - cbn in E. unfold query_response_typed in E.
    destruct (typed_fields columns fold) as [fs| | |]; try done. injection E as <-.
    apply rows_read_Forall, encoded_rows_width.
Qed.

(** ** The type of a column on both transports *)

(** The description of an Exasol type as both transports carry it. *)
Definition exasol_type (name : string) (precision scale : Z) : json :=
  JObject [(lit "type", JString (lit name)); (lit "precision", JInt precision);
           (lit "scale", JInt scale)].

(** The types that both transports name alike. *)
Definition common_types : list string :=
  ["BOOLEAN"; "DECIMAL"; "DOUBLE"; "DATE"; "CHAR"; "VARCHAR"; "HASHTYPE"]%string.

(** Those that neither knows by name. *)
Definition other_types : list string :=
  ["INTERVAL YEAR TO MONTH"; "INTERVAL DAY TO SECOND"; "GEOMETRY"]%string.
Definition zoned_types : list string :=
  ["TIMESTAMP WITH LOCAL TIME ZONE"; "TIMESTAMP WITH TIME ZONE"]%string.

Definition has_zone (t : DataType) : bool :=
  match t with DtTimestamp (Some _) => true | _ => false end.

(** The field carries the description as the Arrow driver writes it. *)
Definition described_by (field : Field) (name : string) (precision scale : Z) : Prop :=
  (exists text, json_parse text = Some (exasol_type name precision scale)
     /\ field_metadata field !! lit "exasol:type" = Some text)
  /\ field_metadata field !! lit "exasol:precision" = Some (show_int precision)
  /\ field_metadata field !! lit "exasol:scale" = Some (show_int scale).

Lemma metadata_number field key d z :
  is_i64 z -> field_metadata field !! lit key = Some (show_int z) -> metadata_i64 field key d = z.
Proof.
  intros Hz Hm. unfold metadata_i64. rewrite Hm. cbn [mbind option_bind].
  unfold parse_i64. by rewrite parse_show_int.
Qed.

Lemma json_number z : is_i64 z -> json_as_i64 (JInt z) = Some z.
Proof.
  intros Hz. unfold is_i64 in Hz. unfold json_as_i64. by rewrite !(proj2 (Z.leb_le _ _)) by lia.
Qed.

(** A type that is written as a JSON object has no PostgreSQL type of its own. *)
Lemma object_type t r : trim t = 123%N :: r -> map_exasol_column_type t = Ok (type_info 25 (-1) (-1)).
Proof.
  intros Ht. unfold map_exasol_column_type. rewrite Ht. cbv zeta.
  change (to_ascii_uppercase (123%N :: r)) with (123%N :: to_ascii_uppercase r).
  generalize (to_ascii_uppercase r) as s. intros s.
  assert (Hno : forall pat, refuses 123 pat = true -> captures_of pat (123%N :: s) = None)
    by (intros pat Hp; by apply other_letter).
  rewrite !Hno by (vm_compute; reflexivity). reflexivity.
Qed.

(** C33: where the two transports give a column the same PostgreSQL type, and where they
    do not.  For a column that both describe alike, the type from the description on
    WebSocket and from the metadata of the field on Arrow are the same for BOOLEAN,
    DECIMAL of every precision and scale (an [int4] exactly without scale and with at
    most nine digits), DOUBLE, DATE, CHAR, VARCHAR and HASHTYPE.  A TIMESTAMP is one on
    WebSocket, but on Arrow a [timestamptz] when the Arrow type has a zone; the zoned
    names are a [timestamptz] on WebSocket and the type of the Arrow data on Arrow; so
    are INTERVAL and GEOMETRY, which WebSocket sends as [text]: a text column of Arrow
    is a [varchar].  The last clause takes it that an object is written as JSON with an
    opening brace. *)
Theorem types_agree field name precision scale :
  is_i64 precision -> is_i64 scale -> described_by field name precision scale ->
  let websocket := pg_type_for_exasol_data_type (exasol_type name precision scale) in
  let arrow := pg_type_for_arrow_field field in
  (In name common_types -> websocket = Ok arrow)
  /\ (name = "DECIMAL"%string ->
      arrow = if bool_decide (scale = 0%Z /\ (precision <= 9)%Z) then INT4 else NUMERIC)
  /\ (name = "TIMESTAMP"%string ->
      websocket = Ok TIMESTAMP
      /\ arrow = if has_zone (field_data_type field) then TIMESTAMPTZ else TIMESTAMP)
  /\ (In name zoned_types ->
      websocket = Ok TIMESTAMPTZ /\ arrow = pg_type_for_arrow_data_type (field_data_type field))
  /\ (In name other_types ->
      (exists r, trim (json_render (exasol_type name precision scale)) = 123%N :: r) ->
      websocket = Ok TEXT /\ arrow = pg_type_for_arrow_data_type (field_data_type field)
      /\ (field_data_type field = DtUtf8 -> arrow = VARCHAR)).
Proof.
  intros Hp Hs ((text & Hj & Ht) & Hmp & Hms) websocket arrow. unfold websocket, arrow.
  unfold pg_type_for_arrow_field. rewrite Ht.
  cbn [mbind option_bind]. unfold pg_type_from_exasol_metadata. rewrite Hj.
  rewrite (metadata_number _ _ _ precision), (metadata_number _ _ _ scale) by done.
  cbn [mbind option_bind].
  assert (Hd : decimal_pg_type precision scale
               = if bool_decide (scale = 0 /\ precision <= 9)%Z then INT4 else NUMERIC).
  { unfold decimal_pg_type. destruct (Z.eqb_spec scale 0), (Z.leb_spec precision 9); cbn [andb];
      by (rewrite bool_decide_eq_true_2 by lia) || (rewrite bool_decide_eq_false_2 by lia; done). }
  split_and!.
  - intros [<-|[<-|[<-|[<-|[<-|[<-|[<-|[]]]]]]]]; try reflexivity.
    change (pg_type_for_exasol_data_type _) with
      (@Ok PgError _ (if ((default 0 (json_as_i64 (JInt scale)) =? 0)
                          && (default 36 (json_as_i64 (JInt precision)) <=? 9))%Z
                      then INT4 else NUMERIC)).
    by rewrite !json_number by done.
  - intros ->. exact Hd.
  - intros ->. split; [reflexivity|]. cbn. destruct (field_data_type field) as [ | | | | | | | | | | | | | | | [] | | | ]; reflexivity.
  - by intros [<-|[<-|[]]].
  - intros Hin (r & Hr).
    assert (Hw : pg_type_for_exasol_data_type (exasol_type name precision scale)
      = info ← map_exasol_column_type (json_render (exasol_type name precision scale));
        Ok (pg_type_of_oid (oid info)))
      by (by destruct Hin as [<-|[<-|[<-|[]]]]).
    rewrite Hw, (object_type _ r Hr).
    destruct Hin as [<-|[<-|[<-|[]]]]; (split_and!; [reflexivity..|]); by intros ->.
Qed.

(** ** Labels *)

(** Folding a label changes nothing but the case of its ASCII letters, only when
    all of them are upper case, and folding again changes nothing. *)
Theorem fold_label_spec name :
  eq_ignore_ascii_case (fold_exasol_column_name name) name = true
  /\ fold_exasol_column_name (fold_exasol_column_name name) = fold_exasol_column_name name
  /\ (existsb is_ascii_lowercase name = true -> fold_exasol_column_name name = name)
  /\ (existsb is_ascii_lowercase name = false ->
      existsb is_ascii_uppercase (fold_exasol_column_name name) = false).
Proof.
  assert (Hlow : forall c, char_to_ascii_lowercase (char_to_ascii_lowercase c)
                           = char_to_ascii_lowercase c).
  { intros c. unfold char_to_ascii_lowercase at 2 3. destruct (is_ascii_uppercase c) eqn:E.
    - unfold char_to_ascii_lowercase. case_match; [|done].
      unfold is_ascii_uppercase in *. rewrite andb_true_iff, !N.leb_le in *. lia.
    - unfold char_to_ascii_lowercase. by rewrite E. }
  assert (Hl2 : forall s, to_ascii_lowercase (to_ascii_lowercase s) = to_ascii_lowercase s).
  { intros s. unfold to_ascii_lowercase. rewrite <- list_fmap_compose.
    apply list_fmap_ext. intros ? c _. apply Hlow. }
  unfold fold_exasol_column_name. destruct (existsb is_ascii_lowercase name) eqn:E.
  - rewrite E. split_and!; try done. unfold eq_ignore_ascii_case. apply str_eqb_refl.
  - split_and!; try done.
    + unfold eq_ignore_ascii_case. rewrite Hl2. apply str_eqb_refl.
    + case_match; [done|apply Hl2].
    + intros _. unfold to_ascii_lowercase. clear. induction name as [|c s IH]; [done|].
      csimpl. cbn [existsb]. rewrite IH, orb_false_r. unfold char_to_ascii_lowercase.
      destruct (is_ascii_uppercase c) eqn:E; [|done]. unfold is_ascii_uppercase in *.
      rewrite andb_true_iff, !N.leb_le in E. apply andb_false_iff. right. apply N.leb_gt. lia.
Qed.
End results.

(** ** Type modifiers at the edge of [i32] *)

(** The type modifier of the longest VARCHAR that fits [i32] does not: a build without
    overflow checks sends a negative one, a build with them panics. *)
Theorem varchar_typmod_overflow :
  (exists info, @map_exasol_column_type release_profile reference_engine
       (lit "VARCHAR(2147483647) UTF8") = Ok info /\ typmod info = (-2147483645)%Z)
  /\ @map_exasol_column_type dev_profile reference_engine (lit "VARCHAR(2147483647) UTF8")
     = Panic.
Proof. split; [eexists; split; vm_compute; reflexivity | vm_compute; reflexivity]. Qed.

(** ** Witnesses *)

#[local] Existing Instance list_arrow.
#[local] Existing Instance dev_profile.
#[local] Existing Instance reference_engine.
#[local] Instance ex_json : JsonLib :=
  {| json_render _ := []; json_parse _ := Some (exasol_type "DECIMAL" 9 0) |}.

Definition ex_response : GatewayResponse :=
  RTypedQuery [{| column_name := lit "A"; column_data_type := exasol_type "DATE" 0 0 |};
               {| column_name := lit "B"; column_data_type := exasol_type "DOUBLE" 0 0 |}]
    [[Some (lit "x")]; [None; None; Some (lit "surplus")]] None true.

Lemma rows_as_wide_as_described_witness :
  exists q, try_from ex_response = Ok (QueryR q) /\ length (qr_schema q) = 2
    /\ Forall (width_ok 2) (rows_read (qr_rows q)).
Proof.
  eexists. split; [reflexivity|]. split; [reflexivity|].
  exact (rows_as_wide_as_described ex_response _ I eq_refl).
Defined.

Definition ex_field : Field :=
  {| field_name := lit "N"; field_data_type := DtOther [];
     field_metadata := <[lit "exasol:type" := []]> (<[lit "exasol:precision" := lit "9"]>
                         (<[lit "exasol:scale" := lit "0"]> ∅)) |}.

Lemma types_agree_witness :
  pg_type_for_exasol_data_type (exasol_type "DECIMAL" 9 0)
  = Ok (pg_type_for_arrow_field ex_field)
  /\ pg_type_for_arrow_field ex_field = INT4.
Proof.
  destruct (types_agree ex_field "DECIMAL" 9 0) as (Hc & Hd & _).
  - unfold_bounds. lia.
  - unfold_bounds. lia.
  - split_and!; [exists []; split; vm_compute; reflexivity | vm_compute; reflexivity..].
  - split; [apply Hc; right; by left|]. rewrite Hd by done. reflexivity.
Defined.

(** A TIMESTAMP column with a zone, and a GEOMETRY. *)
Definition zoned_field : Field :=
  {| field_name := lit "T"; field_data_type := DtTimestamp (Some (lit "UTC"));
     field_metadata := <[lit "exasol:type" := []]> ∅ |}.
Theorem timestamp_types_differ :
  pg_type_for_exasol_data_type (exasol_type "TIMESTAMP" 0 0) = Ok TIMESTAMP
  /\ @pg_type_for_arrow_field {| json_render _ := []; json_parse _ := Some (exasol_type "TIMESTAMP" 0 0) |}
       zoned_field = TIMESTAMPTZ.
Proof. split; vm_compute; reflexivity. Qed.
Theorem geometry_types_differ :
  let geometry : JsonLib :=
    {| json_render _ := lit "{`type`:`GEOMETRY`}"; json_parse _ := Some (exasol_type "GEOMETRY" 0 0) |} in
  pg_type_for_exasol_data_type (H2 := geometry) (exasol_type "GEOMETRY" 0 0) = Ok TEXT
  /\ @pg_type_for_arrow_field geometry
       {| field_name := lit "G"; field_data_type := DtUtf8;
          field_metadata := <[lit "exasol:type" := []]> ∅ |} = VARCHAR.
Proof. split; vm_compute; reflexivity. Qed.
