(* ===== verification/Bytes.v ===== *)
(** * Bytes: UTF-8 and big-endian integers

    What the program uses of the standard library to read a protocol value:
    [str::from_utf8] (strict UTF-8, with the text of its error) and big-endian
    integer reads.  A byte is a [Z] between 0 and 255. *)

From S2P Require Import Prelude RustStr RustInt.
#[local] Open Scope Z_scope.

Abbreviation byte := Z.
Definition is_byte (b : byte) : Prop := 0 <= b < 256.

(** ** UTF-8 *)

(** Where decoding stopped, and the length of the bad sequence ([None]: the input
    ends inside a sequence). *)
Record Utf8Error := { valid_up_to : Z; error_len : option Z }.

Definition Utf8Error_to_string (e : Utf8Error) : str :=
  match error_len e with
  | Some n => lit "invalid utf-8 sequence of " ++ show_int n
              ++ lit " bytes from index " ++ show_int (valid_up_to e)
  | None => lit "incomplete utf-8 byte sequence from index " ++ show_int (valid_up_to e)
  end.

Definition in_range (lo hi b : Z) : bool := (lo <=? b) && (b <=? hi).
Definition is_cont (b : byte) : bool := in_range 128 191 b.
(** The bytes that may follow a lead byte. *)
Definition second3 (b0 b1 : byte) : bool :=
  if b0 =? 224 then in_range 160 191 b1
  else if b0 =? 237 then in_range 128 159 b1
  else is_cont b1.
Definition second4 (b0 b1 : byte) : bool :=
  if b0 =? 240 then in_range 144 191 b1
  else if b0 =? 244 then in_range 128 143 b1
  else is_cont b1.

Definition fail {A} (i : Z) (n : option Z) : A + Utf8Error :=
  inr {| valid_up_to := i; error_len := n |}.
Definition push (c : Z) (r : str + Utf8Error) : str + Utf8Error :=
  match r with inl s => inl (Z.to_N c :: s) | inr e => inr e end.

Fixpoint utf8_go (i : Z) (bs : list byte) : str + Utf8Error :=
  match bs with
  | [] => inl []
  | b0 :: r0 =>
      if b0 <? 128 then push b0 (utf8_go (i + 1) r0)
      else if in_range 194 223 b0 then
        match r0 with
        | [] => fail i None
        | b1 :: r1 =>
            if is_cont b1 then push ((b0 - 192) * 64 + (b1 - 128)) (utf8_go (i + 2) r1)
            else fail i (Some 1)
        end
      else if in_range 224 239 b0 then
        match r0 with
        | [] => fail i None
        | b1 :: r1 =>
            if second3 b0 b1 then
              match r1 with
              | [] => fail i None
              | b2 :: r2 =>
                  if is_cont b2
                  then push ((b0 - 224) * 4096 + (b1 - 128) * 64 + (b2 - 128)) (utf8_go (i + 3) r2)
                  else fail i (Some 2)
              end
            else fail i (Some 1)
        end
      else if in_range 240 244 b0 then
        match r0 with
        | [] => fail i None
        | b1 :: r1 =>
            if second4 b0 b1 then
              match r1 with
              | [] => fail i None
              | b2 :: r2 =>
                  if is_cont b2 then
                    match r2 with
                    | [] => fail i None
                    | b3 :: r3 =>
                        if is_cont b3
                        then push ((b0 - 240) * 262144 + (b1 - 128) * 4096
                                   + (b2 - 128) * 64 + (b3 - 128)) (utf8_go (i + 4) r3)
                        else fail i (Some 3)
                    end
                  else fail i (Some 2)
              end
            else fail i (Some 1)
        end
      else fail i (Some 1)
  end.
Definition from_utf8 (bs : list byte) : str + Utf8Error := utf8_go 0 bs.

(** The encoding of a character and of a text. *)
Definition utf8_char (c : char) : list byte :=
  let c := Z.of_N c in
  if c <? 128 then [c]
  else if c <? 2048 then [192 + c / 64; 128 + c mod 64]
  else if c <? 65536 then [224 + c / 4096; 128 + c / 64 mod 64; 128 + c mod 64]
  else [240 + c / 262144; 128 + c / 4096 mod 64; 128 + c / 64 mod 64; 128 + c mod 64].
Definition to_utf8 (s : str) : list byte := s ≫= utf8_char.

(** ** Big-endian integers *)

Definition be_unsigned (bs : list byte) : Z := fold_left (fun acc b => acc * 256 + b) bs 0.
(** [read_iN::<BigEndian>] of exactly [N / 8] bytes. *)
Definition read_be_signed (bs : list byte) : Z :=
  wrap_signed (8 * Z.of_nat (length bs)) (be_unsigned bs).

(** [n] bytes, most significant first. *)
Fixpoint be_bytes (n : nat) (z : Z) : list byte :=
  match n with
  | O => []
  | S n => be_bytes n (z / 256) ++ [z mod 256]
  end.

Lemma length_be_bytes n z : length (be_bytes n z) = n.
Proof. revert z; induction n as [|n IH]; intros z; simpl; [done|]. rewrite length_app, IH. simpl. lia. Qed.

Lemma be_unsigned_be_bytes n z : be_unsigned (be_bytes n z) = z mod 2 ^ (8 * Z.of_nat n).
Proof.
  revert z; induction n as [|n IH]; intros z.
  { cbn. by rewrite Z.mod_1_r. }
  cbn [be_bytes]. unfold be_unsigned in *. rewrite fold_left_app. cbn [fold_left].
  rewrite IH.
  replace (8 * Z.of_nat (S n)) with (8 + 8 * Z.of_nat n) by lia.
  rewrite Z.pow_add_r by lia. change (2 ^ 8) with 256.
  rewrite Z.rem_mul_r by (lia || (apply Z.pow_pos_nonneg; lia)). lia.
Qed.

Lemma wrap_signed_id w z : 0 < w -> - 2 ^ (w - 1) <= z < 2 ^ (w - 1) -> wrap_signed w z = z.
Proof.
  intros Hw Hz. unfold wrap_signed.
  assert (2 ^ w = 2 * 2 ^ (w - 1)) by (rewrite <- Z.pow_succ_r by lia; f_equal; lia).
  rewrite Z.mod_small by lia. lia.
Qed.

Lemma wrap_signed_mod w z : 0 < w -> wrap_signed w (z mod 2 ^ w) = wrap_signed w z.
Proof.
  intros Hw. unfold wrap_signed. rewrite Z.add_mod_idemp_l by (apply Z.pow_nonzero; lia). done.
Qed.

(** Reading back the big-endian bytes of a signed integer. *)
Lemma read_be_bytes n z :
  (n <> 0)%nat -> - 2 ^ (8 * Z.of_nat n - 1) <= z < 2 ^ (8 * Z.of_nat n - 1) ->
  read_be_signed (be_bytes n z) = z.
Proof.
  intros Hn Hz. unfold read_be_signed.
  rewrite length_be_bytes, be_unsigned_be_bytes, wrap_signed_mod by lia.
  apply wrap_signed_id; lia.
Qed.

(** ** UTF-8 round trip *)

(** A Unicode scalar value. *)
Definition is_scalar (c : char) : Prop := (c < 55296 \/ 57344 <= c < 1114112)%N.

Lemma in_range_true lo hi b : lo <= b <= hi -> in_range lo hi b = true.
Proof. intros. unfold in_range. by rewrite (proj2 (Z.leb_le _ _)), (proj2 (Z.leb_le _ _)) by lia. Qed.
Lemma in_range_false lo hi b : b < lo \/ hi < b -> in_range lo hi b = false.
Proof.
  intros [?|?]; unfold in_range.
  - by rewrite (proj2 (Z.leb_gt _ _)) by lia.
  - by rewrite (proj2 (Z.leb_gt b hi)), andb_false_r by lia.
Qed.

Ltac euclid := Z.to_euclidean_division_equations; lia.

Lemma second3_ok c :
  2048 <= c < 65536 -> ~ (55296 <= c < 57344) ->
  second3 (224 + c / 4096) (128 + c / 64 mod 64) = true.
Proof.
  intros Hc Hs. unfold second3, is_cont.
  destruct (Z.eqb_spec (224 + c / 4096) 224); [apply in_range_true; euclid|].
  destruct (Z.eqb_spec (224 + c / 4096) 237); apply in_range_true; euclid.
Qed.

Lemma second4_ok c :
  65536 <= c < 1114112 -> second4 (240 + c / 262144) (128 + c / 4096 mod 64) = true.
Proof.
  intros Hc. unfold second4, is_cont.
  destruct (Z.eqb_spec (240 + c / 262144) 240); [apply in_range_true; euclid|].
  destruct (Z.eqb_spec (240 + c / 262144) 244); apply in_range_true; euclid.
Qed.

Lemma utf8_go_char i c bs :
  is_scalar c -> exists j, utf8_go i (utf8_char c ++ bs) = push (Z.of_N c) (utf8_go j bs).
Proof.
  intros Hc. unfold utf8_char. set (z := Z.of_N c).
  assert (Hz : 0 <= z < 1114112 /\ ~ (55296 <= z < 57344)) by (unfold is_scalar in Hc; lia).
  destruct (z <? 128) eqn:E1; [|destruct (z <? 2048) eqn:E2; [|destruct (z <? 65536) eqn:E3]];
    breflect; cbn [app utf8_go].
  - rewrite (proj2 (Z.ltb_lt z 128)) by done. eauto.
  - rewrite (proj2 (Z.ltb_ge _ 128)) by euclid. rewrite (in_range_true 194 223) by euclid.
    unfold is_cont. rewrite in_range_true by euclid. eexists. f_equal. euclid.
  - rewrite (proj2 (Z.ltb_ge _ 128)) by euclid. rewrite (in_range_false 194 223) by euclid.
    rewrite (in_range_true 224 239) by euclid. rewrite second3_ok by lia.
    unfold is_cont. rewrite in_range_true by euclid. eexists. f_equal. euclid.
  - rewrite (proj2 (Z.ltb_ge _ 128)) by euclid. rewrite (in_range_false 194 223) by euclid.
    rewrite (in_range_false 224 239) by euclid. rewrite (in_range_true 240 244) by euclid.
    rewrite second4_ok by lia. unfold is_cont. rewrite !in_range_true by euclid.
    eexists. f_equal. euclid.
Qed.

Lemma from_to_utf8 s : Forall is_scalar s -> from_utf8 (to_utf8 s) = inl s.
Proof.
  unfold from_utf8. generalize 0 as i. intros i Hs. revert i.
  induction Hs as [|c s Hc _ IH]; intros i; [done|].
  unfold to_utf8 in *. cbn [mbind list_bind].
  destruct (utf8_go_char i c (s ≫= utf8_char) Hc) as [j ->].
  rewrite IH. cbn. by rewrite N2Z.id.
Qed.
