(* ===== verification/WebSocket.v ===== *)
(** * The WebSocket transport (src/src/exasol/websocket_transport.rs)

    The JSON protocol of Exasol over a WebSocket connection.  The connection is a
    state ([WsLib]) on which messages are sent and received; the methods of the
    transport are computations on it.  The two loops that wait for the server take
    fuel: reading until a text arrives, and fetching until all rows are there. *)

From S2P Require Import Prelude RustStr RustInt Arrow Plan Config Exasol Bytes.
#[local] Open Scope nat_scope.

(** [tungstenite::Message]; a close frame is known by its [Debug] text. *)
Inductive Message :=
| MText (text : str)
| MBinary (bytes : list byte)
| MPing (payload : list byte)
| MPong (payload : list byte)
| MFrame
| MClose (shown : str).

(** What [next] gives: the end of the stream, an error, or a message. *)
Inductive ws_event :=
| WsClosed
| WsFailed (err : str)
| WsMessage (m : Message).

Class WsLib := {
  ws : Type;
  ws_send : Message -> ws -> outcome str unit * ws;
  ws_next : ws -> ws_event * ws;
  ws_close : ws -> ws;
  (** RSA encryption of the password under a PEM key, in base64. *)
  encrypt : str -> str -> outcome str str;
  (** SHA-256 of a certificate, in upper-case hexadecimal. *)
  sha256_hex : list byte -> str }.

(** What the login message says about the client. *)
Record ClientEnv := { pkg_version : str; os_name : str; os_user : option str }.

(** ** Values *)

Section values.
Context `{JsonLib}.

Definition value_to_text (value : option json) : option str :=
  match value with
  | None | Some JNull => None
  | Some (JString s) => Some s
  | Some (JBool b) => Some (if b then lit "t" else lit "f")
  | Some (JInt z) => Some (show_int z)
  | Some (JFloat shown) => Some shown
  | Some other => Some (json_render other)
  end.

(** [column.as_array().and_then(|values| values.get(row_idx))]. *)
Definition column_value (column : json) (row_idx : nat) : option json :=
  values ← json_as_array column; values !! row_idx.

Definition transpose_data (data : option json) : list (list (option str)) :=
  match data ≫= json_as_array with
  | None => []
  | Some columns =>
      let row_count := max_list (length <$> omap json_as_array columns) in
      (fun row_idx => (fun column => value_to_text (column_value column row_idx)) <$> columns)
      <$> seq 0 row_count
  end.

Definition parse_column (column : json) : ExasolColumn :=
  {| column_name := default (lit "column") (json_get (lit "name") column ≫= json_as_str);
     column_data_type := default JNull (json_get (lit "dataType") column) |}.

Definition parse_columns (result_set : json) : outcome ExasolError (list ExasolColumn) :=
  match json_get (lit "columns") result_set ≫= json_as_array with
  | None => Err (Execution (lit "missing resultSet columns"))
  | Some columns => Ok (map parse_column columns)
  end.

Definition response_text_from_message (message : Message)
    : outcome ExasolError (option str) :=
  match message with
  | MText text => Ok (Some text)
  | MBinary bytes =>
      match from_utf8 bytes with
      | inl text => Ok (Some text)
      | inr err => Err (Request (lit "invalid UTF-8 response: " ++ Utf8Error_to_string err))
      end
  | MPong _ | MFrame | MPing _ => Ok None
  | MClose close =>
      Err (Request (lit "Exasol closed websocket while waiting for response: " ++ close))
  end.
End values.

(** ** Requests *)

Section transport.
Context `{BuildProfile} `{ArrowLib} `{JsonLib} `{WsLib}.

Definition ws_m (A : Type) : Type := stateful ws ExasolError A.

Definition send (m : Message) : ws_m unit := map_err_st Request (ws_send m).

(** The loop of [read_json_response]. *)
Fixpoint read_json_response (fuel : nat) : ws_m str :=
  match fuel with
  | O => lift OutOfFuel
  | S fuel => fun s =>
      let '(event, s) := ws_next s in
      match event with
      | WsClosed =>
          (Err (Request (lit "Exasol closed websocket while waiting for response")), s)
      | WsFailed err => (Err (Request err), s)
      | WsMessage (MPing payload) =>
          (_ ← send (MPong payload); read_json_response fuel) s
      | WsMessage other =>
          match response_text_from_message other with
          | Ok (Some text) => (Ok text, s)
          | Ok None => read_json_response fuel s
          | Err e => (Err e, s)
          | Panic => (Panic, s)
          | OutOfFuel => (OutOfFuel, s)
          end
      end
  end.

(** What [request] makes of the response text; [serde_json]'s error text is empty
    here. *)
Definition parse_response (text : str) : outcome ExasolError json :=
  response ← ok_or (Request []) (json_parse text);
  if bool_decide ((json_get (lit "status") response ≫= json_as_str) = Some (lit "ok"))
  then Ok response
  else
    let code := default (lit "unknown")
      (json_pointer [lit "exception"; lit "sqlCode"] response ≫= json_as_str) in
    let text := default (lit "unknown Exasol error")
      (json_pointer [lit "exception"; lit "text"] response ≫= json_as_str) in
    Err (Execution (text ++ lit " (SQL code: " ++ code ++ lit ")")).

Definition request (fuel : nat) (r : json) : ws_m json :=
  _ ← send (MText (json_render r));
  text ← read_json_response fuel;
  lift (parse_response text).

(** [json!] of an object. *)
Definition obj (l : list (string * json)) : json := JObject ((fun p => (lit p.1, p.2)) <$> l).

(** ** Results *)

Definition fetch_request (handle fetched : Z) : json :=
  obj [("command", JString (lit "fetch")); ("resultSetHandle", JInt handle);
       ("startPosition", JInt fetched); ("numBytes", JInt 5242880)]%string.

Definition u64_field (k : string) (v : json) : option Z :=
  json_get (lit k) v ≫= json_as_u64.

(** The loop of [parse_result_set]: until [fetched] rows are announced. *)
Fixpoint fetch_loop (fuel : nat) (handle total_rows fetched : Z)
    (rows : list (list (option str))) : ws_m (list (list (option str))) :=
  match fuel with
  | O => lift OutOfFuel
  | S fuel' =>
      if (fetched <? total_rows)%Z then
        ret ← request fuel (fetch_request handle fetched);
        chunk ← lift (ok_or (Execution (lit "missing fetch responseData"))
                        (json_get (lit "responseData") ret));
        let chunk_rows := transpose_data (json_get (lit "data") chunk) in
        fetched ← lift (add_usize fetched
                          (default (Z.of_nat (length chunk_rows)) (u64_field "numRows" chunk)));
        fetch_loop fuel' handle total_rows fetched (rows ++ chunk_rows)
      else mret rows
  end.

Definition parse_result_set (fuel : nat) (result : json) : ws_m ExasolOutcome :=
  result_set ← lift (ok_or (Execution (lit "missing resultSet"))
                       (json_get (lit "resultSet") result));
  columns ← lift (parse_columns result_set);
  let total_rows := default 0%Z (u64_field "numRows" result_set) in
  let rows := transpose_data (json_get (lit "data") result_set) in
  let fetched := default (Z.of_nat (length rows)) (u64_field "numRowsInMessage" result_set) in
  match u64_field "resultSetHandle" result_set with
  | Some handle =>
      rows ← fetch_loop fuel handle total_rows fetched rows;
      mret (TypedRows columns rows)
  | None => mret (TypedRows columns rows)
  end.

(** [ExasolTransport] for [WebSocketTransport]. *)
Definition ws_execute (fuel : nat) (sql : str) : ws_m ExasolOutcome :=
  ret ← request fuel (obj [("command", JString (lit "execute")); ("sqlText", JString sql)]%string);
  result ← lift (ok_or (Execution (lit "missing execute result"))
                   (json_pointer [lit "responseData"; lit "results"; lit "0"] ret));
  result_type ← lift (ok_or (Execution (lit "missing resultType"))
                        (json_get (lit "resultType") result ≫= json_as_str));
  if str_eqb result_type (lit "rowCount")
  then mret (RowCount (default 0%Z (json_get (lit "rowCount") result ≫= json_as_i64)))
  else if str_eqb result_type (lit "resultSet") then parse_result_set fuel result
  else lift (Err (Execution (lit "unsupported resultType: " ++ result_type))).

Definition ws_execute_update (fuel : nat) (sql : str) : ws_m unit :=
  outcome ← ws_execute fuel sql;
  match outcome with
  | RowCount _ => mret tt
  | _ => lift (Err (Execution
           (lit "execute_update received a result-set response; expected row count only")))
  end.

(** The disconnect message is sent on a best-effort basis. *)
Definition ws_disconnect : ws_m unit := fun s =>
  let '(_, s) := ws_send (MText (json_render (obj [("command", JString (lit "disconnect"))]%string))) s in
  (Ok tt, ws_close s).

(** ** Opening a connection *)

Definition encrypt_password (public_key_pem password : str) : outcome ExasolError str :=
  map_err Authentication (encrypt public_key_pem password).

Definition login (fuel : nat) (env : ClientEnv) (config : ExasolConfig)
    (username password : str) : ws_m unit :=
  public_key_ret ← request fuel (obj [("command", JString (lit "login"));
                                      ("protocolVersion", JInt 3)]%string);
  public_key_pem ← lift (ok_or (Authentication (lit "missing Exasol public key"))
    (json_pointer [lit "responseData"; lit "publicKeyPem"] public_key_ret ≫= json_as_str));
  encrypted_password ← lift (encrypt_password public_key_pem password);
  let attributes := obj [("currentSchema", JString (schema config)); ("autocommit", JBool true);
                         ("queryTimeout", JInt 0)]%string in
  _ ← map_err_st (fun err => Authentication (ExasolError_to_string err))
    (request fuel (obj
       [("username", JString username); ("password", JString encrypted_password);
        ("driverName", JString (lit "exa-postgres-interface"));
        ("clientName", JString (lit "exa-postgres-interface"));
        ("clientVersion", JString (pkg_version env)); ("clientOs", JString (os_name env));
        ("clientOsUsername", JString (default (lit "unknown") (os_user env)));
        ("clientRuntime", JString (lit "Rust")); ("useCompression", JBool false);
        ("attributes", attributes)]%string));
  mret tt.

(** *** TLS *)

(** How the server's certificate and the signature of its handshake are checked. *)
Inductive Verifier :=
| NoCertVerifier
| FingerprintVerifier (expected : str)
| DefaultVerifier.
Inductive Connector :=
| Plain
| Rustls (v : Verifier).

Definition build_connector (config : ExasolConfig) (endpoint : EndpointConnection) : Connector :=
  if negb (encryption config) then Plain
  else match fingerprint endpoint with
       | Some fp => if str_eqb fp NOCERTCHECK then Rustls NoCertVerifier
                    else Rustls (FingerprintVerifier fp)
       | None => Rustls DefaultVerifier
       end.

Definition verify_fingerprint (expected : str) (cert_der : list byte)
    : outcome ExasolError unit :=
  let actual := sha256_hex cert_der in
  if negb (str_eqb actual (to_ascii_uppercase expected))
  then Err (Connection (lit "certificate fingerprint mismatch: expected " ++ expected
                        ++ lit ", got " ++ actual))
  else Ok tt.

(** The callbacks of the two verifiers of the program; [webpki] stands for the
    checks of rustls' default verifier. *)
Definition verify_server_cert (webpki : list byte -> bool) (v : Verifier) (cert : list byte) : bool :=
  match v with
  | NoCertVerifier => true
  | FingerprintVerifier expected =>
      match verify_fingerprint expected cert with Ok _ => true | _ => false end
  | DefaultVerifier => webpki cert
  end.
Definition verify_tls_signature (webpki : list byte -> list byte -> bool) (v : Verifier)
    (cert signature : list byte) : bool :=
  match v with
  | NoCertVerifier | FingerprintVerifier _ => true
  | DefaultVerifier => webpki cert signature
  end.

Inductive SignatureScheme :=
| RSA_PKCS1_SHA256 | RSA_PKCS1_SHA384 | RSA_PKCS1_SHA512
| ECDSA_NISTP256_SHA256 | ECDSA_NISTP384_SHA384 | ECDSA_NISTP521_SHA512
| RSA_PSS_SHA256 | RSA_PSS_SHA384 | RSA_PSS_SHA512 | ED25519.
Definition all_supported_signature_schemes : list SignatureScheme :=
  [RSA_PKCS1_SHA256; RSA_PKCS1_SHA384; RSA_PKCS1_SHA512;
   ECDSA_NISTP256_SHA256; ECDSA_NISTP384_SHA384; ECDSA_NISTP521_SHA512;
   RSA_PSS_SHA256; RSA_PSS_SHA384; RSA_PSS_SHA512; ED25519].
Definition supported_verify_schemes (webpki : list SignatureScheme) (v : Verifier)
    : list SignatureScheme :=
  match v with
  | NoCertVerifier | FingerprintVerifier _ => all_supported_signature_schemes
  | DefaultVerifier => webpki
  end.

(** The roots of [default_client_config]: the certificates of the platform, less those
    the store does not take. *)
Definition default_roots {Cert} (store_takes : Cert -> bool) (native : list Cert) : list Cert :=
  List.filter store_takes native.

(** [WebSocketTransport::connect]; [open] opens the socket and performs the
    handshake with the connector. *)
Definition ws_connect (fuel : nat) (env : ClientEnv) (config : ExasolConfig)
    (endpoint : EndpointConnection) (username password : str)
    (open : str -> Z -> str -> Connector -> outcome str ws) : outcome ExasolError ws :=
  if negb (pass_client_credentials config)
  then Err (Authentication (lit "only client credential passthrough is implemented"))
  else
    let scheme := if encryption config then lit "wss" else lit "ws" in
    let url := scheme ++ lit "://" ++ host endpoint ++ lit ":" ++ show_int (port endpoint)
               ++ lit "/" in
    s ← map_err Connection (open (host endpoint) (port endpoint) url
                              (build_connector config endpoint));
    let '(r, s) := login fuel env config username password s in
    _ ← r; Ok s.
End transport.
