(* ===== verification/WebSocketTheorems.v ===== *)
(** * Properties of the WebSocket transport

    Result sets come back as the rows the server has, the fetch loop ends when every
    chunk brings rows and only then, and what the TLS settings check. *)

From S2P Require Import Prelude RustStr RustInt Arrow Plan Config Exasol Bytes.
From S2P Require Import WebSocket.
#[local] Open Scope nat_scope.

(** ** Columns into rows *)

Section values.
Context `{JsonLib}.

(** A table of [w] columns, column by column, as the protocol sends it. *)
Definition json_column (rows : list (list json)) (j : nat) : json :=
  JArray ((fun row => default JNull (row !! j)) <$> rows).
Definition json_table (w : nat) (rows : list (list json)) : json :=
  JArray (json_column rows <$> seq 0 w).

(** What the client sees of a row. *)
Definition text_row (row : list json) : list (option str) :=
  (fun value => value_to_text (Some value)) <$> row.

Lemma omap_columns rows (l : list nat) :
  length <$> omap json_as_array (json_column rows <$> l) = (fun _ => length rows) <$> l.
Proof.
  induction l as [|j l IH]; [done|]. csimpl. by rewrite length_fmap, IH.
Qed.

Lemma max_list_const {A} n (l : list A) : l <> [] -> max_list ((fun _ => n) <$> l) = n.
Proof.
  intros Hl. destruct l as [|x l]; [done|]. clear Hl. csimpl. clear x.
  induction l as [|y l IH]; csimpl; lia.
Qed.

(** The rows of a result set survive the protocol's column order. *)
Lemma transpose_roundtrip w rows :
  0 < w -> Forall (fun row => length row = w) rows ->
  transpose_data (Some (json_table w rows)) = text_row <$> rows.
Proof.
  intros Hw Hrows. unfold transpose_data, json_table. cbn [mbind option_bind json_as_array].
  rewrite omap_columns, max_list_const by (destruct w; [lia|done]).
  apply list_eq. intros i. rewrite !list_lookup_fmap.
  destruct (decide (i < length rows)) as [Hi|Hi].
  2: { rewrite lookup_seq_ge, lookup_ge_None_2 by lia. done. }
  destruct (lookup_lt_is_Some_2 _ _ Hi) as [row Hrow].
  rewrite lookup_seq_lt, Hrow by done. cbn. f_equal.
  pose proof (Forall_lookup_1 _ _ _ _ Hrows Hrow) as Hl. cbn beta in Hl.
  apply list_eq. intros j. unfold text_row. rewrite <- list_fmap_compose, !list_lookup_fmap.
  destruct (decide (j < w)) as [Hj|Hj].
  2: { rewrite lookup_seq_ge, lookup_ge_None_2 by lia. done. }
  rewrite lookup_seq_lt by done. cbn [fmap option_fmap option_map compose].
  unfold column_value, json_column. cbn [json_as_array mbind option_bind].
  rewrite list_lookup_fmap, Hrow. cbn [fmap option_fmap option_map].
  destruct (lookup_lt_is_Some_2 row j) as [v Hv]; [lia|]. cbn [Nat.add]. by rewrite Hv.
Qed.
End values.

(** ** The fetch loop *)

Section fetch.
Context `{BuildProfile} `{ArrowLib} `{JsonLib} `{WsLib}.

(** More fuel gives the same answer. *)
Lemma read_json_response_mono k k' s r s' :
  k <= k' -> read_json_response k s = (r, s') -> r <> OutOfFuel ->
  read_json_response k' s = (r, s').
Proof.
  revert k' s. induction k as [|k IH]; intros k' s Hk E Hr.
  { injection E as <- <-. done. }
  destruct k' as [|k']; [lia|]. cbn [read_json_response] in *.
  destruct (ws_next s) as [[|e|m] s1]; [done..|].
  assert (Hcase : forall m, (match response_text_from_message m with
      | Ok (Some text) => (Ok text, s1)
      | Ok None => read_json_response k s1
      | Err e => (Err e, s1) | Panic => (Panic, s1) | OutOfFuel => (OutOfFuel, s1) end) = (r, s') ->
      (match response_text_from_message m with
      | Ok (Some text) => (Ok text, s1)
      | Ok None => read_json_response k' s1
      | Err e => (Err e, s1) | Panic => (Panic, s1) | OutOfFuel => (OutOfFuel, s1) end) = (r, s')).
  { intros m' Hm. destruct (response_text_from_message m') as [[]| | |]; try done.
    apply IH; [lia|done..]. }
  destruct m; try (by apply Hcase).
  unfold mbind, stateful_bind in *. destruct (send (MPong payload) s1) as [[] s2]; try done.
  apply IH; [lia|done..].
Qed.

Lemma request_mono k k' r s v s' :
  k <= k' -> request k r s = (Ok v, s') -> request k' r s = (Ok v, s').
Proof.
  unfold request, mbind, stateful_bind. intros Hk E.
  destruct (send _ s) as [[] s1]; try done.
  destruct (read_json_response k s1) as [r1 s2] eqn:Er.
  destruct r1 as [text| | |]; try done.
  by rewrite (read_json_response_mono k k' s1 (Ok text) s2).
Qed.

(** The number of rows that a chunk announces. *)
Definition announced (chunk : json) : Z :=
  default (Z.of_nat (length (transpose_data (json_get (lit "data") chunk))))
          (u64_field "numRows" chunk).
Definition chunk_rows (chunk : json) : list (list (option str)) :=
  transpose_data (json_get (lit "data") chunk).

(** The server answers a fetch from a position with a chunk ([k] bounds the messages
    that come before the answer). *)
Definition answers (k : nat) (handle fetched : Z) (s : ws) (chunk : json) (s' : ws) : Prop :=
  exists ret, request k (fetch_request handle fetched) s = (Ok ret, s')
    /\ json_get (lit "responseData") ret = Some chunk.

(** The chunks of a result set, until its rows are all announced. *)
Inductive serves (k : nat) (handle total : Z) : Z -> ws -> list json -> ws -> Prop :=
| serves_done fetched s : (total <= fetched)%Z -> serves k handle total fetched s [] s
| serves_chunk fetched s chunk s1 chunks s2 :
    (fetched < total)%Z -> answers k handle fetched s chunk s1 ->
    (fetched + announced chunk <= u64_max)%Z ->
    serves k handle total (fetched + announced chunk) s1 chunks s2 ->
    serves k handle total fetched s (chunk :: chunks) s2.

(** One turn of the loop. *)
Lemma fetch_loop_step k fuel handle total fetched s chunk s1 rows :
  (fetched < total)%Z -> k <= S fuel -> answers k handle fetched s chunk s1 ->
  (fetched + announced chunk <= u64_max)%Z ->
  fetch_loop (S fuel) handle total fetched rows s
  = fetch_loop fuel handle total (fetched + announced chunk) (rows ++ chunk_rows chunk) s1.
Proof.
  intros Hlt Hk (ret & E & Hc) Hov. cbn [fetch_loop]. rewrite (proj2 (Z.ltb_lt _ _)) by done.
  apply (request_mono k (S fuel)) in E; [|done].
  unfold mbind, stateful_bind at 1. rewrite E. unfold lift. rewrite Hc. cbn [ok_or].
  unfold stateful_bind at 1. fold (announced chunk). by rewrite add_usize_ok.
Qed.

(** The fetch loop collects a result set.  When the server serves it in chunks,
    whatever their number, the loop returns the rows at hand followed by the rows of
    the chunks in order, and stops asking when all rows are announced. *)
Lemma fetch_loop_collects k handle total fetched s chunks s' rows fuel :
  serves k handle total fetched s chunks s' -> k + length chunks < fuel ->
  fetch_loop fuel handle total fetched rows s
  = (Ok (rows ++ (chunks ≫= chunk_rows)), s').
Proof.
  intros Hs. revert fuel rows.
  induction Hs as [fetched s Hle|fetched s chunk s1 chunks s2 Hlt Ha Hov _ IH];
    intros [|fuel] rows Hf; cbn [length] in Hf; try lia.
  - cbn [fetch_loop]. rewrite (proj2 (Z.ltb_ge _ _)) by done. by rewrite app_nil_r.
  - rewrite (fetch_loop_step k _ _ _ _ _ chunk s1) by (done || lia).
    rewrite IH by lia. cbn [mbind list_bind]. by rewrite app_assoc.
Qed.

(** A server that always answers, with chunks that satisfy [P]. *)
Definition responsive (k : nat) (handle total : Z) (P : json -> Prop) (I : ws -> Prop) : Prop :=
  forall fetched s, I s -> (0 <= fetched < total)%Z ->
    exists chunk s', answers k handle fetched s chunk s' /\ P chunk /\ I s'
      /\ (fetched + announced chunk <= u64_max)%Z.

(** C30: the fetch loop ends when every chunk brings a row: it asks at most once per
    missing row. *)
Theorem fetch_loop_ends k handle total I s fetched rows fuel :
  responsive k handle total (fun chunk => 1 <= announced chunk)%Z I -> I s ->
  (0 <= fetched)%Z -> k + Z.to_nat (total - fetched) < fuel ->
  exists rows' s', fetch_loop fuel handle total fetched rows s = (Ok (rows ++ rows'), s').
Proof.
  intros Hresp Hs Hnn Hf.
  assert (Hserve : forall n fetched s, I s -> (0 <= fetched)%Z -> Z.to_nat (total - fetched) <= n ->
            exists chunks s', serves k handle total fetched s chunks s' /\ length chunks <= n).
  { clear -Hresp. induction n as [|n IH]; intros fetched s Hs Hnn Hn.
    { exists [], s. split; [constructor; lia|cbn; lia]. }
    destruct (decide (total <= fetched)%Z); [exists [], s; split; [by constructor|cbn; lia]|].
    destruct (Hresp fetched s) as (chunk & s1 & Ha & Hp & Hs1 & Hov); [done|lia|].
    cbn beta in Hp. destruct (IH (fetched + announced chunk)%Z s1) as (chunks & s2 & Hsv & Hl);
      [done|lia|lia|].
    exists (chunk :: chunks), s2. split; [econstructor; (done || lia)|cbn; lia]. }
  destruct (Hserve (Z.to_nat (total - fetched)) fetched s) as (chunks & s' & Hsv & Hl); [done..|].
  eexists _, s'. eapply fetch_loop_collects; [exact Hsv|lia].
Qed.

(** With less fuel the answer is the same or not there yet. *)
Lemma request_det k k' r s v s' :
  request k r s = (Ok v, s') ->
  request k' r s = (Ok v, s') \/ (request k' r s).1 = OutOfFuel.
Proof.
  intros E. destruct (decide (k <= k')); [left; by eapply request_mono|].
  revert E. unfold request, mbind, stateful_bind.
  destruct (send _ s) as [[] s1]; try done.
  destruct (read_json_response k' s1) as [r1 s2] eqn:Er.
  assert (r1 = OutOfFuel \/ r1 <> OutOfFuel) as [->|Hne] by (destruct r1; auto); [by right|].
  apply (read_json_response_mono k' k) in Er; [|lia|done]. rewrite Er. by left.
Qed.

(** C31: the fetch loop never ends on chunks without rows.  A server that answers
    every fetch with a chunk that announces no row keeps the transport asking for
    ever: no amount of fuel gives a result. *)
Theorem fetch_loop_stuck k handle total I s fetched rows fuel :
  responsive k handle total (fun chunk => announced chunk = 0)%Z I -> I s ->
  (0 <= fetched < total)%Z ->
  (fetch_loop fuel handle total fetched rows s).1 = OutOfFuel.
Proof.
  intros Hresp. revert s rows. induction fuel as [|fuel IH]; intros s rows Hs Hlt; [done|].
  destruct (Hresp fetched s Hs Hlt) as (chunk & s1 & (ret & E & Hc) & Hz & Hs1 & Hov).
  cbn beta in Hz.
  destruct (request_det k (S fuel) _ _ _ _ E) as [E'|E'].
  - rewrite (fetch_loop_step (S fuel) _ _ _ _ _ chunk s1); [|lia|lia|by exists ret|done].
    rewrite Hz, Z.add_0_r. by apply IH.
  - cbn [fetch_loop]. rewrite (proj2 (Z.ltb_lt _ _)) by lia.
    unfold mbind, stateful_bind at 1.
    destruct (request (S fuel) (fetch_request handle fetched) s) as [r0 s0]. cbn in E'. by subst.
Qed.

(** ** TLS *)

(** What certificate pinning is worth.  Without encryption nothing is checked;
    with a fingerprint, exactly the certificates with that SHA-256 digest (in either
    case of its letters) are accepted, but no signature of a handshake is ever
    checked against them, so whoever presents the public certificate is accepted;
    only without a fingerprint does the check of the platform decide. *)
Theorem tls_checks config endpoint (webpki : list byte -> bool)
    (signed : list byte -> list byte -> bool) :
  (encryption config = false -> build_connector config endpoint = Plain)
  /\ (encryption config = true -> exists v, build_connector config endpoint = Rustls v
      /\ (fingerprint endpoint = None ->
            (forall cert, verify_server_cert webpki v cert = webpki cert)
            /\ forall cert sig, verify_tls_signature signed v cert sig = signed cert sig)
      /\ (fingerprint endpoint = Some NOCERTCHECK ->
            forall cert, verify_server_cert webpki v cert = true)
      /\ (forall fp, fingerprint endpoint = Some fp -> fp <> NOCERTCHECK ->
            forall cert, verify_server_cert webpki v cert = true
                         <-> sha256_hex cert = to_ascii_uppercase fp)
      /\ (fingerprint endpoint <> None ->
            forall cert sig, verify_tls_signature signed v cert sig = true)).
Proof.
  unfold build_connector. destruct (encryption config); cbn [negb].
  2: { split; [done|]. by intros [=]. }
  split; [done|]. intros _. destruct (fingerprint endpoint) as [fp|].
  2: { exists DefaultVerifier. by split_and!. }
  destruct (str_eqb_spec fp NOCERTCHECK) as [->|Hne].
  { exists NoCertVerifier. split_and!; try done. by intros ? [= <-]. }
  exists (FingerprintVerifier fp). split_and!; try done.
  - by intros [= ->].
  - intros ? [= <-] _ cert. cbn. unfold verify_fingerprint.
    destruct (str_eqb_spec (sha256_hex cert) (to_ascii_uppercase fp)); by split.
Qed.

(** ** Statements *)

(** [execute] of the WebSocket transport returns a row count or typed rows, never
    Arrow data, and [execute_update] succeeds exactly when it returns a row count. *)
Theorem ws_execute_shape fuel sql s :
  (forall o s', ws_execute fuel sql s = (Ok o, s') ->
     (exists n, o = RowCount n) \/ (exists columns rows, o = TypedRows columns rows))
  /\ (forall s', ws_execute_update fuel sql s = (Ok tt, s')
      <-> exists n, ws_execute fuel sql s = (Ok (RowCount n), s')).
Proof.
  split.
  - intros o s' (ret & s1 & _ & E)%stateful_bind_Ok.
    apply stateful_bind_Ok in E as (result & s2 & _ & E).
    apply stateful_bind_Ok in E as (rt & s3 & _ & E).
    destruct (str_eqb rt _); [injection E as <- <-; eauto|].
    destruct (str_eqb rt _); [|done]. right.
    apply stateful_bind_Ok in E as (rs & s4 & _ & E).
    apply stateful_bind_Ok in E as (columns & s5 & _ & E).
    destruct (u64_field "resultSetHandle" rs); [|injection E as <- <-; eauto].
    apply stateful_bind_Ok in E as (rows & s6 & _ & [= <- <-]). eauto.
  - intros s'. split.
    + intros (o & s1 & E & Eo)%stateful_bind_Ok. destruct o; try done. injection Eo as <-. eauto.
    + intros [n E]. by eapply bind_step.
Qed.
End fetch.

(** ** Witnesses *)

(** A server that answers every request with the same text, and how the texts read. *)
Definition ex_chunk (n : Z) : json :=
  obj [("numRows", JInt n); ("data", json_table 1 [[JString (lit "a")]])]%string.
Definition ex_answer (n : Z) : json :=
  obj [("status", JString (lit "ok")); ("responseData", ex_chunk n)]%string.
#[local] Instance ex_json : JsonLib :=
  {| json_render _ := [];
     json_parse t := if str_eqb t (lit "row") then Some (ex_answer 1)
                     else if str_eqb t (lit "empty") then Some (ex_answer 0) else None |}.
#[local] Instance ex_ws : WsLib :=
  {| ws := str; ws_send _ s := (Ok tt, s); ws_next s := (WsMessage (MText s), s); ws_close s := s;
     encrypt _ p := Ok p; sha256_hex _ := lit "AB" |}.
#[local] Existing Instance list_arrow.
#[local] Existing Instance dev_profile.

(** The two servers. *)
Definition ex_row : ws := lit "row".
Definition ex_empty : ws := lit "empty".

Lemma ex_responsive n :
  n = 0%Z \/ n = 1%Z ->
  responsive 1 7 3 (fun chunk => announced chunk = n)
    (fun s => s = if (n =? 0)%Z then ex_empty else ex_row).
Proof.
  intros Hn fetched s -> Hf. exists (ex_chunk n), (if (n =? 0)%Z then ex_empty else ex_row). split.
  { exists (ex_answer n). destruct Hn as [-> | ->]; split; vm_compute; reflexivity. }
  assert (Ha : announced (ex_chunk n) = n) by (destruct Hn as [-> | ->]; vm_compute; reflexivity).
  rewrite Ha. split_and!; try done. destruct Hn as [-> | ->]; unfold u64_max; lia.
Qed.

Lemma fetch_loop_ends_witness :
  exists rows' s', fetch_loop 9 7 3 0 [] ex_row = (Ok ([] ++ rows'), s').
Proof.
  apply (fetch_loop_ends 1 7 3 (fun s => s = ex_row)).
  - intros fetched s Hs Hf. destruct (ex_responsive 1 (or_intror eq_refl) fetched s Hs Hf)
      as (chunk & s1 & Ha & Hp & Hs1 & Hov). exists chunk, s1. split_and!; try done. lia.
  - reflexivity.
  - lia.
  - vm_compute. lia.
Defined.

Lemma fetch_loop_stuck_witness :
  (fetch_loop 1000 7 3 0 [] ex_empty).1 = OutOfFuel.
Proof.
  apply (fetch_loop_stuck 1 7 3 (fun s => s = ex_empty)).
  - exact (ex_responsive 0 (or_introl eq_refl)).
  - reflexivity.
  - lia.
Defined.
