(* ===== verification/Endpoints.v ===== *)
(** * Endpoints and their TLS policy

    Which DSNs are accepted and what they mean, and what each transport makes of the
    policy of an endpoint. *)

From S2P Require Import Prelude RustStr RustInt Arrow Plan Config Exasol.
From S2P Require Import WebSocket.
#[local] Open Scope nat_scope.

(** ** Splitting at a character *)

Definition without (d : char) (s : str) : Prop := Forall (fun c => c <> d) s.

Lemma split_once_Some d s a b : split_once d s = Some (a, b) <-> s = a ++ d :: b /\ without d a.
Proof.
  unfold without. revert a. induction s as [|c s IH]; intros a; cbn [split_once].
  { split; [done|]. by intros [E _]; destruct a. }
  destruct (N.eqb_spec c d) as [->|Hc].
  - split; [by intros [= <- <-]|]. intros [E Ha]. destruct a as [|x a]; [by injection E as ->|].
    injection E as <- _. by apply list.Forall_cons in Ha as [[] _].
  - split.
    + intros ([a' b'] & E & [= -> ->])%fmap_Some. apply IH in E as [-> ?]. by split; [|constructor].
    + intros [E Ha]. destruct a as [|x a]; [by injection E as ->|]. injection E as <- ->.
      apply list.Forall_cons in Ha as [_ Ha]. by rewrite (proj2 (IH a)).
Qed.

Lemma split_once_None d s : split_once d s = None <-> without d s.
Proof.
  unfold without. induction s as [|c s IH]; cbn [split_once]; [by split|].
  rewrite list.Forall_cons. destruct (N.eqb_spec c d) as [->|Hc]; [naive_solver|].
  rewrite fmap_None. naive_solver.
Qed.

Lemma rsplit_once_Some d s a b : rsplit_once d s = Some (a, b) <-> s = a ++ d :: b /\ without d b.
Proof.
  unfold rsplit_once, without. split.
  - intros ([x y] & E & [= -> ->])%fmap_Some. apply split_once_Some in E as [E Hx].
    split; [|by apply Forall_rev]. rewrite <- (rev_involutive s), E, rev_app_distr. cbn.
    by rewrite <- app_assoc.
  - intros [-> Hb]. rewrite rev_app_distr. cbn. rewrite <- app_assoc.
    rewrite (proj2 (split_once_Some d _ (rev b) (rev a))); [by cbn; rewrite !rev_involutive|].
    split; [done|by apply Forall_rev].
Qed.

Lemma split_char_head d s : exists rest,
  head (split_char d s) = Some (match split_once d s with Some (a, _) => a | None => s end)
  /\ split_char d s = match split_once d s with Some (a, _) => a | None => s end :: rest.
Proof.
  induction s as [|c s (rest & _ & IH)]; [by exists []|]. cbn [split_char split_once].
  destruct (N.eqb_spec c d); [by eexists|]. rewrite IH. exists rest. by destruct (split_once d s) as [[]|].
Qed.

(** ** What a DSN says *)

(** A host, a fingerprint after a slash, and a port after the last colon. *)
Definition host_text (host : str) (fp : option str) (digits : str) : str :=
  host ++ (match fp with Some f => lit "/" ++ f | None => [] end) ++ lit ":" ++ digits.

(** A list of hosts, of which only the first is read. *)
Definition first_of (dsn first : str) : Prop :=
  without 44 first /\ exists rest, dsn = first ++ rest /\ (rest = [] \/ exists more, rest = 44%N :: more).

(** The policy: the fingerprint of the configuration, then that of the DSN, then whether
    certificates are validated at all. *)
Definition tls_policy (config : ExasolConfig) (fp : option str) : option str :=
  match trim (certificate_fingerprint config), fp with
  | (_ :: _) as configured, _ => Some (to_ascii_uppercase configured)
  | [], Some f => Some (to_ascii_uppercase f)
  | [], None => if validate_certificate config then None else Some NOCERTCHECK
  end.

Lemma first_of_spec dsn first : head (split_char 44 dsn) = Some first <-> first_of dsn first.
Proof.
  destruct (split_char_head 44 dsn) as (rest & -> & _). unfold first_of. split.
  - intros [= <-]. destruct (split_once 44 dsn) as [[a b]|] eqn:E.
    + apply split_once_Some in E as [-> Ha]. split; [done|]. exists (44%N :: b). eauto.
    + apply split_once_None in E. split; [done|]. exists []. rewrite app_nil_r. eauto.
  - intros (Hf & rest' & -> & [-> | [more ->]]).
    + rewrite app_nil_r. by rewrite (proj2 (split_once_None 44 first)).
    + by rewrite (proj2 (split_once_Some 44 _ first more)).
Qed.

Lemma tls_policy_spec config fp :
  (if negb (is_blank (certificate_fingerprint config))
   then Some (to_ascii_uppercase (trim (certificate_fingerprint config)))
   else match fp with
        | Some fingerprint => Some (to_ascii_uppercase fingerprint)
        | None => if negb (validate_certificate config) then Some NOCERTCHECK else None
        end) = tls_policy config fp.
Proof.
  unfold tls_policy, is_blank. destruct (trim _); [|done]. cbn.
  destruct fp; [done|]. by destruct (validate_certificate config).
Qed.

(** ** Reading a DSN *)

Definition endpoint_says (config : ExasolConfig) (dsn : str) (e : EndpointConnection) : Prop :=
  exists first fp digits,
    first_of dsn first /\ trim first = host_text (host e) fp digits
    /\ without 58 digits /\ without 47 (host e)
    /\ parse_u16 digits = Some (port e) /\ fingerprint e = tls_policy config fp.

Lemma host_fingerprint hf h fp :
  match split_once 47 hf with
  | Some (host, fingerprint) => (host, Some fingerprint)
  | None => (hf, None)
  end = (h, fp) <->
  hf = h ++ (match fp with Some f => lit "/" ++ f | None => [] end)
  /\ without 47 h.
Proof.
  split.
  - destruct (split_once 47 hf) as [[a b]|] eqn:E; intros [= <- <-].
    + by apply split_once_Some in E.
    + apply split_once_None in E. by rewrite app_nil_r.
  - intros [-> Hh]. destruct fp as [f|].
    + by rewrite (proj2 (split_once_Some 47 _ h f)).
    + rewrite app_nil_r. by rewrite (proj2 (split_once_None 47 h)).
Qed.

Lemma endpoint_parse_Ok dsn config e :
  endpoint_parse dsn config = Ok e <-> endpoint_says config dsn e.
Proof.
  unfold endpoint_parse, endpoint_says. split.
  - intros (f & Hf & E)%outcome_bind_Ok.
    destruct (head (split_char 44 dsn)) as [first|] eqn:Eh; [|done]. injection Hf as <-.
    apply outcome_bind_Ok in E as ([hf digits] & Hr & E).
    destruct (rsplit_once 58 (trim first)) as [[? ?]|] eqn:Er; [|done].
    injection Hr as -> ->. apply rsplit_once_Some in Er as [Et Hd].
    destruct (match split_once 47 hf with Some _ => _ | None => _ end) as [h fp] eqn:Ehf.
    apply host_fingerprint in Ehf as [-> Hh].
    apply outcome_bind_Ok in E as (p & Hp & E).
    destruct (parse_u16 digits) as [q|] eqn:Ep; [|done]. injection Hp as ->.
    injection E as <-. cbn [host port fingerprint].
    exists first, fp, digits. apply first_of_spec in Eh. split_and!; try done.
    + rewrite Et. unfold host_text. by rewrite <- app_assoc.
    + apply tls_policy_spec.
  - intros (first & fp & digits & Hf & Et & Hd & Hh & Hp & Hfp).
    rewrite (proj2 (first_of_spec dsn first)) by done. cbn [fmap option_fmap option_map ok_or mbind outcome_bind].
    rewrite Et. unfold host_text. rewrite app_assoc.
    rewrite (proj2 (rsplit_once_Some 58 _ _ digits)) by done. cbn [ok_or mbind outcome_bind].
    rewrite (proj2 (host_fingerprint _ (host e) fp)) by done.
    rewrite Hp. cbn [ok_or mbind outcome_bind]. rewrite tls_policy_spec, <- Hfp. by destruct e.
Qed.

Lemma endpoint_parse_errors dsn config :
  (exists e, endpoint_parse dsn config = Ok e) \/ endpoint_parse dsn config = Err (InvalidDsn dsn).
Proof.
  unfold endpoint_parse. destruct (head _) as [first|]; [|by right]. cbn.
  destruct (rsplit_once 58 _) as [[hf digits]|]; [|by right]. cbn.
  destruct (match split_once 47 hf with Some _ => _ | None => _ end) as [h fp].
  destruct (parse_u16 digits); cbn; eauto.
Qed.

(** ** What the transports check *)

(** The policy that the connector of the WebSocket transport and the parameters for the
    driver of the Arrow transport stand for. *)
Definition checks_of (config : ExasolConfig) (e : EndpointConnection) (connector : Connector)
    (params : ConnectionParams) : Prop :=
  params_use_tls params = encryption config
  /\ if encryption config then
       match fingerprint e with
       | None =>
           connector = Rustls DefaultVerifier
           /\ params_validate_server_certificate params = true
           /\ params_certificate_fingerprint params = None
       | Some fp =>
           if bool_decide (fp = NOCERTCHECK) then
             connector = Rustls NoCertVerifier
             /\ params_validate_server_certificate params = false
             /\ params_certificate_fingerprint params = None
           else
             connector = Rustls (FingerprintVerifier fp)
             /\ params_validate_server_certificate params = validate_certificate config
             /\ params_certificate_fingerprint params = Some fp
       end
     else connector = Plain.

Lemma uppercase_char c : is_ascii_lowercase (char_to_ascii_uppercase c) = false.
Proof.
  unfold char_to_ascii_uppercase. destruct (is_ascii_lowercase c) eqn:E; [|done].
  unfold is_ascii_lowercase in *. rewrite andb_true_iff, !N.leb_le in E.
  apply andb_false_iff. left. apply N.leb_gt. lia.
Qed.

(** An upper-cased text has no lower-case letter, and stays. *)
Lemma uppercase_settled s :
  existsb is_ascii_lowercase (to_ascii_uppercase s) = false
  /\ to_ascii_uppercase (to_ascii_uppercase s) = to_ascii_uppercase s.
Proof.
  unfold to_ascii_uppercase. induction s as [|c s [IH1 IH2]]; [done|]. csimpl. cbn [existsb].
  rewrite uppercase_char, IH1, IH2. split; [done|]. f_equal.
  unfold char_to_ascii_uppercase at 1. by rewrite uppercase_char.
Qed.

Lemma policy_uppercase config fp f :
  tls_policy config fp = Some f -> f <> NOCERTCHECK -> exists f', f = to_ascii_uppercase f'.
Proof.
  assert (Hs : forall x, Some (to_ascii_uppercase x) = Some f -> exists f', f = to_ascii_uppercase f')
    by (intros x Hx; exists x; congruence).
  unfold tls_policy. destruct (trim _) as [|c t]; [|intros E _; exact (Hs _ E)].
  destruct fp as [g|]; [intros E _; exact (Hs _ E)|].
  destruct (validate_certificate config); [done|]. intros [= <-]. done.
Qed.

(** C26: a DSN is accepted exactly when its first host, up to a comma and trimmed, is a
    host, a fingerprint after the first slash if there is one, and after the last colon a
    16-bit port; any other is refused as an invalid DSN with its text.  The endpoint is
    that host and port, with the fingerprint of the configuration before that of the DSN;
    without either, certificates go unchecked only when the configuration says so.  Both
    transports get the endpoint's host, port and credentials, and encrypt alike; without
    a fingerprint both validate, with the sentinel neither does.  With a fingerprint they
    part: WebSocket accepts exactly the certificates whose upper-case digest it is,
    whatever [validate_certificate] says; the driver of Arrow gets the upper-case
    fingerprint next to [validate_certificate], which is never the digest of a
    certificate in lower-case digits, if that has a letter. *)
Theorem endpoint_policy `{WsLib} dsn config username password :
  (forall e, endpoint_parse dsn config = Ok e <-> endpoint_says config dsn e)
  /\ ((exists e, endpoint_parse dsn config = Ok e)
      \/ endpoint_parse dsn config = Err (InvalidDsn dsn))
  /\ (forall e, endpoint_parse dsn config = Ok e ->
      let params := to_connection_params e config username password in
      checks_of config e (build_connector config e) params
      /\ (params_host params, params_port params) = (host e, port e)
      /\ (params_username params, params_password params) = (username, password)
      /\ (params_validate_server_certificate params = false ->
          validate_certificate config = false \/ fingerprint e = Some NOCERTCHECK)
      /\ (forall fp, fingerprint e = Some fp -> fp <> NOCERTCHECK ->
          (forall webpki cert,
             verify_server_cert webpki (FingerprintVerifier fp) cert = true <-> sha256_hex cert = fp)
          /\ (forall digest, existsb is_ascii_lowercase digest = true ->
             params_certificate_fingerprint params <> Some digest))).
Proof.
  split_and!; [intros e; apply endpoint_parse_Ok|apply endpoint_parse_errors|].
  intros e (first & fp & digits & _ & _ & _ & _ & _ & Hfp)%endpoint_parse_Ok. cbv zeta.
  unfold to_connection_params, build_connector, checks_of.
  destruct (fingerprint e) as [f|] eqn:Ef.
  - destruct (str_eqb_spec f NOCERTCHECK) as [->|Hf].
    + rewrite bool_decide_eq_true_2 by done.
      destruct (encryption config) eqn:Ee; cbn; split_and!; auto; by intros ? [= <-].
    + rewrite bool_decide_eq_false_2 by done.
      destruct (policy_uppercase config fp f (eq_sym Hfp) Hf) as [f' ->].
      destruct (uppercase_settled f') as [Hl Hu].
      assert (Hdig : forall digest, existsb is_ascii_lowercase digest = true ->
                Some (to_ascii_uppercase f') <> Some digest) by (intros d Hd [= <-]; congruence).
      assert (Hcert : forall webpki cert,
        verify_server_cert webpki (FingerprintVerifier (to_ascii_uppercase f')) cert = true
        <-> sha256_hex cert = to_ascii_uppercase f').
      { intros webpki cert. unfold verify_server_cert, verify_fingerprint. rewrite Hu.
        by destruct (str_eqb_spec (sha256_hex cert) (to_ascii_uppercase f')). }
      destruct (encryption config) eqn:Ee; cbn; split_and!; auto; intros ? [= <-] _; by split.
  - assert (Hv : validate_certificate config = true).
    { unfold tls_policy in Hfp. destruct (trim _); [|done]. destruct fp; [done|].
      by destruct (validate_certificate config). }
    destruct (encryption config) eqn:Ee; cbn; rewrite ?Hv; split_and!; auto; by intros.
Qed.

#[local] Instance ex_ws : WsLib :=
  {| ws := unit; ws_send _ w := (Ok tt, w); ws_next w := (WsClosed, w); ws_close w := w;
     encrypt _ _ := Err []; sha256_hex _ := lit "CD34" |}.

Lemma endpoint_policy_witness :
  endpoint_parse (lit "db/ab12:8563,db2:8563") ex_exasol_config
  = Ok {| host := lit "db"; port := 8563; fingerprint := Some (lit "CD34") |}
  /\ params_certificate_fingerprint
       (to_connection_params {| host := lit "db"; port := 8563; fingerprint := Some (lit "CD34") |}
          ex_exasol_config [] []) <> Some (lit "cd34").
Proof.
  destruct (endpoint_policy (lit "db/ab12:8563,db2:8563") ex_exasol_config [] [])
    as (Hsays & _ & Hsame).
  assert (E : endpoint_parse (lit "db/ab12:8563,db2:8563") ex_exasol_config
    = Ok {| host := lit "db"; port := 8563; fingerprint := Some (lit "CD34") |}).
  { apply Hsays. exists (lit "db/ab12:8563"), (Some (lit "ab12")), (lit "8563").
    split_and!; try (vm_compute; reflexivity); try (by repeat constructor).
    split; [by repeat constructor|]. exists (lit ",db2:8563"). split; [done|].
    right. by eexists. }
  split; [exact E|]. destruct (Hsame _ E) as (_ & _ & _ & _ & Hfp).
  by apply (Hfp (lit "CD34")).
Defined.
