(* ===== verification/WebSocketLogin.v ===== *)
(** * Logging in over WebSocket

    What the gateway says to an Exasol server until the session is open: two messages
    beside the pongs, and the password only in its encryption with the server's key. *)

From S2P Require Import Prelude RustStr RustInt Arrow Plan Config Exasol.
From S2P Require Import WebSocket WebSocketTheorems.
#[local] Open Scope nat_scope.

Section login.
Context `{BuildProfile} `{ArrowLib} `{JsonLib}.

(** ** The messages *)

Definition login_request : json :=
  obj [("command", JString (lit "login")); ("protocolVersion", JInt 3)]%string.
Definition auth_request (env : ClientEnv) (config : ExasolConfig) (username encrypted : str) : json :=
  obj [("username", JString username); ("password", JString encrypted);
       ("driverName", JString (lit "exa-postgres-interface"));
       ("clientName", JString (lit "exa-postgres-interface"));
       ("clientVersion", JString (pkg_version env)); ("clientOs", JString (os_name env));
       ("clientOsUsername", JString (default (lit "unknown") (os_user env)));
       ("clientRuntime", JString (lit "Rust")); ("useCompression", JBool false);
       ("attributes", obj [("currentSchema", JString (schema config)); ("autocommit", JBool true);
                           ("queryTimeout", JInt 0)]%string)]%string.

(** The key of the server's answer. *)
Definition public_key (answer : json) : option str :=
  json_pointer [lit "responseData"; lit "publicKeyPem"] answer ≫= json_as_str.

(** ** The exchange *)

Section exchange.
Context `{WsLib}.

(** The login, by the two requests it makes. *)
Lemma login_requests fuel env config username password s :
  login fuel env config username password s
  = (answer ← request fuel login_request;
     key ← lift (ok_or (Authentication (lit "missing Exasol public key")) (public_key answer));
     encrypted ← lift (encrypt_password key password);
     _ ← map_err_st (fun err => Authentication (ExasolError_to_string err))
           (request fuel (auth_request env config username encrypted));
     mret tt) s.
Proof. done. Qed.

(** It ends at the first answer, or makes both requests. *)
Lemma login_cases fuel env config username password s r s' :
  login fuel env config username password s = (r, s') ->
  (exists r1, request fuel login_request s = (r1, s') /\ forall u, r <> Ok u)
  \/ exists answer key encrypted r2 s1,
       request fuel login_request s = (Ok answer, s1) /\ public_key answer = Some key
       /\ encrypt key password = Ok encrypted
       /\ request fuel (auth_request env config username encrypted) s1 = (r2, s').
Proof.
  rewrite login_requests.
  intros [(answer & s1 & E & Er)|(r1 & E & _ & Hr)]%stateful_bind_inv; [|left; eauto].
  destruct (public_key answer) as [key|] eqn:Ek; [|injection Er as <- <-; left; eauto].
  apply (stateful_bind_inv (lift _)) in Er as [(k & s2 & [= -> <-] & Er)|(r1 & [= <- <-] & Hno & _)];
    [|by destruct (Hno key)].
  unfold encrypt_password in Er. destruct (encrypt k password) as [encrypted|e| |] eqn:Ee;
    [|injection Er as <- <-; left; eexists; by split..].
  right. unfold mbind at 1, stateful_bind at 1 in Er. cbn [lift map_err] in Er.
  apply stateful_bind_inv in Er as [(v & s2 & E2 & Er)|(r2 & E2 & _)].
  - injection Er as _ <-. unfold map_err_st in E2. destruct (request _ _ s1) as [r2 s3] eqn:E3.
    injection E2 as _ <-. naive_solver.
  - unfold map_err_st in E2. destruct (request _ _ s1) as [r3 s3] eqn:E3.
    injection E2 as _ <-. naive_solver.
Qed.

Lemma login_succeeds fuel env config username password s answer s1 key encrypted r2 s2 :
  request fuel login_request s = (Ok answer, s1) -> public_key answer = Some key ->
  encrypt key password = Ok encrypted ->
  request fuel (auth_request env config username encrypted) s1 = (r2, s2) ->
  login fuel env config username password s
  = (map_err (fun err => Authentication (ExasolError_to_string err)) ((fun _ => tt) <$> r2), s2).
Proof.
  intros E1 Ek Ee E2. rewrite login_requests.
  eapply bind_step; [exact E1|]. eapply bind_step; [unfold lift; by rewrite Ek|].
  eapply bind_step; [unfold lift, encrypt_password; by rewrite Ee|].
  unfold map_err_st, mbind, stateful_bind. rewrite E2. by destruct r2.
Qed.

(** The password counts only through its encryptions. *)
Lemma login_encryptions fuel env config username p1 p2 s :
  (forall key, encrypt key p1 = encrypt key p2) ->
  login fuel env config username p1 s = login fuel env config username p2 s.
Proof.
  intros Hp. rewrite !login_requests. unfold mbind, stateful_bind, encrypt_password.
  destruct (request fuel login_request s) as [[answer|e| |] s1]; try done.
  unfold lift at 1 3. destruct (ok_or _ (public_key answer)); try done. by rewrite Hp.
Qed.
End exchange.

(** ** What is said *)

(** Any connection, with the log of what is sent on it. *)
Definition logged (W : WsLib) : WsLib :=
  {| ws := ws * list Message;
     ws_send m s := let '(r, s') := ws_send m s.1 in (r, (s', s.2 ++ [m]));
     ws_next s := let '(event, s') := ws_next s.1 in (event, (s', s.2));
     ws_close s := (ws_close s.1, s.2);
     encrypt := encrypt; sha256_hex := sha256_hex |}.

(** What was said, the pongs left out. *)
Definition is_pong (m : Message) : bool := match m with MPong _ => true | _ => false end.
Definition spoken (log : list Message) : list Message := List.filter (fun m => negb (is_pong m)) log.

Context {W : WsLib}.
#[local] Notation wire := (logged W).

Lemma read_spoken fuel (s s' : @ws wire) r :
  read_json_response (H2 := wire) fuel s = (r, s') -> spoken s'.2 = spoken s.2.
Proof.
  revert s. induction fuel as [|fuel IH]; intros [s l]; [by intros [= _ <-]|].
  cbn [read_json_response logged ws_next fst snd].
  destruct (@ws_next W s) as [[|e|m] s1]; [by intros [= _ <-]..|].
  assert (Hgo : forall r0 s0, spoken s0.2 = spoken l ->
    match r0 with
    | Ok (Some text) => (Ok text, s0)
    | Ok None => read_json_response (H2 := wire) fuel s0
    | Err e => (Err e, s0) | Panic => (Panic, s0) | OutOfFuel => (OutOfFuel, s0)
    end = (r, s') -> spoken s'.2 = spoken l).
  { intros [[]|e| |] s0 Hs; intros E; try (injection E as _ <-; exact Hs).
    by rewrite (IH _ E). }
  destruct m; try (apply Hgo; done).
  unfold mbind, stateful_bind, send, map_err_st. cbn [logged ws_send fst snd].
  destruct (@ws_send W _ s1) as [[]]; cbn [map_err]; intros E;
    [apply IH in E|injection E as _ <-..]; try rewrite E; unfold spoken;
    cbn [fst snd]; by rewrite filter_app, app_nil_r.
Qed.

(** A request says its text, once. *)
Lemma request_spoken fuel j (s s' : @ws wire) r :
  request (H2 := wire) fuel j s = (r, s') -> spoken s'.2 = spoken s.2 ++ [MText (json_render j)].
Proof.
  assert (Hsend : forall r1 s1, send (H2 := wire) (MText (json_render j)) s = (r1, s1) ->
    spoken s1.2 = spoken s.2 ++ [MText (json_render j)]).
  { unfold send, map_err_st. cbn [logged ws_send]. destruct (@ws_send W _ s.1) as [r0 s0].
    intros r1 s1 [= _ <-]. unfold spoken. cbn [snd]. by rewrite filter_app. }
  unfold request.
  intros [(u & s1 & E & Er)|(? & E & _)]%stateful_bind_inv; [|by apply Hsend in E].
  apply Hsend in E as <-.
  apply stateful_bind_inv in Er as [(text & s2 & E2 & [= _ <-])|(? & E2 & _)];
    by apply read_spoken in E2.
Qed.

(** C25: the password of a client leaves the gateway only encrypted.  On any connection a
    login says at most two things: the request of the server's key, and, when the answer
    has a key, the name with the encryption of the password under that key; after the
    first alone the login has failed.  Two passwords with the same encryptions give the
    same connection, pongs, errors and all.  When the server answers, the connection is
    what the server makes of the second message: open, or an authentication error with
    the server's text. *)
Theorem login_hides_password fuel env config username password :
  (forall s r s' log,
     login (H2 := wire) fuel env config username password (s, []) = (r, (s', log)) ->
     (spoken log = [MText (json_render login_request)] /\ forall u, r <> Ok u)
     \/ exists answer s1 key encrypted,
          request (H2 := wire) fuel login_request (s, []) = (Ok answer, s1)
          /\ public_key answer = Some key /\ encrypt key password = Ok encrypted
          /\ spoken log = [MText (json_render login_request);
                           MText (json_render (auth_request env config username encrypted))])
  /\ (forall endpoint open other, (forall key, encrypt key password = encrypt key other) ->
     ws_connect fuel env config endpoint username password open
     = ws_connect fuel env config endpoint username other open)
  /\ (forall endpoint open s answer s1 key encrypted r2 s2,
     pass_client_credentials config = true ->
     (forall url, open (host endpoint) (port endpoint) url (build_connector config endpoint) = Ok s) ->
     request fuel login_request s = (Ok answer, s1) -> public_key answer = Some key ->
     encrypt key password = Ok encrypted ->
     request fuel (auth_request env config username encrypted) s1 = (r2, s2) ->
     ws_connect fuel env config endpoint username password open
     = map_err (fun err => Authentication (ExasolError_to_string err)) ((fun _ => s2) <$> r2)).
Proof.
  split_and!.
  - intros s r s' log E. apply (@login_cases wire) in E
      as [(r1 & E & Hr)|(answer & key & encrypted & r2 & s1 & E1 & Ek & Ee & E2)].
    + left. split; [by apply request_spoken in E|done].
    + right. exists answer, s1, key, encrypted. split_and!; [done..|].
      apply request_spoken in E1, E2. cbn [snd] in *. by rewrite E2, E1.
  - intros endpoint open other Hp. unfold ws_connect. destruct (negb _); [done|]. cbv zeta.
    destruct (map_err Connection _) as [s| | |]; try done. cbn.
    by rewrite (login_encryptions _ _ _ _ _ _ s Hp).
  - intros endpoint open s answer s1 key encrypted r2 s2 Hc Ho E1 Ek Ee E2.
    unfold ws_connect. rewrite Hc. cbn [negb]. cbv zeta. rewrite Ho. cbn.
    rewrite (login_succeeds _ _ _ _ _ _ _ _ _ _ _ _ E1 Ek Ee E2). by destruct r2.
Qed.
End login.

(** ** A login *)

(** A server that gives its key and knows one encrypted password. *)
Definition key_answer : json :=
  obj [("status", JString (lit "ok"));
       ("responseData", obj [("publicKeyPem", JString (lit "PEM"))]%string)]%string.
Definition login_json : JsonLib :=
  {| json_render j :=
       match json_get (lit "password") j with Some (JString p) => p | _ => lit "login" end;
     json_parse t :=
       if str_eqb t (lit "login") then Some key_answer
       else if str_eqb t (lit "PEM:secret") then Some (obj [("status", JString (lit "ok"))]%string)
       else Some (obj [("status", JString (lit "error"))]%string) |}.
(** The state is the last text that was received, which the server answers. *)
Definition login_ws : WsLib :=
  {| ws := str; ws_send m s := match m with MText t => (Ok tt, t) | _ => (Ok tt, s) end;
     ws_next s := (WsMessage (MText s), s); ws_close s := s;
     encrypt key p := Ok (key ++ lit ":" ++ p); sha256_hex _ := [] |}.
#[local] Existing Instance login_json.
#[local] Existing Instance login_ws.

Definition ex_env : ClientEnv := {| pkg_version := lit "0"; os_name := lit "linux"; os_user := None |}.
Definition ex_login_config : ExasolConfig :=
  {| dsn := lit "localhost:8563"; encryption := true; certificate_fingerprint := [];
     validate_certificate := true; pass_client_credentials := true; schema := [];
     transport := DEFAULT_TRANSPORT |}.
Definition ex_endpoint : EndpointConnection :=
  {| host := lit "localhost"; port := 8563; fingerprint := None |}.
Definition ex_connect (password : str) : outcome ExasolError str :=
  ws_connect 3 ex_env ex_login_config ex_endpoint (lit "sys") password (fun _ _ _ _ => Ok []).

Lemma login_hides_password_witness :
  ex_connect (lit "secret") = Ok (lit "PEM:secret")
  /\ ex_connect (lit "wrong")
     = Err (Authentication (ExasolError_to_string
              (Execution (lit "unknown Exasol error (SQL code: unknown)")))).
Proof.
  split.
  - destruct (login_hides_password 3 ex_env ex_login_config (lit "sys") (lit "secret"))
      as (_ & _ & Hs).
    refine (Hs ex_endpoint (fun _ _ _ _ => Ok []) [] key_answer (lit "login") (lit "PEM")
              (lit "PEM:secret") (Ok (obj [("status", JString (lit "ok"))]%string))
              (lit "PEM:secret") _ _ _ _ _ _); vm_compute; reflexivity.
  - destruct (login_hides_password 3 ex_env ex_login_config (lit "sys") (lit "wrong"))
      as (_ & _ & Hs).
    refine (Hs ex_endpoint (fun _ _ _ _ => Ok []) [] key_answer (lit "login") (lit "PEM")
              (lit "PEM:wrong") (Err (Execution (lit "unknown Exasol error (SQL code: unknown)")))
              (lit "PEM:wrong") _ _ _ _ _ _); vm_compute; reflexivity.
Defined.
