(* ===== verification/WebSocketResults.v ===== *)
(** * Result sets over WebSocket

    A server with the rows of an answer, which it sends with the answer and, the rest, on
    fetch requests, in pages of its choice: the transport returns its columns and all
    its rows, in their order. *)

From S2P Require Import Prelude RustStr RustInt Arrow Plan Config Exasol Bytes.
From S2P Require Import WebSocket WebSocketTheorems.
#[local] Open Scope nat_scope.

Section results.
Context `{BuildProfile} `{ArrowLib} `{JsonLib} `{WsLib}.

(** ** Messages of the server *)

Definition column_json (column : ExasolColumn) : json :=
  obj [("name", JString (column_name column)); ("dataType", column_data_type column)]%string.

(** A page of the rows of a result set of [w] columns. *)
Definition page_json (w : nat) (rows : list (list json)) : json :=
  obj [("numRows", JInt (Z.of_nat (length rows))); ("data", json_table w rows)]%string.

(** A result set of [total] rows with its first ones; the rest is under the handle. *)
Definition result_set_json (columns : list ExasolColumn) (total : nat)
    (first : list (list json)) (handle : option Z) : json :=
  let rows :=
    [("numColumns", JInt (Z.of_nat (length columns))); ("numRows", JInt (Z.of_nat total));
     ("numRowsInMessage", JInt (Z.of_nat (length first)));
     ("columns", JArray (column_json <$> columns));
     ("data", json_table (length columns) first)]%string in
  obj (match handle with
       | Some h => ("resultSetHandle"%string, JInt h) :: rows
       | None => rows
       end).
Definition rows_result (result_set : json) : json :=
  obj [("resultType", JString (lit "resultSet")); ("resultSet", result_set)]%string.
Definition count_result (n : Z) : json :=
  obj [("resultType", JString (lit "rowCount")); ("rowCount", JInt n)]%string.
Definition answer_json (result : json) : json :=
  obj [("numResults", JInt 1); ("results", JArray [result])]%string.

Definition execute_request (sql : str) : json :=
  obj [("command", JString (lit "execute")); ("sqlText", JString sql)]%string.

(** The server answers a request with the data. *)
Definition responds (k : nat) (r : json) (s : ws) (d : json) (s' : ws) : Prop :=
  exists ret, request k r s = (Ok ret, s') /\ json_get (lit "responseData") ret = Some d.

(** After [n] rows the server sends the rest of them, page by page; every page has a
    row. *)
Inductive serves_rows (k : nat) (handle : Z) (w : nat) : nat -> ws -> list (list json) -> ws -> Prop :=
| rows_done n s : serves_rows k handle w n s [] s
| rows_page n s page rest s1 s2 :
    page <> [] ->
    responds k (fetch_request handle (Z.of_nat n)) s (page_json w page) s1 ->
    serves_rows k handle w (n + length page) s1 rest s2 ->
    serves_rows k handle w n s (page ++ rest) s2.

(** Without a handle there is no rest. *)
Definition serves_rest (k : nat) (handle : option Z) (w n : nat) (s : ws)
    (rest : list (list json)) (s' : ws) : Prop :=
  match handle with
  | Some h => (0 <= h <= u64_max)%Z /\ serves_rows k h w n s rest s'
  | None => rest = [] /\ s' = s
  end.

(** ** What the transport reads of them *)

Lemma u64_field_obj k k' z l :
  (0 <= z <= u64_max)%Z ->
  u64_field k (obj ((k', JInt z) :: l))
  = if str_eqb (lit k') (lit k) then Some z else u64_field k (obj l).
Proof.
  intros Hz. unfold u64_field, obj, json_get. cbn [fmap list_fmap List.find fst snd].
  destruct (str_eqb (lit k') (lit k)); [|done]. cbn.
  rewrite (proj2 (Z.leb_le _ _)), (proj2 (Z.leb_le _ _)) by lia. done.
Qed.

Lemma parse_column_json columns : map parse_column (column_json <$> columns) = columns.
Proof.
  induction columns as [|column columns IH]; [done|]. csimpl. rewrite IH. by destruct column.
Qed.

Lemma page_rows w rows :
  0 < w -> Forall (fun row => length row = w) rows ->
  chunk_rows (page_json w rows) = text_row <$> rows.
Proof. intros Hw Hr. by rewrite <- (transpose_roundtrip w rows). Qed.

Lemma page_announced w rows :
  (Z.of_nat (length rows) <= u64_max)%Z ->
  announced (page_json w rows) = Z.of_nat (length rows).
Proof. intros Hr. unfold announced, page_json. by rewrite u64_field_obj by lia. Qed.

(** The pages are chunks of the fetch loop. *)
Lemma serves_rows_chunks k handle w n s rows s' :
  0 < w -> Forall (fun row => length row = w) rows ->
  (Z.of_nat (n + length rows) <= u64_max)%Z ->
  serves_rows k handle w n s rows s' ->
  exists chunks, serves k handle (Z.of_nat (n + length rows)) (Z.of_nat n) s chunks s'
    /\ (chunks ≫= chunk_rows) = text_row <$> rows /\ length chunks <= length rows.
Proof.
  intros Hw Hr Hn Hs. induction Hs as [n s|n s page rest s1 s2 Hp (ret & E & Hd) _ IH].
  { exists []. split_and!; [apply serves_done; cbn; lia|done..]. }
  apply list.Forall_app in Hr as [Hrp Hrr]. rewrite length_app in *.
  destruct IH as (chunks & Hsv & Hrows & Hl); [done|lia|].
  assert (Hpos : 0 < length page) by (destruct page; [done|cbn; lia]).
  exists (page_json w page :: chunks). split_and!.
  - eapply serves_chunk; rewrite ?page_announced by lia; [lia|by exists ret|lia|].
    by replace (Z.of_nat n + Z.of_nat (length page))%Z with (Z.of_nat (n + length page)) by lia;
      replace (n + (length page + length rest)) with (n + length page + length rest) by lia.
  - cbn [mbind list_bind]. rewrite Hrows, page_rows by done. by rewrite fmap_app.
  - cbn [length]. lia.
Qed.

Lemma result_set_fields columns total first handle :
  (Z.of_nat total <= u64_max)%Z -> length first <= total ->
  (forall h, handle = Some h -> 0 <= h <= u64_max)%Z ->
  let rs := result_set_json columns total first handle in
  parse_columns rs = Ok columns
  /\ json_get (lit "data") rs = Some (json_table (length columns) first)
  /\ u64_field "numRows" rs = Some (Z.of_nat total)
  /\ u64_field "numRowsInMessage" rs = Some (Z.of_nat (length first))
  /\ u64_field "resultSetHandle" rs = handle.
Proof.
  intros Ht Hf Hh rs. assert (Hu : forall z, (0 <= z <= u64_max)%Z ->
    json_as_u64 (JInt z) = Some z).
  { intros z Hz. cbn. by rewrite (proj2 (Z.leb_le _ _)), (proj2 (Z.leb_le _ _)) by lia. }
  assert (Hg : forall k v, json_get (lit k) rs = Some v -> u64_field k rs = json_as_u64 v)
    by (unfold u64_field; intros k v Hv; by rewrite Hv).
  split_and!.
  - unfold parse_columns.
    assert (json_get (lit "columns") rs = Some (JArray (column_json <$> columns))) as ->
      by (destruct handle; reflexivity).
    cbn [mbind option_bind json_as_array]. by rewrite parse_column_json.
  - destruct handle; reflexivity.
  - rewrite <- Hu by lia. apply Hg. destruct handle; reflexivity.
  - rewrite <- Hu by lia. apply Hg. destruct handle; reflexivity.
  - destruct handle as [h|]; [|reflexivity].
    rewrite <- (Hu h) by auto. apply Hg. reflexivity.
Qed.

(** ** [parse_result_set] and [execute] *)

Lemma parse_rows k columns first rest handle s s' fuel :
  columns <> [] -> Forall (fun row => length row = length columns) (first ++ rest) ->
  (Z.of_nat (length (first ++ rest)) <= u64_max)%Z ->
  serves_rest k handle (length columns) (length first) s rest s' ->
  k + length rest < fuel ->
  parse_result_set fuel
    (rows_result (result_set_json columns (length (first ++ rest)) first handle)) s
  = (Ok (TypedRows columns (text_row <$> (first ++ rest))), s').
Proof.
  intros Hc Hr Hn Hs Hf. apply list.Forall_app in Hr as [Hrf Hrr].
  assert (Hw : 0 < length columns) by (destruct columns; [done|cbn; lia]).
  rewrite length_app in *.
  destruct (result_set_fields columns (length first + length rest) first handle)
    as (Ep & Ed & Et & Em & Eh); [lia|lia|intros h ->; apply Hs|].
  unfold parse_result_set. set (rs := result_set_json _ _ _ _) in *.
  apply (bind_step _ _ _ rs s); [done|]. cbv zeta.
  eapply bind_step; [unfold lift; by rewrite Ep|].
  rewrite Ed, Et, Em, Eh, transpose_roundtrip, fmap_app by done. cbn [default].
  destruct handle as [h|]; cbn [serves_rest] in Hs.
  - destruct Hs as [_ Hs].
    apply serves_rows_chunks in Hs as (chunks & Hsv & Hrows & Hl); [|done..|lia].
    rewrite <- Hrows. eapply bind_step; [|done]. eapply fetch_loop_collects; [exact Hsv|lia].
  - destruct Hs as [-> ->]. by rewrite app_nil_r.
Qed.

Lemma ws_execute_rows k sql s s1 columns first rest handle s2 fuel :
  columns <> [] -> Forall (fun row => length row = length columns) (first ++ rest) ->
  (Z.of_nat (length (first ++ rest)) <= u64_max)%Z ->
  responds k (execute_request sql) s
    (answer_json (rows_result
       (result_set_json columns (length (first ++ rest)) first handle))) s1 ->
  serves_rest k handle (length columns) (length first) s1 rest s2 ->
  k + length rest < fuel ->
  ws_execute fuel sql s = (Ok (TypedRows columns (text_row <$> (first ++ rest))), s2).
Proof.
  intros Hc Hr Hn (ret & E & Hd) Hs Hf.
  unfold ws_execute. eapply bind_step; [eapply request_mono, E; lia|].
  cbn [json_pointer]. destruct ret; try done. rewrite Hd.
  eapply bind_step; [done|]. eapply bind_step; [done|]. by eapply parse_rows.
Qed.

(** C29: a statement comes back with the whole answer.  When the server answers the
    execute request with a result set, its first rows, and sends the others on fetch
    requests, in pages of any size, the transport returns the columns and all rows in
    their order, each value as its text; and when it answers with a row count, that. *)
Theorem ws_execute_answers k sql s s1 fuel :
  (forall columns first rest handle s2,
     columns <> [] -> Forall (fun row => length row = length columns) (first ++ rest) ->
     (Z.of_nat (length (first ++ rest)) <= u64_max)%Z ->
     responds k (execute_request sql) s
       (answer_json (rows_result
          (result_set_json columns (length (first ++ rest)) first handle))) s1 ->
     serves_rest k handle (length columns) (length first) s1 rest s2 ->
     k + length rest < fuel ->
     ws_execute fuel sql s = (Ok (TypedRows columns (text_row <$> (first ++ rest))), s2))
  /\ (forall n, is_i64 n ->
     responds k (execute_request sql) s (answer_json (count_result n)) s1 -> k <= fuel ->
     ws_execute fuel sql s = (Ok (RowCount n), s1)
     /\ ws_execute_update fuel sql s = (Ok tt, s1)).
Proof.
  split.
  - intros. by eapply ws_execute_rows.
  - intros n Hn (ret & E & Hd) Hf.
    assert (Hx : ws_execute fuel sql s = (Ok (RowCount n), s1)).
    { unfold ws_execute. eapply bind_step; [eapply request_mono, E; lia|].
      cbn [json_pointer]. destruct ret; try done. rewrite Hd.
      eapply bind_step; [done|]. eapply bind_step; [done|].
      change (mret (M := ws_m) (RowCount (default 0%Z (json_as_i64 (JInt n)))) s1
              = (Ok (RowCount n), s1)).
      cbn. by rewrite (proj2 (Z.leb_le _ _)), (proj2 (Z.leb_le _ _)) by (unfold_bounds; lia). }
    split; [done|]. by eapply bind_step.
Qed.
End results.

(** ** A table of three rows, two of them in the answer *)

Definition ex_columns : list ExasolColumn :=
  [{| column_name := lit "X"; column_data_type := obj [("type", JString (lit "DECIMAL"))]%string |};
   {| column_name := lit "NOTE"; column_data_type := obj [("type", JString (lit "VARCHAR"))]%string |}].
Definition ex_first : list (list json) :=
  [[JInt 1; JString (lit "one")]; [JInt 2; JNull]].
Definition ex_rest : list (list json) := [[JInt 3; JBool true]].

Definition ex_response (data : json) : json :=
  obj [("status", JString (lit "ok")); ("responseData", data)]%string.
Definition ex_answer_data : json :=
  answer_json (rows_result (result_set_json ex_columns 3 ex_first (Some 7%Z))).
(** What the texts of the server say; the server is the texts it will send. *)
Definition paged_json : JsonLib :=
  {| json_render _ := [];
     json_parse t :=
       if str_eqb t (lit "answer") then Some (ex_response ex_answer_data)
       else if str_eqb t (lit "page") then Some (ex_response (page_json 2 ex_rest))
       else if str_eqb t (lit "count") then Some (ex_response (answer_json (count_result 5)))
       else None |}.
Definition paged_ws : WsLib :=
  {| ws := list str; ws_send _ s := (Ok tt, s);
     ws_next s := match s with t :: s => (WsMessage (MText t), s) | [] => (WsClosed, []) end;
     ws_close s := s; encrypt _ p := Ok p; sha256_hex _ := [] |}.
#[local] Existing Instance paged_json.
#[local] Existing Instance paged_ws.
#[local] Existing Instance list_arrow.
#[local] Existing Instance dev_profile.

Definition ex_server : ws := [lit "answer"; lit "page"].
Definition ex_answered : ws := [lit "page"].
Definition ex_drained : ws := [].
Definition ex_counting : ws := [lit "count"].

Lemma ex_responds : responds 1 (execute_request (lit "select x, note from t"))
                      ex_server ex_answer_data ex_answered.
Proof. exists (ex_response ex_answer_data). split; vm_compute; reflexivity. Qed.

Lemma ex_serves : serves_rest 1 (Some 7%Z) 2 2 ex_answered ex_rest ex_drained.
Proof.
  split; [done|].
  apply (rows_page 1 7 2 2 ex_answered ex_rest [] ex_drained ex_drained); [done| |apply rows_done].
  exists (ex_response (page_json 2 ex_rest)). split; vm_compute; reflexivity.
Qed.

Lemma ws_execute_answers_witness :
  ws_execute 9 (lit "select x, note from t") ex_server
  = (Ok (TypedRows ex_columns
           [[Some (lit "1"); Some (lit "one")]; [Some (lit "2"); None];
            [Some (lit "3"); Some (lit "t")]]), ex_drained)
  /\ ws_execute_update 9 (lit "insert into t values (1)") ex_counting = (Ok tt, ex_drained).
Proof.
  split.
  - destruct (ws_execute_answers 1 (lit "select x, note from t") ex_server ex_answered 9) as [Hr _].
    apply (Hr ex_columns ex_first ex_rest (Some 7%Z) ex_drained).
    + done.
    + repeat constructor.
    + vm_compute. done.
    + exact ex_responds.
    + exact ex_serves.
    + cbn. lia.
  - destruct (ws_execute_answers 1 (lit "insert into t values (1)") ex_counting ex_drained 9) as [_ Hn].
    apply (Hn 5%Z); [done| |lia].
    exists (ex_response (answer_json (count_result 5))). split; vm_compute; reflexivity.
Defined.
