(* ===== verification/ExasolSession.v ===== *)
(** * Exasol sessions (src/src/exasol/mod.rs, [ExasolSession])

    The transport trait as a class, the two transports of the program as its
    instance, and the operations of a session on top of the class: opening it,
    running the configured initialization statements, executing. *)

From S2P Require Import Prelude RustStr RustInt Arrow Plan Config Exasol WebSocket.
#[local] Open Scope nat_scope.

(** [trait ExasolTransport]: the methods change the transport they run on. *)
Class ExasolTransport (T : Type) `{ArrowLib} := {
  execute : str -> stateful T ExasolError ExasolOutcome;
  execute_update : str -> stateful T ExasolError unit;
  close : stateful T ExasolError unit }.

(** The text of the error of [Transport::from_config] (a boxed string). *)
Definition ConfigError_to_string (e : ConfigError) : str :=
  match e with InvalidConfig m => m | _ => [] end.

(** ** The two transports *)

(** [exarrow_rs]: errors are the driver's, known by their text; a failed
    authentication is told apart. *)
Inductive ConnectionError :=
| AuthenticationFailed (msg : str)
| OtherConnectionError (shown : str).

Class ExarrowLib `{ArrowLib} := {
  conn : Type;
  params_build : ConnectionParams -> outcome str ConnectionParams;
  conn_from_params : ConnectionParams -> outcome ConnectionError conn;
  conn_execute : str -> conn -> outcome str ResultSet * conn;
  conn_execute_update : str -> conn -> outcome str unit * conn;
  conn_close : conn -> outcome str unit * conn }.

Definition map_connection_error (e : ConnectionError) : ExasolError :=
  match e with
  | AuthenticationFailed msg => Authentication msg
  | OtherConnectionError shown => Connection shown
  end.

Section transports.
Context `{BuildProfile} `{ArrowLib} `{JsonLib} `{WsLib} `{!ExarrowLib}.

(** [ArrowTransport::connect]. *)
Definition arrow_connect (config : ExasolConfig) (endpoint : EndpointConnection)
    (username password : str) : outcome ExasolError conn :=
  params ← map_err Connection
             (params_build (to_connection_params endpoint config username password));
  map_err map_connection_error (conn_from_params params).

(** [Box<dyn ExasolTransport>]. *)
Inductive AnyTransport :=
| ArrowTransport (c : conn)
| WebSocketTransport (s : ws).

Definition on_arrow {E A B} (f : outcome E A -> outcome ExasolError B)
    (m : conn -> outcome E A * conn) (c : conn) : outcome ExasolError B * AnyTransport :=
  let '(r, c) := m c in (f r, ArrowTransport c).
Definition on_ws {A} (m : ws -> outcome ExasolError A * ws) (s : ws)
    : outcome ExasolError A * AnyTransport :=
  let '(r, s) := m s in (r, WebSocketTransport s).

(** A call of either transport, by dynamic dispatch. *)
#[export] Instance AnyTransport_transport (fuel : nat) : ExasolTransport AnyTransport := {
  execute sql t :=
    match t with
    | ArrowTransport c => on_arrow arrow_execute (conn_execute sql) c
    | WebSocketTransport s => on_ws (ws_execute fuel sql) s
    end;
  execute_update sql t :=
    match t with
    | ArrowTransport c => on_arrow arrow_execute_update (conn_execute_update sql) c
    | WebSocketTransport s => on_ws (ws_execute_update fuel sql) s
    end;
  close t :=
    match t with
    | ArrowTransport c => on_arrow arrow_close conn_close c
    | WebSocketTransport s => on_ws ws_disconnect s
    end }.

(** [ExasolSession::connect]. *)
Definition session_connect (fuel : nat) (env : ClientEnv)
    (open : str -> Z -> str -> Connector -> outcome str ws)
    (config : ExasolConfig) (username password : str) : outcome ExasolError AnyTransport :=
  endpoint ← endpoint_parse (dsn config) config;
  transport ← map_err (Connection ∘ ConfigError_to_string) (from_config config);
  match transport with
  | Arrow =>
      c ← arrow_connect config endpoint username password; Ok (ArrowTransport c)
  | WebSocket =>
      s ← ws_connect fuel env config endpoint username password open; Ok (WebSocketTransport s)
  end.
End transports.

(** ** [ExasolSession::initialize] *)

Section session.
Context `{ArrowLib} {T : Type} `{!ExasolTransport T}.

(** The statement of a template. *)
Definition init_statement (script template : str) : str :=
  replace (lit "{script}") script template.

(** The loop over the templates: it ends at the first statement that fails. *)
Fixpoint initialize (session_init_sql : list str) (script : str)
    : stateful T ExasolError unit :=
  match session_init_sql with
  | [] => mret tt
  | template :: rest =>
      _ ← execute_update (init_statement script template); initialize rest script
  end.
End session.
