(* ===== verification/ExampleTool.v ===== *)
(** * The reproducer of the driver's parameter binding
    (src/examples/question_mark_repro.rs)

    It connects with the parameters of its environment and runs three statements, one
    after the other, whatever each of them gives; what it does is the lines it prints.
    The driver is [ExarrowLib] of ExasolSession.v, [debug] its debugging output of an
    error. *)

From S2P Require Import Prelude RustStr RustInt Arrow Plan Config Exasol Cursor WebSocket.
From S2P Require Import ExasolSession.
#[local] Open Scope nat_scope.

Section example.
Context `{ArrowLib} `{!ExarrowLib}.
Variable debug : str -> str.

Definition newline : str := [10]%N.

(** [batch.column(0)] panics when there is none; the text of a null is empty. *)
Definition first_cell (batches : list RecordBatch) : outcome str (list str) :=
  match batches with
  | batch :: _ =>
      if 0 <? num_rows batch then
        match batch_columns batch !! 0 with
        | None => Panic
        | Some column =>
            let value :=
              match formatter_error column, mjoin (array_cells column !! 0) with
              | Some _, _ => lit "<format error>"
              | None, None => []
              | None, Some c =>
                  match cell_text c with inl text => text | inr _ => lit "<format error>" end
              end in
            Ok [lit "  first cell: " ++ value]
        end
      else Ok []
  | [] => Ok []
  end.

(** What [run_case] prints of the result. *)
Definition case_lines (answer : outcome str ResultSet) : outcome str (list str) :=
  match answer with
  | Ok rs =>
      match rs_row_count rs with
      | Some rows => Ok [lit "  OK  row_count=" ++ show_int rows ++ newline]
      | None =>
          match rs_fetch_all rs with
          | Ok batches =>
              cell ← first_cell batches;
              Ok ((lit "  OK  " ++ show_int (Z.of_nat (total_rows batches))
                   ++ lit " row(s) returned") :: cell ++ [[]])
          | Err err => Ok [lit "  ERR fetch_all: " ++ debug err ++ newline]
          | Panic => Panic
          | OutOfFuel => OutOfFuel
          end
      end
  | Err err => Ok [lit "  ERR " ++ debug err; lit "  Display: " ++ err ++ newline]
  | Panic => Panic
  | OutOfFuel => OutOfFuel
  end.

Definition run_case (label sql : str) : stateful conn str (list str) := fun c =>
  let '(answer, c) := conn_execute sql c in
  (lines ← case_lines answer;
   Ok ([lit "[" ++ label ++ lit "]"; lit "  SQL: " ++ sql] ++ lines), c).

(** [expect]: an error ends the program. *)
Definition expect_ok {E A} (o : outcome E A) : outcome str A :=
  match o with Ok a => Ok a | OutOfFuel => OutOfFuel | _ => Panic end.

Definition repro_endpoint (dsn : str) : outcome str (str * Z) :=
  match rsplit_once 58 dsn with
  | None => Panic
  | Some (host, port) =>
      match parse_u16 port with Some port => Ok (host, port) | None => Panic end
  end.

Definition repro_params (host user password : str) (port : Z) : ConnectionParams :=
  {| params_host := host; params_port := port; params_username := user;
     params_password := password; params_use_tls := true;
     params_validate_server_certificate := false; params_certificate_fingerprint := None;
     params_schema := None |}.

Definition repro_cases : list (str * str) :=
  [(lit "1. control (no question mark)", lit "SELECT 'no question mark here'");
   (lit "2. literal ? inside string", lit "SELECT 'this has a ?'");
   (lit "3. literal ? inside LIKE pattern",
    lit "SELECT 1 FROM DUAL WHERE 'a?b' LIKE '%?%'")].

Fixpoint run_cases (cases : list (str * str)) : stateful conn str (list str) :=
  match cases with
  | [] => mret []
  | (label, sql) :: cases =>
      lines ← run_case label sql;
      rest ← run_cases cases;
      mret (lines ++ rest)
  end.

(** [main]; [env] is the environment. *)
Definition repro_main (env : str -> option str) : outcome str (list str * conn) :=
  let dsn := default (lit "127.0.0.1:9564") (env (lit "DSN")) in
  let user := default (lit "sys") (env (lit "USER")) in
  let password := default (lit "exasol") (env (lit "PASSWORD")) in
  '(host, port) ← repro_endpoint dsn;
  params ← expect_ok (params_build (repro_params host user password port));
  c ← expect_ok (conn_from_params params);
  let '(lines, c) := run_cases repro_cases c in
  lines ← lines;
  Ok ([lit "--- exarrow-rs 0.12.2: ? in SQL literal reproducer ---";
       lit "Connecting to " ++ host ++ lit ":" ++ show_int port ++ lit " as " ++ user ++ lit " ...";
       lit "Connected." ++ newline] ++ lines,
      (conn_close c).2).

(** A case never ends the run, unless a result has rows without columns. *)
Lemma run_case_returns label sql c :
  returns (conn_execute sql c).1 ->
  (forall rs, (conn_execute sql c).1 = Ok rs -> returns (rs_fetch_all rs)
     /\ forall batches, rs_fetch_all rs = Ok batches ->
          Forall (fun batch => batch_columns batch <> []) batches) ->
  exists lines, run_case label sql c = (Ok lines, (conn_execute sql c).2).
Proof.
  intros Hx Hrs. unfold run_case. destruct (conn_execute sql c) as [answer c'].
  cbn [fst snd] in *. destruct answer as [rs|e| |]; try done; [|by eexists].
  destruct (Hrs rs eq_refl) as [Hf Hb]. cbn [case_lines].
  destruct (rs_row_count rs); [by eexists|].
  destruct (rs_fetch_all rs) as [batches|e| |]; try done; [|by eexists].
  specialize (Hb batches eq_refl). destruct Hb as [|batch batches Hne _]; [by eexists|].
  cbn [first_cell]. case_match; [|by eexists]. destruct (batch_columns batch); [done|by eexists].
Qed.
End example.
