(* ===== verification/Bootstrap.v ===== *)
(** * Bootstrap (src/src/bootstrap.rs)

    The interactive installation: asking questions, writing the configuration,
    checking which compatibility objects exist, and running the installation script
    statement by statement.  The console is the list of lines still to be read (an
    empty line once they are used up); what is printed is left out.  The texts of
    the two SQL scripts are parameters. *)

From S2P Require Import Prelude RustStr RustInt Arrow Plan Config Exasol ExasolSession.
#[local] Open Scope nat_scope.

(** ** Splitting a script *)

Definition LF : str := [10%N].

Definition non_empty (s : str) (rest : list str) : list str :=
  match s with [] => rest | _ => s :: rest end.

(** The line opens a function or a script, whose body ends with a line [/]. *)
Definition opens_compound (stripped : str) : bool :=
  let upper := to_ascii_uppercase stripped in
  let padded := lit " " ++ upper ++ lit " " in
  starts_with (lit "CREATE") upper
  && (contains (lit " FUNCTION ") padded || contains (lit " SCRIPT ") padded).

Definition simple_statement (buffer : list str) : str :=
  trim (trim_end_matches (N.eqb 59) (trim (join LF buffer))).

(** The loop over the lines, with the buffer and the flag. *)
Fixpoint split_lines_go (buffer : list str) (in_compound_statement : bool)
    (lines : list str) : list str :=
  match lines with
  | [] => non_empty (simple_statement buffer) []
  | raw_line :: rest =>
      let stripped := trim raw_line in
      if str_eqb stripped (lit "--/") then split_lines_go buffer in_compound_statement rest
      else if bool_decide (buffer = [])
              && (bool_decide (stripped = []) || starts_with (lit "--") stripped)
      then split_lines_go buffer in_compound_statement rest
      else
        let buffer := buffer ++ [raw_line] in
        let in_compound_statement := in_compound_statement || opens_compound stripped in
        if in_compound_statement && str_eqb stripped (lit "/")
        then non_empty (trim (join LF (removelast buffer))) (split_lines_go [] false rest)
        else if negb in_compound_statement && ends_with (lit ";") stripped
        then non_empty (simple_statement buffer) (split_lines_go [] in_compound_statement rest)
        else split_lines_go buffer in_compound_statement rest
  end.
Definition split_exasol_sql (sql_text : str) : list str :=
  split_lines_go [] false (lines sql_text).

Definition preview_statement (sql : str) : str :=
  let one_line := join (lit " ") (split_whitespace sql) in
  if length one_line <=? 80 then one_line else take 77 one_line ++ lit "...".

(** ** Counts *)

Section counts.
Context `{ArrowLib}.
(** The message about a text that is not an integer. *)
Variable unparsable : str -> str.

Definition parse_count_string (rendered : str) : outcome ExasolError Z :=
  let trimmed := trim rendered in
  let integer_part := match split_once 46 trimmed with Some (head, _) => head | None => trimmed end in
  ok_or (Execution (unparsable rendered)) (parse_i64 integer_part).

Definition render_first_cell (array : ArrayRef) : outcome ExasolError str :=
  match formatter_error array with
  | Some err => Err (Execution (lit "cannot format schema check column: " ++ err))
  | None =>
      match array_cells array !! 0 with
      | Some (Some c) =>
          match cell_text c with
          | inl text => Ok text
          | inr err => Err (Execution (lit "cannot render schema check value: " ++ err))
          end
      | Some None => Ok []
      | None => Panic
      end
  end.

Definition read_first_scalar_as_i64 (batch : RecordBatch) : outcome ExasolError Z :=
  if num_rows batch =? 0 then Err (Execution (lit "schema check result set was empty"))
  else match batch_columns batch with
       | [] => Err (Execution (lit "schema check result set had no columns"))
       | column :: _ =>
           match mjoin (array_cells column !! 0) with
           | None => Err (Execution (lit "schema check returned a NULL count"))
           | Some c =>
               match array_type column with
               | DtInt64 => Ok (cell_i64 c)
               | _ => rendered ← render_first_cell column; parse_count_string rendered
               end
           end
       end.

Definition count_value (answer : ExasolOutcome) : outcome ExasolError Z :=
  match answer with
  | ArrowRows [] => Err (Execution (lit "schema check returned no result batches"))
  | ArrowRows (batch :: _) => read_first_scalar_as_i64 batch
  | TypedRows [] _ => Err (Execution (lit "schema check result set had no columns"))
  | TypedRows _ rows =>
      match head rows ≫= head with
      | None => Err (Execution (lit "schema check result set was empty"))
      | Some None => Err (Execution (lit "schema check returned a NULL count"))
      | Some (Some rendered) => parse_count_string rendered
      end
  | RowCount _ =>
      Err (Execution (lit "schema check returned row count instead of result set"))
  end.

Definition first_count (answer : ExasolOutcome) : outcome ExasolError Z :=
  value ← count_value answer;
  if (value <? 0)%Z
  then Err (Execution (lit "schema check returned negative count value: " ++ show_int value))
  else Ok value.
End counts.

(** ** The console *)

Definition console : Type := list str.
Definition console_m (E A : Type) : Type := stateful console E A.

(** [read_line] and the trimming of the answer. *)
Definition prompt_optional {E} : console_m E str := fun c =>
  match c with [] => (Ok [], []) | line :: c => (Ok (trim line), c) end.

Definition prompt_with_default {E} (default_ : str) : console_m E str :=
  value ← prompt_optional;
  mret (match trim value with [] => default_ | _ => value end).

Fixpoint prompt_required {E} (fuel : nat) : console_m E str :=
  match fuel with
  | O => lift OutOfFuel
  | S fuel =>
      value ← prompt_optional;
      match trim value with [] => prompt_required fuel | _ => mret value end
  end.

Fixpoint confirm {E} (fuel : nat) (default_ : bool) : console_m E bool :=
  match fuel with
  | O => lift OutOfFuel
  | S fuel =>
      value ← prompt_optional;
      match value with
      | [] => mret default_
      | _ =>
          let answer := to_ascii_lowercase value in
          if one_of answer ["y"; "yes"]%string then mret true
          else if one_of answer ["n"; "no"]%string then mret false
          else confirm fuel default_
      end
  end.

(** The loop that asks for the port. *)
Fixpoint prompt_port {E} (fuel : nat) : console_m E str :=
  match fuel with
  | O => lift OutOfFuel
  | S fuel =>
      value ← prompt_with_default (lit "15432");
      match parse_u16 value with Some _ => mret value | None => prompt_port fuel end
  end.

(** [toml_escape]: backslashes, then double quotes. *)
Definition toml_escape (value : str) : str :=
  replace (lit "`") (lit "\`") (replace (lit "\") (lit "\\") value).

Definition show_bool (b : bool) : str := if b then lit "true" else lit "false".
Definition toml_line (key value : str) : str := key ++ lit " = " ++ value ++ LF.
Definition toml_quoted (value : str) : str := lit "`" ++ toml_escape value ++ lit "`".

(** The text of a new configuration file. *)
Definition config_text (listen_host listen_port log_level dsn : str) (encryption : bool)
    (certificate_fingerprint : str) (validate_certificate : bool) (schema : str) : str :=
  lit "[server]" ++ LF
  ++ toml_line (lit "listen_host") (toml_quoted listen_host)
  ++ toml_line (lit "listen_port") (trim listen_port)
  ++ toml_line (lit "log_level") (toml_quoted log_level) ++ LF
  ++ lit "[exasol]" ++ LF
  ++ toml_line (lit "dsn") (toml_quoted dsn)
  ++ toml_line (lit "encryption") (show_bool encryption)
  ++ toml_line (lit "certificate_fingerprint") (toml_quoted certificate_fingerprint)
  ++ toml_line (lit "validate_certificate") (show_bool validate_certificate)
  ++ toml_line (lit "pass_client_credentials") (lit "true")
  ++ toml_line (lit "schema") (toml_quoted schema) ++ LF
  ++ lit "[translation]" ++ LF ++ toml_line (lit "enabled") (lit "true").

Definition prompt_config {E} (fuel : nat) : console_m E str :=
  listen_host ← prompt_with_default (lit "0.0.0.0");
  listen_port ← prompt_port fuel;
  log_level ← prompt_with_default (lit "INFO");
  dsn ← prompt_required fuel;
  encryption ← confirm fuel true;
  certificate_fingerprint ← prompt_optional;
  validate_certificate ←
    (if bool_decide (certificate_fingerprint = []) then confirm fuel true else mret true);
  schema ← prompt_optional;
  mret (config_text listen_host listen_port log_level dsn encryption certificate_fingerprint
          validate_certificate schema).

(** ** Installing *)

Section install.
Context `{ArrowLib} {T : Type} `{!ExasolTransport T}.
Variable unparsable : str -> str.
Variables CATALOG_SQL PREPROCESSOR_SQL : str.

Definition session_m (A : Type) : Type := stateful T ExasolError A.

(** The loop of [execute_exasol_script]; it ends at the first failure. *)
Fixpoint execute_statements (statements : list str) : session_m unit :=
  match statements with
  | [] => mret tt
  | statement :: rest => _ ← execute statement; execute_statements rest
  end.
Definition execute_exasol_script (sql_text : str) : session_m unit :=
  execute_statements (split_exasol_sql sql_text).
Definition install_catalog : session_m unit := execute_exasol_script CATALOG_SQL.

Definition installed_schema_count : session_m Z :=
  outcome ← execute (lit "SELECT COUNT(*) FROM SYS.EXA_SCHEMAS WHERE SCHEMA_NAME IN ('PG_CATALOG', 'INFORMATION_SCHEMA')");
  lift (first_count unparsable outcome).

(** The console and the session of the bootstrap. *)
Definition boot_m (A : Type) : Type := stateful (console * T) ExasolError A.
Definition on_console {A} (m : console_m ExasolError A) : boot_m A := fun s =>
  let '(r, c) := m s.1 in (r, (c, s.2)).
Definition on_session {A} (m : session_m A) : boot_m A := fun s =>
  let '(r, t) := m s.2 in (r, (s.1, t)).

Definition ensure_optional_preprocessor (fuel : nat) (configured_script : str) : boot_m unit :=
  let script := to_ascii_uppercase (trim configured_script) in
  if negb (str_eqb script (lit "PG_CATALOG.PG_SQL_PREPROCESSOR")) then mret tt
  else
    outcome ← on_session (execute (lit "SELECT COUNT(*) FROM SYS.EXA_ALL_SCRIPTS WHERE SCRIPT_SCHEMA = 'PG_CATALOG' AND SCRIPT_NAME = 'PG_SQL_PREPROCESSOR'"));
    count ← lift (first_count unparsable outcome);
    if (count =? 1)%Z then mret tt
    else
      install ← on_console (confirm fuel false);
      if install : bool then on_session (execute_exasol_script PREPROCESSOR_SQL) else mret tt.

(** The part of [run_interactive_bootstrap] after the login. *)
Definition bootstrap_session (fuel : nat) (config : AppConfig) : boot_m unit :=
  schemas ← on_session installed_schema_count;
  _ ← (if (schemas <? 2)%Z
       then install ← on_console (confirm fuel true);
            if install : bool then on_session install_catalog else mret tt
       else refresh ← on_console (confirm fuel false);
            if refresh : bool then on_session install_catalog else mret tt);
  if negb (is_blank (sql_preprocessor_script (translation config)))
  then ensure_optional_preprocessor fuel (sql_preprocessor_script (translation config))
  else mret tt.
End install.

Example ex_split : split_exasol_sql (lit "-- head
CREATE SCHEMA A;
--/
CREATE FUNCTION f()
  x;
/
select 1") = [lit "CREATE SCHEMA A"; lit "CREATE FUNCTION f()
  x;"; lit "select 1"].
Proof. vm_compute. reflexivity. Qed.
