(* ===== verification/Cli.v ===== *)
(** * Command lines (src/src/main.rs, src/src/bin/exasol_exec.rs)

    The arguments of the server and of the query tool, and the table the query tool
    prints. *)

From S2P Require Import Prelude RustStr RustInt Arrow Plan Config Exasol Responses.
#[local] Open Scope nat_scope.

(** ** The server *)

Inductive BootstrapMode := Interactive | Skip.
Record CliArgs := { config_path : option str; bootstrap_mode : BootstrapMode }.

(** The result of reading arguments: [None] is a request for help, after which the
    process ends. *)
Fixpoint parse_args_go (args : list str) (parsed : CliArgs) : outcome str (option CliArgs) :=
  match args with
  | [] => Ok (Some parsed)
  | arg :: rest =>
      if str_eqb arg (lit "--config") then
        match rest with
        | [] => Err (lit "missing value for --config")
        | path :: rest =>
            parse_args_go rest {| config_path := Some path; bootstrap_mode := bootstrap_mode parsed |}
        end
      else if str_eqb arg (lit "--no-bootstrap")
      then parse_args_go rest {| config_path := config_path parsed; bootstrap_mode := Skip |}
      else if one_of arg ["--help"; "-h"]%string then Ok None
      else Err (lit "unknown argument: " ++ arg)
  end.
Definition parse_args (args : list str) : outcome str (option CliArgs) :=
  parse_args_go args {| config_path := None; bootstrap_mode := Interactive |}.

(** Whether [setup_tls] loads a certificate. *)
Definition tls_configured (config : AppConfig) : bool :=
  negb (is_blank (tls_cert_path (server config))).

(** ** The query tool *)

Record ExecArgs := {
  exec_dsn : str; exec_user : str; exec_password : str; exec_schema : str;
  exec_fingerprint : str; exec_validate : bool; exec_sql : option str;
  exec_file : option str; exec_transport : str; exec_repeat : Z }.

Definition exec_defaults : ExecArgs :=
  {| exec_dsn := []; exec_user := []; exec_password := []; exec_schema := [];
     exec_fingerprint := []; exec_validate := true; exec_sql := None; exec_file := None;
     exec_transport := DEFAULT_TRANSPORT; exec_repeat := 1 |}.

(** The flags that take a text, and where it goes. *)
Definition exec_text_flag (flag : str) (a : ExecArgs) : option (str -> ExecArgs) :=
  let '{| exec_dsn := d; exec_user := u; exec_password := p; exec_schema := sc;
          exec_fingerprint := fp; exec_validate := v; exec_sql := q; exec_file := f;
          exec_transport := t; exec_repeat := r |} := a in
  if str_eqb flag (lit "--dsn") then Some (fun x => Build_ExecArgs x u p sc fp v q f t r)
  else if str_eqb flag (lit "--user") then Some (fun x => Build_ExecArgs d x p sc fp v q f t r)
  else if str_eqb flag (lit "--password") then Some (fun x => Build_ExecArgs d u x sc fp v q f t r)
  else if str_eqb flag (lit "--schema") then Some (fun x => Build_ExecArgs d u p x fp v q f t r)
  else if str_eqb flag (lit "--transport") then Some (fun x => Build_ExecArgs d u p sc fp v q f x r)
  else if str_eqb flag (lit "--fingerprint") then Some (fun x => Build_ExecArgs d u p sc x v q f t r)
  else if str_eqb flag (lit "--sql")
  then Some (fun x => Build_ExecArgs d u p sc fp v (Some x) f t r)
  else if str_eqb flag (lit "--file")
  then Some (fun x => Build_ExecArgs d u p sc fp v q (Some x) t r)
  else None.

Definition set_repeat (n : Z) (a : ExecArgs) : ExecArgs :=
  Build_ExecArgs (exec_dsn a) (exec_user a) (exec_password a) (exec_schema a)
    (exec_fingerprint a) (exec_validate a) (exec_sql a) (exec_file a) (exec_transport a) n.
Definition no_verify (a : ExecArgs) : ExecArgs :=
  Build_ExecArgs (exec_dsn a) (exec_user a) (exec_password a) (exec_schema a)
    (exec_fingerprint a) false (exec_sql a) (exec_file a) (exec_transport a) (exec_repeat a).

(** The argument loop; the message about a bad number is the standard library's, an
    empty text here. *)
Fixpoint exec_args_go (args : list str) (a : ExecArgs) : outcome str (option ExecArgs) :=
  match args with
  | [] => Ok (Some a)
  | arg :: rest =>
      let missing := Err (lit "missing value for " ++ arg) in
      match exec_text_flag arg a with
      | Some set =>
          match rest with [] => missing | x :: rest => exec_args_go rest (set x) end
      | None =>
          if str_eqb arg (lit "--repeat") then
            match rest with
            | [] => missing
            | x :: rest => match parse_usize x with
                           | Some n => exec_args_go rest (set_repeat n a)
                           | None => Err []
                           end
            end
          else if str_eqb arg (lit "--no-verify") then exec_args_go rest (no_verify a)
          else if one_of arg ["--help"; "-h"]%string then Ok None
          else Err (lit "unknown argument: " ++ arg)
      end
  end.

(** The checks after the loop: where the statement comes from, and the connection it
    is run on. *)
Definition exec_source (a : ExecArgs) : outcome str (str + str) :=
  if bool_decide (exec_dsn a = []) || bool_decide (exec_user a = [])
     || bool_decide (exec_password a = [])
  then Err (lit "required: --dsn --user --password")
  else match exec_sql a, exec_file a with
       | Some sql, None => Ok (inl sql)
       | None, Some path => Ok (inr path)
       | Some _, Some _ => Err (lit "pass either --sql or --file, not both")
       | None, None => Err (lit "required: --sql or --file")
       end.
Definition exec_config (a : ExecArgs) : ExasolConfig :=
  {| dsn := exec_dsn a; encryption := true; certificate_fingerprint := exec_fingerprint a;
     validate_certificate := exec_validate a; pass_client_credentials := true;
     schema := exec_schema a; transport := exec_transport a |}.

(** *** What it prints *)

Section table.
Context `{ArrowLib}.

Definition TAB : str := [9%N].

(** A cell of a batch; one that cannot be rendered shows as nothing. *)
Definition exec_cell (col : ArrayRef) (row_idx : nat) : str :=
  match mjoin (array_cells col !! row_idx) with
  | None => []
  | Some c => match formatter_error col with
              | Some _ => []
              | None => match cell_text c with inl text => text | inr _ => [] end
              end
  end.

Definition exec_table (o : ExasolOutcome) : list str :=
  match o with
  | RowCount count => [lit "row_count=" ++ show_int count]
  | ArrowRows batches =>
      (match batches with
       | first :: _ => [join TAB (field_name <$> batch_schema first)]
       | [] => []
       end)
      ++ (batches ≫= fun batch =>
            (fun row_idx => join TAB ((fun col => exec_cell col row_idx) <$> batch_columns batch))
            <$> seq 0 (num_rows batch))
  | TypedRows columns rows =>
      join TAB (column_name <$> columns)
      :: ((fun row => join TAB (default [] <$> row)) <$> rows)
  end.

Definition rows_in (o : ExasolOutcome) : nat :=
  match o with
  | RowCount _ => 0
  | ArrowRows batches => sum_list (num_rows <$> batches)
  | TypedRows _ rows => length rows
  end.
End table.

(** ** Properties *)

Inductive server_flag := FConfig (path : str) | FNoBootstrap.
Definition flag_args (f : server_flag) : list str :=
  match f with FConfig path => [lit "--config"; path] | FNoBootstrap => [lit "--no-bootstrap"] end.
Definition apply_flag (a : CliArgs) (f : server_flag) : CliArgs :=
  match f with
  | FConfig path => {| config_path := Some path; bootstrap_mode := bootstrap_mode a |}
  | FNoBootstrap => {| config_path := config_path a; bootstrap_mode := Skip |}
  end.

(** The server's arguments are read in order, the last [--config] wins, and a value
    is taken as it is, even when it looks like a flag; an argument that is none of
    the known ones is refused by name. *)
Theorem parse_args_flags flags :
  parse_args (flags ≫= flag_args)
  = Ok (Some (fold_left apply_flag flags {| config_path := None; bootstrap_mode := Interactive |}))
  /\ (forall arg rest, one_of arg ["--config"; "--no-bootstrap"; "--help"; "-h"]%string = false ->
      parse_args ((flags ≫= flag_args) ++ arg :: rest)
      = Err (lit "unknown argument: " ++ arg)).
Proof.
  unfold parse_args. generalize {| config_path := None; bootstrap_mode := Interactive |}.
  intros a. split.
  - revert a. induction flags as [|[path|] flags IH]; intros a; [done| |]; cbn; apply IH.
  - intros arg rest Harg. revert a.
    induction flags as [|[path|] flags IH]; intros a; [|cbn; apply IH|cbn; apply IH].
    unfold one_of in Harg. cbn [existsb] in Harg.
    cbn [mbind list_bind app parse_args_go]. unfold one_of. cbn [existsb].
    destruct (str_eqb arg (lit "--config")); [done|].
    destruct (str_eqb arg (lit "--no-bootstrap")); [done|].
    cbn [orb] in Harg. by rewrite Harg.
Qed.

(** The table of the query tool has a line for every row that was fetched, after one
    line of headings when there is a result set. *)
Theorem exec_table_lines `{ArrowLib} o :
  (forall n, o = RowCount n -> exec_table o = [lit "row_count=" ++ show_int n])
  /\ (forall columns rows, o = TypedRows columns rows -> length (exec_table o) = 1 + rows_in o)
  /\ (forall b bs, o = ArrowRows (b :: bs) -> length (exec_table o) = 1 + rows_in o).
Proof.
  split_and!.
  - by intros n ->.
  - intros columns rows ->. cbn. by rewrite length_fmap.
  - intros b bs ->. cbn [exec_table rows_in]. rewrite length_app. f_equal.
    generalize (b :: bs). intros l. induction l as [|x l IH]; [done|].
    cbn [mbind list_bind]. rewrite length_app, length_fmap, length_seq. csimpl. f_equal. exact IH.
Qed.
