(* ===== verification/Params.v ===== *)
(** * Statements on their way in (src/src/pg_server.rs)

    Splitting a simple query into statements, and putting the bound parameters of a
    portal into its statement as literals. *)

From S2P Require Import Prelude RustStr RustInt Regex Bytes Plan Responses.
#[local] Open Scope nat_scope.

(** ** [split_simple_query] *)

(** A trimmed statement, when there is one. *)
Definition push_statement (s : str) (rest : list str) : list str :=
  match trim s with [] => rest | statement => statement :: rest end.

(** The loop; [cur] is the text since [start], reversed.  A quote doubled inside a
    single-quoted text consumes two characters. *)
Fixpoint split_query_go (in_single in_double : bool) (cur : str) (query : str) : list str :=
  match query with
  | [] => push_statement (rev cur) []
  | ch :: rest =>
      if (ch =? 39)%N && negb in_double then
        match rest with
        | 39%N :: rest' =>
            if in_single then split_query_go in_single in_double (39 :: ch :: cur)%N rest'
            else split_query_go true in_double (ch :: cur) rest
        | _ => split_query_go (negb in_single) in_double (ch :: cur) rest
        end
      else if (ch =? 34)%N && negb in_single
      then split_query_go in_single (negb in_double) (ch :: cur) rest
      else if (ch =? 59)%N && negb in_single && negb in_double
      then push_statement (rev cur) (split_query_go in_single in_double [] rest)
      else split_query_go in_single in_double (ch :: cur) rest
  end.
Definition split_simple_query (query : str) : list str := split_query_go false false [] query.

(** ** Portals *)

(** What the program reads of a [Portal]: its name, its statement with the declared
    parameter types, the bound values ([None] is null), their number as the portal
    reports it and the format of each. *)
Record Portal := {
  portal_name : str;
  portal_statement : str;
  portal_parameter_types : list (option PgType);
  portal_parameters : list (option (list byte));
  portal_parameter_len : nat;
  portal_is_binary : nat -> bool }.

Definition sql_string_literal (value : str) : str :=
  lit "'" ++ replace (lit "'") (lit "''") value ++ lit "'".

(** [format!("${}", idx + 1)]. *)
Definition placeholder (idx : nat) : str := lit "$" ++ show_int (Z.of_nat (idx + 1)).

Definition invalid_binary_parameter (idx : nat) (type_name : str) : PgError :=
  pg_error "08P01"
    (lit "invalid binary prepared statement parameter " ++ show_int (Z.of_nat (idx + 1))
     ++ lit " for PostgreSQL type " ++ type_name).

Definition render_binary_int (width : nat) (bytes : list byte) (t : string) (idx : nat)
    : outcome PgError str :=
  if negb (length bytes =? width) then Err (invalid_binary_parameter idx (lit t))
  else Ok (show_int (read_be_signed bytes)).

Definition render_binary_parameter (bytes : list byte) (pg_type : PgType) (idx : nat)
    : outcome PgError str :=
  match pg_type with
  | BOOL =>
      match bytes with
      | [b] => Ok (if (b =? 0)%Z then lit "FALSE" else lit "TRUE")
      | _ => Err (invalid_binary_parameter idx (lit "bool"))
      end
  | INT2 => render_binary_int 2 bytes "int2" idx
  | INT4 => render_binary_int 4 bytes "int4" idx
  | INT8 => render_binary_int 8 bytes "int8" idx
  | _ =>
      match from_utf8 bytes with
      | inl text => Ok (sql_string_literal text)
      | inr _ => Err (invalid_binary_parameter idx (type_name pg_type))
      end
  end.

Section params.
Context `{BuildProfile} `{RegexEngine}.

Definition PARAM_RE : str := lit "\$(\d+)".

Definition max_parameter_index (sql : str) : option Z :=
  let l := omap (fun cap => cap_get sql cap 1 ≫= parse_usize) (captures_iter PARAM_RE sql) in
  match l with
  | [] => None
  | _ => Some (fold_right Z.max 0%Z l)
  end.

Definition id_column : str :=
  lit "(?:oid|objid|classoid|objoid|attnum|attrelid|atttypid|adrelid|adnum|relnamespace|reltype)".

Definition parameter_appears_in_numeric_context (sql : str) (idx : nat) : bool :=
  let placeholder := escape (lit "$" ++ show_int (Z.of_nat idx)) in
  let numeric_patterns :=
    [lit "(?i)\bLIMIT\s+" ++ placeholder ++ lit "\b";
     lit "(?i)\bOFFSET\s+" ++ placeholder ++ lit "\b";
     lit "(?i)\b" ++ id_column ++ lit "\b\s*(?:=|<>|!=|<|>|<=|>=)\s*" ++ placeholder ++ lit "\b";
     lit "(?i)" ++ placeholder ++ lit "\s*(?:=|<>|!=|<|>|<=|>=)\s*\b" ++ id_column ++ lit "\b"] in
  existsb (fun pattern => is_match pattern sql) numeric_patterns.

(** [vec!] of that many types panics when they are more than [isize::MAX] bytes. *)
Definition types_fit (len : Z) : bool := (type_size * len <=? i64_max)%Z.

Definition infer_parameter_types (sql : str) : outcome PgError (list PgType) :=
  match max_parameter_index sql with
  | None => Ok []
  | Some max_idx =>
      if types_fit max_idx then
        Ok ((fun idx => if parameter_appears_in_numeric_context sql idx then INT4 else TEXT)
            <$> seq 1 (Z.to_nat max_idx))
      else Panic
  end.

Definition render_portal_parameter (portal : Portal) (idx : nat) : outcome PgError str :=
  value ← ok_or (pg_error "08P01" (lit "missing portal parameter "
                                   ++ show_int (Z.of_nat (idx + 1))))
                (portal_parameters portal !! idx);
  match value with
  | None => Ok (lit "NULL")
  | Some bytes =>
      if portal_is_binary portal idx then
        pg_type ← match mjoin (portal_parameter_types portal !! idx) with
                  | Some t => Ok t
                  | None =>
                      types ← infer_parameter_types (portal_statement portal);
                      Ok (default TEXT (types !! idx))
                  end;
        render_binary_parameter bytes pg_type idx
      else
        match from_utf8 bytes with
        | inl text => Ok (sql_string_literal text)
        | inr err => Err (pg_error "08P01" (lit "invalid UTF-8 parameter: "
                                            ++ Utf8Error_to_string err))
        end
  end.

(** The loop of [render_portal_sql] over the indices, highest first. *)
Fixpoint render_portal_go (portal : Portal) (n : nat) (sql : str) : outcome PgError str :=
  match n with
  | O => Ok sql
  | S idx =>
      value ← render_portal_parameter portal idx;
      render_portal_go portal idx (replace (placeholder idx) value sql)
  end.
Definition render_portal_sql (portal : Portal) : outcome PgError str :=
  render_portal_go portal (portal_parameter_len portal) (portal_statement portal).
End params.

Example ex_split_query : split_simple_query (lit " select ';' ; ; insert 'a''b;'; ")
  = [lit "select ';'"; lit "insert 'a''b;'"].
Proof. reflexivity. Qed.
