(* ===== verification/ParamsTheorems.v ===== *)
(** * Theorems about statements and parameters

    Splitting a simple query, reading back the literals the gateway writes and the
    text a client bound, the placeholder that makes parameter inference panic, and
    what the substitution of parameters computes, when it is safe and when it is not. *)

From S2P Require Import Prelude RustStr RustInt Regex Bytes Plan TextScan.
From S2P Require Import PolicyTheorems Responses Params.
#[local] Open Scope nat_scope.

(** ** Splitting *)

(** The pieces between the semicolons outside quotes, quotes read by toggling
    ([quote_step], with single and double quotes). *)
Fixpoint cut (st : bool * bool) (s : str) : list str :=
  match s with
  | [] => [[]]
  | c :: s' =>
      if (c =? 59)%N && negb st.1 && negb st.2 then [] :: cut st s'
      else match cut (quote_step st c) s' with
           | [] => [[c]]
           | p :: ps => (c :: p) :: ps
           end
  end.

(** The trimmed pieces that are not empty. *)
Definition statements (ps : list str) : list str := foldr push_statement [] ps.

Definition prepend (cur : str) (ps : list str) : list str :=
  match ps with [] => [cur] | p :: ps => (cur ++ p) :: ps end.

Lemma cut_not_nil st s : cut st s <> [].
Proof. destruct s; cbn; [done|]. case_match; [done|]. by destruct (cut _ _). Qed.

Lemma cut_cons st c s :
  ((c =? 59)%N && negb st.1 && negb st.2) = false ->
  cut st (c :: s) = prepend [c] (cut (quote_step st c) s).
Proof. intros E. cbn [cut]. rewrite E. by destruct (cut _ _). Qed.

Lemma prepend_app a b ps : ps <> [] -> prepend a (prepend b ps) = prepend (a ++ b) ps.
Proof. destruct ps; [done|]. intros _. cbn. by rewrite app_assoc. Qed.

Lemma prepend_not_nil a ps : prepend a ps <> [].
Proof. by destruct ps. Qed.

Lemma split_query_cut q d cur s :
  split_query_go q d cur s = statements (prepend (rev cur) (cut (d, q) s)).
Proof.
  revert q d cur. induction s as [s IH] using (induction_ltof1 _ length); unfold ltof in IH.
  intros q d cur. destruct s as [|c s]; [cbn; by rewrite app_nil_r|].
  assert (Hstep : forall q' d' s', length s' <= length s ->
    ((c =? 59)%N && negb d && negb q) = false -> quote_step (d, q) c = (d', q') -> s' = s ->
    split_query_go q' d' (c :: cur) s' = statements (prepend (rev cur) (cut (d, q) (c :: s)))).
  { intros q' d' s' Hl E Hst ->. rewrite IH by (simpl; lia). rewrite cut_cons, Hst by done.
    rewrite prepend_app by apply cut_not_nil. done. }
  cbn [split_query_go].
  destruct (c =? 39)%N eqn:E1; [|destruct (c =? 34)%N eqn:E2; [|destruct (c =? 59)%N eqn:E3]];
    cbn [andb].
  - breflect. subst c. destruct d; cbn [negb]; [by apply Hstep|].
    destruct s as [|c' s]; [by apply Hstep|].
    destruct (decide (c' = 39%N)) as [->|Hne].
    + destruct q; [|by apply Hstep].
      rewrite IH by (simpl; lia). rewrite !cut_cons by done. cbn [quote_step N.eqb Pos.eqb andb negb].
      rewrite !prepend_app by (apply cut_not_nil || apply prepend_not_nil).
      cbn [rev]. by rewrite <- !app_assoc.
    + assert (forall X Y : list str, match c' with 39%N => X | _ => Y end = Y) as Hm.
      { intros. destruct c' as [|p]; [done|]. do 6 (destruct p as [p|p|]; try done). }
      rewrite Hm. by apply Hstep; destruct q.
  - breflect. subst c. destruct q; cbn [negb]; by apply Hstep.
  - breflect. subst c. destruct d, q; cbn [negb andb]; try by apply Hstep.
    rewrite IH by (simpl; lia). cbn [cut N.eqb Pos.eqb andb negb fst snd prepend statements foldr rev].
    rewrite app_nil_r. f_equal. fold (statements (cut (false, false) s)).
    destruct (cut (false, false) s) eqn:Ec; [by apply cut_not_nil in Ec|done].
  - apply Hstep; try done. cbn. by rewrite E1, E2.
Qed.

Lemma join_cut st s : join [59%N] (cut st s) = s.
Proof.
  revert st; induction s as [|c s IH]; intros st; [done|]. cbn [cut].
  destruct ((c =? 59)%N && negb st.1 && negb st.2) eqn:E.
  - apply andb_true_iff in E as [E _]. apply andb_true_iff in E as [E _]. breflect. subst c.
    pose proof (IH st) as Hj. destruct (cut st s) as [|p ps] eqn:Ec; [by apply cut_not_nil in Ec|].
    change (join [59%N] ([] :: p :: ps)) with (59%N :: join [59%N] (p :: ps)). by rewrite Hj.
  - pose proof (IH (quote_step st c)) as Hj.
    destruct (cut (quote_step st c) s) as [|p ps] eqn:Ec; [by apply cut_not_nil in Ec|].
    destruct ps; cbn [join] in *; by rewrite <- Hj.
Qed.

(** Pieces that [cut] gives back: a semicolon inside a piece is quoted, and a piece
    before another one ends outside quotes. *)
Definition quoted_semicolons (st : bool * bool) (p : str) : Prop :=
  forall i, p !! i = Some 59%N -> fold_left quote_step (take i p) st <> (false, false).
Fixpoint pieces_balanced (st : bool * bool) (ps : list str) : Prop :=
  match ps with
  | [] => True
  | p :: ps' =>
      quoted_semicolons st p
      /\ (ps' <> [] -> fold_left quote_step p st = (false, false))
      /\ pieces_balanced (false, false) ps'
  end.

Lemma quoted_cons st c p :
  quoted_semicolons st (c :: p) <->
  ((c =? 59)%N && negb st.1 && negb st.2) = false /\ quoted_semicolons (quote_step st c) p.
Proof.
  split.
  - intros Hq. split.
    + apply not_true_iff_false. intros E. apply andb_true_iff in E as [E H2].
      apply andb_true_iff in E as [E H1]. breflect. subst c.
      apply (Hq 0 eq_refl). cbn. by destruct st as [[] []].
    + intros i Hi. exact (Hq (S i) Hi).
  - intros [E Hq] [|i] Hi.
    + injection Hi as ->. cbn. by destruct st as [[] []].
    + exact (Hq i Hi).
Qed.

Lemma cut_piece st p s :
  quoted_semicolons st p -> cut st (p ++ s) = prepend p (cut (fold_left quote_step p st) s).
Proof.
  revert st; induction p as [|c p IH]; intros st Hq.
  { cbn. pose proof (cut_not_nil st s). by destruct (cut st s). }
  apply quoted_cons in Hq as [E Hq]. cbn [app fold_left].
  rewrite cut_cons, IH, prepend_app by (done || apply cut_not_nil). done.
Qed.

Lemma cut_join st ps : ps <> [] -> pieces_balanced st ps -> cut st (join [59%N] ps) = ps.
Proof.
  revert st; induction ps as [|p ps IH]; intros st Hne Hb; [done|].
  destruct Hb as (Hq & Hst & Hps).
  destruct ps as [|p2 ps].
  - cbn [join]. rewrite <- (app_nil_r p) at 1. rewrite cut_piece by done.
    cbn. by rewrite app_nil_r.
  - change (join [59%N] (p :: p2 :: ps)) with (p ++ 59%N :: join [59%N] (p2 :: ps)).
    rewrite cut_piece, Hst by done. cbn [cut N.eqb Pos.eqb andb negb fst snd prepend].
    rewrite IH by done. by rewrite app_nil_r.
Qed.

Lemma cut_balanced st s : pieces_balanced st (cut st s).
Proof.
  revert st; induction s as [|c s IH]; intros st; cbn [cut].
  { split_and!; [by intros i Hi|done|done]. }
  destruct ((c =? 59)%N && negb st.1 && negb st.2) eqn:E.
  - split_and!; [by intros i Hi| |].
    + intros _. apply andb_true_iff in E as [E ?]. apply andb_true_iff in E as [_ ?].
      by destruct st as [[] []].
    + assert (st = (false, false)) as ->; [|apply IH].
      apply andb_true_iff in E as [E ?]. apply andb_true_iff in E as [_ ?].
      by destruct st as [[] []].
  - specialize (IH (quote_step st c)). destruct (cut (quote_step st c) s) as [|p ps].
    + split_and!; [by apply quoted_cons; split; [|intros i Hi]|done|done].
    + destruct IH as (Hq & Hst & Hps). split_and!; [by apply quoted_cons|done|done].
Qed.

(** C17: a simple query is split at the semicolons outside quotes, and only there.
    For every list of pieces whose semicolons are quoted and whose quotes are closed
    before the next piece, the text that joins them with semicolons is split into
    exactly their non-empty trimmed statements, in order; and every text is the join
    of such pieces. *)
Theorem split_simple_query_spec :
  (forall ps, ps <> [] -> pieces_balanced (false, false) ps ->
     split_simple_query (join [59%N] ps) = statements ps)
  /\ (forall query, exists ps, ps <> [] /\ pieces_balanced (false, false) ps
        /\ query = join [59%N] ps).
Proof.
  split.
  - intros ps Hne Hps. unfold split_simple_query. rewrite split_query_cut, cut_join by done.
    by destruct ps.
  - intros query. exists (cut (false, false) query).
    split_and!; [apply cut_not_nil | apply cut_balanced | by rewrite join_cut].
Qed.

(** ** Literals *)

(** How a SQL lexer reads the rest of a quoted text (a literal between single
    quotes, an identifier between double quotes) after its opening quote [q]: the
    text, and what follows the closing quote. *)
Fixpoint lex_quoted (q : N) (s : str) : option (str * str) :=
  match s with
  | [] => None
  | c :: s' =>
      if (c =? q)%N then
        match s' with
        | d :: s'' => if (d =? q)%N then (fun '(t, r) => (q :: t, r)) <$> lex_quoted q s''
                      else Some ([], s')
        | [] => Some ([], s')
        end
      else (fun '(t, r) => (c :: t, r)) <$> lex_quoted q s'
  end.

Lemma replace_doubling (q : N) s :
  replace [q] [q; q] s = s ≫= (fun c => if (c =? q)%N then [q; q] else [c]).
Proof.
  change (replace [q] [q; q] s) with (replace_go 0 [q] [q; q] s).
  induction s as [|c s IH]; [done|]. cbn [replace_go starts_with mbind list_bind].
  rewrite (N.eqb_sym q c), andb_true_r. unfold mbind in IH. destruct (c =? q)%N; cbn; by rewrite IH.
Qed.

(** Doubling the quotes of a text and quoting it is undone by the lexer. *)
Lemma lex_quoted_doubling (q : N) value rest :
  head rest <> Some q ->
  lex_quoted q (replace [q] [q; q] value ++ q :: rest) = Some (value, rest).
Proof.
  intros Hr. rewrite replace_doubling. induction value as [|c value IH].
  - cbn. rewrite N.eqb_refl. destruct rest as [|d rest]; [done|].
    destruct (N.eqb_spec d q) as [->|Hne]; [done|reflexivity].
  - set (f := fun c => if (c =? q)%N then [q; q] else [c]) in *.
    change ((c :: value) ≫= f) with (f c ++ (value ≫= f)). rewrite <- app_assoc.
    unfold f at 1. destruct (N.eqb_spec c q) as [->|Hne]; cbn [app lex_quoted].
    + rewrite N.eqb_refl, IH. done.
    + rewrite (proj2 (N.eqb_neq _ _)), IH by done. done.
Qed.

(** [sql_string_literal] gives text that a SQL lexer reads as one literal of exactly
    that value, whatever quotes it holds and whatever follows (but another quote). *)
Lemma sql_string_literal_roundtrip value rest :
  head rest <> Some 39%N ->
  exists body, sql_string_literal value ++ rest = 39%N :: body
    /\ lex_quoted 39 body = Some (value, rest).
Proof.
  intros Hr. unfold sql_string_literal. rewrite <- !app_assoc.
  eexists. split; [reflexivity|]. by apply (lex_quoted_doubling 39).
Qed.

(** ** Binary parameters *)

Definition int_type_width (t : PgType) : nat :=
  match t with INT2 => 2 | INT4 => 4 | INT8 => 8 | _ => 0 end.

(** Binary integers are read at their width.  For [int2], [int4] and [int8], the
    big-endian bytes of a value in range render as its decimal digits, and any other
    number of bytes is refused with SQLSTATE 08P01. *)
Theorem binary_integer_roundtrip t idx :
  int_type_width t <> 0 ->
  (forall z, (- 2 ^ (8 * Z.of_nat (int_type_width t) - 1) <= z
              < 2 ^ (8 * Z.of_nat (int_type_width t) - 1))%Z ->
     render_binary_parameter (be_bytes (int_type_width t) z) t idx = Ok (show_int z))
  /\ (forall bytes, length bytes <> int_type_width t ->
     exists e, render_binary_parameter bytes t idx = Err e /\ err_sqlstate e = lit "08P01").
Proof.
  intros Ht. split.
  - intros z Hz.
    assert (Hr : forall s, render_binary_int (int_type_width t) (be_bytes (int_type_width t) z) s idx
                           = Ok (show_int z)).
    { intros s. unfold render_binary_int. rewrite length_be_bytes, Nat.eqb_refl.
      cbn [negb]. by rewrite read_be_bytes. }
    destruct t; try done; apply Hr.
  - intros bytes Hl.
    assert (Hr : forall s, exists e, render_binary_int (int_type_width t) bytes s idx = Err e
                                     /\ err_sqlstate e = lit "08P01").
    { intros s. unfold render_binary_int. rewrite (proj2 (Nat.eqb_neq _ _)) by done. by eexists. }
    destruct t; try done; apply Hr.
Qed.

(** ** Substitution of parameters *)

(** Simultaneous substitution: at every position the first placeholder of the list
    that matches is replaced by its value, and the value is not looked at again. *)
Fixpoint first_match (l : list (str * str)) (s : str) : option (str * str) :=
  match l with
  | [] => None
  | (from, to) :: l' => if starts_with from s then Some (from, to) else first_match l' s
  end.
Fixpoint subst_go (skip : nat) (l : list (str * str)) (s : str) : str :=
  match s with
  | [] => []
  | c :: s' =>
      match skip with
      | S k => subst_go k l s'
      | O => match first_match l s with
             | Some (from, to) => to ++ subst_go (length from - 1) l s'
             | None => c :: subst_go 0 l s'
             end
      end
  end.
Definition substitute (l : list (str * str)) (s : str) : str := subst_go 0 l s.

Definition no_dollar (s : str) : Prop := Forall (fun c => c <> 36%N) s.
(** A placeholder: a dollar sign and digits. *)
Definition is_placeholder (p : str) : Prop :=
  exists ds, p = 36%N :: ds /\ ds <> [] /\ Forall (fun c => is_ascii_digit c = true) ds.
(** A value that cannot make a placeholder: it has no dollar sign and does not start
    with a digit. *)
Definition inert (v : str) : Prop :=
  no_dollar v /\ v <> [] /\ (forall c, head v = Some c -> is_ascii_digit c = false).
Definition good_pairs (l : list (str * str)) : Prop :=
  Forall (fun p => is_placeholder p.1 /\ inert p.2) l.

Lemma first_match_dollar l c s p :
  good_pairs l -> first_match l (c :: s) = Some p -> c = 36%N /\ In p l.
Proof.
  induction 1 as [|[f t] l [(ds & Hf & _) _] _ IH]; [done|]. cbn in Hf. subst f.
  cbn [first_match].
  destruct (starts_with (36%N :: ds) (c :: s)) eqn:E.
  - intros [= <-]. cbn [starts_with] in E. apply andb_true_iff in E as [E _]. breflect. subst c. split; [done|by left].
  - intros Hm. apply IH in Hm as [-> Hin]. split; [done|by right].
Qed.

Lemma digit_not_dollar c : is_ascii_digit c = true -> c <> 36%N.
Proof. by intros Hc ->. Qed.

(** Characters other than the dollar sign are copied. *)
Lemma subst_copy l ds s :
  good_pairs l -> no_dollar ds -> subst_go 0 l (ds ++ s) = ds ++ subst_go 0 l s.
Proof.
  intros Hl. induction 1 as [|c ds Hc _ IH]; [done|]. cbn [app subst_go].
  destruct (first_match l (c :: ds ++ s)) as [[f t]|] eqn:E; [|by rewrite IH].
  by apply first_match_dollar in E as [-> _].
Qed.

Lemma subst_skip l ds s : subst_go (length ds) l (ds ++ s) = subst_go 0 l s.
Proof. induction ds as [|c ds IH]; [by destruct s|exact IH]. Qed.

Lemma replace_skip ds from to s : replace_go (length ds) from to (ds ++ s) = replace_go 0 from to s.
Proof. induction ds as [|c ds IH]; [by destruct s|exact IH]. Qed.

Lemma replace_copy from to v s :
  is_placeholder from -> no_dollar v ->
  replace_go 0 from to (v ++ s) = v ++ replace_go 0 from to s.
Proof.
  intros (ds & -> & _) Hv. induction Hv as [|c v Hc _ IH]; [done|]. cbn [app replace_go starts_with].
  rewrite (proj2 (N.eqb_neq 36 c)) by done. cbn [andb]. by rewrite IH.
Qed.

(** The substitution neither makes nor hides digits after a dollar sign. *)
Lemma starts_with_subst l ds s :
  good_pairs l -> Forall (fun c => is_ascii_digit c = true) ds ->
  starts_with ds (subst_go 0 l s) = starts_with ds s.
Proof.
  intros Hl Hds. revert s. induction Hds as [|d ds Hd _ IH]; intros s; [done|].
  destruct s as [|c s]; [done|]. cbn [subst_go].
  destruct (first_match l (c :: s)) as [[f t]|] eqn:E.
  - apply first_match_dollar in E as [-> Hin]; [|done].
    unfold good_pairs in Hl. rewrite Forall_forall in Hl.
    destruct (Hl _ Hin) as [_ (_ & Hne & Hhd)]. cbn in Hne, Hhd.
    destruct t as [|x t]; [done|]. cbn [app starts_with].
    specialize (Hhd x eq_refl).
    rewrite (proj2 (N.eqb_neq d x)) by (intros ->; congruence).
    rewrite (proj2 (N.eqb_neq d 36)) by by apply digit_not_dollar. done.
  - cbn [starts_with]. by rewrite IH.
Qed.

Lemma first_match_app l p s :
  first_match (l ++ [p]) s
  = match first_match l s with
    | Some q => Some q
    | None => if starts_with p.1 s then Some p else None
    end.
Proof.
  induction l as [|[f t] l IH]; cbn; [by destruct p|]. by destruct (starts_with f s).
Qed.

(** Replacing one more placeholder in a substituted text extends the substitution. *)
Lemma replace_substitute l from to s k :
  good_pairs l -> is_placeholder from -> inert to ->
  replace_go 0 from to (subst_go k l s) = subst_go k (l ++ [(from, to)]) s.
Proof.
  intros Hl Hf Ht. revert k. induction s as [s IH] using (induction_ltof1 _ length).
  unfold ltof in IH. intros k. destruct s as [|c s]; [done|]. cbn [subst_go].
  destruct k as [|k]; [|apply IH; simpl; lia].
  rewrite first_match_app. destruct (first_match l (c :: s)) as [[f t]|] eqn:E.
  - apply first_match_dollar in E as [-> Hin]; [|done].
    unfold good_pairs in Hl. pose proof Hl as Hl'. rewrite Forall_forall in Hl.
    destruct (Hl _ Hin) as [_ (Hv & _)]. cbn in Hv.
    rewrite replace_copy by done. f_equal. apply IH. simpl; lia.
  - cbn [fst replace_go]. pose proof Hf as (ds & Hfrom & Hne & Hds). subst from.
    cbn [starts_with]. rewrite starts_with_subst by done.
    destruct ((36 =? c)%N && starts_with ds s) eqn:Est.
    + apply andb_true_iff in Est as [_ Est]. apply starts_with_spec in Est as [r ->].
      cbn [length]. replace (S (length ds) - 1) with (length ds) by lia. f_equal.
      rewrite subst_copy, replace_skip, subst_skip.
      * apply IH. simpl. rewrite length_app. lia.
      * done.
      * eapply list.Forall_impl; [exact Hds|]. intros x Hx. by apply digit_not_dollar.
    + f_equal. apply IH. simpl; lia.
Qed.

Lemma placeholder_ok idx : is_placeholder (placeholder idx).
Proof.
  unfold placeholder, show_int. rewrite (proj2 (Z.ltb_ge _ 0)) by lia.
  exists (show_nonneg (Z.of_nat (idx + 1))). unfold show_nonneg.
  split_and!; [done| |by apply digits_are_digits; [lia|]].
  destruct (show_digits_head (S (Z.to_nat (Z.log2 (Z.of_nat (idx + 1))))) (Z.of_nat (idx + 1)) [])
    as (c & s & -> & _); [done|lia|done].
Qed.

(** The placeholders and values of the parameters below [n], highest first. *)
Fixpoint bindings (value : nat -> str) (n : nat) : list (str * str) :=
  match n with O => [] | S idx => (placeholder idx, value idx) :: bindings value idx end.

(** ** A bound text in its place *)

Lemma parse_digits_ge acc s v : (0 <= acc)%Z -> parse_digits_go acc s = Some v -> (acc <= v)%Z.
Proof.
  revert acc; induction s as [|c s IH]; intros acc Ha; cbn [parse_digits_go]; [intros [= <-]; lia|].
  destruct (is_ascii_digit c) eqn:Ec; [|done]. intros Hv.
  unfold is_ascii_digit in Ec. rewrite andb_true_iff, !N.leb_le in Ec.
  apply IH in Hv; lia.
Qed.

Lemma parse_digits_app acc s t v :
  parse_digits_go acc s = Some v -> parse_digits_go acc (s ++ t) = parse_digits_go v t.
Proof.
  revert acc; induction s as [|c s IH]; intros acc; cbn; [by intros [= <-]|].
  destruct (is_ascii_digit c); [apply IH|done].
Qed.

Lemma parse_digits_show n : (0 <= n)%Z -> parse_digits_go 0 (show_int n) = Some n.
Proof.
  intros Hn. unfold show_int. rewrite (proj2 (Z.ltb_ge n 0)) by done.
  pose proof (parse_show_nonneg n Hn) as Hp. unfold parse_digits in Hp.
  by destruct (show_nonneg n).
Qed.

(** The digits of a text that starts with other digits, and then with something else. *)
Lemma digits_prefix ds ds' s r :
  Forall (fun c => is_ascii_digit c = true) ds' ->
  (forall c, head s = Some c -> is_ascii_digit c = false) ->
  Forall (fun c => is_ascii_digit c = true) ds ->
  ds' ++ s = ds ++ r -> exists more, ds' = ds ++ more.
Proof.
  intros Hd' Hs Hd. revert ds' Hd'. induction Hd as [|c ds Hc _ IH]; intros ds' Hd' E.
  - by exists ds'.
  - destruct Hd' as [|c' ds' Hc' Hd'].
    + cbn in E. subst s. specialize (Hs c eq_refl). congruence.
    + injection E as -> E. destruct (IH ds' Hd' E) as [more ->]. by exists more.
Qed.

(** A placeholder that starts where another one stands has no larger number. *)
Lemma placeholder_prefix i j s :
  (forall c, head s = Some c -> is_ascii_digit c = false) ->
  starts_with (placeholder j) (placeholder i ++ s) = true -> j <= i.
Proof.
  intros Hs [r E]%starts_with_spec. unfold placeholder in E. rewrite <- !app_assoc in E.
  injection E as E.
  destruct (show_int_digits (Z.of_nat (i + 1)) ltac:(lia)) as [_ Hi].
  destruct (show_int_digits (Z.of_nat (j + 1)) ltac:(lia)) as [_ Hj].
  destruct (digits_prefix _ _ _ _ Hi Hs Hj E) as [more Hm].
  pose proof (parse_digits_show (Z.of_nat (i + 1)) ltac:(lia)) as Hp.
  rewrite Hm, (parse_digits_app _ _ _ _ (parse_digits_show (Z.of_nat (j + 1)) ltac:(lia))) in Hp.
  apply parse_digits_ge in Hp; lia.
Qed.

Lemma first_match_binding value n idx s :
  idx < n -> (forall c, head s = Some c -> is_ascii_digit c = false) ->
  first_match (bindings value n) (placeholder idx ++ s) = Some (placeholder idx, value idx).
Proof.
  intros Hi Hs. induction n as [|n IH]; [lia|]. cbn [bindings first_match].
  destruct (starts_with (placeholder n) (placeholder idx ++ s)) eqn:E.
  - apply placeholder_prefix in E; [|done]. by replace n with idx by lia.
  - apply IH. destruct (decide (n = idx)) as [->|]; [|lia].
    assert (starts_with (placeholder idx) (placeholder idx ++ s) = true); [|congruence].
    apply starts_with_spec. by eexists.
Qed.

Lemma subst_binding value n idx s :
  idx < n -> (forall c, head s = Some c -> is_ascii_digit c = false) ->
  subst_go 0 (bindings value n) (placeholder idx ++ s)
  = value idx ++ subst_go 0 (bindings value n) s.
Proof.
  intros Hi Hs. pose proof (first_match_binding value n idx s Hi Hs) as Hm.
  destruct (placeholder idx) as [|c ds] eqn:Ep; [done|]. cbn [app subst_go] in *. rewrite Hm.
  cbn [length]. replace (S (length ds) - 1) with (length ds) by lia. by rewrite subst_skip.
Qed.

(** No placeholder reaches over the beginning of another one. *)
Lemma first_match_before l c s1 s2 :
  good_pairs l -> (forall d, head s2 = Some d -> is_ascii_digit d = false) -> s2 <> [] ->
  first_match l (c :: s1 ++ s2) = first_match l (c :: s1)
  /\ (forall p, first_match l (c :: s1) = Some p -> length p.1 <= S (length s1)).
Proof.
  intros Hl Hs2 Hne. induction Hl as [|[f t] l [(ds & Hf & Hds & Hdig) _] _ [IH1 IH2]]; [done|].
  cbn in Hf. subst f. cbn [first_match].
  assert (Hiff : starts_with (36%N :: ds) (c :: s1 ++ s2) = starts_with (36%N :: ds) (c :: s1)).
  { cbn [starts_with]. destruct (36 =? c)%N; [|done]. cbn [andb]. clear -Hs2 Hne Hdig.
    revert s1. induction Hdig as [|d ds Hd _ IH]; intros s1; [done|].
    destruct s1 as [|x s1]; cbn [app starts_with]; [|by rewrite IH].
    destruct s2 as [|y s2]; [done|]. specialize (Hs2 y eq_refl).
    destruct (N.eqb_spec d y) as [->|]; [congruence|done]. }
  rewrite Hiff. destruct (starts_with (36%N :: ds) (c :: s1)) eqn:E; [|done].
  split; [done|]. intros p [= <-]. cbn [fst].
  apply starts_with_spec in E as [r E]. apply (f_equal length) in E.
  rewrite length_app in E. cbn [length] in *. lia.
Qed.

Lemma subst_app l s1 s2 k :
  good_pairs l -> (forall d, head s2 = Some d -> is_ascii_digit d = false) -> s2 <> [] ->
  k <= length s1 ->
  subst_go k l (s1 ++ s2) = subst_go k l s1 ++ subst_go 0 l s2.
Proof.
  intros Hl Hs2 Hne. revert k. induction s1 as [|c s1 IH]; intros k Hk.
  { cbn in Hk. by replace k with 0 by lia. }
  cbn [app subst_go]. destruct k as [|k]; [|apply IH; cbn in Hk; lia].
  destruct (first_match_before l c s1 s2 Hl Hs2 Hne) as [-> Hlen].
  destruct (first_match l (c :: s1)) as [[f t]|]; [|by rewrite IH by lia].
  specialize (Hlen _ eq_refl). cbn in Hlen. by rewrite IH, app_assoc by lia.
Qed.

Section render.
Context `{BuildProfile} `{RegexEngine}.

Lemma render_go_substitute portal value n l sql :
  (forall idx, idx < n ->
     render_portal_parameter portal idx = Ok (value idx) /\ inert (value idx)) ->
  good_pairs l ->
  render_portal_go portal n (substitute l sql) = Ok (substitute (l ++ bindings value n) sql).
Proof.
  revert l; induction n as [|n IH]; intros l Hv Hl; cbn [render_portal_go bindings].
  { by rewrite app_nil_r. }
  destruct (Hv n) as [-> Hin]; [lia|]. cbn [mbind outcome_bind].
  pose proof (placeholder_ok n) as Hp.
  assert (replace (placeholder n) (value n) (substitute l sql)
          = substitute (l ++ [(placeholder n, value n)]) sql) as ->.
  { pose proof (replace_substitute l (placeholder n) (value n) sql 0 Hl Hp Hin) as Hr.
    unfold substitute. rewrite <- Hr. by destruct Hp as (ds & -> & _). }
  rewrite IH.
  - by rewrite <- app_assoc.
  - intros idx Hidx. apply Hv. lia.
  - apply Forall_app. split; [done|]. by apply Forall_singleton.
Qed.

Lemma render_substituted portal value :
  (forall idx, idx < portal_parameter_len portal ->
     render_portal_parameter portal idx = Ok (value idx) /\ inert (value idx)) ->
  render_portal_sql portal
  = Ok (substitute (bindings value (portal_parameter_len portal)) (portal_statement portal)).
Proof.
  intros Hv. unfold render_portal_sql.
  assert (Hid : forall s, substitute [] s = s).
  { unfold substitute. induction s as [|c s IH]; cbn; [done|by rewrite IH]. }
  rewrite <- (Hid (portal_statement portal)) at 1.
  apply (render_go_substitute portal value _ []); [done|constructor].
Qed.
(** C12: with inert values, binding is simultaneous substitution.  When every
    parameter renders to a value that has no dollar sign and does not start with a
    digit (every null, boolean and text without a dollar sign), the repeated
    replacement of [render_portal_sql] gives the statement in which each
    placeholder is replaced by its value once, the longest number first, and no
    value is read as a placeholder. *)
Theorem render_portal_substitutes portal value :
  (forall idx, idx < portal_parameter_len portal ->
     render_portal_parameter portal idx = Ok (value idx) /\ inert (value idx)) ->
  render_portal_sql portal
  = Ok (substitute (bindings value (portal_parameter_len portal)) (portal_statement portal)).
Proof. apply render_substituted. Qed.

(** The parameters of a portal are nulls and texts without a dollar sign. *)
Definition plain_parameters (portal : Portal) : Prop :=
  forall idx, idx < portal_parameter_len portal ->
    exists v, portal_parameters portal !! idx = Some v
      /\ match v with
         | Some bytes => portal_is_binary portal idx = false
             /\ exists text, from_utf8 bytes = inl text /\ no_dollar text
         | None => True
         end.

Lemma literal_inert text : no_dollar text -> inert (sql_string_literal text).
Proof.
  intros Ht. split_and!; [|done|by intros c [= <-]].
  unfold sql_string_literal. change (lit "'") with [39%N]. change (lit "''") with [39; 39]%N.
  rewrite replace_doubling. unfold no_dollar. rewrite !Forall_app. split_and!; try by repeat constructor.
  induction Ht as [|c text Hc _ IH]; [constructor|].
  change ((c :: text) ≫= ?f) with (f c ++ (text ≫= f)). apply Forall_app. split; [|exact IH].
  destruct (c =? 39)%N; by repeat constructor.
Qed.

(** What a plain parameter becomes. *)
Definition plain_value (portal : Portal) (idx : nat) : str :=
  match portal_parameters portal !! idx with
  | Some (Some bytes) =>
      match from_utf8 bytes with inl text => sql_string_literal text | inr _ => [] end
  | _ => lit "NULL"
  end.

Lemma plain_rendered portal idx :
  plain_parameters portal -> idx < portal_parameter_len portal ->
  render_portal_parameter portal idx = Ok (plain_value portal idx)
  /\ inert (plain_value portal idx).
Proof.
  intros Hp Hi. destruct (Hp idx Hi) as (v & Hv & Hplain).
  unfold render_portal_parameter, plain_value. rewrite Hv. cbn [ok_or mbind outcome_bind].
  destruct v as [bytes|].
  - destruct Hplain as (-> & text & -> & Ht). split; [done|by apply literal_inert].
  - split; [done|]. split_and!; [by repeat constructor|done|by intros c [= <-]].
Qed.

(** C13: a bound text comes back from the statement it is bound into.  When the
    parameters are nulls and texts without a dollar sign, a parameter's placeholder,
    anywhere in the statement, becomes a literal which a SQL lexer, reading from its
    opening quote, reads as exactly the bound text, whatever quotes, semicolons or
    comments the text holds: the literal ends where the rest of the statement, with its
    own placeholders replaced, begins.  The placeholder must not run into a digit, a
    quote or another placeholder.  A text with a dollar sign is left out since it can
    leave its literal ([render_portal_injection]). *)
Theorem bound_text_roundtrip portal pre post idx bytes text :
  plain_parameters portal ->
  portal_statement portal = pre ++ placeholder idx ++ post ->
  idx < portal_parameter_len portal ->
  portal_parameters portal !! idx = Some (Some bytes) -> from_utf8 bytes = inl text ->
  (forall c, head post = Some c -> is_ascii_digit c = false /\ c <> 39%N /\ c <> 36%N) ->
  let bound := substitute (bindings (plain_value portal) (portal_parameter_len portal)) in
  render_portal_sql portal = Ok (bound pre ++ sql_string_literal text ++ bound post)
  /\ exists body, sql_string_literal text ++ bound post = 39%N :: body
      /\ lex_quoted 39 body = Some (text, bound post).
Proof.
  intros Hp Hst Hi Hb Ht Hpost bound.
  assert (Hl : good_pairs (bindings (plain_value portal) (portal_parameter_len portal))).
  { assert (Hall : forall n, n <= portal_parameter_len portal ->
      good_pairs (bindings (plain_value portal) n)); [|by apply Hall].
    induction n as [|n IH]; intros Hn; constructor; [|apply IH; lia].
    split; [apply placeholder_ok|]. apply plain_rendered; [done|lia]. }
  assert (Hv : plain_value portal idx = sql_string_literal text)
    by (unfold plain_value; by rewrite Hb, Ht).
  split.
  - rewrite (render_substituted portal (plain_value portal)) by (intros j Hj; by apply plain_rendered).
    rewrite Hst. f_equal. unfold bound, substitute.
    rewrite (subst_app _ pre) by (done || lia || by intros d [= <-]). f_equal.
    rewrite subst_binding, Hv; [done|done|]. intros c Hc. by destruct (Hpost c Hc).
  - apply sql_string_literal_roundtrip. intros Hq. subst bound.
    destruct post as [|c post]; [done|]. destruct (Hpost c eq_refl) as (_ & Hc39 & Hc36).
    unfold substitute in Hq. cbn [subst_go] in Hq.
    destruct (first_match _ (c :: post)) as [[f t]|] eqn:E; [|by injection Hq].
    by apply first_match_dollar in E as [-> _].
Qed.
End render.

(** ** Witnesses, and values that are not inert *)

#[local] Existing Instance dev_profile.
#[local] Existing Instance reference_engine.

Definition text_portal (statement : string) (values : list string) : Portal :=
  {| portal_name := []; portal_statement := lit statement; portal_parameter_types := [];
     portal_parameters := (fun v => Some (to_utf8 (lit v))) <$> values;
     portal_parameter_len := length values; portal_is_binary := fun _ => false |}.

(** A bound text can leave its literal.  A value that holds a placeholder is
    substituted again by the next round: binding [$1] to a text and [$2] to the text
    ['$1'] puts the first value, with its quotes, inside the second literal, where
    its opening quote ends the literal and the rest is read as SQL. *)
Theorem render_portal_injection :
  render_portal_sql (text_portal "INSERT INTO t VALUES ($1, $2)" ["); DROP TABLE t --"; "$1"]%string)
  = Ok (lit "INSERT INTO t VALUES ('); DROP TABLE t --', ''); DROP TABLE t --'')").
Proof. vm_compute. reflexivity. Qed.

(** A placeholder with a number larger than memory makes the inference of types panic:
    the last number of [usize] in every build, and already [i64::MAX] where a type
    takes 16 bytes.  A Parse asks for the types, and so does a bound binary value whose
    type is not given. *)
Theorem huge_placeholder_panics :
  (forall profile : BuildProfile,
     infer_parameter_types (lit "select $18446744073709551615") = Panic)
  /\ infer_parameter_types (lit "select $9223372036854775807") = Panic
  /\ render_portal_sql
       {| portal_name := []; portal_statement := lit "select $9223372036854775807";
          portal_parameter_types := []; portal_parameters := [Some []];
          portal_parameter_len := 1; portal_is_binary := fun _ => true |} = Panic.
Proof.
  split; [|split; vm_compute; reflexivity]. intros profile. unfold infer_parameter_types.
  assert (max_parameter_index (lit "select $18446744073709551615") = Some u64_max) as ->
    by (vm_compute; reflexivity).
  assert (types_fit u64_max = false) as ->; [|done].
  unfold types_fit. apply Z.leb_gt. pose proof type_size_pos. unfold_bounds. lia.
Qed.

Definition inert_check (v : str) : bool :=
  forallb (fun c => negb (c =? 36)%N) v
  && match v with c :: _ => negb (is_ascii_digit c) | [] => false end.
Lemma inert_checked v : inert_check v = true -> inert v.
Proof.
  unfold inert_check. intros [Hd Hh]%andb_true_iff. split_and!.
  - apply Forall_forall. intros c Hc. rewrite forallb_forall in Hd. specialize (Hd c Hc).
    by breflect.
  - by destruct v.
  - intros c Hc. destruct v; [done|]. injection Hc as ->. by breflect.
Qed.

Lemma render_portal_substitutes_witness :
  render_portal_sql (text_portal "SELECT $1, $2, $1" ["a'b"; "c"]%string)
  = Ok (lit "SELECT 'a''b', 'c', 'a''b'").
Proof.
  pose (value idx := match idx with O => lit "'a''b'" | _ => lit "'c'" end).
  rewrite (render_portal_substitutes _ value).
  - vm_compute. reflexivity.
  - intros [|[|idx]] Hidx; [| |cbn in Hidx; lia]; (split; [vm_compute; reflexivity|]);
      apply inert_checked; reflexivity.
Defined.

Lemma bound_text_roundtrip_witness :
  let portal := text_portal "SELECT 1 WHERE $2 = $1 OR $10 = 1" ["it's"; "); DROP TABLE t --"]%string in
  exists before after, render_portal_sql portal
    = Ok (before ++ sql_string_literal (lit "it's") ++ after)
  /\ exists body, sql_string_literal (lit "it's") ++ after = 39%N :: body
    /\ lex_quoted 39 body = Some (lit "it's", after).
Proof.
  intros portal.
  destruct (bound_text_roundtrip portal (lit "SELECT 1 WHERE $2 = ") (lit " OR $10 = 1") 0
              (to_utf8 (lit "it's")) (lit "it's")) as (Hr & Hl).
  - intros [|[|idx]] Hidx; [| |cbn in Hidx; lia]; eexists; (split; [reflexivity|]);
      (split; [done|]); eexists; (split; [vm_compute; reflexivity|]);
      apply Forall_forall; intros c Hc; vm_compute in Hc;
      repeat (destruct Hc as [<-|Hc]; [done|]); done.
  - reflexivity.
  - cbn. lia.
  - reflexivity.
  - vm_compute. reflexivity.
  - intros c [= <-]. done.
  - eexists _, _. split; [exact Hr|exact Hl].
Defined.

Lemma binary_integer_roundtrip_witness :
  render_binary_parameter [255; 255; 255; 254]%Z INT4 0 = Ok (lit "-2").
Proof.
  destruct (binary_integer_roundtrip INT4 0) as [Hr _]; [done|].
  apply (Hr (-2)%Z). cbn. lia.
Defined.

Lemma split_simple_query_spec_witness :
  split_simple_query (lit "select ';' ; insert ") = [lit "select ';'"; lit "insert"].
Proof.
  apply (proj1 split_simple_query_spec [lit "select ';' "; lit " insert "]); [done|].
  split; [|split; [done|split; [|split; [done|done]]]].
  - intros i Hi. do 11 (destruct i as [|i]; [first [discriminate Hi | discriminate]|]). discriminate Hi.
  - intros i Hi. do 8 (destruct i as [|i]; [discriminate Hi|]). discriminate Hi.
Defined.

(** A semicolon or a quote inside a comment is read like any other. *)
Theorem split_ignores_comments :
  split_simple_query (lit "select 1 /* a; b */") = [lit "select 1 /* a"; lit "b */"]
  /\ split_simple_query (lit "/* it's */ begin; commit") = [lit "/* it's */ begin; commit"].
Proof. split; reflexivity. Qed.
