(* ===== verification/CursorText.v ===== *)
(** * FETCH and MOVE, from their text

    The whole text of a FETCH or MOVE statement is classified as the movement it says,
    for every direction and cursor name, whatever the engine's Unicode tables: no
    comment, session command or local answer gets in the way. *)

From Stdlib Require Import ZifyN ZifyBool.
From S2P Require Import Prelude RustStr RustInt Regex RegexLemmas Plan Policy PolicyTheorems.
From S2P Require Import TextScan ParamsTheorems TranslatorTheorems.
#[local] Open Scope nat_scope.

(** ** Words and texts of words *)

Definition word_char (c : char) : bool := is_ascii_alphanumeric c || (c =? 95)%N.
Definition is_name (t : str) : Prop := t <> [] /\ Forall (fun c => word_char c = true) t.
(** A word, or a negative number. *)
Definition is_token (t : str) : Prop := is_name t \/ exists w, t = 45%N :: w /\ is_name w.

Ltac char_lia :=
  unfold word_char, is_ascii_alphanumeric, is_ascii_uppercase, is_ascii_lowercase,
    is_ascii_digit in *; lia.

Definition token_char (c : char) : bool := word_char c || (c =? 45)%N.
Lemma is_token_chars t : is_token t -> t <> [] /\ Forall (fun c => token_char c = true) t.
Proof.
  assert (Hn : forall w, is_name w -> Forall (fun c => token_char c = true) w).
  { intros w [_ Hw]. eapply list.Forall_impl; [exact Hw|]. intros c Hc. unfold token_char. by rewrite Hc. }
  intros [H|(w & -> & H)].
  - split; [apply H|by apply Hn].
  - split; [done|]. constructor; [done|by apply Hn].
Qed.

Lemma token_char_facts c :
  token_char c = true -> is_whitespace c = false /\ (c < 128)%N /\ c <> 47%N /\ c <> 46%N /\ c <> 34%N
                         /\ c <> 59%N.
Proof. unfold token_char. intros H. unfold is_whitespace. split_and!; char_lia. Qed.

(** The text of a statement: its tokens, a space between two. *)
Definition spaced (tokens : list str) : str := join (lit " ") tokens.

Lemma spaced_cons t u ts : spaced (t :: u :: ts) = t ++ 32%N :: spaced (u :: ts).
Proof. done. Qed.

Lemma spaced_forall (P : char -> Prop) ts :
  P 32%N -> Forall (Forall P) ts -> Forall P (spaced ts).
Proof.
  intros H32. induction 1 as [|t ts Ht Hts IH]; [constructor|]. destruct ts as [|u ts]; [exact Ht|].
  rewrite spaced_cons. apply Forall_app; split; [done|]. by constructor.
Qed.

(** Splitting at white space gives the tokens back. *)
Lemma split_word acc w rest :
  Forall (fun c => is_whitespace c = false) w ->
  split_whitespace_go acc (w ++ rest) = split_whitespace_go (rev w ++ acc) rest.
Proof.
  intros Hw. revert acc. induction Hw as [|c w Hc _ IH]; intros acc; [done|].
  cbn [app split_whitespace_go]. rewrite Hc, IH. cbn [rev]. by rewrite <- app_assoc.
Qed.

Lemma split_spaced ts :
  Forall (fun t => t <> [] /\ Forall (fun c => is_whitespace c = false) t) ts ->
  split_whitespace (spaced ts) = ts.
Proof.
  unfold split_whitespace. induction 1 as [|t ts [Hne Ht] Hts IH]; [done|].
  assert (Hr : rev t <> []) by (intros E; apply Hne; by rewrite <- (rev_involutive t), E).
  destruct ts as [|u ts].
  - cbn [spaced join]. rewrite <- (app_nil_r t) at 1. rewrite split_word, app_nil_r by done.
    cbn [split_whitespace_go]. destruct (rev t) as [|c r] eqn:E; [done|].
    by rewrite <- E, rev_involutive.
  - rewrite spaced_cons, split_word, app_nil_r by done. cbn [split_whitespace_go].
    change (is_whitespace 32) with true. cbn iota.
    destruct (rev t) as [|c r] eqn:E; [done|]. rewrite IH. by rewrite <- E, rev_involutive.
Qed.

(** ** No comment *)

(** No slash, and no two dashes in a row. *)
Fixpoint no_comment (after_dash : bool) (s : str) : bool :=
  match s with
  | [] => true
  | c :: s => if (c =? 45)%N then negb after_dash && no_comment true s
              else negb (c =? 47)%N && no_comment false s
  end.

Lemma no_comment_weaken b s : no_comment b s = true -> no_comment false s = true.
Proof. destruct s as [|c s]; [done|]. cbn. destruct (c =? 45)%N; [|done]. by destruct b. Qed.

Lemma no_comment_word b w rest :
  is_name w -> no_comment b (w ++ rest) = no_comment false rest.
Proof.
  intros [Hne Hw]. revert b. induction Hw as [|c w Hc Hw IH]; intros b; [done|].
  cbn [app no_comment].
  rewrite (proj2 (N.eqb_neq c 45)), (proj2 (N.eqb_neq c 47)) by (intros ->; done). cbn [negb andb].
  destruct w as [|d w]; [done|]. by apply IH.
Qed.

Lemma no_comment_token t rest :
  is_token t -> no_comment false (t ++ rest) = no_comment false rest.
Proof.
  intros [H|(w & -> & H)]; [by apply no_comment_word|].
  cbn [app no_comment N.eqb Pos.eqb negb andb]. by apply no_comment_word.
Qed.

Lemma no_comment_spaced ts : Forall is_token ts -> no_comment false (spaced ts) = true.
Proof.
  induction 1 as [|t ts Ht Hts IH]; [done|]. destruct ts as [|u ts].
  - cbn [spaced join]. rewrite <- (app_nil_r t). by rewrite no_comment_token.
  - rewrite spaced_cons, no_comment_token by done. exact IH.
Qed.

Lemma no_comment_drop s : forall b k c d r,
  no_comment b s = true -> drop k s = c :: d :: r -> (c = 47 \/ c = 45 /\ d = 45)%N -> False.
Proof.
  induction s as [|x s IH]; intros b k c d r Hn Hd Hc; [by rewrite drop_nil in Hd|].
  cbn [no_comment] in Hn. destruct k as [|k].
  - injection Hd as -> ->. destruct Hc as [->|[-> ->]]; cbn in Hn; [done|]. by destruct b.
  - cbn [drop] in Hd. destruct (x =? 45)%N; apply andb_true_iff in Hn as [_ Hn]; by eapply IH.
Qed.

(** ** Patterns that do not match *)

Section patterns.
Context `{RegexEngine}.

Definition comment_run (l : list char_class) : bool :=
  bool_decide ([exactly 47; exactly 42] `prefix_of` l)
  || bool_decide ([exactly 45; exactly 45] `prefix_of` l).
Definition needs_comment (pat : str) : bool :=
  match parse_regex pat with Some rx => must comment_run (rx_re rx) | None => false end.

Lemma run_two u a b l s :
  [exactly a; exactly b] `prefix_of` l -> run_at u l s = true -> exists r, s = a :: b :: r.
Proof.
  intros Hp Hr. apply (run_at_prefix _ _ _ _ Hp) in Hr. destruct s as [|c [|d r]]; try done.
  - cbn [run_at] in Hr. by rewrite andb_false_r in Hr.
  - cbn [run_at] in Hr. apply andb_true_iff in Hr as [->%class_exactly Hr].
    apply andb_true_iff in Hr as [->%class_exactly _]. by exists r.
Qed.

Lemma no_comment_match pat s i :
  needs_comment pat = true -> no_comment false s = true -> re_captures_at pat s i = None.
Proof.
  unfold needs_comment. destruct (parse_regex pat) as [rx|] eqn:E; [|done]. intros Hm Hn.
  apply (must_no_match pat rx comment_run s i E Hm). intros l k Hl.
  destruct (run_at re_unicode l (drop k s)) eqn:Er; [|done]. exfalso.
  unfold comment_run in Hl. apply orb_true_iff in Hl as [Hl|Hl]; apply bool_decide_eq_true in Hl;
    destruct (run_two _ _ _ _ _ Hl Er) as [r Hr]; eapply no_comment_drop in Hr; eauto.
Qed.

End patterns.

(** ** Occurrences in a text of words *)

Lemma split_at_space a b t rest :
  Forall (fun c => c <> 32%N) t -> a ++ 32%N :: b = t ++ rest ->
  exists a', a = t ++ a' /\ a' ++ 32%N :: b = rest.
Proof.
  intros Ht. revert a. induction Ht as [|c t Hc _ IH]; intros a E; [by exists a|].
  destruct a as [|d a]; cbn in E; injection E as Ec E; [by subst|].
  subst d. apply IH in E as (a' & -> & E). by exists a'.
Qed.

(** A space in the text is followed by a token that is not the first. *)
Lemma after_space a b ts :
  Forall (Forall (fun c => c <> 32%N)) ts -> spaced ts = a ++ 32%N :: b ->
  exists pre t post, ts = pre ++ t :: post /\ pre <> [] /\ b = spaced (t :: post).
Proof.
  intros Hts. revert a. induction Hts as [|t ts Ht Hts IH]; intros a E; [by destruct a|].
  destruct ts as [|u ts].
  - cbn [spaced join] in E. exfalso.
    destruct (split_at_space a b t []) as (a' & _ & E'); [done|by rewrite app_nil_r|].
    by destruct a'.
  - rewrite spaced_cons in E. symmetry in E.
    destruct (split_at_space _ _ _ _ Ht E) as ([|c a'] & -> & E').
    + injection E' as ->. by exists [t], u, ts.
    + injection E' as _ E'. destruct (IH a') as (pre & v & post & Hs & _ & ->); [done|].
      exists (t :: pre), v, post. split_and!; [by rewrite Hs|done|done].
Qed.

Lemma starts_spaced p t post :
  Forall (fun c => c <> 32%N) p -> starts_with p (spaced (t :: post)) = true ->
  starts_with p t = true.
Proof.
  intros Hp. destruct post as [|u post]; [done|]. rewrite spaced_cons. revert t.
  induction Hp as [|c p Hc _ IH]; intros t; [done|]. destruct t as [|d t]; cbn.
  - intros [E _]%andb_true_iff. by apply N.eqb_eq in E.
  - intros [-> H]%andb_true_iff. by apply IH.
Qed.

Lemma no_word_after_space p ts :
  Forall (fun c => c <> 32%N) p -> Forall (Forall (fun c => c <> 32%N)) ts ->
  Forall (fun t => starts_with p t = false) (tail ts) ->
  contains (32%N :: p) (spaced ts) = false.
Proof.
  intros Hp Hts Hno. destruct (contains _ _) eqn:E; [|done]. exfalso.
  apply contains_split in E as (a & b & E). cbn [app] in E.
  destruct (after_space a (p ++ b) ts Hts) as (pre & t & post & -> & Hne & Hb); [done|].
  assert (Hst : starts_with p (spaced (t :: post)) = true).
  { rewrite <- Hb. apply starts_with_spec. by exists b. }
  apply starts_spaced in Hst; [|done]. destruct pre as [|x pre]; [done|]. cbn [app tail] in Hno.
  apply Forall_app in Hno as [_ Hno]. apply list.Forall_cons in Hno as [Ht _]. congruence.
Qed.

Lemma lower_spaced ts : to_ascii_lowercase (spaced ts) = spaced (to_ascii_lowercase <$> ts).
Proof.
  induction ts as [|t ts IH]; [done|]. destruct ts as [|u ts]; [done|].
  rewrite spaced_cons. unfold to_ascii_lowercase at 1. rewrite fmap_app. cbn [fmap list_fmap].
  change (char_to_ascii_lowercase <$> spaced (u :: ts)) with (to_ascii_lowercase (spaced (u :: ts))).
  rewrite IH. reflexivity.
Qed.

(** ** Names *)

Lemma replace_absent_char c from to s :
  Forall (fun d => d <> c) s -> replace (c :: from) to s = s.
Proof.
  intros Hs. change (replace (c :: from) to s) with (replace_go 0 (c :: from) to s).
  induction Hs as [|d s Hd _ IH]; [done|]. cbn [replace_go starts_with].
  rewrite (proj2 (N.eqb_neq c d)) by done. cbn [andb]. by rewrite IH.
Qed.

Lemma drop_while_end_none p s : Forall (fun c => p c = false) s -> drop_while_end p s = s.
Proof.
  intros Hs. unfold drop_while_end. rewrite drop_while_none by by apply Forall_rev.
  apply rev_involutive.
Qed.

Lemma unquote_name name : is_name name -> unquote_identifier name = name.
Proof.
  intros [_ Hn].
  assert (Hc : forall P, (forall c, word_char c = true -> P c) -> Forall P name)
    by (intros P HP; by eapply list.Forall_impl).
  unfold unquote_identifier, trim_matches, trim_end_matches.
  rewrite trim_words by (apply Hc; intros c H; unfold is_whitespace; char_lia).
  rewrite (drop_while_end_none is_semicolon) by (apply Hc; intros c H; unfold is_semicolon; char_lia).
  rewrite drop_while_none by (apply Hc; intros c H; unfold is_quote; char_lia).
  rewrite drop_while_end_none by (apply Hc; intros c H; unfold is_quote; char_lia).
  change (lit "``") with [34; 34]%N.
  apply replace_absent_char, Hc. intros c H ->. done.
Qed.

(** ** The statements *)

Lemma show_int_token k : is_token (show_int k).
Proof.
  assert (Hd : forall n, (0 <= n)%Z -> is_name (show_nonneg n)).
  { intros n Hn. unfold show_nonneg. split.
    - destruct (show_digits_head (S (Z.to_nat (Z.log2 n))) n []) as (c & r & -> & _); done.
    - eapply list.Forall_impl; [apply digits_are_digits; [done|constructor]|].
      intros c Hc. char_lia. }
  unfold show_int. destruct (Z.ltb_spec k 0).
  - right. exists (show_nonneg (- k)). split; [done|]. apply Hd. lia.
  - left. by apply Hd.
Qed.

(** A token that is not the name of the settings. *)
Definition not_settings (t : str) : Prop :=
  starts_with (lit "pg_settings") (to_ascii_lowercase t) = false.

Lemma show_int_not_settings k : not_settings (show_int k).
Proof.
  unfold not_settings. destruct (show_int_token k) as [[_ Hw]|(w & -> & _)]; [|done].
  destruct (show_int k) as [|c r] eqn:E; [done|]. cbn [to_ascii_lowercase fmap list_fmap starts_with].
  assert (Hc : c = 45%N \/ is_ascii_digit c = true).
  { unfold show_int in E. destruct (Z.ltb_spec k 0); [injection E as <- _; by left|].
    destruct (show_digits_head (S (Z.to_nat (Z.log2 k))) k []) as (d & t & Hs & Hd); [done..|].
    unfold show_nonneg in E. rewrite Hs in E. injection E as <- _. by right. }
  unfold char_to_ascii_lowercase. apply andb_false_iff. left. apply N.eqb_neq.
  intros Hp. unfold is_ascii_uppercase in Hp. destruct Hc as [->|Hc]; [done|].
  change (lit_char "p") with 112%N in Hp.
  destruct ((65 <=? c) && (c <=? 90))%N eqn:Eu; char_lia.
Qed.

Lemma lit_name w : forallb word_char (lit w) && negb (bool_decide (lit w = [])) = true -> is_token (lit w).
Proof.
  intros [Hw Hne%negb_true_iff%bool_decide_eq_false]%andb_true_iff. left. split; [done|].
  apply list.Forall_forall. intros c Hc. eapply (proj1 (forallb_forall _ _)) in Hw; [exact Hw|].
  by apply list_elem_of_In.
Qed.

Lemma direction_tokens_ok d :
  Forall is_token (direction_tokens d) /\ Forall not_settings (direction_tokens d).
Proof.
  assert (Hw : forall w, forallb word_char (lit w) && negb (bool_decide (lit w = [])) = true ->
                 not_settings (lit w) -> is_token (lit w) /\ not_settings (lit w))
    by (intros; split; [by apply lit_name|done]).
  pose proof show_int_token. pose proof show_int_not_settings.
  destruct d as [| | | |k|k|[k|]|[k|]| |k]; cbn [direction_tokens]; split;
    repeat (apply list.Forall_cons_2; [first [by apply Hw | done]|]); constructor.
Qed.

(** The text of a FETCH or MOVE ([verb]) with FROM or IN ([prep]). *)
Definition position_text (verb : string) (d : CursorDirection) (prep : string) (name : str) : str :=
  spaced (lit verb :: direction_tokens d ++ [lit prep; name]).
Definition position_plan (verb : string) (p : CursorPosition) : CursorPlan :=
  if bool_decide (verb = "FETCH"%string) then PlanFetch p else PlanMove p.
(** The counts that the parser keeps as they are. *)
Definition direction_writable (d : CursorDirection) : Prop :=
  match d with
  | Absolute k | Relative k | Count k => is_i64 k
  | Forward (Some k) | Backward (Some k) => (0 <= k <= i64_max)%Z
  | _ => True
  end.

Lemma spaced_snoc ts t : ts <> [] -> spaced (ts ++ [t]) = spaced ts ++ 32%N :: t.
Proof.
  induction ts as [|u ts IH]; [done|]. intros _. destruct ts as [|v ts]; [done|].
  change ((u :: v :: ts) ++ [t]) with (u :: v :: (ts ++ [t])). rewrite !spaced_cons.
  rewrite <- app_assoc. cbn [app]. do 2 f_equal. by apply IH.
Qed.

Lemma trim_between c s d :
  is_whitespace c = false -> is_whitespace d = false -> is_semicolon d = false ->
  trim (trim_end_matches is_semicolon (trim (c :: s ++ [d]))) = c :: s ++ [d].
Proof.
  intros Hc Hd Hs. rewrite trim_ends by done. unfold trim_end_matches.
  rewrite drop_end_last by done. by apply trim_ends.
Qed.

Section text.
Context `{BuildProfile} `{RegexEngine}.
Context (verb prep : string) (d : CursorDirection) (name : str).
Context (Hverb : verb = "FETCH"%string \/ verb = "MOVE"%string).
Context (Hprep : prep = "FROM"%string \/ prep = "IN"%string).
Context (Hname : is_name name) (Hset : not_settings name).

Let tokens := lit verb :: direction_tokens d ++ [lit prep; name].
Let text := position_text verb d prep name.

Lemma tokens_ok : Forall is_token tokens.
Proof.
  apply list.Forall_cons_2; [by destruct Hverb as [->| ->]; apply lit_name|].
  apply Forall_app; split; [apply direction_tokens_ok|].
  apply list.Forall_cons_2; [by destruct Hprep as [->| ->]; apply lit_name|].
  apply list.Forall_cons_2; [by left|constructor].
Qed.

Lemma text_chars : Forall (fun c => token_char c = true \/ c = 32%N) text.
Proof.
  apply spaced_forall; [by right|]. eapply list.Forall_impl; [exact tokens_ok|].
  intros t [_ Ht]%is_token_chars. eapply list.Forall_impl; [exact Ht|]. by left.
Qed.

Lemma text_ascii : is_ascii text.
Proof.
  eapply list.Forall_impl; [exact text_chars|].
  intros c [Hc%token_char_facts| ->]; [apply Hc|lia].
Qed.

(** The statement is its verb, then a space and more. *)
Lemma text_verb : exists rest, text = lit verb ++ 32%N :: rest.
Proof.
  unfold text, position_text. destruct (direction_tokens d ++ [lit prep; name]) as [|t ts] eqn:E.
  - by destruct (direction_tokens d).
  - eexists. by rewrite spaced_cons.
Qed.

(** It starts and ends with characters of its tokens. *)
Lemma text_ends :
  exists a s z, text = a :: s ++ [z] /\ is_whitespace a = false /\ token_char z = true.
Proof.
  destruct Hname as [Hne Hn]. destruct (exists_last Hne) as (n & z & En).
  rewrite En in Hn. apply Forall_app in Hn as [_ Hn]. apply list.Forall_cons in Hn as [Hz _].
  assert (Hend : exists p, text = p ++ 32%N :: n ++ [z]).
  { eexists. unfold text, position_text.
    change [lit prep; name] with ([lit prep] ++ [name]). rewrite app_assoc, app_comm_cons.
    rewrite spaced_snoc by done. by rewrite En. }
  destruct Hend as [p Ep], text_verb as [rest Ev].
  destruct p as [|a p].
  { exfalso. rewrite Ep in Ev. by destruct Hverb as [->| ->]. }
  exists a, (p ++ 32%N :: n), z. split_and!.
  - rewrite Ep. cbn [app]. by rewrite <- app_assoc.
  - rewrite Ep in Ev. by destruct Hverb as [->| ->]; injection Ev as -> _.
  - unfold token_char. by rewrite Hz.
Qed.

Lemma text_normal : normalize_sql text = text.
Proof.
  assert (Hc : replace_all COMMENT_RE (lit " ") text = text).
  { apply no_match_replace. intros i. apply no_comment_match; [vm_compute; reflexivity|].
    apply no_comment_spaced, tokens_ok. }
  unfold normalize_sql. rewrite Hc. destruct text_ends as (a & s & z & -> & Ha & Hz).
  apply token_char_facts in Hz. apply trim_between; [done|apply Hz|unfold is_semicolon; lia].
Qed.

(** Nothing before the keyword answers. *)
Lemma text_not_session w pat :
  forallb (fun c => (c <? 128)%N) (lit w) = true -> starts_word (lit w) pat = true ->
  (forall rest, starts_with (to_ascii_lowercase (lit w)) (to_ascii_lowercase (lit verb ++ 32%N :: rest))
                = false) ->
  captures_of pat text = None.
Proof.
  intros Hw Hp Hno. apply (other_verb (lit w)); [by apply lit_ascii|exact text_ascii|done|].
  destruct text_verb as [rest ->]. apply Hno.
Qed.

Ltac not_session w :=
  apply (text_not_session w); [vm_compute; reflexivity|vm_compute; reflexivity|];
  intros rest; by destruct Hverb as [->| ->].

Lemma text_not_settings : contains (lit " pg_settings") (to_ascii_lowercase text) = false.
Proof.
  unfold text, position_text. rewrite lower_spaced.
  change (lit " pg_settings") with (32%N :: lit "pg_settings").
  assert (Hlow : forall t, is_token t -> Forall (fun c => c <> 32%N) (to_ascii_lowercase t)).
  { intros t [_ Ht]%is_token_chars. apply Forall_fmap. eapply list.Forall_impl; [exact Ht|].
    intros c Hc. cbn. unfold char_to_ascii_lowercase. unfold token_char in Hc. case_match; char_lia. }
  apply no_word_after_space.
  - by apply (bool_decide_unpack _).
  - apply Forall_fmap. eapply list.Forall_impl; [exact tokens_ok|]. exact Hlow.
  - cbn [fmap list_fmap tail]. apply Forall_fmap. apply Forall_app; split.
    + apply direction_tokens_ok.
    + apply list.Forall_cons_2; [by destruct Hprep as [->| ->]|].
      apply list.Forall_cons_2; [exact Hset|constructor].
Qed.

Lemma text_not_select : local_select text = None.
Proof.
  unfold local_select. rewrite text_not_settings.
  assert (Hc : contains (lit "pg_catalog.pg_settings") (to_ascii_lowercase text) = false).
  { destruct (contains _ _) eqn:E; [|done]. exfalso.
    apply (contains_forall (fun c => c <> 46%N)) in E.
    - repeat (apply list.Forall_cons in E as [? E]). done.
    - apply Forall_fmap. eapply list.Forall_impl; [exact text_chars|].
      intros c [Hc| ->]; cbn; [|done]. unfold char_to_ascii_lowercase, token_char in *.
      case_match; char_lia. }
  rewrite Hc. destruct text_verb as [rest ->].
  destruct Hverb as [->| ->]; reflexivity.
Qed.

Lemma text_tokens : split_whitespace text = tokens.
Proof.
  apply split_spaced. eapply list.Forall_impl; [exact tokens_ok|].
  intros t [Hne Ht]%is_token_chars. split; [done|]. eapply list.Forall_impl; [exact Ht|].
  intros c Hc. by apply token_char_facts in Hc as [? _].
Qed.

Lemma text_split : split_position tokens = (direction_tokens d, name).
Proof.
  unfold split_position, tokens.
  assert (Hlen : length (lit verb :: direction_tokens d ++ [lit prep; name])
                 = length (direction_tokens d) + 3) by (cbn; rewrite length_app; cbn; lia).
  rewrite Hlen. set (n := length (direction_tokens d)).
  assert (Hp : (lit verb :: direction_tokens d ++ [lit prep; name]) !! S n = Some (lit prep))
    by exact (list_lookup_middle (direction_tokens d) [name] (lit prep) n eq_refl).
  assert (Hn : (lit verb :: direction_tokens d ++ [lit prep; name]) !! S (S n) = Some name).
  { change (lit verb :: direction_tokens d ++ [lit prep; name])
      with ((lit verb :: direction_tokens d) ++ [lit prep] ++ [name]).
    rewrite app_assoc. apply list_lookup_middle. rewrite length_app. cbn. lia. }
  rewrite (proj2 (Nat.leb_le 3 (n + 3))) by lia.
  replace (n + 3 - 2) with (S n) by lia. replace (n + 3 - 1) with (S (S n)) by lia.
  replace (n + 3 - 3) with n by lia. rewrite Hp, Hn. cbn [default from_option id].
  assert (Hone : one_of (to_ascii_uppercase (lit prep)) ["FROM"; "IN"]%string = true)
    by (by destruct Hprep as [->| ->]).
  rewrite Hone. cbn [andb drop]. subst n. by rewrite drop_0, take_app_length.
Qed.

Lemma text_position :
  direction_writable d ->
  parse_cursor_position (lit verb) text
  = Ok (Some {| position_name := name; position_direction := d |}).
Proof.
  intros Hd. unfold parse_cursor_position. rewrite text_tokens. unfold tokens at 1.
  assert (Hup : to_ascii_uppercase (lit verb) = lit verb) by (by destruct Hverb as [->| ->]).
  rewrite Hup, str_eqb_refl. cbn [negb orb].
  assert (Hlt : (length tokens <? 2) = false).
  { apply Nat.ltb_ge. unfold tokens. cbn. rewrite length_app. cbn. lia. }
  rewrite Hlt, text_split, direction_roundtrip by done. cbn [mbind outcome_bind option_map]. by rewrite (unquote_name name Hname).
Qed.

Lemma text_keyword : first_keyword text = lit verb.
Proof.
  unfold first_keyword. rewrite text_tokens. by destruct Hverb as [->| ->].
Qed.

(** What no session command, SHOW or local SELECT takes goes by its keyword. *)
Lemma classify_by_keyword s :
  normalize_sql s = s -> s <> [] -> captures_of SET_SEARCH_PATH_RE s = None ->
  is_safe_set s = false -> is_match RESET_RE s = false -> local_show s = None ->
  local_select s = None -> classify_statement s = classify_keyword s.
Proof.
  intros Hs Hne H1 H2 H3 H4 H5. unfold classify_statement. rewrite Hs.
  destruct s as [|c s]; [done|]. by rewrite H1, H2, H3, H4, H5.
Qed.

Lemma text_classified :
  direction_writable d ->
  classify_statement text
  = Ok (Cursor (position_plan verb {| position_name := name; position_direction := d |})).
Proof.
  intros Hd. rewrite classify_by_keyword.
  - unfold classify_keyword. rewrite text_keyword.
    assert (Hpos : classify_cursor_position (lit verb) text
       = Ok (Cursor (position_plan verb {| position_name := name; position_direction := d |}))).
    { unfold classify_cursor_position. rewrite text_position by done.
      by destruct Hverb as [->| ->]. }
    rewrite <- Hpos. by destruct Hverb as [->| ->].
  - exact text_normal.
  - destruct text_verb as [rest ->]. by destruct Hverb as [->| ->].
  - not_session "SET"%string.
  - unfold is_safe_set, is_match.
    assert (captures_of SET_CHARACTERISTICS_RE text = None) as -> by not_session "SET"%string.
    assert (captures_of SET_TRANSACTION_RE text = None) as -> by not_session "SET"%string.
    by assert (captures_of SET_ASSIGN_RE text = None) as -> by not_session "SET"%string.
  - unfold is_match. by assert (captures_of RESET_RE text = None) as -> by not_session "RESET"%string.
  - unfold local_show.
    by assert (captures_of SHOW_RE text = None) as -> by not_session "SHOW"%string.
  - exact text_not_select.
Qed.
End text.

(** C20: FETCH and MOVE round trip from their whole text.  For every direction (with a
    count in 64 bits, and not a negative one after FORWARD or BACKWARD), FROM or IN,
    and every cursor name of letters, digits and underscores that does not start
    with [pg_settings], the statement is classified as exactly this movement of this
    cursor, whatever the regular expression engine's Unicode tables. *)
Theorem cursor_statement_roundtrip `{BuildProfile} `{RegexEngine} verb prep d name :
  verb = "FETCH"%string \/ verb = "MOVE"%string ->
  prep = "FROM"%string \/ prep = "IN"%string ->
  is_name name -> not_settings name -> direction_writable d ->
  classify_statement (position_text verb d prep name)
  = Ok (Cursor (position_plan verb {| position_name := name; position_direction := d |})).
Proof. intros. by apply text_classified. Qed.

#[local] Existing Instance dev_profile.
#[local] Existing Instance reference_engine.
Lemma cursor_statement_roundtrip_witness :
  classify_statement (lit "MOVE RELATIVE -3 IN sales_2024")
  = Ok (Cursor (PlanMove {| position_name := lit "sales_2024";
                            position_direction := Relative (-3) |})).
Proof.
  apply (cursor_statement_roundtrip "MOVE" "IN" (Relative (-3)) (lit "sales_2024")).
  - by right.
  - by right.
  - split; [done|]. by repeat constructor.
  - reflexivity.
  - unfold direction_writable. unfold_bounds. lia.
Defined.
