(* ===== verification/DeclareText.v ===== *)
(** * DECLARE, from its text

    The text of a DECLARE statement, with the cursor's name, its options and its query,
    is classified as the declaration of exactly this cursor, whatever the engine's
    Unicode tables. *)

From Stdlib Require Import ZifyN ZifyBool.
From S2P Require Import Prelude RustStr RustInt Regex RegexLemmas RegexMatches Plan Policy.
From S2P Require Import PolicyTheorems TextScan TranslatorTheorems CursorText.
#[local] Open Scope nat_scope.

(** ** The text *)

Inductive scroll_option := ScrollDefault | Scroll | NoScroll.
Inductive hold_option := HoldDefault | WithHold | WithoutHold.

Definition scroll_text (o : scroll_option) : str :=
  match o with ScrollDefault => [] | Scroll => lit "SCROLL " | NoScroll => lit "NO SCROLL " end.
Definition hold_text (o : hold_option) : str :=
  match o with
  | HoldDefault => [] | WithHold => lit " WITH HOLD" | WithoutHold => lit " WITHOUT HOLD"
  end.
Definition declare_text (name : str) (sc : scroll_option) (h : hold_option) (query : str) : str :=
  lit "DECLARE " ++ name ++ lit " " ++ scroll_text sc ++ lit "CURSOR" ++ hold_text h
  ++ lit " FOR " ++ query.

(** ** The pattern *)

Definition not_quote : re :=
  RSet {| cc_negated := true; cc_fold := true; cc_items := [CRange 34 34] |}.
Definition quoted_name : re :=
  literal [34]%N (RSeq (RPlus true not_quote) (literal [34]%N REps)).
Definition plain_name : re := RSeq (RSet name_first) (RSeq (RStar true (RSet name_next)) REps).
Definition cursor_option : re :=
  RSeq (RAlt (literal (lit "BINARY") REps)
        (RAlt (literal (lit "INSENSITIVE") REps)
         (RAlt (literal (lit "ASENSITIVE") REps)
          (RAlt (literal (lit "NO") (RSeq spaces (literal (lit "SCROLL") REps)))
                (literal (lit "SCROLL") REps)))))
       (RSeq spaces REps).
Definition with_hold : re := literal (lit "WITH") (RSeq spaces (literal (lit "HOLD") REps)).
Definition without_hold : re := literal (lit "WITHOUT") (RSeq spaces (literal (lit "HOLD") REps)).
Definition any : char_class := {| cc_negated := true; cc_fold := false; cc_items := [] |}.

Definition for_query : re :=
  RSeq spaces (literal (lit "FOR") (RSeq spaces
    (RSeq (RGroup 4 (RSeq (RPlus true (RSet any)) REps)) (RSeq (RAssert AEnd) REps)))).
Definition hold_and_query : re :=
  RSeq (RStar true space) (RSeq (RAlt (RGroup 3 (RAlt with_hold without_hold)) REps) for_query).
Definition declare_re : re :=
  RSeq (RAssert AStart) (literal (lit "DECLARE") (RSeq spaces
    (RSeq (RGroup 1 (RAlt quoted_name plain_name)) (RSeq spaces
      (RSeq (RGroup 2 (RSeq (RStar true cursor_option) REps))
        (literal (lit "CURSOR") hold_and_query)))))).

Lemma declare_pattern :
  parse_regex DECLARE_CURSOR_RE
  = Some {| rx_re := declare_re;
            rx_names := [(lit "query", 4); (lit "hold", 3); (lit "options", 2); (lit "name", 1)] |}.
Proof. vm_compute. reflexivity. Qed.

Section matching.
Context (u : unicode).

(** A single space before something else. *)
Lemma first_spaces rest st :
  ms_rest st = 32%N :: rest ->
  match rest with c :: _ => is_whitespace c = false | [] => True end ->
  first_match u spaces st = Some (ms_run [32%N] rest st).
Proof.
  intros Hr Hc. apply first_plus; [done|done|by repeat constructor|].
  destruct rest as [|c rest]; [done|]. unfold class_matches. cbn. by rewrite Hc.
Qed.

Lemma for_query_match query st :
  ms_rest st = lit " FOR " ++ query ->
  match query with c :: _ => is_whitespace c = false | [] => False end ->
  exists st', first_match u for_query st = Some st'
    /\ ms_caps st' = (4, (ms_pos st + 5, ms_pos st + 5 + length query)) :: ms_caps st.
Proof.
  intros Hr Hq. destruct query as [|c query]; [done|]. eexists. split.
  - eapply first_seq; [by apply (first_spaces (lit "FOR " ++ c :: query))|].
    eapply first_literal; [reflexivity|].
    eapply first_seq; [by apply (first_spaces (c :: query))|].
    eapply first_seq.
    { apply first_group. eapply first_seq; [|apply first_eps].
      apply (first_plus _ _ (c :: query) []); [done|by rewrite app_nil_r| |done].
      apply Forall_true. intros x. reflexivity. }
    eapply first_seq; [by apply first_assert|apply first_eps].
  - cbn. repeat first [lia|f_equal].
Qed.

Lemma hold_words w query st :
  ms_rest st = w ++ lit " HOLD FOR " ++ query ->
  exists st', first_match u (literal w (RSeq spaces (literal (lit "HOLD") REps))) st = Some st'
    /\ ms_rest st' = lit " FOR " ++ query /\ ms_pos st' = ms_pos st + length w + 5
    /\ ms_caps st' = ms_caps st.
Proof.
  intros Hr. eexists. split.
  - eapply first_literal; [exact Hr|].
    eapply first_seq; [by apply (first_spaces (lit "HOLD FOR " ++ query))|].
    eapply first_literal; [reflexivity|apply first_eps].
  - split_and!; [done| |done]. cbn. lia.
Qed.

Lemma hold_match h query st :
  ms_rest st = hold_text h ++ lit " FOR " ++ query ->
  match query with c :: _ => is_whitespace c = false | [] => False end ->
  exists st', first_match u hold_and_query st = Some st'
    /\ ms_caps st'
       = (4, (ms_pos st + length (hold_text h) + 5,
              ms_pos st + length (hold_text h) + 5 + length query))
         :: (match h with
             | HoldDefault => []
             | _ => [(3, (ms_pos st + 1, ms_pos st + length (hold_text h)))]
             end) ++ ms_caps st.
Proof.
  intros Hr Hq. destruct h; cbn [hold_text app] in Hr.
  - destruct (for_query_match query st Hr Hq) as (st' & E & Hc). exists st'. split.
    + assert (Hstar : all_matches u (RStar true space) st
                      = [ms_advance st 32%N (lit "FOR " ++ query); st])
        by (by apply star_single).
      eapply first_seq_back; [exact Hstar|reflexivity|].
      eapply first_seq; [|exact E]. rewrite first_alt_r; [done|].
      cbn [all_matches]. unfold with_hold, without_hold.
      by rewrite !(literal_none _ _ 87 _ 32 (lit "FOR " ++ query)).
    + rewrite Hc. cbn. repeat first [lia|f_equal].
  - set (st1 := ms_run [32%N] (lit "WITH HOLD FOR " ++ query) st).
    destruct (hold_words (lit "WITH") query st1) as (st2 & E2 & R2 & P2 & C2); [done|].
    destruct (for_query_match query (ms_close 3 (ms_pos st1) st2)) as (st' & E & Hc); [done..|].
    exists st'. split.
    + eapply first_seq; [by apply (first_star _ _ [32%N] (lit "WITH HOLD FOR " ++ query));
                           [|repeat constructor|]|].
      eapply first_seq; [|exact E]. by apply first_alt_l, first_group, first_alt_l.
    + rewrite Hc. cbn -[Nat.add]. rewrite P2, C2. cbn. repeat first [lia|f_equal].
  - set (st1 := ms_run [32%N] (lit "WITHOUT HOLD FOR " ++ query) st).
    destruct (hold_words (lit "WITHOUT") query st1) as (st2 & E2 & R2 & P2 & C2); [done|].
    destruct (for_query_match query (ms_close 3 (ms_pos st1) st2)) as (st' & E & Hc); [done..|].
    exists st'. split.
    + eapply first_seq; [by apply (first_star _ _ [32%N] (lit "WITHOUT HOLD FOR " ++ query));
                           [|repeat constructor|]|].
      eapply first_seq; [|exact E]. apply first_alt_l, first_group.
      by rewrite first_alt_r by reflexivity.
    + rewrite Hc. cbn -[Nat.add]. rewrite P2, C2. cbn. repeat first [lia|f_equal].
Qed.

(** An alternative whose literal does not start as the text does. *)
Ltac skip_alternative H :=
  rewrite first_alt_r by (eapply literal_none; [reflexivity|exact H|reflexivity]).

Lemma options_match sc tail st :
  ms_rest st = scroll_text sc ++ lit "CURSOR" ++ tail ->
  exists st', first_match u (RGroup 2 (RSeq (RStar true cursor_option) REps)) st = Some st'
    /\ ms_rest st' = lit "CURSOR" ++ tail
    /\ ms_pos st' = ms_pos st + length (scroll_text sc)
    /\ ms_caps st' = (2, (ms_pos st, ms_pos st + length (scroll_text sc))) :: ms_caps st.
Proof.
  intros Hr.
  assert (Hno : forall st1, ms_rest st1 = lit "CURSOR" ++ tail ->
            all_matches u cursor_option st1 = []).
  { intros st1 H1. unfold cursor_option. cbn [all_matches].
    by rewrite !(literal_none _ _ _ _ 67 (lit "URSOR" ++ tail)) by
      first [exact H1|reflexivity]. }
  destruct sc; cbn [scroll_text app] in Hr.
  - exists (ms_close 2 (ms_pos st) st). split_and!; [|done|cbn; lia|cbn; by rewrite Nat.add_0_r].
    apply first_group. eapply first_seq; [|apply first_eps]. by apply star_none, Hno.
  - set (st1 := ms_run (lit "SCROLL") (lit " CURSOR" ++ tail) st).
    set (st2 := ms_run [32%N] (lit "CURSOR" ++ tail) st1).
    exists (ms_close 2 (ms_pos st) st2). split_and!; [|done|cbn; lia|cbn; repeat first [lia|f_equal]].
    apply first_group. eapply first_seq; [|apply first_eps].
    apply star_once; [by rewrite Hr| |cbn; lia|by apply Hno].
    eapply first_seq.
    { do 4 skip_alternative Hr.
      eapply first_literal; [exact Hr|apply first_eps]. }
    eapply first_seq; [|apply first_eps]. by apply (first_spaces (lit "CURSOR" ++ tail)).
  - set (st0 := ms_run (lit "NO") (lit " SCROLL CURSOR" ++ tail) st).
    set (st1 := ms_run [32%N] (lit "SCROLL CURSOR" ++ tail) st0).
    set (st2 := ms_run (lit "SCROLL") (lit " CURSOR" ++ tail) st1).
    set (st3 := ms_run [32%N] (lit "CURSOR" ++ tail) st2).
    exists (ms_close 2 (ms_pos st) st3). split_and!; [|done|cbn; lia|cbn; repeat first [lia|f_equal]].
    apply first_group. eapply first_seq; [|apply first_eps].
    apply star_once; [by rewrite Hr| |cbn; lia|by apply Hno].
    eapply first_seq.
    { do 3 skip_alternative Hr.
      apply first_alt_l. eapply first_literal; [exact Hr|].
      eapply first_seq; [by apply (first_spaces (lit "SCROLL CURSOR" ++ tail))|].
      eapply first_literal; [reflexivity|apply first_eps]. }
    eapply first_seq; [|apply first_eps]. by apply (first_spaces (lit "CURSOR" ++ tail)).
Qed.

(** A name of letters, digits and underscores that does not start with a digit. *)
Definition is_identifier (t : str) : Prop :=
  is_name t /\ match t with c :: _ => is_ascii_digit c = false | [] => False end.

Lemma name_classes c :
  word_char c = true ->
  class_matches u name_next c = true
  /\ (is_ascii_digit c = false -> class_matches u name_first c = true).
Proof.
  intros Hc.
  assert (Hall : forallb (fun x => implb (word_char x)
      (class_matches u name_next x && (is_ascii_digit x || class_matches u name_first x)))
      (N.of_nat <$> seq 0 128) = true) by (vm_compute; reflexivity).
  assert (Hin : In c (N.of_nat <$> seq 0 128)).
  { apply in_map_iff. exists (N.to_nat c). split; [lia|]. apply in_seq. char_lia. }
  rewrite forallb_forall in Hall. specialize (Hall c Hin). rewrite Hc in Hall.
  apply andb_true_iff in Hall as [Hn Hf].
  split; [done|]. intros Hd. by rewrite Hd in Hf.
Qed.

Lemma name_match name rest st :
  is_identifier name -> ms_rest st = name ++ 32%N :: rest ->
  first_match u (RGroup 1 (RAlt quoted_name plain_name)) st
  = Some (ms_close 1 (ms_pos st) (ms_run name (32%N :: rest) st)).
Proof.
  intros [[Hne Hw] Hd] Hr. destruct name as [|c name]; [done|].
  inversion Hw as [|? ? Hc Hw']; subst. destruct (name_classes c Hc) as [_ Hf].
  apply first_group. rewrite first_alt_r.
  2: { apply (literal_none _ _ 34 _ c (name ++ 32%N :: rest)); [done|done|].
       destruct (class_matches u (folded 34) c) eqn:E; [|done]. apply class_folded in E; [|done|].
       - unfold char_to_ascii_lowercase in E. cbn in E. case_match; char_lia.
       - char_lia. }
  rewrite <- ms_run_cons. eapply first_seq; [by eapply first_set; [exact Hr|apply Hf]|].
  eapply first_seq; [|apply first_eps]. apply first_star; [done| |done].
  eapply list.Forall_impl; [exact Hw'|]. intros x Hx. by apply name_classes.
Qed.
End matching.

(** The query starts and ends with a character that trimming leaves. *)
Definition starts_bare (query : str) : Prop :=
  match query with c :: _ => is_whitespace c = false | [] => False end.
Definition ends_bare (query : str) : Prop :=
  exists q z, query = q ++ [z] /\ is_whitespace z = false /\ is_semicolon z = false.

(** What the text of a DECLARE may be: it has no comment, does not write through the
    cursor and nothing of the settings that the gateway answers by itself. *)
Record declarable `{RegexEngine} (name : str) (sc : scroll_option) (h : hold_option)
    (query : str) : Prop := {
  dc_name : is_identifier name;
  dc_starts : starts_bare query;
  dc_ends : ends_bare query;
  dc_writes : contains_positioned_cursor_write query = false;
  dc_comment : no_comment false (declare_text name sc h query) = true;
  dc_settings :
    contains (lit "pg_settings") (to_ascii_lowercase (declare_text name sc h query)) = false }.

Section declare.
Context `{BuildProfile} `{RegexEngine}.
Variables (name : str) (sc : scroll_option) (h : hold_option) (query : str).
Hypothesis Hname : is_identifier name.
Hypothesis Hquery : starts_bare query.

Let text := declare_text name sc h query.

(** What the hold group has. *)
Definition hold_words_of : option str :=
  match h with
  | HoldDefault => None | WithHold => Some (lit "WITH HOLD") | WithoutHold => Some (lit "WITHOUT HOLD")
  end.

Lemma declare_spans :
  let p := 9 + length name in
  let q := p + length (scroll_text sc) + 6 in
  exists cap, captures_of DECLARE_CURSOR_RE text = Some cap
    /\ cap_span cap 1 = Some (8, 8 + length name)
    /\ cap_span cap 2 = Some (p, p + length (scroll_text sc))
    /\ cap_span cap 3 = match h with
                        | HoldDefault => None
                        | _ => Some (q + 1, q + length (hold_text h))
                        end
    /\ cap_span cap 4 = Some (q + length (hold_text h) + 5,
                              q + length (hold_text h) + 5 + length query).
Proof.
  intros p q. set (tail := hold_text h ++ lit " FOR " ++ query).
  set (st0 := {| ms_prev := None; ms_rest := text; ms_pos := 0; ms_caps := [] |}).
  set (rest := name ++ lit " " ++ scroll_text sc ++ lit "CURSOR" ++ tail).
  set (st1 := ms_run [32%N] rest (ms_run (lit "DECLARE") (lit " " ++ rest) st0)).
  set (after := scroll_text sc ++ lit "CURSOR" ++ tail).
  set (st2 := ms_close 1 (ms_pos st1) (ms_run name (32%N :: after) st1)).
  set (st3 := ms_run [32%N] after st2).
  assert (Hhead : forall l, match name ++ l with c :: _ => is_whitespace c = false | [] => True end).
  { destruct Hname as [[Hne Hw] _]. destruct name as [|c n]; [done|]. intros l. cbn.
    inversion Hw; subst. unfold is_whitespace. char_lia. }
  destruct (options_match re_unicode sc tail st3) as (st4 & E4 & R4 & P4 & C4); [done|].
  set (st5 := ms_run (lit "CURSOR") tail st4).
  destruct (hold_match re_unicode h query st5) as (st6 & E6 & C6); [done..|].
  exists (whole 0 st6). split.
  - eapply captures_first; [exact declare_pattern|].
    eapply first_seq; [by apply first_assert|].
    eapply first_literal; [reflexivity|]. eapply first_seq; [apply (first_spaces _ rest); [done|apply Hhead]|].
    eapply first_seq; [by apply (name_match _ name after)|].
    eapply first_seq.
    { apply (first_spaces _ after); [done|]. by destruct sc. }
    eapply first_seq; [exact E4|]. eapply first_literal; [exact R4|exact E6].
  - assert (P3 : ms_pos st3 = p) by (cbn; unfold p; lia).
    assert (P5 : ms_pos st5 = q) by (cbn; rewrite P4, P3; unfold q; lia).
    unfold whole. rewrite C6, P5. cbn [st5 ms_caps ms_run]. rewrite C4, P3.
    by destruct h.
Qed.

Lemma declare_groups :
  exists cap, captures_of DECLARE_CURSOR_RE text = Some cap
    /\ cap_name DECLARE_CURSOR_RE text cap (lit "name") = Some name
    /\ cap_name DECLARE_CURSOR_RE text cap (lit "options") = Some (scroll_text sc)
    /\ cap_name DECLARE_CURSOR_RE text cap (lit "hold") = hold_words_of
    /\ cap_name DECLARE_CURSOR_RE text cap (lit "query") = Some query.
Proof.
  destruct declare_spans as (cap & E & H1 & H2 & H3 & H4). exists cap. split; [done|].
  assert (Hg : forall g i, group_index DECLARE_CURSOR_RE (lit g) = Some i ->
             cap_name DECLARE_CURSOR_RE text cap (lit g)
             = ('(a, b) ← cap_span cap i; Some (slice a b text))).
  { intros g i Hi. unfold cap_name. by rewrite Hi. }
  split_and!.
  - rewrite (Hg "name"%string 1), H1 by (vm_compute; reflexivity).
    cbn [mbind option_bind]. f_equal. by apply (slice_middle (lit "DECLARE ") name).
  - rewrite (Hg "options"%string 2), H2 by (vm_compute; reflexivity). cbn [mbind option_bind]. f_equal.
    replace text with ((lit "DECLARE " ++ name ++ lit " ") ++ scroll_text sc ++ lit "CURSOR"
                       ++ hold_text h ++ lit " FOR " ++ query)
      by (unfold text, declare_text; by rewrite <- !app_assoc).
    apply slice_middle; [|done]. rewrite !length_app. cbn. lia.
  - rewrite (Hg "hold"%string 3), H3 by (vm_compute; reflexivity).
    assert (Hh : forall w, hold_text h = lit " " ++ w ->
      slice (9 + length name + length (scroll_text sc) + 6 + 1)
            (9 + length name + length (scroll_text sc) + 6 + length (hold_text h)) text = w).
    { intros w Hw.
      assert (text = (lit "DECLARE " ++ name ++ lit " " ++ scroll_text sc ++ lit "CURSOR ")
                     ++ w ++ lit " FOR " ++ query) as ->
        by (unfold text, declare_text; rewrite Hw; by rewrite <- !app_assoc).
      rewrite Hw. apply slice_middle; rewrite !length_app; cbn; lia. }
    unfold hold_words_of. destruct h; [done|..]; cbn [mbind option_bind]; f_equal; by apply Hh.
  - rewrite (Hg "query"%string 4), H4 by (vm_compute; reflexivity). cbn [mbind option_bind]. f_equal.
    assert (text = (lit "DECLARE " ++ name ++ lit " " ++ scroll_text sc ++ lit "CURSOR"
                    ++ hold_text h ++ lit " FOR ") ++ query ++ []) as ->
      by (rewrite app_nil_r; unfold text, declare_text; by rewrite <- !app_assoc).
    apply slice_middle; [|done]. rewrite !length_app. cbn. lia.
Qed.

(** ** The statement *)

Hypothesis Hends : ends_bare query.
Hypothesis Hwrite : contains_positioned_cursor_write query = false.
Hypothesis Hcomment : no_comment false text = true.
Hypothesis Hsettings : contains (lit "pg_settings") (to_ascii_lowercase text) = false.

Definition declared : CursorDeclare :=
  {| declare_name := name; declare_query := query;
     declare_scroll := match sc with Scroll => true | _ => false end;
     declare_hold := match h with WithHold => true | _ => false end |}.

Lemma query_trim : trim query = query.
Proof.
  destruct Hends as (q & z & Eq & Hz & _). rewrite Eq in *. destruct q as [|c q].
  - apply trim_words. by repeat constructor.
  - by apply trim_ends.
Qed.

Lemma declare_classified_cursor :
  classify_declare_cursor text = Cursor (PlanDeclare declared).
Proof.
  unfold classify_declare_cursor. destruct declare_groups as (cap & E & Hn & Ho & Hh & Hq).
  rewrite E. cbv zeta. rewrite Hn, Ho, Hh, Hq. cbn [fmap option_fmap option_map default from_option id].
  rewrite query_trim, Hwrite, unquote_name by apply Hname.
  unfold declared, hold_words_of. by destruct sc, h.
Qed.

Lemma declare_other pat : refuses 68 pat = true -> captures_of pat text = None.
Proof. apply other_letter. Qed.

Lemma declare_normal : normalize_sql text = text.
Proof.
  assert (Hc : replace_all COMMENT_RE (lit " ") text = text).
  { apply no_match_replace. intros i. by apply no_comment_match; [vm_compute|]. }
  unfold normalize_sql. rewrite Hc.
  destruct Hends as (q & z & Eq & Hz & Hsemi).
  assert (Ht : exists s, text = 68%N :: s ++ [z]).
  { unfold text, declare_text. rewrite Eq. eexists. cbn [app]. by rewrite !app_assoc. }
  destruct Ht as [s ->]. by apply trim_between.
Qed.

Lemma declare_not_select : local_select text = None.
Proof.
  assert (Hin : forall w, contains (w ++ lit "pg_settings") (to_ascii_lowercase text) = false).
  { intros w. destruct (contains (w ++ _) _) eqn:E; [|done].
    apply contains_split in E as (a & b & E). rewrite E in Hsettings.
    pose proof (contains_app (lit "pg_settings") (a ++ w) b) as Hc.
    rewrite <- !app_assoc in Hsettings, Hc. congruence. }
  unfold local_select.
  rewrite (Hin (lit "pg_catalog.") : contains (lit "pg_catalog.pg_settings") _ = false).
  rewrite (Hin (lit " ") : contains (lit " pg_settings") _ = false).
  reflexivity.
Qed.

Lemma declare_text_classified : classify_statement text = Ok (Cursor (PlanDeclare declared)).
Proof.
  rewrite classify_by_keyword.
  - rewrite <- declare_classified_cursor. unfold classify_keyword.
    assert (first_keyword text = lit "DECLARE") as -> by reflexivity. reflexivity.
  - exact declare_normal.
  - done.
  - by (apply declare_other; vm_compute).
  - unfold is_safe_set, is_match. by rewrite !declare_other by (vm_compute; reflexivity).
  - unfold is_match. by rewrite declare_other by (vm_compute; reflexivity).
  - unfold local_show. by rewrite declare_other by (vm_compute; reflexivity).
  - exact declare_not_select.
Qed.
End declare.

Lemma declare_classified `{BuildProfile} `{RegexEngine} name sc h query :
  declarable name sc h query ->
  classify_statement (declare_text name sc h query)
  = Ok (Cursor (PlanDeclare (declared name sc h query))).
Proof. intros []. by apply declare_text_classified. Qed.

(** The name of a cursor that can be declared does not look like the settings. *)
Lemma declarable_name `{RegexEngine} name sc h query :
  declarable name sc h query -> is_name name /\ not_settings name.
Proof.
  intros [Hn _ _ _ _ Hset]. split; [apply Hn|]. unfold not_settings.
  destruct (starts_with _ _) eqn:E; [|done]. apply starts_with_spec in E as [r E].
  revert Hset. unfold declare_text, to_ascii_lowercase in *. rewrite !fmap_app, E.
  rewrite <- app_assoc, contains_app. done.
Qed.

(** C21: DECLARE round trips from its text.  For every name of letters, digits and
    underscores that does not start with a digit, every scroll and hold option and every
    query that does not write through the cursor, the statement is classified as the
    declaration of this cursor with these options and exactly this query, whatever the
    regular expression engine's Unicode tables; the text may not have a comment or
    mention [pg_settings]. *)
Theorem declare_statement_roundtrip `{BuildProfile} `{RegexEngine} name sc h query :
  declarable name sc h query ->
  classify_statement (declare_text name sc h query)
  = Ok (Cursor (PlanDeclare (declared name sc h query))).
Proof. apply declare_classified. Qed.

#[local] Existing Instance dev_profile.
#[local] Existing Instance reference_engine.
Lemma declare_statement_roundtrip_witness :
  classify_statement (lit "DECLARE c_1 NO SCROLL CURSOR WITH HOLD FOR select ';', x from t")
  = Ok (Cursor (PlanDeclare {| declare_name := lit "c_1"; declare_query := lit "select ';', x from t";
                               declare_scroll := false; declare_hold := true |})).
Proof.
  apply (declare_statement_roundtrip (lit "c_1") NoScroll WithHold (lit "select ';', x from t")).
  split.
  - split; [|reflexivity]. split; [done|]. by repeat constructor.
  - reflexivity.
  - by exists (lit "select ';', x from "), 116%N.
  - vm_compute. reflexivity.
  - reflexivity.
  - vm_compute. reflexivity.
Defined.
