(* ===== verification/BootstrapTheorems.v ===== *)
(** * Properties of the bootstrap

    The installation script is cut back into the statements it was written from,
    counts are read alike from both transports, and the values of the written
    configuration read back. *)

From S2P Require Import Prelude RustStr RustInt Arrow Plan Config Exasol ExasolSession.
From S2P Require Import Bootstrap ParamsTheorems.
#[local] Open Scope nat_scope.

(** ** Lines *)

Definition unlines (ls : list str) : str := ls ≫= (fun l => l ++ LF).

(** A line as [str::lines] can give it back. *)
Definition line_ok (l : str) : Prop := Forall (fun c => c <> 10%N) l /\ strip_cr l = l.

Lemma split_char_line d l rest :
  Forall (fun c => c <> d) l -> split_char d (l ++ d :: rest) = l :: split_char d rest.
Proof.
  induction 1 as [|c l Hc _ IH]; cbn [app split_char]; [by rewrite N.eqb_refl|].
  by rewrite (proj2 (N.eqb_neq c d)), IH by done.
Qed.

Lemma split_unlines ls : Forall line_ok ls -> split_char 10 (unlines ls) = ls ++ [[]].
Proof.
  induction 1 as [|l ls [Hl _] _ IH]; [done|].
  change (unlines (l :: ls)) with ((l ++ LF) ++ unlines ls). unfold LF.
  rewrite <- app_assoc. cbn [app]. rewrite split_char_line by done. by rewrite IH.
Qed.

Lemma lines_unlines ls : Forall line_ok ls -> lines (unlines ls) = ls.
Proof.
  intros Hl. unfold lines. rewrite split_unlines, rev_app_distr, removelast_last by done.
  cbn [rev app]. induction Hl as [|l ls [_ Hl] _ IH]; [done|]. csimpl. by rewrite Hl, IH.
Qed.

(** ** Trimming *)

Lemma drop_while_app (p : char -> bool) s c rest :
  p c = false -> drop_while p (s ++ c :: rest) = drop_while p s ++ c :: rest.
Proof.
  intros Hc. induction s as [|x s IH]; cbn; [by rewrite Hc|]. by destruct (p x).
Qed.

Lemma drop_while_end_last (p : char -> bool) s c :
  p c = false -> drop_while_end p (s ++ [c]) = s ++ [c].
Proof.
  intros Hc. unfold drop_while_end. rewrite rev_app_distr. cbn [rev app drop_while].
  rewrite Hc. cbn [rev]. by rewrite rev_involutive.
Qed.

Lemma drop_while_end_snoc (p : char -> bool) s c :
  p c = true -> drop_while_end p (s ++ [c]) = drop_while_end p s.
Proof.
  intros Hc. unfold drop_while_end. rewrite rev_app_distr. cbn [rev app drop_while].
  by rewrite Hc.
Qed.

Lemma trim_semicolon s : trim (s ++ lit ";") = trim_start s ++ lit ";".
Proof.
  unfold trim, trim_start, trim_end. change (lit ";") with [59%N].
  rewrite drop_while_app by done. by apply drop_while_end_last.
Qed.

(** A text without white space at its ends keeps its start. *)
Lemma trim_fix_start s : trim s = s -> trim_start s = s.
Proof.
  unfold trim, trim_end, trim_start. intros Hs.
  assert (Hlen : forall p t, length (drop_while p t) <= length t).
  { intros p t. induction t as [|c t IH]; cbn; [lia|]. case_match; cbn; lia. }
  assert (Heq : forall p t, length (drop_while p t) = length t -> drop_while p t = t).
  { intros p t. destruct t as [|c t]; [done|]. cbn. case_match; [|done].
    specialize (Hlen p t). lia. }
  apply Heq. pose proof (Hlen is_whitespace s). apply (f_equal length) in Hs.
  unfold drop_while_end in Hs. rewrite length_rev in Hs.
  pose proof (Hlen is_whitespace (rev (drop_while is_whitespace s))) as H2.
  rewrite length_rev in H2. lia.
Qed.

(** ** Scripts *)

(** What a script is written from: comment and blank lines, statements that end with
    a semicolon, and functions or scripts that end with a line of their own. *)
Inductive item :=
| Noise (l : str)
| Simple (pre : list str) (last_ : str)
| Compound (header : str) (body : list str).

Definition item_lines (i : item) : list str :=
  match i with
  | Noise l => [l]
  | Simple pre last_ => pre ++ [last_ ++ lit ";"]
  | Compound header body => lit "--/" :: header :: body ++ [lit "/"]
  end.
Definition item_text (i : item) : list str :=
  match i with
  | Noise _ => []
  | Simple pre last_ => [join LF (pre ++ [last_])]
  | Compound header body => [join LF (header :: body)]
  end.

Definition starts_statement (l : str) : Prop :=
  trim l <> [] /\ starts_with (lit "--") (trim l) = false.
Definition text_ok (s : str) : Prop := s <> [] /\ trim s = s.

Definition item_ok (i : item) : Prop :=
  Forall line_ok (item_lines i) /\
  match i with
  | Noise l => trim l = [] \/ starts_with (lit "--") (trim l) = true
  | Simple pre last_ =>
      (forall l, head (item_lines i) = Some l -> starts_statement l)
      /\ Forall (fun l => trim l <> lit "--/" /\ opens_compound (trim l) = false) (item_lines i)
      /\ Forall (fun l => ends_with (lit ";") (trim l) = false) pre
      /\ text_ok (join LF (pre ++ [last_]))
      /\ trim_end_matches (N.eqb 59) (join LF (pre ++ [last_])) = join LF (pre ++ [last_])
  | Compound header body =>
      starts_statement header /\ opens_compound (trim header) = true
      /\ trim header <> lit "/"
      /\ Forall (fun l => trim l <> lit "--/" /\ trim l <> lit "/") body
      /\ text_ok (join LF (header :: body))
  end.

Lemma join_snoc sep l a b : join sep (l ++ [a ++ b]) = join sep (l ++ [a]) ++ b.
Proof.
  induction l as [|x l IH]; [done|].
  destruct l as [|y l]; cbn [app join] in *; [by rewrite <- !app_assoc|].
  rewrite IH. by rewrite <- !app_assoc.
Qed.

Lemma simple_statement_text pre z :
  text_ok (join LF (pre ++ [z])) ->
  trim_end_matches (N.eqb 59) (join LF (pre ++ [z])) = join LF (pre ++ [z]) ->
  simple_statement (pre ++ [z ++ lit ";"]) = join LF (pre ++ [z]).
Proof.
  intros [_ Ht] He. unfold simple_statement. rewrite join_snoc, trim_semicolon.
  rewrite (trim_fix_start _ Ht). change (lit ";") with [59%N].
  unfold trim_end_matches in *. by rewrite drop_while_end_snoc, He, Ht by done.
Qed.

Lemma non_empty_text s rest : s <> [] -> non_empty s rest = s :: rest.
Proof. by destruct s. Qed.

Lemma ends_with_last s : ends_with (lit ";") (trim (s ++ lit ";")) = true.
Proof.
  rewrite trim_semicolon. unfold ends_with. rewrite rev_app_distr. reflexivity.
Qed.

(** One step of the loop on a line that is kept. *)
Lemma split_step buffer flag l rest :
  trim l <> lit "--/" -> (buffer = [] -> starts_statement l) ->
  split_lines_go buffer flag (l :: rest)
  = (let flag := flag || opens_compound (trim l) in
     if flag && str_eqb (trim l) (lit "/")
     then non_empty (trim (join LF buffer)) (split_lines_go [] false rest)
     else if negb flag && ends_with (lit ";") (trim l)
     then non_empty (simple_statement (buffer ++ [l])) (split_lines_go [] flag rest)
     else split_lines_go (buffer ++ [l]) flag rest).
Proof.
  intros Hl Hb. cbn [split_lines_go].
  destruct (str_eqb_spec (trim l) (lit "--/")) as [?|_]; [done|].
  destruct (decide (buffer = [])) as [->|Hne].
  - destruct (Hb eq_refl) as [H1 H2]. rewrite (bool_decide_eq_false_2 (trim l = [])), H2 by done.
    by rewrite andb_false_r.
  - rewrite (bool_decide_eq_false_2 (buffer = [])) by done. cbn [andb].
    by rewrite removelast_last.
Qed.

Lemma split_simple buffer pre z rest :
  (buffer = [] -> forall l, head (pre ++ [z ++ lit ";"]) = Some l -> starts_statement l) ->
  Forall (fun l => trim l <> lit "--/" /\ opens_compound (trim l) = false)
    (pre ++ [z ++ lit ";"]) ->
  Forall (fun l => ends_with (lit ";") (trim l) = false) pre ->
  split_lines_go buffer false (pre ++ [z ++ lit ";"] ++ rest)
  = non_empty (simple_statement (buffer ++ pre ++ [z ++ lit ";"])) (split_lines_go [] false rest).
Proof.
  revert buffer. induction pre as [|l pre IH]; intros buffer Hb Hl He.
  - apply list.Forall_cons in Hl as [[H1 H2] _]. cbn [app].
    rewrite split_step by (done || (intros ->; by apply Hb)).
    cbn zeta. by rewrite H2, ends_with_last.
  - apply list.Forall_cons in Hl as [[H1 H2] Hl]. apply list.Forall_cons in He as [H3 He]. cbn [app].
    rewrite split_step by (done || (intros ->; by apply Hb)).
    cbn zeta. rewrite H2, H3. cbn [orb andb negb].
    change ((z ++ lit ";") :: rest) with ([z ++ lit ";"] ++ rest).
    rewrite (IH (buffer ++ [l])); [by rewrite <- app_assoc|by destruct buffer|done..].
Qed.

Lemma split_compound buffer body rest :
  buffer <> [] -> Forall (fun l => trim l <> lit "--/" /\ trim l <> lit "/") body ->
  split_lines_go buffer true (body ++ [lit "/"] ++ rest)
  = non_empty (trim (join LF (buffer ++ body))) (split_lines_go [] false rest).
Proof.
  intros Hne Hb. revert buffer Hne. induction Hb as [|l body [H1 H2] _ IH]; intros buffer Hne.
  - cbn [app]. rewrite split_step by done. by rewrite app_nil_r.
  - cbn [app]. rewrite split_step by done. cbn zeta. cbn [orb].
    destruct (str_eqb_spec (trim l) (lit "/")) as [?|_]; [done|]. cbn [andb negb].
    change (lit "/" :: rest) with ([lit "/"] ++ rest).
    rewrite IH by (by destruct buffer). by rewrite <- app_assoc.
Qed.

(** C35: an installation script is cut into exactly the statements it was written
    from, in order: the statements ended by a semicolon at a line's end without it,
    and the functions and scripts between [--/] and [/] whole, semicolons included;
    comment lines and blank lines between them vanish. *)
Theorem split_exasol_sql_roundtrip items :
  Forall item_ok items ->
  split_exasol_sql (unlines (items ≫= item_lines)) = items ≫= item_text.
Proof.
  intros Hok. unfold split_exasol_sql. rewrite lines_unlines.
  2: { induction Hok as [|i items [Hi _] _ IH]; [constructor|]. by apply Forall_app. }
  induction Hok as [|i items [_ Hi] _ IH]; [done|].
  change ((i :: items) ≫= item_lines) with (item_lines i ++ (items ≫= item_lines)).
  change ((i :: items) ≫= item_text) with (item_text i ++ (items ≫= item_text)).
  destruct i as [l|pre z|h body]; cbn [item_lines item_text].
  - cbn [app split_lines_go]. destruct (str_eqb _ _); [done|].
    rewrite (bool_decide_eq_true_2 ([] = [])) by done.
    destruct Hi as [-> | ->]; cbn [andb]; [by rewrite bool_decide_eq_true_2|].
    by rewrite orb_true_r.
  - destruct Hi as (Hh & Hl & He & Ht & Hend). rewrite <- app_assoc.
    rewrite split_simple by done. cbn [app]. rewrite simple_statement_text by done.
    destruct Ht as [Hne _]. by rewrite non_empty_text, IH.
  - destruct Hi as (Hh & Hopen & Hs & Hb & Hne & Ht).
    change ((lit "--/" :: h :: body ++ [lit "/"]) ++ (items ≫= item_lines))
      with (lit "--/" :: h :: ((body ++ [lit "/"]) ++ (items ≫= item_lines))).
    rewrite <- app_assoc.
    change (split_lines_go [] false (lit "--/" :: ?l)) with (split_lines_go [] false l).
    assert (trim h <> lit "--/") by (destruct Hh as [_ Hx]; intros E; by rewrite E in Hx).
    rewrite split_step by done.
    cbn zeta. rewrite Hopen. cbn [orb negb andb].
    destruct (str_eqb_spec (trim h) (lit "/")) as [?|_]; [done|]. cbn [andb].
    rewrite split_compound by done. cbn [app]. rewrite Ht.
    by rewrite non_empty_text, IH.
Qed.

(** ** Values of the configuration file *)

(** How a TOML parser reads the rest of a basic string after its opening quote, for
    the two escapes the program writes. *)
Fixpoint lex_basic (s : str) : option (str * str) :=
  match s with
  | [] => None
  | c :: s' =>
      if (c =? 34)%N then Some ([], s')
      else if (c =? 92)%N then
        match s' with
        | d :: s'' => if (d =? 92)%N || (d =? 34)%N
                      then (fun '(t, r) => (d :: t, r)) <$> lex_basic s'' else None
        | [] => None
        end
      else (fun '(t, r) => (c :: t, r)) <$> lex_basic s'
  end.

Lemma replace_char (from : N) to s :
  replace [from] to s = s ≫= (fun c => if (c =? from)%N then to else [c]).
Proof.
  change (replace [from] to s) with (replace_go 0 [from] to s).
  induction s as [|c s IH]; [done|]. cbn [replace_go starts_with mbind list_bind].
  rewrite (N.eqb_sym from c), andb_true_r. unfold mbind in IH. destruct (c =? from)%N; cbn; by rewrite IH.
Qed.

Definition escape_char (c : char) : str :=
  if (c =? 92)%N then [92; 92]%N else if (c =? 34)%N then [92; 34]%N else [c].

Lemma toml_escape_chars s : toml_escape s = s ≫= escape_char.
Proof.
  unfold toml_escape. change (lit "\") with [92%N]. change (lit "`") with [34%N].
  rewrite !replace_char. induction s as [|c s IH]; [done|].
  set (f := fun c => if (c =? 34)%N then lit "\`" else [c]) in *.
  set (g := fun c => if (c =? 92)%N then lit "\\" else [c]) in *.
  change ((c :: s) ≫= g) with (g c ++ (s ≫= g)).
  change ((c :: s) ≫= escape_char) with (escape_char c ++ (s ≫= escape_char)).
  rewrite bind_app, IH. f_equal. unfold f, g, escape_char.
  destruct (N.eqb_spec c 92) as [->|_]; [done|]. cbn. by destruct (c =? 34)%N.
Qed.

Lemma toml_escape_reads value rest :
  exists body, toml_quoted value ++ rest = 34%N :: body /\ lex_basic body = Some (value, rest).
Proof.
  unfold toml_quoted. rewrite toml_escape_chars, <- !app_assoc. eexists. split; [reflexivity|].
  induction value as [|c value IH]; [done|].
  change ((c :: value) ≫= escape_char) with (escape_char c ++ (value ≫= escape_char)).
  rewrite <- app_assoc. unfold escape_char at 1.
  destruct (N.eqb_spec c 92) as [->|Hb]; [cbn [app lex_basic N.eqb Pos.eqb orb]; by rewrite IH|].
  destruct (N.eqb_spec c 34) as [->|Hq]; [cbn [app lex_basic N.eqb Pos.eqb orb]; by rewrite IH|].
  cbn [app lex_basic]. rewrite (proj2 (N.eqb_neq c 34)), (proj2 (N.eqb_neq c 92)) by done.
  by rewrite IH.
Qed.

(** A value written to the configuration file reads back: whatever backslashes and
    quotes it holds, the quoted text is one TOML string of exactly that value. *)
Theorem toml_escape_roundtrip value rest :
  exists body, toml_quoted value ++ rest = 34%N :: body /\ lex_basic body = Some (value, rest).
Proof. apply toml_escape_reads. Qed.

(** ** Counts *)

Section counts.
Context `{ArrowLib}.
Variable unparsable : str -> str.

(** A count reads the same from both transports: what the Arrow transport shows
    of the first cell is read as the text the WebSocket transport sends, an empty or
    null result is an error on both, and a count is never negative. *)
Theorem first_count_transports b bs column columns a arrays :
  num_rows b <> 0 -> batch_columns b = a :: arrays ->
  array_type a <> DtInt64 -> formatter_error a = None ->
  (forall c text row rows, mjoin (array_cells a !! 0) = Some c -> cell_text c = inl text ->
     first_count unparsable (ArrowRows (b :: bs))
     = first_count unparsable (TypedRows (column :: columns) ((Some text :: row) :: rows)))
  /\ (forall row rows, mjoin (array_cells a !! 0) = None ->
     first_count unparsable (ArrowRows (b :: bs))
     = first_count unparsable (TypedRows (column :: columns) ((None :: row) :: rows)))
  /\ (forall answer n, first_count unparsable answer = Ok n -> (0 <= n)%Z).
Proof.
  intros Hrows Hcols Hty Hfmt. split_and!.
  - intros c text row rows Hc Htext. unfold first_count. f_equal. cbn [count_value].
    unfold read_first_scalar_as_i64. rewrite (proj2 (Nat.eqb_neq _ _)), Hcols, Hc by done.
    unfold render_first_cell. rewrite Hfmt. cbn.
    destruct (array_cells a !! 0) as [[c'|]|] eqn:Ea; try done.
    cbn in Hc. injection Hc as ->. rewrite Htext. by destruct (array_type a).
  - intros row rows Hc. unfold first_count. f_equal. cbn [count_value].
    unfold read_first_scalar_as_i64. by rewrite (proj2 (Nat.eqb_neq _ _)), Hcols, Hc.
  - intros answer n. unfold first_count. intros (v & _ & E)%outcome_bind_Ok.
    destruct (v <? 0)%Z eqn:Ev; [done|]. injection E as <-. breflect. lia.
Qed.

(** ** The script that runs *)

Context {T : Type} `{!ExasolTransport T}.

(** The statements that ran without a failure. *)
Inductive executed : list str -> T -> T -> Prop :=
| executed_nil t : executed [] t t
| executed_cons q rest t o t1 t2 :
    execute q t = (Ok o, t1) -> executed rest t1 t2 -> executed (q :: rest) t t2.

(** A script is installed statement by statement and stops at the first one that
    Exasol refuses; it succeeds exactly when all statements do. *)
Theorem execute_exasol_script_runs sql_text (t : T) :
  (forall t', execute_exasol_script sql_text t = (Ok tt, t')
     <-> executed (split_exasol_sql sql_text) t t')
  /\ (forall pre q post t1 e t2,
      split_exasol_sql sql_text = pre ++ q :: post -> executed pre t t1 ->
      execute q t1 = (Err e, t2) -> execute_exasol_script sql_text t = (Err e, t2)).
Proof.
  unfold execute_exasol_script. generalize (split_exasol_sql sql_text). intros l. split.
  - intros t'. split.
    + revert t. induction l as [|q l IH]; intros t; [intros [= <-]; constructor|].
      intros (o & t1 & E & Er)%stateful_bind_Ok. econstructor; [exact E|auto].
    + intros Hx. induction Hx as [|q rest t o t1 t2 E _ IH]; [done|]. by eapply bind_step.
  - intros pre q post t1 e t2 -> Hx E.
    induction Hx as [t|p rest t o t1' t2' Ep _ IH]; cbn [app execute_statements].
    + by apply bind_err.
    + eapply bind_step; [exact Ep|]. auto.
Qed.
End counts.

(** ** Witnesses *)

Definition ex_items : list item :=
  [Noise (lit "-- schemas"); Simple [lit "CREATE VIEW V AS"] (lit "SELECT ';' AS X");
   Noise []; Compound (lit "CREATE FUNCTION F()") [lit "  RETURN 1;"; lit "END"]].

Lemma split_exasol_sql_roundtrip_witness :
  split_exasol_sql (unlines (ex_items ≫= item_lines)) = ex_items ≫= item_text.
Proof.
  assert (Hl : forall l, forallb (fun c => negb (c =? 10)%N && negb (c =? 13)%N) l = true -> line_ok l).
  { intros l Hc. rewrite forallb_forall in Hc. split.
    - apply Forall_forall. intros c Hin. specialize (Hc c Hin). by breflect.
    - unfold strip_cr. destruct (rev l) as [|c r] eqn:E; [done|].
      assert (Hin : In c l) by (apply in_rev; rewrite E; by left).
      specialize (Hc c Hin). apply andb_true_iff in Hc as [_ Hc]. breflect.
      destruct c as [|p]; [done|]. do 4 (destruct p as [p|p|]; try done). }
  apply split_exasol_sql_roundtrip.
  repeat apply Forall_cons_2; try apply Forall_nil; unfold item_ok; cbn [item_lines app];
    (split; [repeat apply Forall_cons_2; try apply Forall_nil; apply Hl; reflexivity|]).
  - by right.
  - split_and!; try done; try (intros l [= <-]; by split);
      repeat apply Forall_cons_2; try apply Forall_nil; try done; by split.
  - by left.
  - split_and!; try done; repeat apply Forall_cons_2; try apply Forall_nil; by split.
Defined.

Lemma first_count_transports_witness :
  let batch : RecordBatch (ArrowLib := list_arrow) :=
    {| lb_schema := []; lb_columns := [{| la_type := DtUtf8; la_cells := [Some (lit "12.0")] |}];
       lb_rows := 1; lb_ok := eq_refl |} in
  @first_count list_arrow (fun _ => []) (ArrowRows [batch])
  = @first_count list_arrow (fun _ => [])
      (TypedRows [{| column_name := []; column_data_type := JNull |}] [[Some (lit "12.0")]]).
Proof.
  intros batch.
  destruct (@first_count_transports list_arrow (fun _ => []) batch [] 
    {| column_name := []; column_data_type := JNull |} []
    {| la_type := DtUtf8; la_cells := [Some (lit "12.0")] |} []) as (Hs & _); [done..|].
  apply (Hs (lit "12.0") (lit "12.0") [] []); reflexivity.
Defined.
