(* ===== verification/Console.v ===== *)
(** * What the lines of a console answer

    The questions of the bootstrap read as a reader of the transcript would: each line
    answers the question that is asked when it is typed.  [decision] is the answer to a
    question with yes or no, [read_answers] those to the questionnaire of the
    configuration file. *)

From S2P Require Import Prelude RustStr RustInt Plan Config Bootstrap.
#[local] Open Scope nat_scope.

(** ** Yes or no *)

(** What a line says to a question with this default, if it answers it. *)
Definition reply_to (default_ : bool) (line : str) : option bool :=
  match trim line with
  | [] => Some default_
  | value =>
      let answer := to_ascii_lowercase value in
      if one_of answer ["y"; "yes"]%string then Some true
      else if one_of answer ["n"; "no"]%string then Some false
      else None
  end.

(** The first line that answers decides, and the lines after it remain. *)
Fixpoint decision (default_ : bool) (c : console) : bool * console :=
  match c with
  | [] => (default_, [])
  | line :: c =>
      match reply_to default_ line with Some b => (b, c) | None => decision default_ c end
  end.

Lemma decision_shorter d c : length (decision d c).2 <= length c.
Proof. induction c as [|l c IH]; cbn; [lia|]. case_match; cbn; lia. Qed.

Lemma confirm_step {E} fuel d line c :
  confirm (E := E) (S fuel) d (line :: c)
  = match reply_to d line with Some b => (Ok b, c) | None => confirm fuel d c end.
Proof.
  unfold reply_to. cbn [confirm]. unfold mbind, stateful_bind, prompt_optional.
  destruct (trim line) as [|x v]; [done|]. by repeat case_match.
Qed.

Lemma confirm_nil {E} fuel d : confirm (E := E) (S fuel) d [] = (Ok d, []).
Proof. done. Qed.

(** [confirm] takes the decision of the console, and only that. *)
Lemma confirm_decision {E} fuel d c b c' :
  confirm (E := E) fuel d c = (Ok b, c') -> decision d c = (b, c').
Proof.
  revert c. induction fuel as [|fuel IH]; intros c; [done|]. destruct c as [|line c].
  - by intros [= -> <-].
  - rewrite confirm_step. cbn [decision]. destruct (reply_to d line); [by intros [= -> ->]|]. apply IH.
Qed.

Lemma confirm_returns {E} fuel d c :
  length c < fuel -> confirm (E := E) fuel d c = (Ok (decision d c).1, (decision d c).2).
Proof.
  revert c. induction fuel as [|fuel IH]; intros c Hc; [lia|]. destruct c as [|line c].
  - done.
  - rewrite confirm_step. cbn [decision]. destruct (reply_to d line); [done|].
    apply IH. cbn in Hc. lia.
Qed.

(** ** The questionnaire *)

(** The answers, as the configuration file has them. *)
Record answers := {
  a_host : str; a_port : Z; a_log : str; a_dsn : str; a_encryption : bool;
  a_fingerprint : str; a_validate : bool; a_schema : str }.

(** The next line, trimmed; a blank one, and the end of the input, are no answer. *)
Definition answer (c : console) : str * console :=
  match c with [] => ([], []) | line :: c => (trim line, c) end.
Definition answer_or (default_ : str) (c : console) : str * console :=
  let '(a, c) := answer c in (match a with [] => default_ | _ => a end, c).

(** The first line that is not blank. *)
Fixpoint first_answer (c : console) : str * console :=
  match c with
  | [] => ([], [])
  | line :: c => match trim line with [] => first_answer c | a => (a, c) end
  end.

(** The first line that is blank, for the default port, or a port. *)
Fixpoint first_port (c : console) : Z * console :=
  match c with
  | [] => (15432%Z, [])
  | line :: c =>
      match trim line with
      | [] => (15432%Z, c)
      | a => match parse_u16 a with Some p => (p, c) | None => first_port c end
      end
  end.

(** Host, port and log level of the listener; the DSN, whether to encrypt, the
    fingerprint, whether to validate certificates (asked only without a fingerprint) and
    the schema of Exasol: in this order. *)
Definition read_answers (c : console) : answers * console :=
  let '(host, c) := answer_or (lit "0.0.0.0") c in
  let '(port, c) := first_port c in
  let '(log, c) := answer_or (lit "INFO") c in
  let '(dsn, c) := first_answer c in
  let '(encryption, c) := decision true c in
  let '(fingerprint, c) := answer c in
  let '(validate, c) := match fingerprint with [] => decision true c | _ => (true, c) end in
  let '(schema, c) := answer c in
  ({| a_host := host; a_port := port; a_log := log; a_dsn := dsn; a_encryption := encryption;
      a_fingerprint := fingerprint; a_validate := validate; a_schema := schema |}, c).

Lemma optional_answer {E} c v c' :
  prompt_optional (E := E) c = (Ok v, c') -> answer c = (v, c').
Proof. destruct c; by intros [= <- <-]. Qed.

Lemma default_answer {E} d c v c' :
  prompt_with_default (E := E) d c = (Ok v, c') -> answer_or d c = (v, c').
Proof.
  intros (x & c1 & Hx & [= <- <-])%stateful_bind_Ok. unfold answer_or.
  rewrite (optional_answer _ _ _ Hx). destruct c as [|l c]; injection Hx as <- <-; [done|].
  by rewrite trim_trim.
Qed.

Lemma required_answer {E} fuel c v c' :
  prompt_required (E := E) fuel c = (Ok v, c') -> first_answer c = (v, c').
Proof.
  revert c. induction fuel as [|fuel IH]; intros c; [done|].
  intros (x & c1 & Hx & Hv)%stateful_bind_Ok. destruct c as [|l c]; injection Hx as <- <-.
  - by apply IH in Hv.
  - cbn [first_answer]. rewrite trim_trim in Hv. destruct (trim l); [by apply IH|].
    by injection Hv as <- <-.
Qed.

(** The port is kept as it was typed. *)
Lemma port_answer {E} fuel c v c' :
  prompt_port (E := E) fuel c = (Ok v, c') ->
  exists p, first_port c = (p, c') /\ parse_u16 v = Some p.
Proof.
  revert c. induction fuel as [|fuel IH]; intros c; [done|].
  intros (x & c1 & Hx%default_answer & Hv)%stateful_bind_Ok. unfold answer_or, answer in Hx.
  destruct c as [|l c]; injection Hx as <- <-.
  - change (parse_u16 (lit "15432")) with (Some 15432%Z) in Hv. injection Hv as <- <-. by eexists.
  - cbn [first_port]. destruct (trim l) as [|a t] eqn:Et.
    + change (parse_u16 (lit "15432")) with (Some 15432%Z) in Hv. injection Hv as <- <-. by eexists.
    + destruct (parse_u16 (a :: t)) as [p|] eqn:Ep; [|by apply IH]. injection Hv as <- <-. eauto.
Qed.

(** The questionnaire asks for these answers and writes them. *)
Lemma questionnaire {E} fuel c text c' :
  prompt_config (E := E) fuel c = (Ok text, c') ->
  let a := (read_answers c).1 in
  c' = (read_answers c).2
  /\ exists port_text, parse_u16 port_text = Some (a_port a)
     /\ text = config_text (a_host a) port_text (a_log a) (a_dsn a) (a_encryption a)
                 (a_fingerprint a) (a_validate a) (a_schema a).
Proof.
  intros (h & c1 & Hh%default_answer & Hr)%stateful_bind_Ok.
  apply stateful_bind_Ok in Hr as (pt & c2 & (p & Hp & Hpt)%port_answer & Hr).
  apply stateful_bind_Ok in Hr as (l & c3 & Hl%default_answer & Hr).
  apply stateful_bind_Ok in Hr as (d & c4 & Hd%required_answer & Hr).
  apply stateful_bind_Ok in Hr as (e & c5 & He%confirm_decision & Hr).
  apply stateful_bind_Ok in Hr as (fp & c6 & Hf%optional_answer & Hr).
  apply stateful_bind_Ok in Hr as (v & c7 & Hv & Hr).
  apply stateful_bind_Ok in Hr as (s & c8 & Hs%optional_answer & [= <- <-]).
  assert (Hv' : match fp with [] => decision true c6 | _ => (true, c6) end = (v, c7)).
  { destruct fp; [by apply confirm_decision in Hv|by injection Hv as <- <-]. }
  unfold read_answers. rewrite Hh, Hp, Hl, Hd, He, Hf, Hv', Hs. cbn. eauto.
Qed.
