(* ===== verification/Startup.v ===== *)
(** * Starting the server: files and questions (src/src/bootstrap.rs)

    [ensure_config_file] and [run_interactive_bootstrap], over the console and an
    interface of the file system. *)

From S2P Require Import Prelude RustStr RustInt Arrow Plan Config Exasol ExasolSession.
From S2P Require Import Bootstrap.
#[local] Open Scope nat_scope.

(** What ends the start: a text of the program's own, an error of the operating
    system, an error of the configuration or of Exasol, an address that is none. *)
Inductive StartError :=
| Message (m : str)
| IoError (m : str)
| ConfigFailed (e : ConfigError)
| ExasolFailed (e : ExasolError)
| AddrParseError.

(** ** Paths *)

(** [Path::parent] of a Unix path: the path without its last component.  A path is
    read from its end; empty components and single dots are no components, but a
    dot that starts a relative path is one. *)
Definition is_sep (c : char) : bool := (c =? 47)%N.

(** How much of the path stays put while components are taken from its end: the
    root, or the dot it starts with. *)
Definition fixed_prefix (path : str) : nat :=
  match path with
  | 47%N :: _ | [46%N] => 1
  | 46%N :: c :: _ => if is_sep c then 1 else 0
  | _ => 0
  end.

(** The last component of a reversed path, and the path before its separator. *)
Fixpoint cut_component (rev_path : str) : str * str :=
  match rev_path with
  | [] => ([], [])
  | c :: rest =>
      if is_sep c then ([], rest)
      else let '(comp, before) := cut_component rest in (c :: comp, before)
  end.
Definition no_component (rev_comp : str) : bool :=
  bool_decide (rev_comp = []) || str_eqb rev_comp (lit ".").

(** Trailing separators and dots, dropped; [fuel] is the length. *)
Fixpoint drop_empty_components (fuel : nat) (rev_body : str) : str :=
  match fuel, rev_body with
  | S fuel, _ :: _ =>
      let '(comp, before) := cut_component rev_body in
      if no_component comp then drop_empty_components fuel before else rev_body
  | _, _ => rev_body
  end.
Definition trim_components (rev_body : str) : str :=
  drop_empty_components (length rev_body) rev_body.

Definition parent (path : str) : option str :=
  let prefix := take (fixed_prefix path) path in
  match trim_components (rev (drop (fixed_prefix path) path)) with
  | [] => match prefix with [46%N] => Some [] | _ => None end
  | rev_body =>
      let '(_, before) := cut_component rev_body in
      Some (prefix ++ rev (trim_components before))
  end.

Example ex_parent :
  parent (lit "config/local.toml") = Some (lit "config")
  /\ parent (lit "local.toml") = Some []
  /\ parent (lit "/etc//exa/./config.toml/") = Some (lit "/etc//exa")
  /\ parent (lit "/config.toml") = Some (lit "/")
  /\ parent (lit "./config.toml") = Some (lit ".")
  /\ parent (lit "/") = None /\ parent [] = None /\ parent (lit ".") = Some [].
Proof. vm_compute. done. Qed.

(** ** Guidance

    What is printed at the end; [binary] is the path of the executable, when the
    system knows it and it is a text. *)
Definition systemd_guidance (binary : option str) (config_path : str) : list str :=
  let binary := default (lit "/opt/exa-postgres-interface/bin/exa-postgres-interface") binary in
  [[];
   lit "System service guidance:";
   lit "  1. Copy the binary to /opt/exa-postgres-interface/bin/exa-postgres-interface.";
   lit "  2. Copy " ++ config_path ++ lit " to /etc/exa-postgres-interface/config.toml.";
   lit "  3. Install packaging/exa-postgres-interface.service into /etc/systemd/system/.";
   lit "  4. Use an ExecStart like:";
   lit "     " ++ binary ++ lit " --config /etc/exa-postgres-interface/config.toml --no-bootstrap";
   lit "  5. Run: sudo systemctl daemon-reload && sudo systemctl enable --now exa-postgres-interface";
   []].

(** ** The file system *)

Class FileSystem (F : Type) := {
  path_exists : str -> F -> bool;
  fs_read : str -> F -> option str;
  fs_create_dir_all : str -> stateful F str unit;
  fs_write : str -> str -> stateful F str unit }.

(** A file that was written is there, with its text. *)
Class FileSystemLaws (F : Type) `{!FileSystem F} : Prop :=
  fs_write_read path text s s' :
    fs_write path text s = (Ok tt, s') ->
    path_exists path s' = true /\ fs_read path s' = Some text.

Definition DEFAULT_CONFIG_PATH : str := lit "config/local.toml".

(** ** [ensure_config_file] *)

Section config_file.
Context {F : Type} `{!FileSystem F}.

Definition setup_m (A : Type) : Type := stateful (console * F) StartError A.
Definition asking {A} (m : console_m StartError A) : setup_m A := fun s =>
  let '(r, c) := m s.1 in (r, (c, s.2)).
Definition on_files {A} (m : stateful F str A) : setup_m A := fun s =>
  let '(r, f) := m s.2 in (map_err IoError r, (s.1, f)).

Definition ensure_config_file (fuel : nat) (is_terminal : bool) (requested_path : option str)
    : setup_m str :=
  let path := default DEFAULT_CONFIG_PATH requested_path in
  '(_, files) ← get_state;
  if path_exists path files then mret path
  else if negb is_terminal
  then lift (Err (Message (lit "configuration file " ++ path
         ++ lit " does not exist; run interactively once or pass --config")))
  else
    create ← asking (confirm fuel true);
    if negb create then lift (Err (Message (lit "configuration is required")))
    else
      content ← asking (prompt_config fuel);
      _ ← (match parent path with
           | None | Some [] => mret tt
           | Some parent => on_files (fs_create_dir_all parent)
           end);
      _ ← on_files (fs_write path content);
      mret path.
End config_file.

(** ** [run_interactive_bootstrap] *)

Section interactive.
Context `{ArrowLib} {T : Type} `{!ExasolTransport T}.
Variable unparsable : str -> str.
Variables CATALOG_SQL PREPROCESSOR_SQL : str.

(** The setup user's credentials are always its own. *)
Definition setup_config (config : ExasolConfig) : ExasolConfig :=
  {| dsn := dsn config; encryption := encryption config;
     certificate_fingerprint := certificate_fingerprint config;
     validate_certificate := validate_certificate config; pass_client_credentials := true;
     schema := schema config; transport := transport config |}.

(** The console and the session, once there is one. *)
Definition run_m (A : Type) : Type := stateful (console * option T) StartError A.
Definition prompting {A} (m : console_m StartError A) : run_m A := fun s =>
  let '(r, c) := m s.1 in (r, (c, s.2)).
Definition in_session {A} (session : T) (m : boot_m A) : run_m A := fun s =>
  let '(r, (c, t)) := m (s.1, session) in (map_err ExasolFailed r, (c, Some t)).

(** [password] is what reading the password without echo gives; [open] connects. *)
Definition run_interactive_bootstrap (fuel : nat) (is_terminal : bool)
    (password : outcome str str) (open : ExasolConfig -> str -> str -> outcome ExasolError T)
    (config : AppConfig) : run_m unit :=
  if negb is_terminal then mret tt
  else
    go ← prompting (confirm fuel true);
    if negb go then mret tt
    else
      username ← prompting (prompt_with_default (lit "sys"));
      password ← lift (map_err IoError password);
      session ← lift (map_err ExasolFailed
                        (open (setup_config (exasol config)) username password));
      in_session session
        (bootstrap_session unparsable CATALOG_SQL PREPROCESSOR_SQL fuel config).
End interactive.
