(* ===== verification/BootstrapSession.v ===== *)
(** * What the bootstrap sends to Exasol

    The installation from the first question to the last statement: which texts reach
    Exasol, that nothing is installed without the consent of the person at the console,
    and that the installation is complete when Exasol refuses nothing. *)

From S2P Require Import Prelude RustStr RustInt Arrow Plan Config Exasol ExasolSession.
From S2P Require Import Bootstrap Console BootstrapTheorems Startup.
#[local] Open Scope nat_scope.

(** ** The texts of the installation *)

Definition schema_count_sql : str :=
  lit "SELECT COUNT(*) FROM SYS.EXA_SCHEMAS WHERE SCHEMA_NAME IN ('PG_CATALOG', 'INFORMATION_SCHEMA')".
Definition script_count_sql : str :=
  lit "SELECT COUNT(*) FROM SYS.EXA_ALL_SCRIPTS WHERE SCRIPT_SCHEMA = 'PG_CATALOG' AND SCRIPT_NAME = 'PG_SQL_PREPROCESSOR'".

(** The preprocessor of the configuration is the one the bootstrap installs. *)
Definition manages_preprocessor (config : AppConfig) : bool :=
  let script := sql_preprocessor_script (translation config) in
  negb (is_blank script)
  && str_eqb (to_ascii_uppercase (trim script)) (lit "PG_CATALOG.PG_SQL_PREPROCESSOR").

Section bootstrap.
Context `{ArrowLib} {T : Type} `{!ExasolTransport T}.
Variable unparsable : str -> str.
Variables CATALOG_SQL PREPROCESSOR_SQL : str.
Implicit Types (t : T) (c : console) (qs : list str).

(** Everything that is sent when the catalog and the preprocessor are to be installed or
    not. *)
Definition preprocessor_texts (config : AppConfig) (preprocessor : bool) : list str :=
  if manages_preprocessor config
  then script_count_sql :: (if preprocessor then split_exasol_sql PREPROCESSOR_SQL else [])
  else [].
Definition installation (config : AppConfig) (catalog preprocessor : bool) : list str :=
  schema_count_sql :: (if catalog then split_exasol_sql CATALOG_SQL else [])
  ++ preprocessor_texts config preprocessor.

(** The session after these texts, whatever became of them. *)
Definition after_all (qs : list str) (t : T) : T :=
  fold_left (fun t q => (execute q t).2) qs t.

(** A computation of the session sends a part of [qs] from the left, and all of it, with
    success, when it succeeds. *)
Definition sends_texts (qs : list str) (t : T) (ok : bool) (t' : T) : Prop :=
  (exists sent, sent `prefix_of` qs /\ t' = after_all sent t)
  /\ (ok = true -> executed qs t t').

Definition succeeded {E A} (r : outcome E A) : bool := match r with Ok _ => true | _ => false end.

Lemma failed {E A} (r : outcome E A) : (forall a, r <> Ok a) -> succeeded r = false.
Proof. intros Hr. by destruct r as [a| | |]; [destruct (Hr a)|..]. Qed.

Lemma executed_after qs t t' : executed qs t t' -> t' = after_all qs t.
Proof.
  induction 1 as [|q rest t o t1 t2 E _ IH]; [done|].
  unfold after_all. cbn [fold_left]. by rewrite E.
Qed.

Lemma executed_app qs1 qs2 t t1 t2 :
  executed qs1 t t1 -> executed qs2 t1 t2 -> executed (qs1 ++ qs2) t t2.
Proof. induction 1; [done|]. intros. econstructor; eauto. Qed.

Lemma sends_done t ok : sends_texts [] t ok t.
Proof. split; [by exists []|]. intros _. constructor. Qed.

(** Stopping early, and going on after a success. *)
Lemma sends_stop qs1 qs2 t ok t' :
  sends_texts qs1 t ok t' -> sends_texts (qs1 ++ qs2) t false t'.
Proof.
  intros [(sent & Hs & ->) _]. split; [|done]. exists sent. split; [|done].
  by apply prefix_app_r.
Qed.

Lemma sends_more qs1 qs2 t t1 ok t' :
  executed qs1 t t1 -> sends_texts qs2 t1 ok t' -> sends_texts (qs1 ++ qs2) t ok t'.
Proof.
  intros Hx [(sent & Hs & ->) Hok]. split.
  - exists (qs1 ++ sent). split; [by apply prefix_app|]. rewrite (executed_after _ _ _ Hx).
    unfold after_all. by rewrite fold_left_app.
  - intros E. eapply executed_app; eauto.
Qed.

Lemma sends_execute_one q t r t' : execute q t = (r, t') -> sends_texts [q] t (succeeded r) t'.
Proof.
  intros E. split.
  - exists [q]. split; [done|]. unfold after_all. cbn [fold_left]. by rewrite E.
  - destruct r; [|done..]. intros _. econstructor; [exact E|constructor].
Qed.

Lemma sends_statements qs t r t' :
  execute_statements qs t = (r, t') -> sends_texts qs t (succeeded r) t'.
Proof.
  revert t. induction qs as [|q qs IH]; intros t; [intros [= <- <-]; apply sends_done|].
  cbn [execute_statements]. change (q :: qs) with ([q] ++ qs).
  intros [(o & t1 & E & Er)|(r0 & E & Hno & Hr)]%stateful_bind_inv.
  - eapply sends_more; [|by apply IH]. econstructor; [exact E|constructor].
  - apply sends_execute_one, sends_stop with (qs2 := qs) in E.
    destruct r; [by destruct (Hr a)|done..].
Qed.

(** A count is one text, whatever is read out of its answer. *)
Lemma sends_count q t r t' :
  (outcome ← execute q; lift (first_count unparsable outcome)) t = (r, t') ->
  sends_texts [q] t (succeeded r) t'.
Proof.
  intros [(o & t1 & E & [= <- <-])|(r0 & E & _ & Hr)]%stateful_bind_inv.
  - apply sends_execute_one in E as [Hs Hx]. split; [done|auto].
  - apply sends_execute_one in E as [Hs _]. split; [done|]. destruct r; [by destruct (Hr a)|done..].
Qed.

(** ** The two parts after the login *)

Lemma on_session_inv {A} (m : session_m A) s r s' :
  on_session m s = (r, s') -> exists t', m s.2 = (r, t') /\ s' = (s.1, t').
Proof. unfold on_session. destruct (m s.2) as [r0 t'] eqn:E. intros [= <- <-]. eauto. Qed.

Lemma on_console_inv {A} (m : console_m ExasolError A) s r s' :
  on_console (T := T) m s = (r, s') -> exists c', m s.1 = (r, c') /\ s' = (c', s.2).
Proof. unfold on_console. destruct (m s.1) as [r0 c'] eqn:E. intros [= <- <-]. eauto. Qed.

(** The count that a query gives. *)
Definition count_of (q : str) : session_m Z :=
  outcome ← execute q; lift (first_count unparsable outcome).

(** What follows a count. *)
Lemma counted {A} q (k : Z -> boot_m A) c t r c' t' :
  (n ← on_session (count_of q); k n) (c, t) = (r, (c', t')) ->
  (exists n t1, count_of q t = (Ok n, t1) /\ executed [q] t t1 /\ k n (c, t1) = (r, (c', t')))
  \/ (succeeded r = false /\ forall rest, sends_texts (q :: rest) t false t').
Proof.
  intros [(n & s1 & E & Er)|(r0 & E & Hno & Hr)]%stateful_bind_inv;
    apply on_session_inv in E as (t1 & E & ?); simplify_eq/=;
    pose proof (sends_count _ _ _ _ E) as Hs.
  - left. exists n, t1. split_and!; [done| |done]. by apply Hs.
  - right. split; [by apply failed|].
    intros rest. by apply (sends_stop [q] rest _ _ _ Hs).
Qed.

Lemma count_in_session {A} q (k : Z -> boot_m A) s :
  (outcome ← on_session (execute q); n ← lift (first_count unparsable outcome); k n) s
  = (n ← on_session (count_of q); k n) s.
Proof.
  unfold count_of, on_session, mbind, stateful_bind. destruct (execute q s.2) as [[o|e| |] t1]; done.
Qed.

(** Asking whether to run a script, and running it. *)
Lemma asked_script fuel d script c t r c' t' :
  (yes ← on_console (confirm fuel d);
   if yes : bool then on_session (execute_exasol_script script) else mret tt) (c, t)
  = (r, (c', t')) ->
  sends_texts (if (decision d c).1 then split_exasol_sql script else []) t (succeeded r) t'
  /\ (r = Ok tt -> c' = (decision d c).2).
Proof.
  intros [(yes & s1 & E & Er)|(r0 & E & Hno & Hr)]%stateful_bind_inv;
    apply on_console_inv in E as (c1 & E & ?); subst; cbn [fst snd] in *.
  - apply confirm_decision in E. rewrite E. cbn [fst snd]. destruct yes.
    + apply on_session_inv in Er as (t1 & Er & [= -> ->]). split; [|done].
      by apply sends_statements.
    + injection Er as <- <- <-. split; [apply sends_done|done].
  - simplify_eq/=. split; [|by intros ->; destruct (Hr tt)].
    rewrite (failed _ Hr). apply (sends_stop [] _ t false), sends_done.
Qed.

Definition preprocessor_part (fuel : nat) (config : AppConfig) : boot_m unit :=
  if negb (is_blank (sql_preprocessor_script (translation config)))
  then ensure_optional_preprocessor unparsable PREPROCESSOR_SQL fuel
         (sql_preprocessor_script (translation config))
  else mret tt.

Lemma preprocessor_sends fuel config c t r c' t' :
  preprocessor_part fuel config (c, t) = (r, (c', t')) ->
  exists yes, (yes = true -> (decision false c).1 = true)
    /\ sends_texts (preprocessor_texts config yes) t (succeeded r) t'.
Proof.
  unfold preprocessor_part, preprocessor_texts, manages_preprocessor, ensure_optional_preprocessor.
  destruct (is_blank _); cbn [negb andb].
  { intros [= <- <- <-]. exists false. split; [done|apply sends_done]. }
  destruct (str_eqb _ _); cbn [negb].
  2: { intros [= <- <- <-]. exists false. split; [done|apply sends_done]. }
  rewrite count_in_session.
  intros [(n & t1 & _ & Hx & E)|[-> Hs]]%counted; [|exists false; split; [done|apply Hs]].
  change (script_count_sql :: ?l) with ([script_count_sql] ++ l).
  destruct (n =? 1)%Z.
  - injection E as <- <- <-. exists false. split; [done|].
    eapply sends_more; [exact Hx|apply sends_done].
  - apply asked_script in E as [E _]. exists (decision false c).1. split; [done|].
    by eapply sends_more.
Qed.

(** The installation sends its texts, as far as it gets; each part needs a consent. *)
Lemma bootstrap_sends_texts fuel config c t r c' t' :
  bootstrap_session unparsable CATALOG_SQL PREPROCESSOR_SQL fuel config (c, t) = (r, (c', t')) ->
  exists catalog preprocessor,
    (catalog = true \/ preprocessor = true -> exists n t1, count_of schema_count_sql t = (Ok n, t1)
       /\ (catalog = true -> (decision (n <? 2)%Z c).1 = true)
       /\ (preprocessor = true -> (decision false (decision (n <? 2)%Z c).2).1 = true))
    /\ sends_texts (installation config catalog preprocessor) t (succeeded r) t'.
Proof.
  unfold bootstrap_session. change (installed_schema_count unparsable) with (count_of schema_count_sql).
  intros [(n & t1 & En & Hx & E)|[-> Hs]]%counted;
    [|exists false, false; split; [by intros []|apply Hs]].
  exists (decision (n <? 2)%Z c).1.
  assert (Hpart : forall s, (if (n <? 2)%Z
      then install ← on_console (confirm fuel true);
           if install : bool then on_session (install_catalog CATALOG_SQL) else mret tt
      else refresh ← on_console (confirm fuel false);
           if refresh : bool then on_session (install_catalog CATALOG_SQL) else mret tt) s
    = (yes ← on_console (confirm fuel (n <? 2)%Z);
       if yes : bool then on_session (execute_exasol_script CATALOG_SQL) else mret tt) s)
    by (by destruct (n <? 2)%Z).
  apply stateful_bind_inv in E as [([] & [c2 t2] & E & Er)|(r0 & E & Hno & Hr)];
    rewrite Hpart in E; apply asked_script in E as [Hs Hc].
  - rewrite Hc in Er by done. apply preprocessor_sends in Er as (pre & Hpre & Hp).
    exists pre. split; [intros _; exists n, t1; by split_and!|].
    eapply (sends_more [schema_count_sql]); [exact Hx|]. eapply sends_more; [|exact Hp]. by apply Hs.
  - exists false. split; [intros _; exists n, t1; by split_and!|].
    rewrite (failed _ Hr). eapply (sends_more [schema_count_sql]); [exact Hx|]. by eapply sends_stop.
Qed.

(** ** Completing *)

(** Exasol refuses nothing and answers the two counts with a count. *)
Definition accepts_all : Prop :=
  (forall q t, succeeded (execute q t).1 = true)
  /\ (forall q t, q = schema_count_sql \/ q = script_count_sql -> succeeded (count_of q t).1 = true).

(** With this many lines at most on the console, it succeeds and leaves no more. *)
Definition completes {A} (fuel : nat) (m : boot_m (T := T) A) : Prop :=
  forall s, length s.1 < fuel -> succeeded (m s).1 = true /\ length (m s).2.1 < fuel.

Lemma completes_bind {A B} fuel (m : boot_m A) (f : A -> boot_m B) :
  completes fuel m -> (forall a, completes fuel (f a)) -> completes fuel (m ≫= f).
Proof.
  intros Hm Hf s Hs. specialize (Hm s Hs). unfold mbind, stateful_bind.
  destruct (m s) as [[a|e| |] s'], Hm as [? Hl]; cbn in *; try done. by apply Hf.
Qed.

Lemma completes_mret {A} fuel (a : A) : completes fuel (mret a).
Proof. done. Qed.

Lemma completes_session {A} fuel (m : session_m A) :
  (forall t, succeeded (m t).1 = true) -> completes fuel (on_session m).
Proof.
  intros Hm [c t] Hs. specialize (Hm t). unfold on_session. cbn [fst snd] in *. by destruct (m t).
Qed.

Lemma statements_complete qs t :
  (forall q t, succeeded (execute q t).1 = true) -> succeeded (execute_statements qs t).1 = true.
Proof.
  intros Hq. revert t. induction qs as [|q qs IH]; intros t; [done|].
  cbn [execute_statements]. specialize (Hq q t). unfold mbind, stateful_bind.
  by destruct (execute q t) as [[] ?]; cbn in *.
Qed.

Lemma asked_completes fuel d script :
  accepts_all ->
  completes fuel (yes ← on_console (confirm fuel d);
    if yes : bool then on_session (execute_exasol_script script) else mret tt).
Proof.
  intros [Hq _]. apply completes_bind.
  - intros s Hs. unfold on_console. rewrite confirm_returns by done. split; [done|].
    cbn [fst snd]. eapply Nat.le_lt_trans; [apply decision_shorter|done].
  - intros []; [|apply completes_mret]. apply completes_session. intros t.
    by apply statements_complete.
Qed.

Lemma preprocessor_completes fuel config : accepts_all -> completes fuel (preprocessor_part fuel config).
Proof.
  intros Ha. unfold preprocessor_part, ensure_optional_preprocessor.
  destruct (negb _); [|apply completes_mret]. destruct (negb _); [apply completes_mret|].
  intros s. rewrite count_in_session. revert s. apply completes_bind.
  - apply completes_session. intros t. apply Ha. by right.
  - intros n. destruct (n =? 1)%Z; [apply completes_mret|by apply asked_completes].
Qed.

Lemma bootstrap_completes fuel config :
  accepts_all -> completes fuel (bootstrap_session unparsable CATALOG_SQL PREPROCESSOR_SQL fuel config).
Proof.
  intros Ha. apply completes_bind.
  { apply completes_session. intros t. apply Ha. by left. }
  intros n. apply completes_bind; [|intros _; by apply preprocessor_completes].
  destruct (n <? 2)%Z; by apply asked_completes.
Qed.

(** ** The whole bootstrap *)

(** The console after the first question and the name of the user. *)
Definition after_login (c : console) : console := tail (decision true c).2.

Lemma prompting_console {A} (m : console_m StartError A) s r s' :
  prompting (T := T) m s = (r, s') -> exists c', m s.1 = (r, c') /\ s' = (c', s.2).
Proof. unfold prompting. destruct (m s.1) as [r0 c'] eqn:E. intros [= <- <-]. eauto. Qed.

(** C28: the bootstrap logs in to Exasol only when it is run at a terminal and not declined,
    with the setup user's own credentials.  It then sends the count of the schemas, the
    statements of the catalog script, the count of the scripts and the statements of the
    preprocessor script, in this order, and stops at the first failure; when it succeeds
    all of them ran.  The catalog script is sent only with a consent: an answer that is
    not no when a schema is missing, and an explicit yes when both are there; the
    preprocessor script only when it is the configured one, and with an explicit yes.
    When Exasol refuses nothing the bootstrap succeeds, whatever is answered. *)
Theorem bootstrap_installs fuel is_terminal password open config c :
  (forall r c' t',
     run_interactive_bootstrap unparsable CATALOG_SQL PREPROCESSOR_SQL fuel is_terminal
       password open config (c, None) = (r, (c', Some t')) ->
   exists username pw t catalog preprocessor,
     is_terminal = true /\ (decision true c).1 = true /\ password = Ok pw
     /\ open (setup_config (exasol config)) username pw = Ok t
     /\ (exists sent, sent `prefix_of` installation config catalog preprocessor
                      /\ t' = after_all sent t)
     /\ (r = Ok tt -> executed (installation config catalog preprocessor) t t')
     /\ (catalog = true \/ preprocessor = true -> exists n t1,
          count_of schema_count_sql t = (Ok n, t1)
          /\ (catalog = true -> (decision (n <? 2)%Z (after_login c)).1 = true)
          /\ (preprocessor = true ->
              (decision false (decision (n <? 2)%Z (after_login c)).2).1 = true)))
  /\ (accepts_all -> length c < fuel -> succeeded password = true ->
     (forall username pw, succeeded (open (setup_config (exasol config)) username pw) = true) ->
     exists s', run_interactive_bootstrap unparsable CATALOG_SQL PREPROCESSOR_SQL fuel
                  is_terminal password open config (c, None) = (Ok tt, s')).
Proof.
  unfold run_interactive_bootstrap. split.
  - intros r c' t'. destruct is_terminal; [|done]. cbn [negb].
    intros [(go & s1 & E & Er)|(? & E & _)]%stateful_bind_inv;
      apply prompting_console in E as (c1 & E & ?); simplify_eq/=.
    apply confirm_decision in E. unfold after_login. rewrite E. cbn [fst snd].
    destruct go; [|done]. cbn [negb] in Er.
    apply stateful_bind_inv in Er as [(user & s2 & Eu & Er)|(? & Eu & _)];
      apply prompting_console in Eu as (c2 & Eu & ?); simplify_eq/=.
    assert (c2 = tail c1) as ->.
    { destruct c1; cbn in Eu; by injection Eu as _ <-. }
    apply stateful_bind_inv in Er as [(pw & s3 & [= Ep <-] & Er)|(? & [= _ ?] & _)].
    apply stateful_bind_inv in Er as [(t & s4 & [= Eo <-] & Er)|(? & [= _ ?] & _)].
    apply map_err_Ok in Ep as ->. apply map_err_Ok in Eo.
    unfold in_session in Er.
    destruct (bootstrap_session _ _ _ _ _ _) as [r0 [c3 t3]] eqn:Eb. injection Er as <- <- <-.
    apply bootstrap_sends_texts in Eb as (catalog & preprocessor & Hyes & Hsent & Hall).
    exists user, pw, t, catalog, preprocessor. split_and!; try done.
    intros Hr. apply Hall. by apply map_err_Ok in Hr as ->.
  - intros Ha Hc Hp Ho. destruct is_terminal; [|by eexists]. cbn [negb].
    pose proof (decision_shorter true c) as Hd.
    destruct (decision true c) as [go c1] eqn:Ed. cbn in Hd.
    eassert (Hgo : prompting (T := T) (confirm fuel true) (c, None) = (Ok go, (c1, None))).
    { unfold prompting. cbn [fst snd]. by rewrite confirm_returns, Ed. }
    destruct go; [|eexists; by apply (bind_step _ _ _ _ _ _ Hgo)].
    destruct (prompt_with_default (E := StartError) (lit "sys") c1) as [ru c2] eqn:Eu.
    assert (exists user, ru = Ok user /\ length c2 < fuel) as (user & -> & Hc2).
    { destruct c1; injection Eu as <- <-; eexists; cbn in *; split; (done || lia). }
    destruct password as [pw| | |]; try done.
    specialize (Ho user pw). destruct (open _ user pw) as [t| | |] eqn:Eo; try done.
    pose proof (bootstrap_completes fuel config Ha (c2, t) Hc2) as [Hb _].
    destruct (bootstrap_session _ _ _ _ _ _) as [[[]| | |] [c3 t3]] eqn:Eb; try done.
    exists (c3, Some t3). apply (bind_step _ _ _ _ _ _ Hgo). cbn [negb].
    eapply bind_step; [unfold prompting; cbn [fst snd]; by rewrite Eu|].
    eapply bind_step; [done|]. eapply bind_step; [cbn; by rewrite Eo|].
    unfold in_session. cbn [fst snd]. by rewrite Eb.
Qed.
End bootstrap.

(** ** A bootstrap *)

Section example.
#[local] Existing Instance list_arrow.

(** An Exasol that keeps what it is sent; one of the two schemas is there. *)
#[local] Instance boot_recorder : ExasolTransport (list str) :=
  {| execute q t :=
       (Ok (if starts_with (lit "SELECT COUNT") q
            then TypedRows [{| column_name := lit "C"; column_data_type := JNull |}] [[Some (lit "1")]]
            else RowCount 0), t ++ [q]);
     execute_update q t := (Ok tt, t ++ [q]);
     close t := (Ok tt, t) |}.

Definition ex_catalog : str := lit "CREATE SCHEMA PG_CATALOG;
CREATE SCHEMA INFORMATION_SCHEMA;".
Definition ex_boot_config : AppConfig :=
  {| server := ServerConfig_default;
     exasol := {| dsn := lit "localhost:8563"; encryption := true; certificate_fingerprint := [];
                  validate_certificate := true; pass_client_credentials := false; schema := [];
                  transport := DEFAULT_TRANSPORT |};
     translation := {| enabled := true; sql_preprocessor_script := lit "pg_catalog.pg_sql_preprocessor";
                       session_init_sql := [] |} |}.

Definition ex_boot (answers : list str) : outcome StartError unit * (console * option (list str)) :=
  run_interactive_bootstrap (fun _ => []) ex_catalog (lit "CREATE SCRIPT P;") 9 true
    (Ok (lit "secret")) (fun _ _ _ => Ok []) ex_boot_config (answers, None).

Example ex_boot_sends :
  ex_boot [lit "y"; []; lit "perhaps"; []]
  = (Ok tt, ([], Some [schema_count_sql; lit "CREATE SCHEMA PG_CATALOG";
                       lit "CREATE SCHEMA INFORMATION_SCHEMA"; script_count_sql]))
  /\ ex_boot [lit "y"; lit "admin"; lit "NO"]
     = (Ok tt, ([], Some [schema_count_sql; script_count_sql]))
  /\ ex_boot [lit "n"] = (Ok tt, ([], None)).
Proof. vm_compute. done. Qed.

Lemma bootstrap_installs_witness :
  (exists catalog preprocessor sent,
     sent `prefix_of` installation ex_catalog (lit "CREATE SCRIPT P;") ex_boot_config
                        catalog preprocessor
     /\ [schema_count_sql; script_count_sql] = after_all sent [])
  /\ exists s', ex_boot [lit "y"; lit "admin"; lit "NO"] = (Ok tt, s').
Proof.
  destruct (bootstrap_installs (fun _ => []) ex_catalog (lit "CREATE SCRIPT P;") 9 true
              (Ok (lit "secret")) (fun _ _ _ => Ok []) ex_boot_config
              [lit "y"; lit "admin"; lit "NO"]) as [Hs Hc]. split.
  - destruct (Hs (Ok tt) [] [schema_count_sql; script_count_sql])
      as (user & pw & t & catalog & preprocessor & _ & _ & _ & [= <-] & (sent & Hp & Ht) & _);
      [vm_compute; reflexivity|]. by exists catalog, preprocessor, sent.
  - apply Hc; [|vm_compute; lia|done|done]. split; [done|].
    intros q t [-> | ->]; vm_compute; reflexivity.
Defined.
End example.
