(* ===== verification/ConfigFile.v ===== *)
(** * The configuration file of the bootstrap

    What the bootstrap writes ([config_text]) is a document of a small part of TOML:
    tables of bare keys with basic strings, booleans and decimal integers.  A TOML
    parser reads such documents ([ReadsToml], documented behaviour of the format),
    so the file loads again and gives back the answers.  [mini_toml] is a parser of
    just these documents, an instance of the class. *)

From Stdlib Require Import ZifyN ZifyBool.
From S2P Require Import Prelude RustStr RustInt Arrow Plan Config Exasol ExasolSession.
From S2P Require Import Bootstrap Console ParamsTheorems BootstrapTheorems Startup.
#[local] Open Scope nat_scope.

(** ** Documents *)

(** A character that may stand in a basic string: no control character but a tab. *)
Definition toml_char (c : char) : bool := (c =? 9)%N || ((32 <=? c)%N && negb (c =? 127)%N).
Definition printable (s : str) : Prop := Forall (fun c => toml_char c = true) s.

Definition bare_key_char (c : char) : bool :=
  is_ascii_alphanumeric c || (c =? 95)%N || (c =? 45)%N.
Definition bare_key (k : str) : Prop :=
  k <> [] /\ Forall (fun c => bare_key_char c = true) k.

(** The text of a value: a basic string whose escapes are those of backslashes and
    quotes, a boolean, a decimal integer without leading zeros. *)
Inductive value_text : str -> toml -> Prop :=
| text_string body s : printable body -> lex_basic body = Some (s, []) ->
    value_text (34%N :: body) (TString s)
| text_bool b : value_text (show_bool b) (TBool b)
| text_int z : (0 <= z <= i64_max)%Z -> value_text (show_int z) (TInt z).

(** An entry is its key, the text of its value, and its value. *)
Record entry := { entry_key : str; entry_text : str; entry_value : toml }.
Record table := { table_name : str; table_entries : list entry }.

Definition entry_ok (e : entry) : Prop :=
  bare_key (entry_key e) /\ value_text (entry_text e) (entry_value e).
Definition table_ok (t : table) : Prop :=
  bare_key (table_name t) /\ Forall entry_ok (table_entries t)
  /\ NoDup (entry_key <$> table_entries t).
Definition doc_ok (d : list table) : Prop :=
  Forall table_ok d /\ NoDup (table_name <$> d).

Definition entry_line (e : entry) : str := entry_key e ++ lit " = " ++ entry_text e.
Definition table_lines (t : table) : list str :=
  (lit "[" ++ table_name t ++ lit "]") :: (entry_line <$> table_entries t).
(** Tables with an empty line between them. *)
Fixpoint doc_lines (d : list table) : list str :=
  match d with
  | [] => []
  | [t] => table_lines t
  | t :: d => table_lines t ++ [] :: doc_lines d
  end.
Definition doc_text (d : list table) : str := unlines (doc_lines d).

Definition entry_toml (e : entry) : str * toml := (entry_key e, entry_value e).
Definition table_toml (t : table) : str * toml :=
  (table_name t, TTable (entry_toml <$> table_entries t)).

(** What the program relies on: a TOML parser reads such a document. *)
Class ReadsToml `{TomlLib} : Prop :=
  reads_toml d : doc_ok d -> toml_parse (doc_text d) = Some (table_toml <$> d).

(** ** A parser of these documents *)

Definition mini_value (s : str) : option toml :=
  match s with
  | 34%N :: body => '(v, rest) ← lex_basic body;
                    match rest with [] => Some (TString v) | _ => None end
  | _ =>
      if str_eqb s (lit "true") then Some (TBool true)
      else if str_eqb s (lit "false") then Some (TBool false)
      else TInt <$> parse_i64 s
  end.

(** The entries before the first header, and the tables after it. *)
Fixpoint mini_lines (ls : list str) : option (list (str * toml) * list (str * toml)) :=
  match ls with
  | [] => Some ([], [])
  | l :: ls =>
      '(es, ts) ← mini_lines ls;
      match l with
      | [] => Some (es, ts)
      | 91%N :: name => Some ([], (removelast name, TTable es) :: ts)
      | _ =>
          '(k, rest) ← split_once 32 l;
          match rest with
          | 61%N :: 32%N :: v => v ← mini_value v; Some ((k, v) :: es, ts)
          | _ => None
          end
      end
  end.
Definition mini_toml (s : str) : option (list (str * toml)) :=
  '(es, ts) ← mini_lines (lines s); Some (es ++ ts).

Lemma split_once_app d k rest :
  Forall (fun c => c <> d) k -> split_once d (k ++ d :: rest) = Some (k, rest).
Proof.
  induction 1 as [|c k Hc _ IH]; cbn; [by rewrite N.eqb_refl|].
  by rewrite (proj2 (N.eqb_neq c d)), IH by done.
Qed.

Lemma mini_value_text s v : value_text s v -> mini_value s = Some v.
Proof.
  destruct 1 as [body s _ Hl|[]|z Hz]; [cbn [mini_value]; by rewrite Hl|done|done|].
  assert (Hp : parse_i64 (show_int z) = Some z) by (apply parse_show_int; unfold_bounds; lia).
  destruct (show_digits_head (S (Z.to_nat (Z.log2 z))) z []) as (c & r & Hs & Hc); [lia..|].
  assert (Hi : show_int z = c :: r).
  { unfold show_int. by rewrite (proj2 (Z.ltb_ge z 0)) by lia. }
  rewrite Hi in *. unfold is_ascii_digit in Hc. breflect.
  unfold mini_value. destruct (N.eqb_spec c 34) as [->|Hn]; [done|].
  destruct (str_eqb_spec (c :: r) (lit "true")) as [[= -> ->]|_]; [done|].
  destruct (str_eqb_spec (c :: r) (lit "false")) as [[= -> ->]|_]; [done|].
  rewrite Hp. by repeat case_match; simplify_eq.
Qed.

Lemma printable_line_ok l : printable l -> line_ok l.
Proof.
  intros Hl. split; [eapply list.Forall_impl; [exact Hl|]; by intros c Hc ->|].
  unfold strip_cr. destruct (rev l) as [|c r] eqn:E; [done|].
  assert (Hc : toml_char c = true).
  { apply (proj1 (list.Forall_forall _ _) Hl). apply list_elem_of_In, in_rev. rewrite E. by left. }
  destruct (N.eqb_spec c 13) as [->|Hn]; [done|]. by repeat case_match; simplify_eq.
Qed.

Lemma bare_key_printable k : bare_key k -> printable k /\ Forall (fun c => c <> 32%N) k.
Proof.
  intros [_ Hk]. split; (eapply list.Forall_impl; [exact Hk|]); intros c Hc.
  - unfold bare_key_char, is_ascii_alphanumeric, is_ascii_uppercase, is_ascii_lowercase, is_ascii_digit in Hc.
    unfold toml_char. lia.
  - by intros ->.
Qed.

Lemma value_text_printable s v : value_text s v -> printable s.
Proof.
  destruct 1 as [body s Hb _|[]|z Hz].
  - by constructor.
  - by repeat constructor.
  - by repeat constructor.
  - unfold show_int. rewrite (proj2 (Z.ltb_ge z 0)) by lia.
    eapply list.Forall_impl; [apply digits_are_digits; [lia|constructor]|].
    intros c Hc. unfold is_ascii_digit in Hc. unfold toml_char. lia.
Qed.

Lemma entry_line_printable e : entry_ok e -> printable (entry_line e).
Proof.
  intros [[Hk _]%bare_key_printable Hv%value_text_printable].
  apply Forall_app; split; [done|]. apply Forall_app; split; [by repeat constructor|done].
Qed.

Lemma doc_lines_printable d : Forall table_ok d -> Forall printable (doc_lines d).
Proof.
  assert (Ht : forall t, table_ok t -> Forall printable (table_lines t)).
  { intros t ([Hn _]%bare_key_printable & He & _). constructor.
    - constructor; [done|]. apply Forall_app; split; [done|by repeat constructor].
    - apply Forall_fmap. eapply list.Forall_impl; [exact He|]. exact entry_line_printable. }
  induction 1 as [|t d Hok Hd IH]; [constructor|]. destruct d as [|t' d]; [by apply Ht|].
  apply Forall_app; split; [by apply Ht|]. constructor; [constructor|exact IH].
Qed.

(** A line of an entry, whatever its value, starts like its key. *)
Lemma mini_entry_line e ls es ts :
  entry_ok e -> mini_lines ls = Some (es, ts) ->
  mini_lines (entry_line e :: ls) = Some (entry_toml e :: es, ts).
Proof.
  intros [Hk Hv%mini_value_text] Hls. cbn [mini_lines]. rewrite Hls. cbn [mbind option_bind].
  assert (Hs : split_once 32 (entry_line e) = Some (entry_key e, [61; 32]%N ++ entry_text e)).
  { apply (split_once_app 32 (entry_key e)), bare_key_printable, Hk. }
  unfold entry_line in *. destruct Hk as [Hne Hk]. destruct (entry_key e) as [|c k] eqn:Ek; [done|].
  assert (c <> 91%N) as Hc.
  { intros ->. apply list.Forall_cons in Hk as [Hk _]. done. }
  cbn [app] in *. rewrite Hs. cbn [mbind option_bind app]. rewrite Hv.
  unfold entry_toml. rewrite Ek. cbn [mbind option_bind].
  repeat (case_match; simplify_eq; try done).
Qed.

Lemma mini_entries es ls es' ts :
  Forall entry_ok es -> mini_lines ls = Some (es', ts) ->
  mini_lines ((entry_line <$> es) ++ ls) = Some ((entry_toml <$> es) ++ es', ts).
Proof.
  intros He Hls. induction He as [|e es He _ IH]; [done|]. by apply mini_entry_line.
Qed.

Lemma mini_table t ls ts :
  table_ok t -> mini_lines ls = Some ([], ts) ->
  mini_lines (table_lines t ++ ls) = Some ([], table_toml t :: ts).
Proof.
  intros (_ & He & _) Hls. unfold table_lines. cbn [app mini_lines].
  rewrite (mini_entries _ _ [] ts) by done. cbn [mbind option_bind].
  change (lit "[") with [91%N]. cbn [app]. change (lit "]") with [93%N].
  by rewrite removelast_last, app_nil_r.
Qed.

Lemma mini_doc d : Forall table_ok d -> mini_lines (doc_lines d) = Some ([], table_toml <$> d).
Proof.
  induction 1 as [|t d Ht Hd IH]; [done|]. destruct d as [|t' d].
  - cbn [doc_lines]. rewrite <- (app_nil_r (table_lines t)). by apply mini_table.
  - cbn [doc_lines]. apply mini_table; [done|]. cbn [mini_lines]. fold doc_lines.
    change (mini_lines (doc_lines (t' :: d)) ≫= (fun '(es, ts) => Some (es, ts))
            = Some ([], table_toml <$> (t' :: d))). by rewrite IH.
Qed.

#[local] Instance mini : TomlLib := mini_toml.
#[local] Instance mini_reads : ReadsToml.
Proof.
  intros d [Hd _]. unfold toml_parse, mini, mini_toml, doc_text.
  rewrite lines_unlines, mini_doc; [done..|].
  eapply list.Forall_impl; [by apply doc_lines_printable|]. exact printable_line_ok.
Qed.

(** ** What the bootstrap writes *)

Lemma printable_escape s : printable s -> printable (toml_escape s).
Proof.
  rewrite toml_escape_chars. induction 1 as [|c s Hc _ IH]; [constructor|].
  apply Forall_app; split; [|exact IH]. unfold escape_char. by repeat case_match; repeat constructor.
Qed.

Lemma quoted_text s : printable s -> value_text (toml_quoted s) (TString s).
Proof.
  intros Hs. destruct (toml_escape_reads s []) as (body & E & Hl).
  rewrite app_nil_r in E. rewrite E. constructor; [|done].
  assert (Hp : printable (toml_quoted s)).
  { constructor; [done|]. apply Forall_app; split; [by apply printable_escape|by repeat constructor]. }
  rewrite E in Hp. by apply list.Forall_cons in Hp as [_ ?].
Qed.

(** What the answers are worth, and the configuration they stand for. *)
Definition answers_ok (a : answers) : Prop :=
  printable (a_host a) /\ (0 <= a_port a <= u16_max)%Z /\ printable (a_log a)
  /\ printable (a_dsn a) /\ trim (a_dsn a) <> [] /\ printable (a_fingerprint a)
  /\ printable (a_schema a).

Definition answers_text (a : answers) : str :=
  config_text (a_host a) (show_int (a_port a)) (a_log a) (a_dsn a) (a_encryption a)
    (a_fingerprint a) (a_validate a) (a_schema a).

Definition answers_config (a : answers) : AppConfig :=
  {| server := {| listen_host := a_host a; listen_port := a_port a; log_level := a_log a;
                  tls_cert_path := []; tls_key_path := [] |};
     exasol := {| dsn := a_dsn a; encryption := a_encryption a;
                  certificate_fingerprint := a_fingerprint a;
                  validate_certificate := a_validate a; pass_client_credentials := true;
                  schema := a_schema a; transport := DEFAULT_TRANSPORT |};
     translation := TranslationConfig_default |}.

Definition string_entry (k : string) (s : str) : entry :=
  {| entry_key := lit k; entry_text := toml_quoted s; entry_value := TString s |}.
Definition bool_entry (k : string) (b : bool) : entry :=
  {| entry_key := lit k; entry_text := show_bool b; entry_value := TBool b |}.
Definition int_entry (k : string) (z : Z) : entry :=
  {| entry_key := lit k; entry_text := show_int z; entry_value := TInt z |}.

Definition answers_doc (a : answers) : list table :=
  [{| table_name := lit "server";
      table_entries := [string_entry "listen_host" (a_host a); int_entry "listen_port" (a_port a);
                        string_entry "log_level" (a_log a)] |};
   {| table_name := lit "exasol";
      table_entries := [string_entry "dsn" (a_dsn a); bool_entry "encryption" (a_encryption a);
                        string_entry "certificate_fingerprint" (a_fingerprint a);
                        bool_entry "validate_certificate" (a_validate a);
                        bool_entry "pass_client_credentials" true;
                        string_entry "schema" (a_schema a)] |};
   {| table_name := lit "translation"; table_entries := [bool_entry "enabled" true] |}].

Lemma string_entry_ok k s : bare_key (lit k) -> printable s -> entry_ok (string_entry k s).
Proof. split; [done|by apply quoted_text]. Qed.
Lemma bool_entry_ok k b : bare_key (lit k) -> entry_ok (bool_entry k b).
Proof. split; [done|constructor]. Qed.
Lemma int_entry_ok k z : bare_key (lit k) -> (0 <= z <= i64_max)%Z -> entry_ok (int_entry k z).
Proof. split; [done|by constructor]. Qed.

Lemma bare_key_check k :
  negb (bool_decide (k = [])) && forallb bare_key_char k = true -> bare_key k.
Proof.
  intros [Hne%negb_true_iff%bool_decide_eq_false Hk]%andb_true_iff. split; [done|].
  apply list.Forall_forall. intros c Hc. apply (proj1 (forallb_forall _ _) Hk).
  by apply list_elem_of_In.
Qed.

Ltac bare := apply bare_key_check; vm_compute; reflexivity.
Ltac distinct := apply (bool_decide_unpack _); vm_compute; exact I.

Lemma answers_doc_ok a : answers_ok a -> doc_ok (answers_doc a).
Proof.
  intros (Hh & Hp & Hl & Hd & _ & Hf & Hs).
  assert (Hport : (0 <= a_port a <= i64_max)%Z) by (unfold_bounds; lia).
  split; [|cbn [answers_doc fmap list_fmap table_name]; distinct].
  assert (Ht : forall name es, bare_key name -> Forall entry_ok es ->
            NoDup (entry_key <$> es) -> table_ok {| table_name := name; table_entries := es |})
    by done.
  repeat apply list.Forall_cons_2; [..|constructor]; apply Ht; try bare;
    try (cbn [fmap list_fmap entry_key string_entry bool_entry int_entry]; distinct);
    repeat apply list.Forall_cons_2; try constructor; try bare;
    cbn [entry_text entry_value string_entry bool_entry int_entry];
    first [by apply quoted_text | by constructor].
Qed.

Lemma trim_digits z : (0 <= z)%Z -> trim (show_int z) = show_int z.
Proof.
  intros Hz. apply trim_words. unfold show_int. rewrite (proj2 (Z.ltb_ge z 0)) by lia.
  eapply list.Forall_impl; [apply digits_are_digits; [lia|constructor]|].
  intros c Hc. unfold is_ascii_digit in Hc. unfold is_whitespace. lia.
Qed.

Lemma answers_text_doc a : (0 <= a_port a)%Z -> answers_text a = doc_text (answers_doc a).
Proof.
  intros Hp. unfold answers_text, config_text, toml_line. rewrite trim_digits by done.
  unfold doc_text, unlines. cbn [answers_doc doc_lines table_lines]. 
  cbn [mbind list_bind app fmap list_fmap].
  unfold entry_line. cbn [table_lines table_name table_entries entry_key entry_text string_entry bool_entry int_entry app fmap list_fmap mbind list_bind].
  rewrite <- !app_assoc. reflexivity.
Qed.

Lemma answers_load `{ReadsToml} a :
  answers_ok a ->
  from_file (Some (answers_text a)) = Ok (answers_config a) /\ valid_config (answers_config a).
Proof.
  intros Ha. pose proof Ha as (_ & Hp & _ & _ & Hd & _).
  assert (Hv : valid_config (answers_config a)).
  { constructor; [done|done|by right]. }
  split; [|done]. apply from_file_loads. exists (answers_text a).
  split; [done|]. split; [|done].
  rewrite answers_text_doc, reads_toml by (lia || by apply answers_doc_ok).
  assert (Hu : as_u16 (TInt (a_port a)) = Some (a_port a)).
  { unfold as_u16. rewrite !(proj2 (Z.leb_le _ _)) by (unfold_bounds; lia). done. }
  clear Ha Hv Hp. destruct a as [h p l d e fp v s]. cbn [a_port] in Hu.
  lazy -[as_u16 Z.leb]. rewrite Hu. reflexivity.
Qed.

(** ** What is asked *)

(** Lines a terminal can send: printable, and a port without leading zeros or sign. *)
Definition plain_line (l : str) : Prop :=
  printable l /\ forall p, parse_u16 (trim l) = Some p -> trim l = show_int p.

Lemma optional_plain {E} c v c' :
  Forall plain_line c -> prompt_optional (E := E) c = (Ok v, c') ->
  printable v /\ Forall plain_line c'
  /\ forall p, parse_u16 v = Some p -> v = show_int p.
Proof.
  destruct 1 as [|l c [Hl Hp] Hc]; intros [= <- <-].
  - split_and!; [constructor|constructor|]. by intros p [=].
  - split_and!; [by apply trim_sub|done|done].
Qed.

Lemma default_plain {E} d c v c' :
  Forall plain_line c -> printable d -> (forall p, parse_u16 d = Some p -> d = show_int p) ->
  prompt_with_default (E := E) d c = (Ok v, c') ->
  printable v /\ Forall plain_line c' /\ forall p, parse_u16 v = Some p -> v = show_int p.
Proof.
  intros Hc Hd Hdp (x & c1 & Hx & Hv)%stateful_bind_Ok. injection Hv as <- <-.
  destruct (optional_plain _ _ _ Hc Hx) as (? & ? & ?). by case_match.
Qed.

Lemma required_plain {E} fuel c v c' :
  Forall plain_line c -> prompt_required (E := E) fuel c = (Ok v, c') ->
  printable v /\ trim v <> [] /\ Forall plain_line c'.
Proof.
  revert c. induction fuel as [|fuel IH]; intros c Hc; [done|].
  intros (x & c1 & Hx & Hv)%stateful_bind_Ok.
  destruct (optional_plain _ _ _ Hc Hx) as (? & ? & _).
  destruct (trim x) eqn:Et; [by eapply IH|]. injection Hv as <- <-. by rewrite Et.
Qed.

Lemma confirm_plain {E} fuel d c b c' :
  Forall plain_line c -> confirm (E := E) fuel d c = (Ok b, c') -> Forall plain_line c'.
Proof.
  revert c. induction fuel as [|fuel IH]; intros c Hc; [done|].
  intros (x & c1 & Hx & Hv)%stateful_bind_Ok.
  destruct (optional_plain _ _ _ Hc Hx) as (_ & ? & _).
  destruct x as [|k x]; [by injection Hv as _ <-|]. cbv zeta in Hv.
  do 2 (destruct (one_of _ _); [by injection Hv as _ <-|]). by eapply IH.
Qed.

(** The port of plain lines is typed as it is printed. *)
Lemma port_plain {E} fuel c v c' :
  Forall plain_line c -> prompt_port (E := E) fuel c = (Ok v, c') ->
  Forall plain_line c' /\ forall p, parse_u16 v = Some p -> v = show_int p.
Proof.
  revert c. induction fuel as [|fuel IH]; intros c Hc; [done|].
  intros (x & c1 & Hx & Hv)%stateful_bind_Ok.
  apply default_plain in Hx as (_ & Hc1 & Hp); [|done|by repeat constructor|].
  2: { intros p Hp. by assert (p = 15432%Z) as -> by (vm_compute in Hp; congruence). }
  destruct (parse_u16 x) as [p|] eqn:Ep; [|by eapply IH].
  injection Hv as <- <-. split; [done|]. by rewrite Ep.
Qed.

(** At the end of the input a required answer is asked for again and again. *)
Lemma prompt_required_eof {E} fuel : prompt_required (E := E) fuel [] = (OutOfFuel, []).
Proof. by induction fuel. Qed.

(** Plain lines give good answers, which are written. *)
Lemma prompt_config_answers {E} fuel c text c' :
  Forall plain_line c -> prompt_config (E := E) fuel c = (Ok text, c') ->
  answers_ok (read_answers c).1 /\ text = answers_text (read_answers c).1
  /\ c' = (read_answers c).2.
Proof.
  intros Hc Hq. pose proof (questionnaire _ _ _ _ Hq) as [Hrest (port_text & Hport & Htext)].
  cbv zeta in *. revert Hq Hrest Hport Htext.
  intros (h & c1 & Hh & Hr)%stateful_bind_Ok.
  pose proof (default_answer _ _ _ _ Hh) as Ah.
  apply default_plain in Hh as (Hh & Hc1 & _); [|done|by repeat constructor|done].
  apply stateful_bind_Ok in Hr as (pt & c2 & Hp & Hr).
  pose proof (port_answer _ _ _ _ Hp) as (p & Ap & Hpt).
  apply port_plain in Hp as (Hc2 & Hshow); [|done].
  apply stateful_bind_Ok in Hr as (l & c3 & Hl & Hr).
  pose proof (default_answer _ _ _ _ Hl) as Al.
  apply default_plain in Hl as (Hl & Hc3 & _); [|done|by repeat constructor|done].
  apply stateful_bind_Ok in Hr as (d & c4 & Hd & Hr).
  pose proof (required_answer _ _ _ _ Hd) as Ad.
  apply required_plain in Hd as (Hd & Hd1 & Hc4); [|done].
  apply stateful_bind_Ok in Hr as (e & c5 & He & Hr).
  pose proof (confirm_decision _ _ _ _ _ He) as Ae.
  apply confirm_plain in He; [|done].
  apply stateful_bind_Ok in Hr as (fp & c6 & Hf & Hr).
  pose proof (optional_answer _ _ _ Hf) as Af.
  apply optional_plain in Hf as (Hf & Hc6 & _); [|done].
  apply stateful_bind_Ok in Hr as (v & c7 & Hv & Hr).
  assert (Av : match fp with [] => decision true c6 | _ => (true, c6) end = (v, c7)).
  { destruct fp; [by apply confirm_decision in Hv|by injection Hv as <- <-]. }
  assert (Hc7 : Forall plain_line c7).
  { destruct (bool_decide _); [by eapply confirm_plain|by injection Hv as _ <-]. }
  apply stateful_bind_Ok in Hr as (s & c8 & Hs & Hr).
  pose proof (optional_answer _ _ _ Hs) as As.
  apply optional_plain in Hs as (Hs & _ & _); [|done]. injection Hr as <- _.
  unfold read_answers. rewrite Ah, Ap, Al, Ad, Ae, Af, Av, As. cbn. intros -> _ _.
  pose proof (parse_int_range _ _ _ _ _ Hpt) as [? ?]. unfold answers_text. cbn [a_host a_port a_log a_dsn
    a_encryption a_fingerprint a_validate a_schema fst snd]. rewrite <- (Hshow p Hpt).
  split; [by split_and!|done].
Qed.

(** ** The file is there, and loads *)

(** Asking reads the console only. *)
Lemma asking_inv {F A} (m : console_m StartError A) (s : console * F) r s' :
  asking m s = (r, s') -> exists c', m s.1 = (r, c') /\ s' = (c', s.2).
Proof. unfold asking. destruct (m s.1) as [r0 c0]. intros [= <- <-]. by exists c0. Qed.

Lemma on_files_Ok {F A} (m : stateful F str A) (s : console * F) (a : A) s' :
  on_files m s = (Ok a, s') -> exists f, m s.2 = (Ok a, f) /\ s' = (s.1, f).
Proof.
  unfold on_files. destruct (m s.2) as [r0 f]. intros [= Hr <-].
  apply map_err_Ok in Hr as ->. by exists f.
Qed.

Section config_file.
Context {F : Type} `{!FileSystem F} `{!FileSystemLaws F}.

Lemma ensure_config_file_exists fuel tty requested c (f : F) :
  let wanted := default DEFAULT_CONFIG_PATH requested in
  path_exists wanted f = true ->
  ensure_config_file fuel tty requested (c, f) = (Ok wanted, (c, f)).
Proof.
  intros wanted Hf. unfold ensure_config_file. fold wanted.
  by eapply bind_step; [reflexivity|]; cbn [fst snd]; rewrite Hf.
Qed.

Lemma ensure_config_file_path fuel tty requested c (f : F) path s' :
  ensure_config_file fuel tty requested (c, f) = (Ok path, s') ->
  path = default DEFAULT_CONFIG_PATH requested
  /\ (path_exists path f = true -> s' = (c, f)).
Proof.
  intros Hrun. destruct (path_exists (default DEFAULT_CONFIG_PATH requested) f) eqn:Ef.
  { rewrite ensure_config_file_exists in Hrun by done. by injection Hrun as <- <-. }
  assert (Hp : path = default DEFAULT_CONFIG_PATH requested); [|by rewrite Hp, Ef].
  unfold ensure_config_file in Hrun.
  apply stateful_bind_Ok in Hrun as ([? ?] & s1 & [= <- <- <-] & Hrun). rewrite Ef in Hrun.
  destruct tty; [|done]. apply stateful_bind_Ok in Hrun as (b & s2 & _ & Hrun).
  destruct b; [|done]. apply stateful_bind_Ok in Hrun as (text & s3 & _ & Hrun).
  apply stateful_bind_Ok in Hrun as ([] & s4 & _ & Hrun).
  by apply stateful_bind_Ok in Hrun as ([] & s5 & _ & [= <- _]).
Qed.

(** The questionnaire starts where the consent to it was given. *)
Definition questions (c : console) : console := (decision true c).2.

(** What the answers of plain lines write, when there is no file yet. *)
Lemma ensure_config_file_writes fuel tty requested c f path c' f' :
  let wanted := default DEFAULT_CONFIG_PATH requested in
  path_exists wanted f = false -> Forall plain_line c ->
  ensure_config_file fuel tty requested (c, f) = (Ok path, (c', f')) ->
  tty = true /\ (decision true c).1 = true /\ path = wanted /\ path_exists path f' = true
  /\ let a := (read_answers (questions c)).1 in
     answers_ok a /\ fs_read path f' = Some (answers_text a)
     /\ c' = (read_answers (questions c)).2.
Proof.
  intros wanted Hf Hc Hrun. unfold ensure_config_file in Hrun. fold wanted in Hrun.
  apply stateful_bind_Ok in Hrun as ([? ?] & s1 & [= <- <- <-] & Hrun).
  rewrite Hf in Hrun. destruct tty; [|done].
  apply stateful_bind_Ok in Hrun as (b & s2 & (c2 & Hb & ->)%asking_inv & Hrun).
  destruct b; [|done]. pose proof (confirm_decision _ _ _ _ _ Hb) as Hdec.
  unfold questions. cbn [fst snd] in Hdec. rewrite Hdec. apply confirm_plain in Hb; [|done].
  apply stateful_bind_Ok in Hrun as (text & s3 & (c3 & Ht & ->)%asking_inv & Hrun).
  apply stateful_bind_Ok in Hrun as ([] & [c4 f4] & Hdir & Hrun).
  apply stateful_bind_Ok in Hrun as ([] & s5 & (f5 & Hw & ->)%on_files_Ok & [= <- <- <-]).
  apply fs_write_read in Hw as [He Hr].
  apply prompt_config_answers in Ht as (Ha & -> & ->); [|done]. cbn [fst snd].
  assert (c4 = (read_answers c2).2) as ->; [|by split_and!].
  destruct (parent wanted) as [[|x dir]|]; [by injection Hdir| |by injection Hdir].
  apply on_files_Ok in Hdir as (f6 & _ & [= <- _]). done.
Qed.
End config_file.

(** C38: the server starts on the file the operator asked for (or the default one).
    One that exists is used as it is, whatever the terminal, and nothing is asked or
    written.  Otherwise the operator agreed to create it at a terminal, and what is
    written is what was answered: the lines after the consent, plain lines of text
    (printable, and no port with leading zeros or a sign), give host, port, log level,
    DSN, encryption, fingerprint, validation and schema in the order of the questions
    ([read_answers]), no other line is read, and loading the file gives a valid
    configuration with exactly these answers. *)
Theorem ensure_config_file_loads {F} `{!FileSystem F} `{!FileSystemLaws F} `{ReadsToml}
    fuel tty requested c f path c' f' :
  ensure_config_file fuel tty requested (c, f) = (Ok path, (c', f')) ->
  Forall plain_line c ->
  path = default DEFAULT_CONFIG_PATH requested /\ path_exists path f' = true
  /\ (path_exists path f = true -> c' = c /\ f' = f)
  /\ (path_exists path f = false ->
      tty = true /\ (decision true c).1 = true
      /\ let '(a, rest) := read_answers (decision true c).2 in
         c' = rest /\ fs_read path f' = Some (answers_text a)
         /\ from_file (fs_read path f') = Ok (answers_config a)
         /\ valid_config (answers_config a)).
Proof.
  intros Hrun Hc. destruct (path_exists (default DEFAULT_CONFIG_PATH requested) f) eqn:Ef.
  - rewrite ensure_config_file_exists in Hrun by done. injection Hrun as <- <- <-. rewrite Ef. by split_and!.
  - apply ensure_config_file_writes in Hrun as (-> & Hyes & -> & He & Ha & Hr & Hrest); [|done..].
    split_and!; [done..|by rewrite Ef|]. intros _. split_and!; [done..|].
    unfold questions in *. destruct (read_answers (decision true c).2) as [a rest].
    cbn [fst snd] in *. split_and!; [done..| |]; rewrite ?Hr; by apply answers_load.
Qed.

(** A file system of files only. *)
#[local] Instance files : FileSystem (gmap str str) := {
  path_exists path f := bool_decide (is_Some (f !! path));
  fs_read path f := f !! path;
  fs_create_dir_all _ := mret tt;
  fs_write path text f := (Ok tt, <[path := text]> f) }.
#[local] Instance files_laws : FileSystemLaws (gmap str str).
Proof.
  intros path text f f' [= <-]. cbn. rewrite lookup_insert_eq.
  split; [|done]. apply bool_decide_eq_true. by eexists.
Qed.

Lemma ensure_config_file_loads_witness :
  let lines := [lit "y"; []; lit "5433"; []; []; lit " db.example:8563 "; lit "n"; lit "A\`1";
                []] in
  exists path c' f',
    ensure_config_file 9 true None (lines, ∅ : gmap str str) = (Ok path, (c', f'))
    /\ from_file (fs_read path f')
       = Ok (answers_config {| a_host := lit "0.0.0.0"; a_port := 5433; a_log := lit "INFO";
               a_dsn := lit "db.example:8563"; a_encryption := false;
               a_fingerprint := lit "A\`1"; a_validate := true; a_schema := [] |}).
Proof.
  intros lines. destruct (ensure_config_file 9 true None (lines, ∅ : gmap str str))
    as [r [c' f']] eqn:E.
  assert (r = Ok DEFAULT_CONFIG_PATH) as ->.
  { transitivity (ensure_config_file 9 true None (lines, ∅ : gmap str str)).1; [by rewrite E|].
    vm_compute. reflexivity. }
  destruct (ensure_config_file_loads 9 true None lines ∅ DEFAULT_CONFIG_PATH c' f' E)
    as (_ & _ & _ & Hn).
  { apply (list.Forall_forall _ lines). intros l Hl.
    repeat (apply elem_of_cons in Hl as [->|Hl]); [..|by apply elem_of_nil in Hl];
      (split; [by repeat constructor|vm_compute; intros p Hp; by simplify_eq]). }
  destruct Hn as (_ & _ & _ & _ & Ha & _); [done|]. by exists DEFAULT_CONFIG_PATH, c', f'.
Defined.
