(* ===== verification/NetAddr.v ===== *)
(** * Socket addresses (src/src/main.rs, [parse::<SocketAddr>])

    The address the server listens on is read by the standard library's parser of
    socket addresses, translated here: an IPv4 address and a port, or an IPv6
    address in brackets and a port.  A parser takes the rest of the text, and gives
    nothing when it does not read. *)

From Stdlib Require Import ZifyN ZifyBool.
From S2P Require Import Prelude RustStr RustInt ParamsTheorems.
#[local] Open Scope nat_scope.

Inductive SocketAddr :=
| V4 (octets : list Z) (port : Z)
| V6 (segments : list Z) (scope_id : Z) (port : Z).

Definition parser (A : Type) : Type := str -> option (A * str).

Definition read_given_char (c : char) : parser unit := fun s =>
  match s with d :: s => if (d =? c)%N then Some (tt, s) else None | [] => None end.

(** [char::to_digit]. *)
Definition to_digit (radix : Z) (c : char) : option Z :=
  let d := if ((48 <=? c) && (c <=? 57))%N then Some (Z.of_N c - 48)%Z
           else if ((97 <=? c) && (c <=? 122))%N then Some (Z.of_N c - 87)%Z
           else if ((65 <=? c) && (c <=? 90))%N then Some (Z.of_N c - 55)%Z
           else None in
  d ← d; if (d <? radix)%Z then Some d else None.

(** The loop over the digits; [bound] is the greatest number of the type, and more
    digits than [max_digits] are no number. *)
Fixpoint read_digits (radix bound : Z) (max_digits : option nat) (count : nat) (result : Z)
    (s : str) : option (nat * Z * str) :=
  match s with
  | [] => Some (count, result, [])
  | c :: rest =>
      match to_digit radix c with
      | None => Some (count, result, s)
      | Some d =>
          let result := (result * radix + d)%Z in
          if (bound <? result)%Z then None
          else match max_digits with
               | Some m => if m <? S count then None
                           else read_digits radix bound max_digits (S count) result rest
               | None => read_digits radix bound max_digits (S count) result rest
               end
      end
  end.
Definition read_number (radix bound : Z) (max_digits : option nat)
    (allow_zero_prefix : bool) : parser Z := fun s =>
  let has_leading_zero := match s with 48%N :: _ => true | _ => false end in
  '(count, result, rest) ← read_digits radix bound max_digits 0 0 s;
  if count =? 0 then None
  else if negb allow_zero_prefix && has_leading_zero && (1 <? count) then None
  else Some (result, rest).

Definition read_separator {A} (sep : char) (index : nat) (inner : parser A) : parser A :=
  fun s => if index =? 0 then inner s
           else '(_, s) ← read_given_char sep s; inner s.

(** The [n] groups of an address from the [i]-th on. *)
Fixpoint read_octets (n i : nat) : parser (list Z) := fun s =>
  match n with
  | O => Some ([], s)
  | S n =>
      '(g, s) ← read_separator 46 i (read_number 10 255 (Some 3) false) s;
      '(gs, s) ← read_octets n (S i) s;
      Some (g :: gs, s)
  end.
Definition read_ipv4_addr : parser (list Z) := read_octets 4 0.

(** The two groups an IPv4 address stands for. *)
Definition v4_groups (octets : list Z) : list Z :=
  match octets with
  | [a; b; c; d] => [(a * 256 + b)%Z; (c * 256 + d)%Z]
  | _ => []
  end.

(** [read_groups]: up to [n] groups, the [i]-th first, and whether the last two were
    written as an IPv4 address; what does not read ends the groups. *)
Fixpoint read_groups (n i : nat) (s : str) : list Z * bool * str :=
  match n with
  | O => ([], false, s)
  | S n =>
      match (if 0 <? n then read_separator 58 i read_ipv4_addr s else None) with
      | Some (v4, s) => (v4_groups v4, true, s)
      | None =>
          match read_separator 58 i (read_number 16 u16_max (Some 4) true) s with
          | Some (g, s) => let '(gs, v4, s) := read_groups n (S i) s in (g :: gs, v4, s)
          | None => ([], false, s)
          end
      end
  end.

Definition read_ipv6_addr : parser (list Z) := fun s =>
  let '(head, head_ipv4, s) := read_groups 8 0 s in
  if length head =? 8 then Some (head, s)
  else if head_ipv4 : bool then None
  else
    '(_, s) ← read_given_char 58 s;
    '(_, s) ← read_given_char 58 s;
    let '(tail, _, s) := read_groups (7 - length head) 0 s in
    Some (head ++ replicate (8 - length head - length tail) 0%Z ++ tail, s).

Definition read_port : parser Z := fun s =>
  '(_, s) ← read_given_char 58 s; read_number 10 u16_max None true s.
Definition u32_max : Z := 4294967295.
Definition read_scope_id : parser Z := fun s =>
  '(_, s) ← read_given_char 37 s; read_number 10 u32_max None true s.

Definition read_socket_addr_v4 : parser SocketAddr := fun s =>
  '(ip, s) ← read_ipv4_addr s; '(port, s) ← read_port s; Some (V4 ip port, s).
Definition read_socket_addr_v6 : parser SocketAddr := fun s =>
  '(_, s) ← read_given_char 91 s;
  '(ip, s) ← read_ipv6_addr s;
  let '(scope_id, s) := match read_scope_id s with Some r => r | None => (0%Z, s) end in
  '(_, s) ← read_given_char 93 s;
  '(port, s) ← read_port s;
  Some (V6 ip scope_id port, s).

(** [SocketAddr::from_str]: the whole text is an address. *)
Definition parse_socket_addr (s : str) : option SocketAddr :=
  '(addr, rest) ← (match read_socket_addr_v4 s with
                   | Some r => Some r
                   | None => read_socket_addr_v6 s
                   end);
  match rest with [] => Some addr | _ => None end.

Example ex_addr :
  parse_socket_addr (lit "0.0.0.0:15432") = Some (V4 [0; 0; 0; 0]%Z 15432)
  /\ parse_socket_addr (lit "[::1]:15432") = Some (V6 [0; 0; 0; 0; 0; 0; 0; 1]%Z 0 15432)
  /\ parse_socket_addr (lit "[2001:db8::ff00:42:8329]:443")
     = Some (V6 [8193; 3512; 0; 0; 0; 65280; 66; 33577]%Z 0 443)
  /\ parse_socket_addr (lit "[::ffff:192.0.2.1%7]:1")
     = Some (V6 [0; 0; 0; 0; 0; 65535; 49152; 513]%Z 7 1)
  /\ parse_socket_addr (lit "localhost:15432") = None
  /\ parse_socket_addr (lit "::1:15432") = None
  /\ parse_socket_addr (lit "127.0.0.01:15432") = None
  /\ parse_socket_addr (lit "127.0.0.256:15432") = None
  /\ parse_socket_addr (lit "[::1:2:3:4:5:6:7:8]:1") = None.
Proof. vm_compute. done. Qed.

(** ** Parsers take a part of the text from its front *)

Definition consumes {A} (p : parser A) : Prop :=
  forall s a rest, p s = Some (a, rest) -> exists used, s = used ++ rest.

Lemma consumes_char c : consumes (read_given_char c).
Proof. intros [|d s] [] rest; cbn; [done|]. case_match; [|done]. intros [= <-]. by exists [d]. Qed.

Lemma consumes_bind {A B} (p : parser A) (f : A -> parser B) :
  consumes p -> (forall a, consumes (f a)) ->
  consumes (fun s => '(a, s) ← p s; f a s).
Proof.
  intros Hp Hf s b rest ([a s1] & H1 & H2)%bind_Some.
  apply Hp in H1 as [u1 ->]. apply Hf in H2 as [u2 ->]. exists (u1 ++ u2). by rewrite app_assoc.
Qed.

Lemma consumes_ret {A} (a : A) : consumes (fun s => Some (a, s)).
Proof. intros s b rest [= <- <-]. by exists []. Qed.

(** A digit has the value [to_digit] gives. *)
Lemma to_digit_10 c :
  to_digit 10 c = if is_ascii_digit c then Some (Z.of_N c - 48)%Z else None.
Proof.
  unfold to_digit, is_ascii_digit. destruct ((48 <=? c)%N && (c <=? 57)%N) eqn:E; cbn.
  { by rewrite (proj2 (Z.ltb_lt _ _)) by lia. }
  do 2 (case_match; cbn; [by rewrite (proj2 (Z.ltb_ge _ _)) by lia|]). done.
Qed.

(** What the loop over decimal digits reads. *)
Lemma read_digits_inv bound m s : forall count r count' v rest,
  read_digits 10 bound m count r s = Some (count', v, rest) ->
  exists ds, s = ds ++ rest /\ Forall (fun c => is_ascii_digit c = true) ds
    /\ parse_digits_go r ds = Some v /\ count' = count + length ds
    /\ (match head rest with Some c => is_ascii_digit c = false | None => True end)
    /\ (ds <> [] -> (v <= bound)%Z)
    /\ (match m with Some m => ds <> [] -> count' <= m | None => True end).
Proof.
  induction s as [|c s IH]; intros count r count' v rest; cbn [read_digits].
  - intros [= <- <- <-]. exists []. split_and!; [done|constructor|done|cbn; lia|done|done|by destruct m].
  - rewrite to_digit_10. destruct (is_ascii_digit c) eqn:Ec.
    2: { intros [= <- <- <-]. exists [].
         split_and!; [done|constructor|done|cbn; lia|done|done|by destruct m]. }
    destruct (Z.ltb_spec bound (r * 10 + (Z.of_N c - 48))) as [|Hb]; [done|].
    intros H.
    assert (Hm : match m with Some m => S count <= m | None => True end
       /\ read_digits 10 bound m (S count) (r * 10 + (Z.of_N c - 48))%Z s = Some (count', v, rest)).
    { destruct m as [m|]; [|done]. destruct (Nat.ltb_spec m (S count)); [done|]. split; [lia|done]. }
    destruct Hm as [Hm (ds & -> & Hds & Hv & -> & Hr & Hbv & Hmv)%IH]. exists (c :: ds).
    split_and!; [done|by constructor| |cbn; lia|done| |].
    + cbn [parse_digits_go]. rewrite Ec. by rewrite (Z.mul_comm 10).
    + intros _. destruct ds as [|d ds]; [|by apply Hbv]. cbn in Hv. injection Hv as <-. lia.
    + destruct m as [m|]; [|done]. intros _. destruct ds as [|d ds]; [cbn; lia|]. by apply Hmv.
Qed.

Lemma read_digits_fwd bound m ds rest : forall count r v,
  Forall (fun c => is_ascii_digit c = true) ds -> (0 <= r)%Z ->
  parse_digits_go r ds = Some v -> (v <= bound)%Z ->
  (match m with Some m => count + length ds <= m | None => True end) ->
  (match head rest with Some c => is_ascii_digit c = false | None => True end) ->
  read_digits 10 bound m count r (ds ++ rest) = Some (count + length ds, v, rest).
Proof.
  induction ds as [|c ds IH]; intros count r v Hds Hr Hv Hb Hm Hrest.
  - cbn in *. injection Hv as <-. rewrite Nat.add_0_r. destruct rest as [|c rest]; [done|].
    cbn [read_digits]. rewrite to_digit_10. cbn in Hrest. by rewrite Hrest.
  - apply list.Forall_cons in Hds as [Hc Hds]. cbn [parse_digits_go] in Hv. rewrite Hc in Hv.
    cbn [app read_digits]. rewrite to_digit_10, Hc.
    assert (Hd : (0 <= Z.of_N c - 48)%Z) by (unfold is_ascii_digit in Hc; lia).
    assert (Hgrow : forall ds r v, Forall (fun c => is_ascii_digit c = true) ds -> (0 <= r)%Z ->
               parse_digits_go r ds = Some v -> (r <= v)%Z).
    { clear. induction ds as [|c ds IH]; intros r v Hds Hr; cbn; [intros [= <-]; lia|].
      apply list.Forall_cons in Hds as [Hc Hds]. rewrite Hc. intros Hv.
      unfold is_ascii_digit in Hc. apply IH in Hv; [lia|done|lia]. }
    assert (Hle : (10 * r + (Z.of_N c - 48) <= v)%Z) by (apply (Hgrow ds); [done|lia|done]).
    rewrite (proj2 (Z.ltb_ge _ _)) by lia.
    assert (Hgo : read_digits 10 bound m (S count) (r * 10 + (Z.of_N c - 48)) (ds ++ rest)
            = Some (count + length (c :: ds), v, rest)).
    { rewrite (Z.mul_comm r). cbn [length]. rewrite <- Nat.add_succ_comm.
      apply IH; [done|lia|done|done| |done]. destruct m; [cbn in Hm; lia|done]. }
    destruct m as [m|]; [|done]. cbn in Hm. by rewrite (proj2 (Nat.ltb_ge _ _)) by lia.
Qed.

(** ** Decimal numbers *)

Definition digit_chars : list char := [48; 49; 50; 51; 52; 53; 54; 55; 56; 57]%N.
Lemma digit_chars_spec c : is_ascii_digit c = true -> c ∈ digit_chars.
Proof.
  intros Hc. unfold is_ascii_digit in Hc. unfold digit_chars.
  assert (Hn : exists n, n < 10 /\ c = N.of_nat (48 + n)).
  { exists (N.to_nat (c - 48)). lia. }
  destruct Hn as (n & Hn & ->).
  do 10 (destruct n as [|n]; [cbn; set_solver|]). lia.
Qed.

(** Texts of one to three digits without a leading zero, all of them. *)
Definition short_numbers : list str :=
  ((fun c => [c]) <$> digit_chars)
  ++ (c ← tail digit_chars; d ← digit_chars; [[c; d]])
  ++ (c ← tail digit_chars; d ← digit_chars; e ← digit_chars; [[c; d; e]]).

Lemma short_numbers_canonical :
  Forall (fun ds => exists v, parse_digits_go 0 ds = Some v /\ ds = show_int v) short_numbers.
Proof.
  assert (H : forallb (fun ds => match parse_digits_go 0 ds with
                                 | Some v => str_eqb ds (show_int v) | None => false end)
                short_numbers = true) by (vm_compute; reflexivity).
  apply list.Forall_forall. intros ds Hin.
  eapply (proj1 (forallb_forall _ _)) in H; [|by apply list_elem_of_In].
  cbv beta in H. destruct (parse_digits_go 0 ds) as [v|]; [|done].
  exists v. split; [done|]. by destruct (str_eqb_spec ds (show_int v)).
Qed.

Lemma octets_short : Forall (fun z => show_int z ∈ short_numbers) (Z.of_nat <$> seq 0 256).
Proof. apply (bool_decide_unpack _). vm_compute. exact I. Qed.

Lemma elem_of_short ds :
  Forall (fun c => is_ascii_digit c = true) ds -> ds <> [] -> length ds <= 3 ->
  (head ds = Some 48%N -> length ds = 1) -> ds ∈ short_numbers.
Proof.
  intros Hds Hne Hlen Hz. unfold short_numbers. rewrite !elem_of_app.
  assert (Htail : forall c, c ∈ digit_chars -> c <> 48%N -> c ∈ tail digit_chars).
  { intros c [->|Hc]%elem_of_cons Hn; done. }
  destruct ds as [|c [|d [|e [|? ?]]]]; [done| | | |cbn in Hlen; lia];
    repeat (apply list.Forall_cons in Hds as [?%digit_chars_spec Hds]).
  - left. apply list_elem_of_fmap. by exists c.
  - right; left. apply list_elem_of_bind. exists c. split; [|apply Htail; [done|]].
    + apply list_elem_of_bind. exists d. split; [by apply list_elem_of_singleton|done].
    + intros ->. by specialize (Hz eq_refl).
  - right; right. apply list_elem_of_bind. exists c. split; [|apply Htail; [done|]].
    + apply list_elem_of_bind. exists d. split; [|done].
      apply list_elem_of_bind. exists e. split; [by apply list_elem_of_singleton|done].
    + intros ->. by specialize (Hz eq_refl).
Qed.

Lemma parse_digits_go_show z : (0 <= z)%Z ->
  parse_digits_go 0 (show_int z) = Some z
  /\ Forall (fun c => is_ascii_digit c = true) (show_int z) /\ show_int z <> [].
Proof.
  intros Hz. unfold show_int. rewrite (proj2 (Z.ltb_ge z 0)) by lia.
  destruct (show_digits_head (S (Z.to_nat (Z.log2 z))) z []) as (c & s & Hs & _); [done..|].
  pose proof (parse_show_nonneg z Hz) as Hp. unfold show_nonneg in *. split_and!.
  - rewrite Hs in *. exact Hp.
  - apply digits_are_digits; [done|constructor].
  - by rewrite Hs.
Qed.

Definition no_digit (s : str) : Prop :=
  match head s with Some c => is_ascii_digit c = false | None => True end.

(** An octet is read exactly from its decimal text. *)
Lemma read_octet_show z rest :
  (0 <= z <= 255)%Z -> no_digit rest ->
  read_number 10 255 (Some 3) false (show_int z ++ rest) = Some (z, rest).
Proof.
  intros Hz Hr. destruct (parse_digits_go_show z) as (Hv & Hds & Hne); [lia|].
  assert (Hin : show_int z ∈ short_numbers).
  { eapply (proj1 (list.Forall_forall _ _) octets_short).
    apply list_elem_of_fmap. exists (Z.to_nat z). split; [lia|]. apply elem_of_seq. lia. }
  assert (Hs : forallb (fun ds => (length ds <=? 3)
                 && negb (match ds with 48%N :: _ => 1 <? length ds | _ => false end))
                 short_numbers = true) by (vm_compute; reflexivity).
  eapply (proj1 (forallb_forall _ _)) in Hs; [|by apply list_elem_of_In].
  cbv beta in Hs. apply andb_true_iff in Hs as [Hl%Nat.leb_le Hz0%negb_true_iff].
  unfold read_number. rewrite (read_digits_fwd _ _ _ _ 0 0 z) by (done || lia). cbn [mbind option_bind].
  destruct (show_int z) as [|c ds]; [done|]. cbn [length Nat.add Nat.eqb negb andb app].
  replace (match c with 48%N => true | _ => false end && (1 <? S (length ds))) with false; [done|].
  rewrite <- Hz0 at 1. cbn [length]. by repeat case_match.
Qed.

Lemma read_octet_inv s z rest :
  read_number 10 255 (Some 3) false s = Some (z, rest) ->
  s = show_int z ++ rest /\ (0 <= z <= 255)%Z /\ no_digit rest.
Proof.
  unfold read_number. intros ([[n v] r] & Hd & H)%bind_Some.
  apply read_digits_inv in Hd as (ds & -> & Hds & Hv & -> & Hr & Hb & Hm).
  cbn [Nat.add] in *. destruct ds as [|c ds]; [done|]. cbn [length Nat.eqb] in H.
  destruct (negb false && _ && _) eqn:Ez; [done|]. injection H as <- <-.
  assert (Hin : c :: ds ∈ short_numbers).
  { apply elem_of_short; [done|done|by apply Hm|]. intros [= ->]. cbn in Ez.
    destruct ds; [done|]. by cbn in Ez. }
  apply (proj1 (list.Forall_forall _ _) short_numbers_canonical) in Hin as (v' & Hv' & E).
  rewrite Hv in Hv'. injection Hv' as <-. split; [by rewrite E|]. split; [|done].
  split; [|by apply Hb].
  destruct (Z.leb_spec 0 v) as [|Hneg]; [done|]. exfalso.
  unfold show_int in E. rewrite (proj2 (Z.ltb_lt v 0)) in E by lia. injection E as -> _.
  by apply list.Forall_cons in Hds as [? _].
Qed.

(** ** IPv4 addresses *)

Fixpoint octets_text (i : nat) (zs : list Z) : str :=
  match zs with
  | [] => []
  | z :: zs => (if i =? 0 then [] else [46%N]) ++ show_int z ++ octets_text (S i) zs
  end.
Definition is_octet (z : Z) : Prop := (0 <= z <= 255)%Z.

Lemma read_octets_show zs rest : forall i,
  Forall is_octet zs -> no_digit rest ->
  read_octets (length zs) i (octets_text i zs ++ rest) = Some (zs, rest).
Proof.
  induction zs as [|z zs IH]; intros i Hzs Hr; [done|]. apply list.Forall_cons in Hzs as [Hz Hzs].
  cbn [length octets_text read_octets].
  assert (Hn : no_digit (octets_text (S i) zs ++ rest)) by (by destruct zs).
  assert (Hsep : read_separator 46 i (read_number 10 255 (Some 3) false)
            (((if i =? 0 then [] else [46%N]) ++ show_int z ++ octets_text (S i) zs) ++ rest)
          = Some (z, octets_text (S i) zs ++ rest)).
  { unfold read_separator. destruct (Nat.eqb_spec i 0) as [->|Hi].
    - cbn [app]. rewrite <- app_assoc. by apply read_octet_show.
    - rewrite <- !app_assoc. cbn [app read_given_char]. rewrite N.eqb_refl. cbn [mbind option_bind].
      by apply read_octet_show. }
  rewrite Hsep. cbn [mbind option_bind]. by rewrite IH.
Qed.

Lemma read_octets_inv n : forall i s zs rest,
  read_octets n i s = Some (zs, rest) ->
  length zs = n /\ s = octets_text i zs ++ rest /\ Forall is_octet zs.
Proof.
  induction n as [|n IH]; intros i s zs rest; [by intros [= <- <-]|]. cbn [read_octets].
  intros ([z s1] & H1 & ([zs' s2] & H2 & [= <- <-])%bind_Some)%bind_Some.
  apply IH in H2 as (<- & -> & Hzs).
  assert (H : exists s0, s = (if i =? 0 then [] else [46%N]) ++ s0
              /\ read_number 10 255 (Some 3) false s0 = Some (z, octets_text (S i) zs' ++ s2)).
  { unfold read_separator in H1. destruct (i =? 0); [by exists s|].
    apply bind_Some in H1 as ([[] s0] & Hc & H1). exists s0. split; [|done].
    destruct s as [|d s]; cbn in Hc; [done|]. destruct (N.eqb_spec d 46); by simplify_eq. }
  destruct H as (s0 & -> & (-> & Hz & _)%read_octet_inv).
  split_and!; [done| |by constructor]. cbn [octets_text]. by rewrite <- !app_assoc.
Qed.

Definition show_v4 (octets : list Z) : str := join (lit ".") (show_int <$> octets).

(** ** Ports *)

Lemma read_port_show p : (0 <= p <= u16_max)%Z -> read_port (58%N :: show_int p) = Some (p, []).
Proof.
  intros Hp. destruct (parse_digits_go_show p) as (Hv & Hds & Hne); [lia|].
  unfold read_port, read_number. cbn [read_given_char]. rewrite N.eqb_refl. cbn [mbind option_bind].
  rewrite <- (app_nil_r (show_int p)), (read_digits_fwd _ _ _ _ 0 0 p) by (done || lia).
  cbn [mbind option_bind]. by destruct (show_int p).
Qed.

Lemma read_port_inv s p rest :
  read_port s = Some (p, rest) ->
  exists ds, s = 58%N :: ds ++ rest /\ Forall (fun c => is_ascii_digit c = true) ds
    /\ parse_digits_go 0 ds = Some p.
Proof.
  unfold read_port, read_number. intros ([[] s1] & Hc & ([[n v] r] & Hd & H)%bind_Some)%bind_Some.
  destruct s as [|c s]; cbn in Hc; [done|]. destruct (N.eqb_spec c 58) as [->|]; [|done].
  injection Hc as ->. apply read_digits_inv in Hd as (ds & -> & Hds & Hv & _).
  destruct (_ =? 0); [done|]. injection H as <- <-. by exists ds.
Qed.

(** ** What is consumed *)

Lemma read_digits_consumes radix bound m s : forall count r n v rest,
  read_digits radix bound m count r s = Some (n, v, rest) -> exists used, s = used ++ rest.
Proof.
  induction s as [|c s IH]; intros count r n v rest; cbn [read_digits].
  - intros [= _ _ <-]. by exists [].
  - destruct (to_digit radix c) as [d|]; [|intros [= _ _ <-]; by exists []].
    intros H. assert (Hgo : exists count r, read_digits radix bound m count r s = Some (n, v, rest)).
    { repeat case_match; simplify_eq; eauto. }
    destruct Hgo as (count' & r' & [used ->]%IH). by exists (c :: used).
Qed.

Lemma consumes_number radix bound m z : consumes (read_number radix bound m z).
Proof.
  intros s v rest ([[n v'] r] & Hd%read_digits_consumes & H)%bind_Some.
  by repeat case_match; simplify_eq.
Qed.

Lemma consumes_separator {A} sep i (p : parser A) :
  consumes p -> consumes (read_separator sep i p).
Proof.
  intros Hp. unfold read_separator. intros s a rest. destruct (i =? 0); [apply Hp|].
  apply (consumes_bind _ (fun _ => p)); [apply consumes_char|done].
Qed.

Lemma consumes_octets n : forall i, consumes (read_octets n i).
Proof. intros i s zs rest (_ & -> & _)%read_octets_inv. by eexists. Qed.

Lemma read_groups_consumes n : forall i s gs v4 rest,
  read_groups n i s = (gs, v4, rest) -> exists used, s = used ++ rest.
Proof.
  induction n as [|n IH]; intros i s gs v4 rest; cbn [read_groups]; [intros [= _ _ <-]; by exists []|].
  destruct (if 0 <? n then _ else _) as [[v s1]|] eqn:E4.
  - intros [= _ _ <-]. destruct (0 <? n); [|done].
    by eapply consumes_separator in E4; [|apply consumes_octets].
  - destruct (read_separator 58 i (read_number _ _ _ _) s) as [[g s1]|] eqn:Eg; [|intros [= _ _ <-]; by exists []].
    apply consumes_separator in Eg as [u1 ->]; [|apply consumes_number].
    destruct (read_groups n (S i) s1) as [[gs1 v1] s2] eqn:Er. intros [= _ _ <-].
    apply IH in Er as [u2 ->]. exists (u1 ++ u2). by rewrite app_assoc.
Qed.

Lemma consumes_ipv6 : consumes read_ipv6_addr.
Proof.
  intros s zs rest. unfold read_ipv6_addr.
  destruct (read_groups 8 0 s) as [[hd v4] s1] eqn:Eh. apply read_groups_consumes in Eh as [u1 ->].
  destruct (length hd =? 8); [intros [= _ <-]; by exists u1|]. destruct v4; [done|].
  intros H. apply bind_Some in H as ([[] s2] & [u2 ->]%consumes_char & H).
  apply bind_Some in H as ([[] s3] & [u3 ->]%consumes_char & H).
  destruct (read_groups (7 - length hd) 0 s3) as [[tl v4] s4] eqn:Et.
  apply read_groups_consumes in Et as [u4 ->]. injection H as _ <-.
  exists (u1 ++ u2 ++ u3 ++ u4). by rewrite <- !app_assoc.
Qed.

(** ** The address of the configuration *)

(** [format!] of the host and the port. *)
Definition listen_text (listen_host : str) (listen_port : Z) : str :=
  listen_host ++ lit ":" ++ show_int listen_port.
Definition listen_addr (listen_host : str) (listen_port : Z) : option SocketAddr :=
  parse_socket_addr (listen_text listen_host listen_port).

(** The last colon of a text is where the port starts. *)
Lemma last_colon a x b y :
  Forall (fun c => is_ascii_digit c = true) x -> Forall (fun c => is_ascii_digit c = true) y ->
  a ++ 58%N :: x = b ++ 58%N :: y -> a = b /\ x = y.
Proof.
  assert (Hno : forall l l', Forall (fun c => is_ascii_digit c = true) (l ++ 58%N :: l') -> False).
  { intros l l' [_ H]%Forall_app. by apply list.Forall_cons in H as [? _]. }
  intros Hx Hy. revert b. induction a as [|c a IH]; intros [|d b] E; cbn in E.
  - by injection E.
  - injection E as <- ->. by apply Hno in Hx.
  - injection E as -> <-. by apply Hno in Hy.
  - injection E as <- E. by destruct (IH b E) as [-> ->].
Qed.

(** A host that is an IPv4 address of four decimal numbers is listened on. *)
Lemma listen_addr_v4 a b c d p :
  Forall is_octet [a; b; c; d] -> (0 <= p <= u16_max)%Z ->
  listen_addr (show_v4 [a; b; c; d]) p = Some (V4 [a; b; c; d] p).
Proof.
  intros Hzs Hp. unfold listen_addr, listen_text, parse_socket_addr, read_socket_addr_v4, read_ipv4_addr.
  assert (E : show_v4 [a; b; c; d] = octets_text 0 [a; b; c; d]).
  { unfold show_v4. cbn [fmap list_fmap join octets_text Nat.eqb app]. by rewrite app_nil_r. }
  pose proof (read_octets_show [a; b; c; d] (lit ":" ++ show_int p) 0 Hzs eq_refl) as Ho.
  cbn [length] in Ho. rewrite E, Ho.
  cbn [mbind option_bind]. change (lit ":" ++ show_int p) with (58%N :: show_int p).
  by rewrite read_port_show.
Qed.

(** Whatever address is listened on was written so, or in brackets. *)
Lemma listen_addr_inv h p addr :
  (0 <= p <= u16_max)%Z -> listen_addr h p = Some addr ->
  (exists octets, addr = V4 octets p /\ h = show_v4 octets /\ length octets = 4
     /\ Forall is_octet octets)
  \/ (exists segments scope inner, addr = V6 segments scope p /\ h = lit "[" ++ inner ++ lit "]").
Proof.
  intros Hp. destruct (parse_digits_go_show p) as (Hv & Hds & _); [lia|].
  unfold listen_addr, parse_socket_addr. intros ([ad rest] & Ha & Hr)%bind_Some.
  destruct rest; [injection Hr as ->|done].
  destruct (read_socket_addr_v4 _) as [r|] eqn:E4; simplify_eq.
  - left. unfold read_socket_addr_v4 in E4.
    apply bind_Some in E4 as ([ip s1] & Hip & E4). apply bind_Some in E4 as ([q s2] & Hq & E4).
    injection E4 as <- ->. apply read_port_inv in Hq as (ds & -> & Hd & Hq).
    apply read_octets_inv in Hip as (Hl & E & Hz). rewrite app_nil_r in E.
    apply last_colon in E as [-> <-]; [|done..]. rewrite Hv in Hq. injection Hq as <-.
    exists ip. split_and!; [done| |done|done].
    destruct ip as [|? [|? [|? [|? [|? ?]]]]]; try done.
    unfold show_v4. cbn [fmap list_fmap join octets_text Nat.eqb app]. by rewrite app_nil_r.
  - right. unfold read_socket_addr_v6 in Ha.
    apply bind_Some in Ha as ([[] s1] & H1 & Ha).
    apply bind_Some in Ha as ([segs s2] & [u2 ->]%consumes_ipv6 & Ha).
    assert (Hsc : exists sc u3 s3, s2 = u3 ++ s3
       /\ match read_scope_id s2 with Some r => r | None => (0%Z, s2) end = (sc, s3)).
    { destruct (read_scope_id s2) as [[sc s3]|] eqn:Es; [|by exists 0%Z, [], s2].
      unfold read_scope_id in Es. eapply (consumes_bind _ (fun _ => _)) in Es as [u3 ->];
        [|apply consumes_char|intros; apply consumes_number]. by exists sc, u3, s3. }
    destruct Hsc as (sc & u3 & s3 & -> & Hsc). rewrite Hsc in Ha.
    apply bind_Some in Ha as ([[] s4] & H4 & Ha). apply bind_Some in Ha as ([q s5] & Hq & Ha).
    injection Ha as <- ->. apply read_port_inv in Hq as (ds & -> & Hd & Hq). rewrite app_nil_r in H4.
    destruct s3 as [|c s3]; cbn in H4; [done|]. destruct (N.eqb_spec c 93) as [->|]; [|done].
    injection H4 as ->. unfold listen_text in H1.
    destruct h as [|c h]; [by cbn in H1|]. cbn in H1. destruct (N.eqb_spec c 91) as [->|]; [|done].
    injection H1 as E. exists segs, sc, (u2 ++ u3).
    assert (E' : h ++ 58%N :: show_int p = (u2 ++ u3 ++ [93%N]) ++ 58%N :: ds)
      by (rewrite <- !app_assoc; exact E).
    apply last_colon in E' as [-> <-]; [|done..]. rewrite Hv in Hq. injection Hq as <-.
    split; [done|]. cbn. by rewrite <- !app_assoc.
Qed.

(** C39: the listener's host must be an IP address: an IPv4 address of four decimal
    numbers without leading zeros, each of which is accepted, or a text in brackets
    (an IPv6 address).  A host name such as [localhost] is never accepted. *)
Theorem listen_host_is_address h p :
  (0 <= p <= u16_max)%Z ->
  (forall octets, length octets = 4 -> Forall is_octet octets ->
     h = show_v4 octets -> listen_addr h p = Some (V4 octets p))
  /\ (forall addr, listen_addr h p = Some addr ->
        (exists octets, addr = V4 octets p /\ h = show_v4 octets /\ length octets = 4
           /\ Forall is_octet octets)
        \/ (exists segments scope inner,
              addr = V6 segments scope p /\ h = lit "[" ++ inner ++ lit "]"))
  /\ listen_addr (lit "localhost") p = None.
Proof.
  intros Hp. split_and!; [|intros addr; by apply listen_addr_inv|].
  - intros octets Hl Hz ->. destruct octets as [|? [|? [|? [|? [|? ?]]]]]; try done.
    by apply listen_addr_v4.
  - reflexivity.
Qed.

Lemma listen_host_is_address_witness :
  (0 <= 5432 <= u16_max)%Z
  /\ listen_addr (lit "127.0.0.1") 5432 = Some (V4 [127; 0; 0; 1]%Z 5432).
Proof.
  split; [done|]. apply (listen_host_is_address (lit "127.0.0.1") 5432); [done|done| |done].
  repeat (apply list.Forall_cons_2; [unfold is_octet; lia|]). constructor.
Defined.
