(* ===== verification/Server.v ===== *)
(** * The server's entry point (src/src/main.rs)

    [run] from the arguments to the listening socket: the configuration file, the
    interactive bootstrap, the address, the socket and the TLS settings, in this
    order.  The sockets, the PEM reader and the TLS library are parameters; what is
    printed and logged is left out. *)

From Stdlib Require Import ZifyN ZifyBool.
From S2P Require Import Prelude RustStr RustInt Arrow Plan Config Exasol ExasolSession.
From S2P Require Import Cli Bootstrap BootstrapTheorems Console Startup BootstrapSession.
From S2P Require Import NetAddr ConfigFile.
#[local] Open Scope nat_scope.

(** ** The handler

    One handler serves every connection: the configuration and the parameters a
    client is told of. *)
Record ServerParameters := {
  server_version : str; is_superuser : bool; default_transaction_read_only : bool }.
Record ExasolPgWireHandler := { handler_config : AppConfig; parameters : ServerParameters }.
Definition ExasolPgWireHandler_new (config : AppConfig) : ExasolPgWireHandler :=
  {| handler_config := config;
     parameters := {| server_version := lit "16.6-exasol-gateway"; is_superuser := false;
                      default_transaction_read_only := false |} |}.

(** [rustls_pemfile] and the server side of [rustls]; a PEM file is a text. *)
Class ServerTlsLib := {
  tls_cert : Type;
  tls_key : Type;
  tls_config : Type;
  pem_certs : str -> outcome str (list tls_cert);
  pem_private_key : str -> outcome str (option tls_key);
  with_single_cert : list tls_cert -> tls_key -> outcome str tls_config }.

Record TlsAcceptor `{ServerTlsLib} := { acceptor_config : tls_config; alpn_protocols : list str }.

(** A port of the configuration is a 16-bit number. *)
Lemma app_of_toml_port t c :
  app_of_toml t = Some c -> (0 <= listen_port (server c) <= u16_max)%Z.
Proof.
  intros (s & Hs & (e & _ & (tr & _ & [= <-])%bind_Some)%bind_Some)%bind_Some. cbn [server].
  unfold field_or in Hs. destruct (toml_get "server" t) as [v|]; [|by injection Hs as <-].
  apply bind_Some in Hs as (st & _ & Hs). apply bind_Some in Hs as (h & _ & Hs).
  apply bind_Some in Hs as (p & Hp & Hs).
  apply bind_Some in Hs as (l & _ & Hs). apply bind_Some in Hs as (ct & _ & Hs).
  apply bind_Some in Hs as (k & _ & [= <-]). cbn [listen_port].
  unfold field_or in Hp. destruct (toml_get "listen_port" st) as [w|]; [|by injection Hp as <-].
  destruct w as [| |z| | |]; try done. unfold as_u16 in Hp.
  destruct ((0 <=? z) && (z <=? u16_max))%Z eqn:Ez; [|done]. injection Hp as <-. lia.
Qed.

Section server.
Context {F : Type} `{!FileSystem F} `{ServerTlsLib} `{TomlLib}.

(** ** [setup_tls] *)

(** [File::open] and reading; the system's error text is left out. *)
Definition open_file (path : str) (files : F) : outcome StartError str :=
  ok_or (IoError []) (fs_read path files).

Definition setup_tls (config : AppConfig) (files : F)
    : outcome StartError (option TlsAcceptor) :=
  if is_blank (tls_cert_path (server config)) then Ok None
  else
    pem ← open_file (tls_cert_path (server config)) files;
    certs ← map_err IoError (pem_certs pem);
    pem ← open_file (tls_key_path (server config)) files;
    key ← map_err IoError (pem_private_key pem);
    key ← ok_or (IoError (lit "TLS key file contains no private key")) key;
    server_config ← map_err IoError (with_single_cert certs key);
    Ok (Some {| acceptor_config := server_config; alpn_protocols := [lit "postgresql"] |}).

(** ** [run] *)

Context `{ArrowLib} {T : Type} `{!ExasolTransport T} {Listener : Type}.
Variable unparsable : str -> str.
Variables CATALOG_SQL PREPROCESSOR_SQL : str.
Variable is_terminal : bool.
Variable password : outcome str str.
Variable open : ExasolConfig -> str -> str -> outcome ExasolError T.
Variable bind_listener : SocketAddr -> outcome str Listener.

(** The console, the files, and the session of the bootstrap, if one was opened. *)
Record world := { w_console : console; w_files : F; w_session : option T }.
Definition start_m (A : Type) : Type := stateful world StartError A.
Definition setting_up {A} (m : setup_m A) : start_m A := fun w =>
  let '(r, (c, f)) := m (w_console w, w_files w) in
  (r, {| w_console := c; w_files := f; w_session := w_session w |}).
Definition bootstrapping {A} (m : run_m A) : start_m A := fun w =>
  let '(r, (c, t)) := m (w_console w, w_session w) in
  (r, {| w_console := c; w_files := w_files w; w_session := t |}).

(** What the accept loop works with. *)
Record Serving := {
  serving_config : AppConfig;
  serving_addr : SocketAddr;
  serving_listener : Listener;
  serving_tls : option TlsAcceptor }.

(** [run] up to the accept loop; a request for help ends the process. *)
Definition run (fuel : nat) (args : list str) : start_m (option Serving) :=
  args ← lift (map_err Message (parse_args args));
  match args with
  | None => mret None
  | Some args =>
      config_path ← setting_up (ensure_config_file fuel is_terminal (config_path args));
      w ← get_state;
      config ← lift (map_err ConfigFailed (from_file (fs_read config_path (w_files w))));
      _ ← (match bootstrap_mode args with
           | Interactive =>
               bootstrapping (run_interactive_bootstrap unparsable CATALOG_SQL PREPROCESSOR_SQL
                                fuel is_terminal password open config)
           | Skip => mret tt
           end);
      addr ← lift (ok_or AddrParseError
                     (listen_addr (listen_host (server config)) (listen_port (server config))));
      listener ← lift (map_err IoError (bind_listener addr));
      w ← get_state;
      tls_acceptor ← lift (setup_tls config (w_files w));
      mret (Some {| serving_config := config; serving_addr := addr;
                    serving_listener := listener; serving_tls := tls_acceptor |})
  end.

(** ** The accept loop

    Each accepted socket gets a task of its own, whose errors are only logged; an
    error of [accept] ends the server.  Given the results of [accept] so far, the
    sockets that are served, and the error the loop ended with, if it did. *)
Fixpoint accept_loop {Socket} (accepts : list (outcome str Socket))
    : list Socket * option StartError :=
  match accepts with
  | Ok socket :: rest =>
      let '(served, ended) := accept_loop rest in (socket :: served, ended)
  | Err e :: _ => ([], Some (IoError e))
  | _ => ([], None)
  end.

(** ** What runs *)

Lemma setup_tls_Ok config files tls :
  setup_tls config files = Ok tls ->
  (trim (tls_cert_path (server config)) = [] -> tls = None)
  /\ (trim (tls_cert_path (server config)) <> [] ->
      exists cert_pem certs key_pem key settings,
        fs_read (tls_cert_path (server config)) files = Some cert_pem
        /\ pem_certs cert_pem = Ok certs
        /\ fs_read (tls_key_path (server config)) files = Some key_pem
        /\ pem_private_key key_pem = Ok (Some key)
        /\ with_single_cert certs key = Ok settings
        /\ tls = Some {| acceptor_config := settings; alpn_protocols := [lit "postgresql"] |}).
Proof.
  unfold setup_tls, open_file. destruct (is_blank _) eqn:Eb.
  { apply is_blank_spec in Eb. intros [= <-]. done. }
  assert (Hb : trim (tls_cert_path (server config)) <> []) by (by rewrite <- is_blank_spec, Eb).
  destruct (fs_read (tls_cert_path _) files) as [cp|]; [|done]. cbn [ok_or mbind outcome_bind].
  intros (certs & Hc%map_err_Ok & Hm2)%outcome_bind_Ok.
  destruct (fs_read (tls_key_path _) files) as [kp|]; [|done]. cbn [ok_or mbind outcome_bind] in Hm2.
  apply outcome_bind_Ok in Hm2 as (key & Hk%map_err_Ok & Hm2).
  destruct key as [key|]; [|done]. cbn [ok_or mbind outcome_bind] in Hm2.
  apply outcome_bind_Ok in Hm2 as (settings & Hs%map_err_Ok & [= <-]).
  split; [done|]. intros _. by exists cp, certs, kp, key, settings.
Qed.

Notation interactive := (run_interactive_bootstrap unparsable CATALOG_SQL PREPROCESSOR_SQL).

(** The user of the bootstrap, as answered after the consent to it. *)
Definition setup_user (c : console) : str := (answer_or (lit "sys") (decision true c).2).1.

(** A bootstrap that succeeds: nothing happened, or the user who agreed to it logged in
    and the whole installation ran on the session of that login. *)
Definition bootstrapped (config : AppConfig) (c : console) (before after : option T) : Prop :=
  if is_terminal && (decision true c).1
  then exists secret session catalog preprocessor t',
    password = Ok secret
    /\ open (setup_config (exasol config)) (setup_user c) secret = Ok session
    /\ executed (installation CATALOG_SQL PREPROCESSOR_SQL config catalog preprocessor) session t'
    /\ after = Some t'
  else after = before.

Lemma interactive_Ok fuel config c t0 c' t' :
  interactive fuel is_terminal password open config (c, t0) = (Ok tt, (c', t')) ->
  bootstrapped config c t0 t'.
Proof.
  unfold run_interactive_bootstrap, bootstrapped. destruct is_terminal; cbn [negb andb].
  2: { by intros [= _ <-]. }
  intros (go & s1 & (c1 & Hgo & ->)%prompting_console & Hrun)%stateful_bind_Ok.
  apply confirm_decision in Hgo. unfold setup_user. cbn [fst snd] in *. rewrite Hgo. cbn [fst snd].
  destruct go; cbn [negb] in Hrun; [|by injection Hrun as _ <-].
  apply stateful_bind_Ok in Hrun as (user & s2 & (c2 & Hu & ->)%prompting_console & Hrun).
  apply default_answer in Hu. cbn [fst snd] in *. rewrite Hu. cbn [fst].
  apply stateful_bind_Ok in Hrun as (secret & s3 & [= Hp%map_err_Ok <-] & Hrun).
  apply stateful_bind_Ok in Hrun as (session & s4 & [= Ho%map_err_Ok <-] & Hrun).
  unfold in_session in Hrun. cbn [fst snd] in Hrun.
  destruct (bootstrap_session _ _ _ _ _ _) as [r [c3 t3]] eqn:Eb.
  injection Hrun as Hr%map_err_Ok _ <-. subst r.
  apply bootstrap_sends_texts in Eb as (catalog & preprocessor & _ & _ & Hall).
  exists secret, session, catalog, preprocessor, t3. by split_and!; [..|apply Hall|].
Qed.

Lemma setting_up_Ok {A} (m : setup_m A) w (a : A) w' :
  setting_up m w = (Ok a, w') ->
  m (w_console w, w_files w) = (Ok a, (w_console w', w_files w')) /\ w_session w' = w_session w.
Proof. unfold setting_up. destruct (m _) as [r [c f]]. by intros [= -> <-]. Qed.

Lemma bootstrapping_Ok {A} (m : run_m A) w (a : A) w' :
  bootstrapping m w = (Ok a, w') ->
  m (w_console w, w_session w) = (Ok a, (w_console w', w_session w')) /\ w_files w' = w_files w.
Proof. unfold bootstrapping. destruct (m _) as [r [c t]]. by intros [= -> <-]. Qed.

Lemma lift_Ok {S E A} (o : outcome E A) (s : S) (a : A) s' :
  lift o s = (Ok a, s') -> o = Ok a /\ s' = s.
Proof. by intros [= <- <-]. Qed.

Lemma run_steps fuel args w serving w' :
  run fuel args w = (Ok (Some serving), w') ->
  exists parsed path c text,
    parse_args args = Ok (Some parsed)
    /\ ensure_config_file fuel is_terminal (config_path parsed) (w_console w, w_files w)
       = (Ok path, (c, w_files w'))
    /\ fs_read path (w_files w') = Some text
    /\ from_file (Some text) = Ok (serving_config serving)
    /\ (match bootstrap_mode parsed with
        | Interactive => interactive fuel is_terminal password open (serving_config serving)
            (c, w_session w) = (Ok tt, (w_console w', w_session w'))
        | Skip => w_console w' = c /\ w_session w' = w_session w
        end)
    /\ listen_addr (listen_host (server (serving_config serving)))
         (listen_port (server (serving_config serving))) = Some (serving_addr serving)
    /\ bind_listener (serving_addr serving) = Ok (serving_listener serving)
    /\ setup_tls (serving_config serving) (w_files w') = Ok (serving_tls serving).
Proof.
  intros (parsed & w0 & [Ha%map_err_Ok ->]%lift_Ok & Hrun)%stateful_bind_Ok.
  destruct parsed as [parsed|]; [|by injection Hrun].
  apply stateful_bind_Ok in Hrun as (path & w1 & [He Hs1]%setting_up_Ok & Hrun).
  apply stateful_bind_Ok in Hrun as (w1' & w1'' & [= <- <-] & Hrun).
  apply stateful_bind_Ok in Hrun as (config & ? & [Hc%map_err_Ok ->]%lift_Ok & Hrun).
  apply stateful_bind_Ok in Hrun as ([] & w2 & Hb & Hrun).
  apply stateful_bind_Ok in Hrun as (addr & ? & [Hd ->]%lift_Ok & Hrun).
  apply stateful_bind_Ok in Hrun as (listener & ? & [Hl%map_err_Ok ->]%lift_Ok & Hrun).
  apply stateful_bind_Ok in Hrun as (w2' & ? & [= <- <-] & Hrun).
  apply stateful_bind_Ok in Hrun as (tls & ? & [Ht ->]%lift_Ok & [= <- <-]).
  assert (Hf : w_files w2 = w_files w1).
  { destruct (bootstrap_mode parsed); [by apply bootstrapping_Ok in Hb as [_ ?]|].
    by injection Hb as <-. }
  destruct (fs_read path (w_files w1)) as [text|] eqn:Er; [|done].
  destruct (listen_addr _ _) as [addr'|] eqn:El in Hd; [injection Hd as <-|done].
  exists parsed, path, (w_console w1), text. rewrite Hf.
  split_and!; [done..|cbn [serving_config]| |done|by rewrite Hf in Ht]; [|done].
  destruct (bootstrap_mode parsed).
  - apply bootstrapping_Ok in Hb as [Hb _]. by rewrite <- Hs1.
  - by injection Hb as <-.
Qed.

(** The TLS acceptor is made of the two configured files, and there is one exactly when
    a certificate is configured. *)
Definition tls_served (config : ServerConfig) (files : F) (tls : option TlsAcceptor) : Prop :=
  (trim (tls_cert_path config) = [] -> tls = None)
  /\ (trim (tls_cert_path config) <> [] ->
      exists cert_pem certs key_pem key settings,
        fs_read (tls_cert_path config) files = Some cert_pem /\ pem_certs cert_pem = Ok certs
        /\ fs_read (tls_key_path config) files = Some key_pem
        /\ pem_private_key key_pem = Ok (Some key)
        /\ with_single_cert certs key = Ok settings
        /\ tls = Some {| acceptor_config := settings; alpn_protocols := [lit "postgresql"] |}).

(** The address is the configured host, written as one, with the configured port. *)
Definition address_of (config : ServerConfig) (addr : SocketAddr) : Prop :=
  listen_addr (listen_host config) (listen_port config) = Some addr
  /\ ((exists octets, addr = V4 octets (listen_port config) /\ listen_host config = show_v4 octets)
      \/ (exists segments scope inner, addr = V6 segments scope (listen_port config)
            /\ listen_host config = lit "[" ++ inner ++ lit "]")).

(** C27: the server only starts to serve when everything it needs is there, and serves
    what is configured: the file it was told to use (or the default one) is there, loads
    to a valid configuration, and one that was there before is untouched; the socket is
    bound to the configured host, which is an IP address, and port; the TLS acceptor is
    made of the configured certificate and key, and there is one exactly when a
    certificate is configured.  Unless it is skipped, declined or there is no terminal,
    the bootstrap ran before: the user who was entered logged in with the password
    entered, and every statement of the installation ran on that session; otherwise the
    start opens no session. *)
Theorem run_serves fuel args w serving w' :
  run fuel args w = (Ok (Some serving), w') ->
  let config := serving_config serving in
  exists parsed text c,
    parse_args args = Ok (Some parsed)
    /\ (let path := default DEFAULT_CONFIG_PATH (config_path parsed) in
        ensure_config_file fuel is_terminal (config_path parsed) (w_console w, w_files w)
        = (Ok path, (c, w_files w'))
        /\ fs_read path (w_files w') = Some text
        /\ (path_exists path (w_files w) = true -> w_files w' = w_files w))
    /\ from_file (Some text) = Ok config /\ valid_config config
    /\ address_of (server config) (serving_addr serving)
    /\ bind_listener (serving_addr serving) = Ok (serving_listener serving)
    /\ tls_served (server config) (w_files w') (serving_tls serving)
    /\ match bootstrap_mode parsed with
       | Interactive => bootstrapped config c (w_session w) (w_session w')
       | Skip => w_session w' = w_session w
       end.
Proof.
  intros (parsed & path & c & text & Ha & He & Ht & Hf & Hb & Haddr & Hbind & Htls)%run_steps.
  cbv zeta. exists parsed, text, c.
  pose proof (ensure_config_file_path _ _ _ _ _ _ _ He) as [-> Hkeep].
  apply from_file_loads in Hf as Hload. destruct Hload as (text' & [= <-] & Htoml & Hvalid).
  assert (Hport : (0 <= listen_port (server (serving_config serving)) <= u16_max)%Z).
  { apply bind_Some in Htoml as (t & _ & Happ). by eapply app_of_toml_port. }
  split_and!; [done|done|done| |done|done| |done| |].
  - intros Hex. by injection (Hkeep Hex).
  - split; [done|]. apply listen_addr_inv in Haddr; [|done].
    destruct Haddr as [(o & -> & -> & _)|(sg & sc & i & -> & ->)]; [left|right]; eauto.
  - by apply setup_tls_Ok.
  - destruct (bootstrap_mode parsed); [by apply interactive_Ok in Hb|by destruct Hb].
Qed.
End server.

(** ** A start on an empty disk *)

#[local] Existing Instance list_arrow.
#[local] Existing Instance mini.
#[local] Existing Instance files.
#[local] Instance no_tls : ServerTlsLib := {|
  tls_cert := unit; tls_key := unit; tls_config := unit;
  pem_certs := fun _ => Ok []; pem_private_key := fun _ => Ok None;
  with_single_cert := fun _ _ => Ok tt |}.
(** A database with both schemas, which records what it is sent. *)
#[local] Instance two_schemas : ExasolTransport (list str) := {
  execute q t := (Ok (TypedRows [{| column_name := lit "C"; column_data_type := JNull |}]
                        [[Some (lit "2")]]), t ++ [q]);
  execute_update q t := (Ok tt, t ++ [q]);
  close t := (Ok tt, t) }.

(** The operator creates the file, logs in for the bootstrap, and keeps what is
    installed. *)
Definition ex_world : world (F := gmap str str) (T := list str) :=
  {| w_console := [lit "y"; []; lit "5433"; []; lit "db:8563"; []; []; []; [];
                   []; lit "admin"; lit "no"];
     w_files := ∅; w_session := None |}.
Definition ex_run : outcome StartError (option (Serving (Listener := SocketAddr))) * world :=
  run (fun m => m) [] [] true (Ok (lit "secret")) (fun _ user secret => Ok [user; secret]) Ok
    9 [] ex_world.

Example ex_run_session :
  w_session ex_run.2 = Some [lit "admin"; lit "secret";
    lit "SELECT COUNT(*) FROM SYS.EXA_SCHEMAS WHERE SCHEMA_NAME IN ('PG_CATALOG', 'INFORMATION_SCHEMA')"].
Proof. vm_compute. reflexivity. Qed.

Lemma run_serves_witness :
  exists serving w', ex_run = (Ok (Some serving), w')
    /\ valid_config (serving_config serving) /\ serving_tls serving = None.
Proof.
  assert (Hok : match ex_run.1 with Ok (Some _) => true | _ => false end = true)
    by (vm_compute; reflexivity).
  assert (Htls : match ex_run.1 with
                 | Ok (Some s) => trim (tls_cert_path (server (serving_config s))) | _ => [0%N]
                 end = []) by (vm_compute; reflexivity).
  destruct ex_run as [[[serving|]| | |] w'] eqn:E; try discriminate.
  exists serving, w'. split; [done|]. cbn [fst] in Htls.
  destruct (run_serves (fun m => m) [] [] true (Ok (lit "secret"))
              (fun _ user secret => Ok [user; secret]) Ok 9 [] ex_world serving w' E)
    as (parsed & text & c & _ & _ & _ & Hv & _ & _ & [Ht _] & _).
  split; [exact Hv|]. by apply Ht.
Defined.
