(* ===== verification/QueryTool.v ===== *)
(** * The query tool (src/src/bin/exasol_exec.rs)

    What [exasol_exec] does after reading its arguments: it connects, runs the
    statement and prints its table, or, in benchmark mode, runs it many times and
    prints statistics of the times in binary64 arithmetic.  The clock is the list of
    the durations it will measure, the printing of a float a parameter. *)

From Stdlib Require Import SpecFloat Sorting.Sorted.
From S2P Require Import Prelude RustStr RustInt Arrow Plan Config Exasol ExasolSession Cli.
#[local] Open Scope nat_scope.

(** ** binary64 *)

Definition f64 : Type := spec_float.
Definition f64_of_int (n : Z) : f64 := binary_normalize 53 1024 n 0 false.
Definition f64_add : f64 -> f64 -> f64 := SFadd 53 1024.
Definition f64_mul : f64 -> f64 -> f64 := SFmul 53 1024.
Definition f64_div : f64 -> f64 -> f64 := SFdiv 53 1024.
Definition partial_cmp : f64 -> f64 -> option comparison := SFcompare.

(** A duration: seconds (64 bits) and nanoseconds below a second. *)
Definition Duration : Type := Z * Z.
Definition as_secs_f64 (d : Duration) : f64 :=
  f64_add (f64_of_int d.1) (f64_div (f64_of_int d.2) (f64_of_int 1000000000)).
Definition elapsed_ms (d : Duration) : f64 := f64_mul (as_secs_f64 d) (f64_of_int 1000).

(** ** Sorting

    [sort_by] is stable, and compares every element of a slice of at least two, so
    that the [unwrap] of a comparison with a NaN panics. *)
Definition is_nan (x : f64) : bool := match x with S754_nan => true | _ => false end.
Fixpoint insert_f64 (x : f64) (l : list f64) : list f64 :=
  match l with
  | [] => [x]
  | y :: l' => match partial_cmp x y with
               | Some Gt => y :: insert_f64 x l'
               | _ => x :: l
               end
  end.
Definition sort_f64 {E} (l : list f64) : outcome E (list f64) :=
  if (2 <=? length l) && existsb is_nan l then Panic else Ok (foldr insert_f64 [] l).

(** ** Statistics *)

Record BenchStats := {
  first_ms : f64; min_ms : f64; median_ms : f64; mean_ms : f64; max_ms : f64 }.

(** The first sample is a warm-up, left out when there are others; indexing an empty
    list panics. *)
Definition bench_stats {E} (samples_ms : list f64) : outcome E BenchStats :=
  let measured := if 1 <? length samples_ms then drop 1 samples_ms else samples_ms in
  sorted ← sort_f64 measured;
  let min := default (f64_of_int 0) (head sorted) in
  let max := default (f64_of_int 0) (list.last sorted) in
  match sorted !! (length sorted / 2), samples_ms !! 0 with
  | Some median, Some first =>
      let mean := f64_div (fold_left f64_add sorted (f64_of_int 0))
                    (f64_of_int (Z.of_nat (length sorted))) in
      Ok {| first_ms := first; min_ms := min; median_ms := median; mean_ms := mean;
            max_ms := max |}
  | _, _ => Panic
  end.

Section tool.
Context `{ArrowLib} {T : Type} `{!ExasolTransport T}.
(** [format!] of a float with a number of decimals. *)
Variable show_f64 : nat -> f64 -> str.

(** ** The benchmark *)

(** The session and the durations still to be measured. *)
Definition tool_m (A : Type) : Type := stateful (T * list Duration) ExasolError A.
Definition on_exasol {A} (m : stateful T ExasolError A) : tool_m A := fun s =>
  let '(r, t) := m s.1 in (r, (t, s.2)).
Definition measure : tool_m f64 := fun s =>
  match s.2 with
  | [] => (Ok (elapsed_ms (0, 0)%Z), s)
  | d :: clock => (Ok (elapsed_ms d), (s.1, clock))
  end.

(** The loop: the rows of the last run, and the samples. *)
Fixpoint bench_loop (n : nat) (sql : str) (rows : nat) (samples_ms : list f64)
    : tool_m (nat * list f64) :=
  match n with
  | O => mret (rows, samples_ms)
  | S n =>
      outcome ← on_exasol (execute sql);
      sample ← measure;
      bench_loop n sql (rows_in outcome) (samples_ms ++ [sample])
  end.

Definition bench_report (transport : str) (rows : nat) (connect_ms : f64) (repeat : nat)
    (stats : BenchStats) : list str :=
  [lit "transport=" ++ transport;
   lit "rows=" ++ show_int (Z.of_nat rows);
   lit "connect_ms=" ++ show_f64 1 connect_ms;
   lit "iterations=" ++ show_int (Z.of_nat repeat) ++ lit " (first excluded as warm-up)";
   lit "first_ms=" ++ show_f64 2 (first_ms stats);
   lit "min_ms=" ++ show_f64 2 (min_ms stats) ++ lit "  median_ms=" ++ show_f64 2 (median_ms stats)
   ++ lit "  mean_ms=" ++ show_f64 2 (mean_ms stats) ++ lit "  max_ms=" ++ show_f64 2 (max_ms stats)].

(** [Vec::with_capacity] of floats: more bytes than [isize::MAX] is a panic. *)
Definition samples_fit (repeat : nat) : bool := (8 * Z.of_nat repeat <=? i64_max)%Z.

(** [run_benchmark] after the connection, which took [connect_ms]. *)
Definition run_benchmark (config : ExasolConfig) (connect_ms : f64) (sql : str) (repeat : nat)
    : tool_m (list str) :=
  _ ← lift (if samples_fit repeat then Ok tt else Panic);
  '(rows, samples_ms) ← bench_loop repeat sql 0 [];
  _ ← on_exasol close;
  stats ← lift (bench_stats samples_ms);
  mret (bench_report (transport config) rows connect_ms repeat stats).

(** ** One statement *)

(** The table is printed before the session is closed. *)
Definition run_statement (sql : str) : stateful (T * list str) ExasolError unit := fun s =>
  match execute sql s.1 with
  | (Ok answer, t) => let '(r, t) := close t in (r, (t, s.2 ++ exec_table answer))
  | (Err e, t) => (Err e, (t, s.2))
  | (Panic, t) => (Panic, (t, s.2))
  | (OutOfFuel, t) => (OutOfFuel, (t, s.2))
  end.

(** ** [main] *)

Inductive ToolError :=
| ToolMessage (m : str)
| ToolIo
| ToolExasol (e : ExasolError).

(** The session at the end, if there was one, and what was printed.  [read] reads a
    file, [open] connects. *)
Definition exec_main (read : str -> option str)
    (open : ExasolConfig -> str -> str -> outcome ExasolError T) (clock : list Duration)
    (args : list str) : outcome ToolError unit * option T * list str :=
  match parsed ← exec_args_go args exec_defaults;
        match parsed : option ExecArgs with
        | None => Ok None
        | Some a => source ← exec_source a; Ok (Some (a, source))
        end with
  | Ok None => (Ok tt, None, [])
  | Ok (Some (a, source)) =>
      match (match source with
             | inl sql => Ok sql
             | inr path => ok_or ToolIo (read path)
             end) with
      | Ok sql =>
          match open (exec_config a) (exec_user a) (exec_password a) with
          | Ok session =>
              if (1 <? exec_repeat a)%Z then
                let connect_ms := elapsed_ms (default (0, 0)%Z (head clock)) in
                let '(r, (t, _)) := run_benchmark (exec_config a) connect_ms sql
                                      (Z.to_nat (exec_repeat a)) (session, tail clock) in
                (_ ← map_err ToolExasol r; Ok tt, Some t, match r with Ok lines => lines | _ => [] end)
              else
                let '(r, (t, printed)) := run_statement sql (session, []) in
                (map_err ToolExasol r, Some t, printed)
          | r => (_ ← map_err ToolExasol r; Ok tt, None, [])
          end
      | r => (_ ← r; Ok tt, None, [])
      end
  | r => (_ ← map_err ToolMessage r; Ok tt, None, [])
  end.
End tool.

(** ** Floats that are times *)

(** Not negative, and a number. *)
Definition is_time (x : f64) : bool :=
  match x with
  | S754_zero false | S754_infinity false | S754_finite false _ _ => true
  | _ => false
  end.

Lemma shr_1_nonneg mrs : (0 <= shr_m mrs)%Z -> (0 <= shr_m (shr_1 mrs))%Z.
Proof. destruct mrs as [[|[p|p|]|p] r s]; cbn; lia. Qed.

Lemma iter_shr_nonneg p : forall mrs,
  (0 <= shr_m mrs)%Z -> (0 <= shr_m (SpecFloat.iter_pos shr_1 p mrs))%Z.
Proof.
  induction p as [p IH|p IH|]; intros mrs H; cbn [SpecFloat.iter_pos].
  - by apply IH, IH, shr_1_nonneg.
  - by apply IH, IH.
  - by apply shr_1_nonneg.
Qed.

Lemma shr_fexp_nonneg m e l :
  (0 <= m)%Z -> (0 <= shr_m (shr_fexp 53 1024 m e l).1)%Z.
Proof.
  intros Hm. unfold shr_fexp, shr.
  assert (Hr : (0 <= shr_m (shr_record_of_loc m l))%Z) by (by destruct l as [|[]]).
  case_match; [done|by apply iter_shr_nonneg|done].
Qed.

Lemma binary_round_aux_time m e l :
  (0 <= m)%Z -> is_time (binary_round_aux 53 1024 false m e l) = true.
Proof.
  intros Hm. unfold binary_round_aux.
  pose proof (shr_fexp_nonneg m e l Hm) as H1.
  destruct (shr_fexp 53 1024 m e l) as [mrs' e']. cbn [fst] in H1.
  set (m2 := round_nearest_even _ _).
  assert (H2 : (0 <= m2)%Z).
  { unfold m2, round_nearest_even. destruct (loc_of_shr_record mrs') as [|[]]; [|case_match| |]; lia. }
  pose proof (shr_fexp_nonneg m2 e' loc_Exact H2) as H3.
  destruct (shr_fexp 53 1024 m2 e' loc_Exact) as [mrs'' e'']. cbn [fst] in H3.
  destruct (shr_m mrs'') as [|p|p]; [done| |lia]. by case_match.
Qed.

Lemma binary_normalize_time m e : (0 <= m)%Z -> is_time (binary_normalize 53 1024 m e false) = true.
Proof.
  destruct m as [|p|p]; [done| |lia]. intros _. cbn [binary_normalize]. unfold binary_round.
  destruct (shl_align p e _) as [mz ez]. by apply binary_round_aux_time.
Qed.

Lemma f64_of_int_time n : (0 <= n)%Z -> is_time (f64_of_int n) = true.
Proof. apply binary_normalize_time. Qed.

Lemma f64_add_time x y : is_time x = true -> is_time y = true -> is_time (f64_add x y) = true.
Proof.
  destruct x as [[]|[]| |[] mx ex], y as [[]|[]| |[] my ey]; try done. intros _ _.
  unfold f64_add, SFadd. apply binary_normalize_time. cbn [cond_Zopp]. lia.
Qed.

Lemma f64_mul_time x m e :
  is_time x = true -> is_time (f64_mul x (S754_finite false m e)) = true.
Proof.
  destruct x as [[]|[]| |[] mx ex]; try done. intros _. by apply binary_round_aux_time.
Qed.

Lemma f64_div_time x m e :
  is_time x = true -> is_time (f64_div x (S754_finite false m e)) = true.
Proof.
  destruct x as [[]|[]| |[] mx ex]; try done. intros _. unfold f64_div, SFdiv, SFdiv_core_binary.
  set (m' := match _ with Z0 => _ | _ => _ end).
  assert (Hm : (0 <= m')%Z).
  { unfold m'. case_match; [done| |done]. by apply Z.shiftl_nonneg. }
  pose proof (Z.div_pos m' (Zpos m) Hm ltac:(lia)) as Hq. unfold Z.div in Hq.
  destruct (Z.div_eucl m' (Zpos m)) as [q r]. by apply binary_round_aux_time.
Qed.

(** A measured time is one, whatever the clock says: no NaN. *)
Definition duration_ok (d : Duration) : Prop := (0 <= d.1)%Z /\ (0 <= d.2)%Z.
Lemma elapsed_ms_time d : duration_ok d -> is_time (elapsed_ms d) = true.
Proof.
  intros [Hs Hn]. unfold elapsed_ms, as_secs_f64.
  assert (E1 : exists m e, f64_of_int 1000 = S754_finite false m e)
    by (eexists _, _; vm_compute; reflexivity).
  assert (E2 : exists m e, f64_of_int 1000000000 = S754_finite false m e)
    by (eexists _, _; vm_compute; reflexivity).
  destruct E1 as (m1 & e1 & ->), E2 as (m2 & e2 & ->).
  apply f64_mul_time, f64_add_time; [by apply f64_of_int_time|].
  by apply f64_div_time, f64_of_int_time.
Qed.

(** ** Their order *)

Definition f64_le (x y : f64) : Prop := partial_cmp x y = Some Lt \/ partial_cmp x y = Some Eq.

(** Where a time stands: zero, then by exponent and mantissa, then infinity. *)
Definition time_key (x : f64) : Z * Z * Z :=
  match x with
  | S754_finite _ m e => (1, e, Zpos m)
  | S754_infinity _ => (2, 0, 0)
  | _ => (0, 0, 0)
  end%Z.
Definition key_le (a b : Z * Z * Z) : Prop :=
  let '(a1, a2, a3) := a in let '(b1, b2, b3) := b in
  (a1 < b1 \/ a1 = b1 /\ (a2 < b2 \/ a2 = b2 /\ a3 <= b3))%Z.

Lemma time_cmp x y :
  is_time x = true -> is_time y = true ->
  (partial_cmp x y <> Some Gt <-> key_le (time_key x) (time_key y))
  /\ (f64_le x y <-> key_le (time_key x) (time_key y)).
Proof.
  unfold f64_le, partial_cmp.
  destruct x as [[]|[]| |[] mx ex], y as [[]|[]| |[] my ey]; try done; intros _ _; cbn;
    try (split; split; solve [auto | lia | intros []; done | done]).
  fold (Pos.compare mx my).
  destruct (Z.compare_spec ex ey) as [E|E|E]; [destruct (Pos.compare_spec mx my) as [F|F|F]|..];
    split; split; try (intros; lia); try (intros [?|?]; done); auto; by intros ?.
Qed.

Lemma f64_le_total x y :
  is_time x = true -> is_time y = true -> partial_cmp x y = Some Gt -> f64_le y x.
Proof.
  intros Hx Hy Hc. apply (proj2 (time_cmp y x Hy Hx)).
  assert (Hn : ~ key_le (time_key x) (time_key y)).
  { intros Hk. by apply (proj1 (time_cmp x y Hx Hy)) in Hk. }
  destruct (time_key x) as [[? ?] ?], (time_key y) as [[? ?] ?]. cbn in *. lia.
Qed.

Lemma f64_le_trans x y z :
  is_time x = true -> is_time y = true -> is_time z = true ->
  f64_le x y -> f64_le y z -> f64_le x z.
Proof.
  intros Hx Hy Hz Hxy%time_cmp Hyz%time_cmp; [|done..]. apply time_cmp; [done..|].
  destruct (time_key x) as [[? ?] ?], (time_key y) as [[? ?] ?], (time_key z) as [[? ?] ?].
  cbn in *. lia.
Qed.

(** ** Sorting times *)

Definition times (l : list f64) : Prop := Forall (fun x => is_time x = true) l.

Lemma insert_f64_perm x l : insert_f64 x l ≡ₚ x :: l.
Proof.
  induction l as [|y l IH]; [done|]. cbn [insert_f64].
  destruct (partial_cmp x y) as [[]|]; [done|done| |done]. by rewrite IH, Permutation_swap.
Qed.

Lemma sorted_f64_perm l : foldr insert_f64 [] l ≡ₚ l.
Proof. induction l as [|x l IH]; [done|]. cbn. by rewrite insert_f64_perm, IH. Qed.

Lemma times_perm l l' : l ≡ₚ l' -> times l -> times l'.
Proof. by unfold times; intros ->. Qed.

Lemma insert_f64_sorted x l :
  is_time x = true -> times l -> StronglySorted f64_le l -> StronglySorted f64_le (insert_f64 x l).
Proof.
  intros Hx Hl Hs. induction Hs as [|y l Hs IH Hy]; [by repeat constructor|].
  apply list.Forall_cons in Hl as [Hyt Hl]. cbn [insert_f64].
  assert (Hgo : f64_le x y -> StronglySorted f64_le (x :: y :: l)).
  { intros Hxy. constructor; [by constructor|]. constructor; [done|].
    apply list.Forall_forall. intros z Hz.
    apply (f64_le_trans x y z); [done|done| |done|].
    - by apply (proj1 (list.Forall_forall _ _) Hl).
    - by apply (proj1 (list.Forall_forall _ _) Hy). }
  destruct (partial_cmp x y) as [[]|] eqn:Ec.
  - apply Hgo. by right.
  - apply Hgo. by left.
  - constructor; [by apply IH|]. change (List.Forall (f64_le y)) with (Forall (f64_le y)).
    rewrite insert_f64_perm. constructor; [by apply f64_le_total|done].
  - exfalso. revert Hx Hyt Ec.
    destruct x as [[]|[]| |[] ? ?], y as [[]|[]| |[] ? ?]; done.
Qed.

Lemma sort_f64_times {E} l :
  times l -> exists sorted, sort_f64 (E := E) l = Ok sorted /\ sorted ≡ₚ l
    /\ StronglySorted f64_le sorted /\ times sorted.
Proof.
  intros Hl. exists (foldr insert_f64 [] l). split_and!.
  - unfold sort_f64. assert (Hn : existsb is_nan l = false).
    { induction Hl as [|x l Hx _ IH]; [done|]. cbn. rewrite IH. by destruct x as [[]|[]| |[] ? ?]. }
    by rewrite Hn, andb_false_r.
  - apply sorted_f64_perm.
  - induction Hl as [|x l Hx Hl IH]; [constructor|]. cbn. apply insert_f64_sorted; [done| |done].
    by apply (times_perm l); [rewrite sorted_f64_perm|].
  - by apply (times_perm l); [rewrite sorted_f64_perm|].
Qed.

(** ** The statistics *)

(** What the summary says of the samples after the first. *)
Lemma bench_stats_times {E} first rest :
  times rest -> rest <> [] ->
  exists stats sorted, bench_stats (E := E) (first :: rest) = Ok stats
    /\ first_ms stats = first /\ sorted ≡ₚ rest /\ StronglySorted f64_le sorted
    /\ head sorted = Some (min_ms stats)
    /\ sorted !! (length rest / 2) = Some (median_ms stats)
    /\ list.last sorted = Some (max_ms stats).
Proof.
  intros Hr Hne. destruct (sort_f64_times (E := E) rest Hr) as (sorted & Hs & Hp & Hss & _).
  assert (Hlen : length sorted = length rest) by (by rewrite Hp).
  assert (Hpos : 1 <= length rest) by (destruct rest; [done|cbn; lia]).
  assert (Hmed : exists m, sorted !! (length rest / 2) = Some m).
  { apply lookup_lt_is_Some_2. rewrite Hlen. apply Nat.div_lt; lia. }
  destruct Hmed as [m Hm].
  assert (Hh : exists a, head sorted = Some a) by (destruct sorted; [cbn in *; lia|eauto]).
  destruct Hh as [a Ha].
  assert (Hl : exists b, list.last sorted = Some b).
  { destruct (list.last sorted) as [b|] eqn:El; [eauto|].
    apply last_None in El. subst. cbn in *; lia. }
  destruct Hl as [b Hb].
  eexists _, sorted. split.
  - unfold bench_stats. cbn [length drop]. rewrite (proj2 (Nat.ltb_lt _ _)) by lia.
    rewrite drop_0, Hs. cbn [mbind outcome_bind]. rewrite Hlen, Hm, Ha, Hb. cbn [default lookup list_lookup].
    reflexivity.
  - cbn. by split_and!.
Qed.

Lemma strongly_sorted_lookup (l : list f64) i j x y :
  StronglySorted f64_le l -> i < j -> l !! i = Some x -> l !! j = Some y -> f64_le x y.
Proof.
  intros Hs. revert i j. induction Hs as [|z l Hs IH Hz]; intros i j Hij Hx Hy; [done|].
  destruct j as [|j]; [lia|]. destruct i as [|i].
  - injection Hx as ->. apply (proj1 (list.Forall_forall _ _) Hz). by eapply list_elem_of_lookup_2.
  - apply (IH i j); [lia|done|done].
Qed.

(** ** The benchmark runs *)

Section runs.
Context `{ArrowLib} {T : Type} `{!ExasolTransport T}.

(** [n] runs of the statement that all succeed, and the rows of the last one. *)
Inductive all_run (sql : str) : nat -> T -> nat -> T -> nat -> Prop :=
| run_none t rows : all_run sql 0 t rows t rows
| run_one n t rows answer t1 t2 rows' :
    execute sql t = (Ok answer, t1) -> all_run sql n t1 (rows_in answer) t2 rows' ->
    all_run sql (S n) t rows t2 rows'.

Lemma bench_loop_runs sql n t rows t' rows' clock samples :
  all_run sql n t rows t' rows' -> n <= length clock ->
  bench_loop n sql rows samples (t, clock)
  = (Ok (rows', samples ++ (elapsed_ms <$> take n clock)), (t', drop n clock)).
Proof.
  intros Hrun. revert clock samples.
  induction Hrun as [t rows|n t rows answer t1 t2 rows' He Hrun IH]; intros clock samples Hc.
  - cbn. by rewrite app_nil_r.
  - destruct clock as [|d clock]; [cbn in Hc; lia|]. cbn [bench_loop].
    eapply bind_step; [unfold on_exasol; cbn [fst snd]; by rewrite He|].
    eapply bind_step; [reflexivity|]. cbn [fst snd]. rewrite IH by (cbn in Hc; lia).
    cbn [take drop fmap list_fmap]. by rewrite <- app_assoc.
Qed.

(** C40: a benchmark of at least two runs that all succeed runs the statement exactly
    that often on one session, closes it, and reports: no time is a NaN, so sorting
    them does not panic; the summary leaves out the first run, its median is the
    element in the middle of the others in their order, and minimum, median and
    maximum are in order.  With more runs than a vector can hold samples it panics
    before the first. *)
Theorem run_benchmark_reports (show_f64 : nat -> f64 -> str) config connect_ms sql n t rows t' t''
    clock :
  all_run sql (S (S n)) t 0 t' rows -> close t' = (Ok tt, t'') ->
  Forall duration_ok clock -> S (S n) <= length clock ->
  exists stats sorted,
    run_benchmark show_f64 config connect_ms sql (S (S n)) (t, clock)
    = (if samples_fit (S (S n))
       then (Ok (bench_report show_f64 (transport config) rows connect_ms (S (S n)) stats),
             (t'', drop (S (S n)) clock))
       else (Panic, (t, clock)))
    /\ Some (first_ms stats) = head (elapsed_ms <$> clock)
    /\ sorted ≡ₚ (elapsed_ms <$> take (S n) (tail clock))
    /\ (forall x, x ∈ sorted -> f64_le (min_ms stats) x /\ f64_le x (max_ms stats))
    /\ sorted !! (S n / 2) = Some (median_ms stats) /\ StronglySorted f64_le sorted.
Proof.
  intros Hrun Hclose Hok Hlen. destruct clock as [|d clock]; [cbn in Hlen; lia|].
  apply list.Forall_cons in Hok as [_ Hok]. cbn [length] in Hlen.
  assert (Ht : times (elapsed_ms <$> take (S n) clock)).
  { apply Forall_fmap, Forall_take. eapply list.Forall_impl; [exact Hok|]. exact elapsed_ms_time. }
  destruct (bench_stats_times (E := ExasolError) (elapsed_ms d) _ Ht) as
    (stats & sorted & Hs & Hf & Hp & Hss & Hmin & Hmed & Hmax).
  { destruct clock; [cbn in Hlen; lia|done]. }
  rewrite length_fmap, length_take_le in Hmed by lia.
  exists stats, sorted. split_and!; [|by rewrite Hf|done| |done|done].
  - unfold run_benchmark. destruct (samples_fit (S (S n))); [|done].
    eapply bind_step; [reflexivity|]. eapply bind_step; [by apply bench_loop_runs|].
    eapply bind_step; [unfold on_exasol; cbn [fst snd]; by rewrite Hclose|].
    cbn [app fmap list_fmap take]. eapply bind_step; [unfold lift; by rewrite Hs|]. done.
  - assert (Hts : times sorted) by (by apply (times_perm _ _ (symmetry Hp))).
    assert (Hrefl : forall x, x ∈ sorted -> f64_le x x).
    { intros x Hx. apply (proj1 (list.Forall_forall _ _) Hts) in Hx. apply time_cmp; [done..|].
      destruct (time_key x) as [[? ?] ?]. cbn. lia. }
    intros x Hx. pose proof (Hrefl x Hx) as Hxx. apply list_elem_of_lookup_1 in Hx as [i Hi].
    rewrite head_lookup in Hmin. rewrite last_lookup in Hmax. split.
    + destruct i as [|i]; [by simplify_eq|]. by eapply (strongly_sorted_lookup _ 0 (S i)); [|lia|..].
    + destruct (decide (i = pred (length sorted))) as [->|Hi']; [by simplify_eq|].
      apply lookup_lt_Some in Hi as Hl.
      by eapply (strongly_sorted_lookup _ i (pred (length sorted))); [|lia|..].
Qed.
End runs.

#[local] Existing Instance list_arrow.
#[local] Instance counting : ExasolTransport nat := {
  execute _ n := (Ok (RowCount 1), S n);
  execute_update _ n := (Ok tt, S n);
  close n := (Ok tt, n) }.

(** A millisecond and a half, exactly. *)
Example ex_elapsed : elapsed_ms (0, 1500000)%Z = f64_div (f64_of_int 3) (f64_of_int 2).
Proof. vm_compute. reflexivity. Qed.

Lemma run_benchmark_reports_witness :
  let clock := [(0, 9000000); (0, 3000000); (0, 1000000); (0, 2000000)]%Z in
  exists stats,
    (run_benchmark (fun _ _ => []) (exec_config exec_defaults) (f64_of_int 0) [] 4 (0, clock)).1
    = Ok (bench_report (fun _ _ => []) DEFAULT_TRANSPORT 0 (f64_of_int 0) 4 stats)
    /\ Some (first_ms stats) = Some (elapsed_ms (0, 9000000)%Z).
Proof.
  intros clock.
  destruct (run_benchmark_reports (fun _ _ => []) (exec_config exec_defaults) (f64_of_int 0) [] 2
              0 0 4 4 clock) as (stats & sorted & Hr & Hf & _).
  - repeat (eapply run_one; [reflexivity|]). apply run_none.
  - reflexivity.
  - repeat (apply list.Forall_cons_2; [split; done|]). constructor.
  - cbn. lia.
  - exists stats. split; [exact (f_equal fst Hr)|exact Hf].
Defined.
