(* ===== verification/Session.v ===== *)
(** * Statements of a session (src/src/pg_server.rs, [ExasolPgWireHandler])

    What the server does with one statement: the metadata queries it answers by
    itself or with queries of its own, the statements it answers locally, the
    cursors, and the statements it translates and sends to Exasol.  The state of a
    connection is explicit; its four fields are each behind a lock that is held
    for one access at a time, and a connection runs one statement at a time. *)

From stdpp Require Import sorting.
From S2P Require Import Prelude RustStr RustInt Regex Arrow Plan Config Exasol Cursor.
From S2P Require Import Policy Translator Metadata Responses Params ExasolSession.
#[local] Open Scope nat_scope.

(** ** Sorting rows ([Vec::sort] of rows of optional texts) *)

Fixpoint list_cmp {A} (cmp : A -> A -> comparison) (a b : list A) : comparison :=
  match a, b with
  | [], [] => Eq
  | [], _ :: _ => Lt
  | _ :: _, [] => Gt
  | x :: a, y :: b => match cmp x y with Eq => list_cmp cmp a b | c => c end
  end.
Definition option_cmp {A} (cmp : A -> A -> comparison) (a b : option A) : comparison :=
  match a, b with
  | None, None => Eq
  | None, Some _ => Lt
  | Some _, None => Gt
  | Some x, Some y => cmp x y
  end.
Definition row_cmp : list (option str) -> list (option str) -> comparison :=
  list_cmp (option_cmp (list_cmp N.compare)).
Definition row_le (a b : list (option str)) : Prop := row_cmp a b <> Gt.
#[export] Instance row_le_dec a b : Decision (row_le a b).
Proof. unfold row_le. apply _. Defined.
Definition sort_rows : list (list (option str)) -> list (list (option str)) :=
  merge_sort row_le.

(** ** The state of a connection *)

Section session.
Context `{BuildProfile} `{RegexEngine} `{ArrowLib} `{JsonLib} `{Transpiler}.
Context {T : Type} `{!ExasolTransport T}.
Variable config : AppConfig.

Record SessionState := {
  ss_exasol : T;
  extended_results : gmap str GatewayResponse;
  cursors : gmap str GatewayCursor;
  current_schema : option str }.

Definition new_session (t : T) : SessionState :=
  {| ss_exasol := t; extended_results := ∅; cursors := ∅; current_schema := None |}.

Definition set_exasol (t : T) (s : SessionState) : SessionState :=
  {| ss_exasol := t; extended_results := extended_results s; cursors := cursors s;
     current_schema := current_schema s |}.
Definition set_extended_results (m : gmap str GatewayResponse) (s : SessionState) : SessionState :=
  {| ss_exasol := ss_exasol s; extended_results := m; cursors := cursors s;
     current_schema := current_schema s |}.
Definition set_cursors (m : gmap str GatewayCursor) (s : SessionState) : SessionState :=
  {| ss_exasol := ss_exasol s; extended_results := extended_results s; cursors := m;
     current_schema := current_schema s |}.
Definition set_current_schema (o : option str) (s : SessionState) : SessionState :=
  {| ss_exasol := ss_exasol s; extended_results := extended_results s;
     cursors := cursors s; current_schema := o |}.

(** What the handler keeps of a client: the session (once the client has logged
    in) and its backend process id. *)
Record Client := { client_session : option SessionState; client_pid : Z }.
Definition set_session (o : option SessionState) (c : Client) : Client :=
  {| client_session := o; client_pid := client_pid c |}.

Definition session_m (A : Type) : Type := stateful SessionState PgError A.
Definition client_m (A : Type) : Type := stateful Client PgError A.

Definition not_connected : PgError :=
  pg_error "08003" (lit "Exasol session is not connected").

(** [client.session_extensions().get::<SessionState>()]. *)
Definition with_session {A} (m : session_m A) : client_m A := fun c =>
  match client_session c with
  | None => (Err not_connected, c)
  | Some s => let '(r, s) := m s in (r, set_session (Some s) c)
  end.
Definition modify (f : SessionState -> SessionState) : session_m unit := fun s => (Ok tt, f s).

Definition session_execute (sql : str) : session_m ExasolOutcome := fun s =>
  let '(r, t) := execute sql (ss_exasol s) in
  (map_err map_exasol_execution_error r, set_exasol t s).

Definition execute_exasol_sql (sql : str) : client_m ExasolOutcome :=
  with_session (session_execute sql).

(** ** Translation *)

Definition should_fold_labels (sql : str) : bool :=
  enabled (translation config) && negb (is_passthrough_query sql).

Definition translate_client_sql (sql : str) : outcome PgError str :=
  if negb (enabled (translation config)) then Ok sql
  else map_err (fun err => pg_error "XX000" (TranslationError_to_string err))
         (translate_postgres_to_exasol sql).

Definition execute_client_sql (sql : str) : client_m ExasolOutcome :=
  sql ← lift (translate_client_sql sql);
  execute_exasol_sql sql.

(** ** Metadata queries *)

Definition fetch_query_rows (sql : str) : client_m (list (list (option str))) :=
  outcome ← execute_exasol_sql sql;
  match outcome with
  | ArrowRows batches => mret (arrow_batches_to_text_rows batches)
  | TypedRows _ rows => mret rows
  | RowCount _ => lift (Err (pg_error "XX000"
                     (lit "metadata query unexpectedly returned a row count")))
  end.

Definition execute_exasol_query (sql : str) : client_m GatewayResponse :=
  outcome ← execute_exasol_sql sql;
  mret (default REmpty (list.last (map_exasol_result outcome (lit "SELECT") Omit false))).

Definition schemas_query : str :=
  lit "SELECT SCHEMA_NAME FROM SYS.EXA_SCHEMAS ORDER BY SCHEMA_NAME".
Definition jdbc_tables_query (schema_pattern table_pattern : str) : str :=
  lit "SELECT 'exasol' AS `TABLE_CAT`, object_schema AS `TABLE_SCHEM`, object_name AS `TABLE_NAME`, object_type AS `TABLE_TYPE`, remarks AS `REMARKS`, '' AS `TYPE_CAT`, '' AS `TYPE_SCHEM`, '' AS `TYPE_NAME`, '' AS `SELF_REFERENCING_COL_NAME`, '' AS `REF_GENERATION` FROM ( SELECT TABLE_SCHEMA AS object_schema, TABLE_NAME AS object_name, 'TABLE' AS object_type, COALESCE(TABLE_COMMENT, '') AS remarks FROM SYS.EXA_ALL_TABLES UNION ALL SELECT VIEW_SCHEMA AS object_schema, VIEW_NAME AS object_name, 'VIEW' AS object_type, COALESCE(VIEW_COMMENT, '') AS remarks FROM SYS.EXA_ALL_VIEWS ) objects WHERE object_schema LIKE "
  ++ schema_pattern
  ++ lit " AND object_name LIKE "
  ++ table_pattern
  ++ lit " ORDER BY `TABLE_TYPE`, `TABLE_SCHEM`, `TABLE_NAME`".
Definition jdbc_columns_query (schema_pattern table_pattern column_pattern : str) : str :=
  lit "SELECT COLUMN_SCHEMA, COLUMN_TABLE, COLUMN_NAME, COLUMN_TYPE, COLUMN_IS_NULLABLE, COLUMN_DEFAULT, COLUMN_COMMENT, COLUMN_ORDINAL_POSITION FROM SYS.EXA_ALL_COLUMNS WHERE COLUMN_OBJECT_TYPE IN ('TABLE', 'VIEW') AND COLUMN_SCHEMA LIKE "
  ++ schema_pattern
  ++ lit " AND COLUMN_TABLE LIKE "
  ++ table_pattern
  ++ lit " AND COLUMN_NAME LIKE "
  ++ column_pattern
  ++ lit " ORDER BY COLUMN_SCHEMA, COLUMN_TABLE, COLUMN_ORDINAL_POSITION".
Definition pg_tables_query (schema_exclude table_filter : str) : str :=
  lit "SELECT TABLE_SCHEMA AS schemaname, TABLE_NAME AS tablename, TABLE_OWNER AS tableowner, '' AS tablespace, false AS hasindexes, false AS hasrules, false AS hastriggers, false AS rowsecurity FROM SYS.EXA_ALL_TABLES WHERE TABLE_SCHEMA != "
  ++ schema_exclude
  ++ lit " "
  ++ table_filter
  ++ lit " ORDER BY schemaname, tablename".
Definition info_tables_query (schema : str) : str :=
  lit "SELECT TABLE_NAME FROM ( SELECT 'exasol' AS TABLE_CATALOG, TABLE_SCHEMA AS TABLE_SCHEMA, TABLE_NAME AS TABLE_NAME FROM SYS.EXA_ALL_TABLES UNION ALL SELECT 'exasol' AS TABLE_CATALOG, VIEW_SCHEMA AS TABLE_SCHEMA, VIEW_NAME AS TABLE_NAME FROM SYS.EXA_ALL_VIEWS ) objects WHERE TABLE_CATALOG = 'exasol' AND TABLE_SCHEMA = "
  ++ schema
  ++ lit " ORDER BY TABLE_NAME".
Definition info_columns_query (schema table : str) : str :=
  lit "SELECT COLUMN_NAME FROM SYS.EXA_ALL_COLUMNS WHERE COLUMN_SCHEMA = "
  ++ schema
  ++ lit " AND COLUMN_TABLE = "
  ++ table
  ++ lit " ORDER BY COLUMN_NAME".

(** [row.get(i).cloned().unwrap_or(d)]. *)
Definition cell_or (d : option str) (row : list (option str)) (i : nat) : option str :=
  default d (row !! i).

(** The schemas of the database and the two of PostgreSQL, sorted. *)
Definition all_schemas : client_m (list (list (option str))) :=
  schemas ← fetch_query_rows schemas_query;
  mret (sort_rows (schemas ++ [[Some (lit "information_schema")]] ++ [[Some (lit "pg_catalog")]])).

Definition namespace_row (idx : nat) (row : list (option str))
    : outcome PgError (list (option str)) :=
  oid ← add_i32 2200 (wrap_signed 32 (Z.of_nat idx));
  Ok [Some (show_int oid); cell_or None row 0; Some (lit "10"); None].

Definition jdbc_column_row (row : list (option str)) : outcome PgError (list (option str)) :=
  let exa_type := default (lit "VARCHAR(2000) UTF8") (mjoin (row !! 3)) in
  type_info ← map_exasol_column_type exa_type;
  let nullable := bool_decide (mjoin (row !! 4) = Some (lit "false")) in
  Ok [Some (lit "exasol"); cell_or None row 0; cell_or None row 1; cell_or None row 2;
      Some (show_int (oid type_info));
      Some (if nullable then lit "true" else lit "false");
      Some (show_int (typmod type_info)); Some (show_int (typlen type_info));
      Some (show_int (typmod type_info));
      cell_or (Some (lit "0")) row 7; None; None; cell_or None row 5; cell_or None row 6;
      Some (show_int (typbasetype type_info)); Some (typtype type_info)].

Definition jdbc_column_names : list string :=
  ["current_database"; "nspname"; "relname"; "attname"; "atttypid"; "attnotnull";
   "atttypmod"; "attlen"; "typtypmod"; "attnum"; "attidentity"; "attgenerated";
   "adsrc"; "description"; "typbasetype"; "typtype"]%string.
Definition pg_user_names : list string :=
  ["usename"; "usesysid"; "usecreatedb"; "usesuper"; "userepl"; "usebypassrls";
   "passwd"; "valuntil"; "useconfig"]%string.
Definition pg_stat_activity_names : list string :=
  ["datid"; "datname"; "pid"; "leader_pid"; "usesysid"; "usename";
   "application_name"; "client_addr"; "client_hostname"; "client_port";
   "backend_start"; "xact_start"; "query_start"; "state_change";
   "wait_event_type"; "wait_event"; "state"; "backend_xid"; "backend_xmin";
   "query_id"; "query"; "backend_type"]%string.
Definition pg_locks_names : list string :=
  ["locktype"; "database"; "relation"; "page"; "tuple"; "virtualxid";
   "transactionid"; "classid"; "objid"; "objsubid"; "virtualtransaction"; "pid";
   "mode"; "granted"; "fastpath"; "waitstart"]%string.

Definition pg_user_row : list (option str) :=
  [Some (lit "sys"); Some (lit "10"); Some (lit "true"); Some (lit "true");
   Some (lit "false"); Some (lit "true"); None; None; None].

Definition answer_metadata (plan : MetadataPlan) : client_m GatewayResponse :=
  match plan with
  | JdbcSchemas =>
      schemas ← all_schemas;
      mret (RQuery (lit <$> ["TABLE_SCHEM"; "TABLE_CATALOG"]%string)
             ((fun row => [cell_or None row 0; Some (lit "exasol")]) <$> schemas))
  | PgNamespace =>
      schemas ← all_schemas;
      rows ← lift (mapM (fun p => namespace_row p.1 p.2)
                     (zip (seq 0 (length schemas)) schemas));
      mret (RQuery (lit <$> ["oid"; "nspname"; "nspowner"; "nspacl"]%string) rows)
  | JdbcTables schema_pattern table_pattern =>
      execute_exasol_query
        (jdbc_tables_query (sql_string_literal schema_pattern) (sql_string_literal table_pattern))
  | JdbcColumns schema_pattern table_pattern column_pattern =>
      rows ← fetch_query_rows
        (jdbc_columns_query (sql_string_literal schema_pattern)
           (sql_string_literal table_pattern) (sql_string_literal column_pattern));
      rows ← lift (mapM jdbc_column_row rows);
      mret (RQuery (lit <$> jdbc_column_names) rows)
  | PgTables schema_exclude table_name =>
      execute_exasol_query
        (pg_tables_query (sql_string_literal (default (lit "pg_catalog") schema_exclude))
           (match table_name with
            | Some value => lit "AND TABLE_NAME = " ++ sql_string_literal value
            | None => []
            end))
  | InfoSchemaTableNames catalog schema =>
      if negb (eq_ignore_ascii_case catalog (lit "exasol"))
      then mret (empty_query ["TABLE_NAME"]%string)
      else execute_exasol_query (info_tables_query (sql_string_literal schema))
  | InfoSchemaColumnNames catalog schema table =>
      if negb (eq_ignore_ascii_case catalog (lit "exasol"))
      then mret (empty_query ["COLUMN_NAME"]%string)
      else execute_exasol_query
             (info_columns_query (sql_string_literal schema) (sql_string_literal table))
  | PgUser => mret (RQuery (lit <$> pg_user_names) [pg_user_row])
  | PgGroup => mret (empty_query ["groname"; "grosysid"; "grolist"]%string)
  | PgStatActivity => mret (empty_query pg_stat_activity_names)
  | PgLocks => mret (empty_query pg_locks_names)
  end.

Definition execute_metadata_query (sql : str) : client_m (option GatewayResponse) :=
  match detect sql with
  | None => mret None
  | Some plan => response ← answer_metadata plan; mret (Some response)
  end.

(** ** Cursors *)

(** Two calls of [forward] and [backward] are all a count needs
    ([CursorTheorems.apply_refines]). *)
Definition CURSOR_FUEL : nat := 2.

Definition cursor_exists (name : str) : GatewayResponse :=
  RError (lit "42P03") (lit "cursor `" ++ name ++ lit "` already exists").
Definition cursor_missing (name : str) : GatewayResponse :=
  RError (lit "34000") (lit "cursor `" ++ name ++ lit "` does not exist").

Definition cursor_data_of (outcome : ExasolOutcome) : option CursorData :=
  match outcome with
  | ArrowRows batches => Some (CArrow (cursor_schema_for batches) batches)
  | TypedRows columns rows => Some (CTyped columns rows)
  | RowCount _ => None
  end.

Definition has_cursor (name : str) (s : SessionState) : bool :=
  bool_decide (is_Some (cursors s !! name)).

Definition insert_cursor (name : str) (cursor : GatewayCursor)
    : session_m (list GatewayResponse) := fun s =>
  if has_cursor name s then (Ok [cursor_exists name], s)
  else (Ok [RExecution (lit "DECLARE CURSOR") None],
        set_cursors (<[name := cursor]> (cursors s)) s).

Definition declare_cursor (declare : CursorDeclare) : client_m (list GatewayResponse) :=
  plan ← lift (classify_statement (declare_query declare));
  if is_cursor_unsafe_query plan
  then mret [RError (lit "0A000") (lit "cursor query must be a supported row-returning query")]
  else
    taken ← with_session (fun s => (Ok (has_cursor (declare_name declare) s), s));
    if taken : bool then mret [cursor_exists (declare_name declare)]
    else
      outcome ← execute_client_sql (declare_query declare);
      match cursor_data_of outcome with
      | None => mret [RError (lit "0A000") (lit "cursor query must return rows")]
      | Some data =>
          with_session (insert_cursor (declare_name declare)
            {| data := data; position := -1; scroll := declare_scroll declare;
               hold := declare_hold declare |})
      end.

(** The response of a FETCH; the rows have the variant of the data they come from. *)
Definition fetch_response (m : CursorMetadata) (rows : CursorStepRows)
    : outcome PgError GatewayResponse :=
  match m, rows with
  | MetaArrow schema, StepArrow batches =>
      Ok (RArrowQuery schema batches (Some (lit "FETCH")) false)
  | MetaTyped columns, StepTyped rows =>
      Ok (RTypedQuery columns rows (Some (lit "FETCH")) false)
  | _, _ => Err (pg_error "XX000"
      (lit "cursor data and step variant mismatch (internal invariant violation)"))
  end.

(** [cursors.get_mut(name)] and [cursor.apply(..)?]: the cursor that a successful
    move leaves replaces the old one. *)
Definition step_cursor (p : CursorPosition) (return_rows : bool)
    (respond : GatewayCursor -> CursorStep -> outcome PgError (list GatewayResponse))
    : session_m (list GatewayResponse) := fun s =>
  match cursors s !! position_name p with
  | None => (Ok [cursor_missing (position_name p)], s)
  | Some cursor =>
      match apply CURSOR_FUEL cursor (position_direction p) return_rows with
      | Ok (cursor', step) =>
          (respond cursor step, set_cursors (<[position_name p := cursor']> (cursors s)) s)
      | Err e => (Err e, s)
      | Panic => (Panic, s)
      | OutOfFuel => (OutOfFuel, s)
      end
  end.

Definition fetch_cursor (p : CursorPosition) : client_m (list GatewayResponse) :=
  with_session (step_cursor p true (fun cursor step =>
    response ← fetch_response (metadata cursor) (step_rows step);
    Ok [response])).

Definition move_cursor (p : CursorPosition) : client_m (list GatewayResponse) :=
  with_session (step_cursor p false (fun _ step =>
    Ok [RExecution (lit "MOVE") (Some (step_count step))])).

Definition close_cursor (c : CursorClose) : client_m (list GatewayResponse) :=
  with_session (fun s =>
    let closed := Ok [RExecution (lit "CLOSE CURSOR") None] in
    match c with
    | CloseAll => (closed, set_cursors ∅ s)
    | CloseOne name =>
        if has_cursor name s then (closed, set_cursors (delete name (cursors s)) s)
        else (Ok [cursor_missing name], s)
    end).

Definition execute_cursor_plan (plan : CursorPlan) : client_m (list GatewayResponse) :=
  match plan with
  | PlanDeclare declare => declare_cursor declare
  | PlanFetch p => fetch_cursor p
  | PlanMove p => move_cursor p
  | PlanClose c => close_cursor c
  end.

(** [cursors.retain(..)]; without a session there is nothing to clear. *)
Definition clear_non_hold_cursors : client_m unit := fun c =>
  (Ok tt, set_session ((fun s => set_cursors (filter (fun p => hold p.2 = true) (cursors s)) s)
                         <$> client_session c) c).

(** ** [execute_statement] *)

Definition open_schema_sql (schema : str) : str :=
  lit "OPEN SCHEMA `" ++ replace (lit "`") (lit "``") schema ++ lit "`".

Definition set_search_path (schema : str) : session_m (list GatewayResponse) :=
  _ ← session_execute (open_schema_sql schema);
  _ ← modify (set_current_schema (Some schema));
  mret [RExecution (lit "SET") None].

Definition show_search_path : session_m (list GatewayResponse) := fun s =>
  (Ok [RQuery [lit "search_path"] [[Some (default (lit "public") (current_schema s))]]], s).

Definition execute_plan (sql : str) (plan : StatementPlan) : client_m (list GatewayResponse) :=
  match plan with
  | Empty => mret [REmpty]
  | ClientSet => mret [RExecution (lit "SET") None]
  | SetSearchPath schema => with_session (set_search_path schema)
  | ShowSearchPath => with_session show_search_path
  | ClientTransactionStart => mret [RTransactionStart (lit "BEGIN")]
  | ClientTransactionEnd command =>
      _ ← clear_non_hold_cursors; mret [RTransactionEnd command]
  | ClientShow name value => mret [RQuery [name] [[Some value]]]
  | ClientSelect columns rows => mret [RQuery columns rows]
  | BackendPid column =>
      fun c => (Ok [RQuery [column] [[Some (show_int (client_pid c))]]], c)
  | Cursor plan => execute_cursor_plan plan
  | Reject sqlstate message => mret [RError sqlstate message]
  | Execute command row_count =>
      (* the session is looked up before the statement is translated *)
      _ ← with_session (mret tt);
      let fold_labels := should_fold_labels sql in
      sql ← lift (translate_client_sql sql);
      outcome ← execute_exasol_sql sql;
      mret (map_exasol_result outcome command row_count fold_labels)
  end.

Definition execute_statement (sql : str) : client_m (list GatewayResponse) :=
  metadata_response ← execute_metadata_query sql;
  match metadata_response with
  | Some response => mret [response]
  | None =>
      plan ← lift (classify_statement sql);
      execute_plan sql plan
  end.

(** ** Simple queries *)

Definition execute_sql (sql : str) : client_m (list Response) :=
  responses ← execute_statement sql;
  lift (mapM try_from responses).

Definition is_error_response (r : Response) : bool :=
  match r with ErrorR _ => true | _ => false end.

(** The loop over the statements: it ends after the first error response. *)
Fixpoint execute_statements (statements : list str) (responses : list Response)
    : client_m (list Response) :=
  match statements with
  | [] => mret responses
  | statement :: rest =>
      statement_responses ← execute_sql statement;
      let responses := responses ++ statement_responses in
      if existsb is_error_response statement_responses then mret responses
      else execute_statements rest responses
  end.

Definition execute_simple_query (query : str) : client_m (list Response) :=
  match split_simple_query query with
  | [] => mret [EmptyQuery]
  | statements => execute_statements statements []
  end.
End session.
