(* ===== verification/SessionTheorems.v ===== *)
(** * Properties of sessions

    Which statements reach Exasol, and as what; what a statement may do to the
    cursors; the end-to-end behaviour of DECLARE, FETCH, CLOSE, of the end of a
    transaction and of the search path; where a simple query stops. *)

From S2P Require Import Prelude RustStr RustInt Regex Arrow Plan Config Exasol Cursor.
From S2P Require Import CursorSpec CursorTheorems Policy Translator Metadata Responses.
From S2P Require Import Params ExasolSession Session.
#[local] Open Scope nat_scope.

(** ** Computations and what they leave alone *)

Create HintDb sends.

Section theorems.
Context `{BuildProfile} `{RegexEngine} `{ArrowLib} `{JsonLib} `{Transpiler}.
Context {T : Type} `{!ExasolTransport T}.
Implicit Types (c : Client (T := T)) (Q : str -> Prop).

(** The transport of a client's session. *)
Definition exasol_of (c : Client (T := T)) : option T := ss_exasol <$> client_session c.

(** At most one statement is sent to Exasol, and it is one of [Q]. *)
Definition sends {A} (Q : str -> Prop) (m : client_m (T := T) A) : Prop :=
  forall c r c', m c = (r, c') ->
    exasol_of c' = exasol_of c
    \/ exists q, Q q /\ exasol_of c' = (fun t => (execute q t).2) <$> exasol_of c.
Definition silent {A} (m : client_m (T := T) A) : Prop := sends (fun _ => False) m.

Lemma silent_eq {A} (m : client_m (T := T) A) c r c' :
  silent m -> m c = (r, c') -> exasol_of c' = exasol_of c.
Proof. intros Hm E. destruct (Hm _ _ _ E) as [?|(? & [] & _)]; done. Qed.

Lemma sends_mret {A} Q (a : A) : sends Q (mret a).
Proof. intros c r c' [= <- <-]. by left. Qed.

Lemma sends_lift {A} Q (o : outcome PgError A) : sends Q (lift o).
Proof. intros c r c' [= <- <-]. by left. Qed.

Lemma sends_bind_l {A B} Q (m : client_m A) (f : A -> client_m B) :
  sends Q m -> (forall a, silent (f a)) -> sends Q (m ≫= f).
Proof.
  intros Hm Hf c r c' [(a & s1 & E & Ef)|(r0 & E & _)]%stateful_bind_inv; [|by eapply Hm].
  apply (silent_eq _ _ _ _ (Hf a)) in Ef. destruct (Hm _ _ _ E) as [Hs|(q & ? & Hs)].
  - left. congruence.
  - right. exists q. split; [done|congruence].
Qed.

Lemma sends_bind_r {A B} Q (m : client_m A) (f : A -> client_m B) :
  silent m -> (forall a, sends Q (f a)) -> sends Q (m ≫= f).
Proof.
  intros Hm Hf c r c' [(a & s1 & E & Ef)|(r0 & E & _)]%stateful_bind_inv.
  - rewrite <- (silent_eq _ _ _ _ Hm E). by eapply Hf.
  - left. by eapply silent_eq.
Qed.

Lemma sends_lift_bind {A B} Q (o : outcome PgError A) (f : A -> client_m B) :
  (forall a, o = Ok a -> sends Q (f a)) -> sends Q (lift o ≫= f).
Proof.
  intros Hf c r c' [(a & s1 & E & Ef)|(r0 & E & _)]%stateful_bind_inv.
  { injection E as -> <-. eapply Hf; eauto. }
  injection E as _ <-. by left.
Qed.

Lemma sends_silent {A} Q (m : client_m A) : silent m -> sends Q m.
Proof. intros Hm c r c' E. left. by eapply silent_eq. Qed.

(** A computation on the session that leaves its transport alone. *)
Lemma silent_with_session {A} (m : session_m A) :
  (forall s r s', m s = (r, s') -> ss_exasol s' = ss_exasol s) -> silent (with_session m).
Proof.
  intros Hm c r c' E. left. unfold with_session in E.
  destruct (client_session c) as [s|] eqn:Es; [|by injection E as _ <-].
  destruct (m s) as [r1 s1] eqn:E1. injection E as _ <-. unfold exasol_of. cbn.
  rewrite Es. cbn. f_equal. eauto.
Qed.

Lemma sends_session_execute {A} Q q (f : ExasolOutcome -> session_m (T := T) A) :
  Q q -> (forall o s r s', f o s = (r, s') -> ss_exasol s' = ss_exasol s) ->
  sends Q (with_session (session_execute q ≫= f)).
Proof.
  intros Hq Hf c r c' E. unfold with_session in E.
  destruct (client_session c) as [s|] eqn:Es; [|left; by injection E as _ <-].
  destruct ((session_execute q ≫= f) s) as [r1 s1] eqn:E1. injection E as _ <-.
  right. exists q. split; [done|]. unfold exasol_of. rewrite Es. cbn. f_equal.
  assert (Hx : (session_execute q s).2 = set_exasol (execute q (ss_exasol s)).2 s).
  { unfold session_execute. by destruct (execute q (ss_exasol s)). }
  apply stateful_bind_inv in E1 as [(a & s2 & E1 & Ef)|(r0 & E1 & _)];
    rewrite E1 in Hx; cbn in Hx; subst; [|done].
  by rewrite (Hf _ _ _ _ Ef).
Qed.

Lemma sends_execute Q q : Q q -> sends Q (execute_exasol_sql q).
Proof.
  intros Hq c r c' E. unfold execute_exasol_sql, with_session in E.
  destruct (client_session c) as [s|] eqn:Es; [|left; by injection E as _ <-].
  unfold session_execute in E. destruct (execute q (ss_exasol s)) as [o t] eqn:Ex.
  injection E as _ <-. right. exists q. split; [done|].
  unfold exasol_of. rewrite Es. cbn. by rewrite Ex.
Qed.
#[local] Hint Unfold silent : sends.
#[local] Hint Resolve sends_mret sends_lift sends_execute : sends.

(** ** What reaches Exasol *)

Section traffic.
Variable config : AppConfig.

(** The statement a plan sends, if it sends one. *)
Definition plan_sends (sql : str) (plan : StatementPlan) (q : str) : Prop :=
  match plan with
  | Execute _ _ => translate_client_sql config sql = Ok q
  | SetSearchPath schema => q = open_schema_sql schema
  | Cursor (PlanDeclare d) =>
      translate_client_sql config (declare_query d) = Ok q
      /\ exists row_count, classify_statement (declare_query d)
                           = Ok (Execute (lit "SELECT") row_count)
  | _ => False
  end.

(** The query a metadata request sends, if it sends one. *)
Definition metadata_query (plan : MetadataPlan) : option str :=
  let ours catalog q := if eq_ignore_ascii_case catalog (lit "exasol") then Some q else None in
  match plan with
  | JdbcSchemas | PgNamespace => Some schemas_query
  | JdbcTables schema table =>
      Some (jdbc_tables_query (sql_string_literal schema) (sql_string_literal table))
  | JdbcColumns schema table column =>
      Some (jdbc_columns_query (sql_string_literal schema) (sql_string_literal table)
              (sql_string_literal column))
  | PgTables schema table =>
      Some (pg_tables_query (sql_string_literal (default (lit "pg_catalog") schema))
              (match table with
               | Some value => lit "AND TABLE_NAME = " ++ sql_string_literal value
               | None => []
               end))
  | InfoSchemaTableNames catalog schema =>
      ours catalog (info_tables_query (sql_string_literal schema))
  | InfoSchemaColumnNames catalog schema table =>
      ours catalog (info_columns_query (sql_string_literal schema) (sql_string_literal table))
  | PgUser | PgGroup | PgStatActivity | PgLocks => None
  end.

(** A metadata request sends the query of the gateway for it; any other statement sends
    what its plan says. *)
Definition reaches (sql q : str) : Prop :=
  match detect sql with
  | Some request => metadata_query request = Some q
  | None => exists plan, classify_statement sql = Ok plan /\ plan_sends sql plan q
  end.

Lemma sends_client_sql Q sql :
  (forall q, translate_client_sql config sql = Ok q -> Q q) ->
  sends Q (execute_client_sql config sql).
Proof. intros HQ. apply sends_lift_bind. intros q Hq. apply sends_execute. auto. Qed.

Lemma sends_answer Q plan :
  (forall q, metadata_query plan = Some q -> Q q) -> sends Q (answer_metadata plan).
Proof.
  intros HQ.
  assert (Hx : forall q, Q q -> sends Q (execute_exasol_query q)).
  { intros q Hq. apply sends_bind_l; [by apply sends_execute|]. intros o. apply sends_mret. }
  assert (Hf : forall q, Q q -> sends Q (fetch_query_rows q)).
  { intros q Hq. apply sends_bind_l; [by apply sends_execute|]. intros []; auto with sends. }
  assert (Ha : Q schemas_query -> sends Q all_schemas).
  { intros Hq. apply sends_bind_l; [by apply Hf|]. auto with sends. }
  destruct plan; cbn [answer_metadata metadata_query] in *;
    first [solve [auto with sends] | solve [by apply Hx, HQ] | idtac].
  - apply sends_bind_l; [by apply Ha, HQ|]. intros l. apply sends_bind_r; auto with sends.
  - apply sends_bind_l; [by apply Ha, HQ|]. intros l. auto with sends.
  - apply sends_bind_l; [by apply Hf, HQ|]. intros l. apply sends_bind_r; auto with sends.
  - destruct (eq_ignore_ascii_case _ _); [by apply Hx, HQ|apply sends_mret].
  - destruct (eq_ignore_ascii_case _ _); [by apply Hx, HQ|apply sends_mret].
Qed.

Lemma silent_cursors s m : ss_exasol (set_cursors (T := T) m s) = ss_exasol s.
Proof. done. Qed.

Lemma silent_insert_cursor name cursor s r s' :
  insert_cursor (T := T) name cursor s = (r, s') -> ss_exasol s' = ss_exasol s.
Proof. unfold insert_cursor. by case_match; intros [= _ <-]. Qed.

Lemma silent_step_cursor p rr respond s r s' :
  step_cursor (T := T) p rr respond s = (r, s') -> ss_exasol s' = ss_exasol s.
Proof.
  unfold step_cursor. destruct (cursors s !! _) as [cur|]; [|by intros [= _ <-]].
  destruct (apply _ _ _ _) as [[]| | |]; by intros [= _ <-].
Qed.

Lemma sends_declare Q d :
  (forall q, plan_sends (declare_query d) (Cursor (PlanDeclare d)) q -> Q q) ->
  sends Q (declare_cursor config d).
Proof.
  intros HQ. apply sends_lift_bind. intros plan Hp.
  destruct (is_cursor_unsafe_query plan) eqn:Eu; [apply sends_mret|].
  assert (Hsel : exists row_count, plan = Execute (lit "SELECT") row_count).
  { destruct plan; try done. cbn in Eu. apply negb_false_iff, str_eqb_eq in Eu. subst. eauto. }
  destruct Hsel as [rc ->].
  apply sends_bind_r; [by apply silent_with_session; intros s r s' [= _ <-]|].
  intros []; [apply sends_mret|].
  apply sends_bind_l.
  - apply sends_client_sql. intros q Hq. apply HQ. cbn. eauto.
  - intros o. destruct (cursor_data_of o); [|apply sends_mret].
    apply silent_with_session. intros. by eapply silent_insert_cursor.
Qed.

Lemma sends_plan Q sql plan :
  (forall q, plan_sends sql plan q -> Q q) -> sends Q (execute_plan config sql plan).
Proof.
  intros HQ. destruct plan as [command rc| |schema| | | | | | |[d|p|p|cl]| |];
    cbn [execute_plan execute_cursor_plan]; try apply sends_mret.
  - apply sends_bind_r; [by apply silent_with_session; intros s r s' [= _ <-]|].
    intros _. apply sends_lift_bind. intros q Hq.
    apply sends_bind_l; [apply sends_execute, HQ, Hq|]. intros o. apply sends_mret.
  - apply sends_session_execute; [by apply HQ|].
    intros o s r s' [= _ <-]. done.
  - apply sends_silent, silent_with_session. by intros s r s' [= _ <-].
  - apply sends_bind_r; [|intros _; apply sends_mret].
    intros c r c' [= _ <-]. left. unfold exasol_of. by destruct c as [[]].
  - intros c r c' [= _ <-]. by left.
  - by apply sends_declare.
  - apply sends_silent, silent_with_session. intros. by eapply silent_step_cursor.
  - apply sends_silent, silent_with_session. intros. by eapply silent_step_cursor.
  - apply sends_silent, silent_with_session. intros s r s' E.
    destruct cl; cases. by injection E as _ <-.
Qed.

Lemma statement_metadata sql mp (c : Client (T := T)) :
  detect sql = Some mp ->
  execute_statement config sql c = (response ← answer_metadata mp; mret [response]) c.
Proof.
  intros Hd. unfold execute_statement, execute_metadata_query. rewrite Hd.
  unfold mbind, stateful_bind, mret, stateful_ret. by destruct (answer_metadata mp c) as [[]].
Qed.

Lemma statement_other sql (c : Client (T := T)) :
  detect sql = None ->
  execute_statement config sql c
  = (plan ← lift (classify_statement sql); execute_plan config sql plan) c.
Proof. intros Hd. unfold execute_statement, execute_metadata_query. by rewrite Hd. Qed.

Lemma statement_sends sql : sends (reaches sql) (execute_statement config sql).
Proof.
  unfold reaches. destruct (detect sql) as [mp|] eqn:Ed.
  - intros c r c' E. rewrite (statement_metadata _ mp) in E by done. revert c r c' E.
    change (sends (fun q => metadata_query mp = Some q)
              (response ← answer_metadata mp; mret [response])).
    apply sends_bind_l; [by apply sends_answer | intros a; apply sends_mret].
  - intros c r c' E. rewrite statement_other in E by done. revert c r c' E.
    apply sends_lift_bind. intros plan Hp. apply sends_plan. eauto.
Qed.

(** C6: a statement sends at most one SQL text to Exasol: for a metadata request the
    query of the gateway for it, for SET search_path the quoted OPEN SCHEMA, for an
    executable statement its translation, for DECLARE the translation of the
    cursor's query, which then classifies as a SELECT; every other statement
    (session settings, SHOW, transaction control, FETCH, MOVE, CLOSE, rejected
    statements) never reaches Exasol. *)
Theorem statement_traffic sql (c : Client (T := T)) r c' :
  execute_statement config sql c = (r, c') ->
  exasol_of c' = exasol_of c
  \/ exists q, reaches sql q /\ exasol_of c' = (fun t => (execute q t).2) <$> exasol_of c.
Proof. apply statement_sends. Qed.
End traffic.

(** ** The cursors of a session *)

(** A result that a cursor can hold: it is indexed by [i64] positions, and its
    batches can be reversed. *)
Definition data_fits (d : CursorData) : Prop :=
  reversible_data d /\ (Z.of_nat (length (data_rows d)) < i64_max)%Z.

Definition keeps {A} (I : Client (T := T) -> Prop) (m : client_m (T := T) A) : Prop :=
  forall c r c', m c = (r, c') -> I c -> I c'.

Lemma keeps_mret {A} I (a : A) : keeps I (mret a).
Proof. by intros c r c' [= <- <-]. Qed.

Lemma keeps_lift {A} I (o : outcome PgError A) : keeps I (lift o).
Proof. by intros c r c' [= <- <-]. Qed.

Lemma keeps_bind {A B} I (m : client_m A) (f : A -> client_m B) :
  keeps I m -> (forall c a c', m c = (Ok a, c') -> keeps I (f a)) -> keeps I (m ≫= f).
Proof.
  intros Hm Hf c r c' [(a & s1 & E & Ef)|(r0 & E & _)]%stateful_bind_inv Hc.
  - eapply Hf, Hm; eauto.
  - eapply Hm; eauto.
Qed.

(** Every cursor of the client satisfies the invariant of cursors. *)
Definition session_ok (s : SessionState (T := T)) : Prop :=
  map_Forall (fun _ => cursor_ok) (cursors s).
Definition cursors_ok (c : Client (T := T)) : Prop :=
  forall s, client_session c = Some s -> session_ok s.

Lemma keeps_with_session {A} (m : session_m (T := T) A) :
  (forall s r s', m s = (r, s') -> session_ok s -> session_ok s') ->
  keeps cursors_ok (with_session m).
Proof.
  intros Hm c r c' E Hc. unfold with_session in E.
  destruct (client_session c) as [s|] eqn:Es; [|by injection E as _ <-].
  destruct (m s) as [r1 s1] eqn:E1. injection E as _ <-. intros s' [= <-]. eauto.
Qed.

Lemma session_execute_eq q s :
  session_execute (T := T) q s
  = (map_err map_exasol_execution_error (execute q (ss_exasol s)).1,
     set_exasol (execute q (ss_exasol s)).2 s).
Proof. unfold session_execute. by destruct (execute q (ss_exasol s)). Qed.

Lemma keeps_execute q : keeps cursors_ok (execute_exasol_sql (T := T) q).
Proof.
  apply keeps_with_session. intros s r s'. rewrite session_execute_eq. by intros [= _ <-].
Qed.
#[local] Hint Resolve keeps_mret keeps_lift keeps_bind keeps_execute : sends.

Lemma keeps_metadata plan : keeps cursors_ok (answer_metadata (T := T) plan).
Proof.
  assert (Hx : forall q, keeps cursors_ok (execute_exasol_query (T := T) q)).
  { intros q. apply keeps_bind; auto with sends. }
  assert (Hf : forall q, keeps cursors_ok (fetch_query_rows (T := T) q)).
  { intros q. apply keeps_bind; [auto with sends|]. intros ? [] ? _; auto with sends. }
  assert (Ha : keeps cursors_ok (all_schemas (T := T))) by (apply keeps_bind; auto with sends).
  destruct plan; cbn [answer_metadata]; try case_match; eauto 6 with sends.
Qed.

Lemma session_ok_insert name cur s :
  session_ok s -> cursor_ok cur -> session_ok (set_cursors (<[name := cur]> (cursors s)) s).
Proof. intros Hs Hc. by apply map_Forall_insert_2. Qed.

Lemma session_ok_sub m s :
  m ⊆ cursors s -> session_ok s -> session_ok (set_cursors (T := T) m s).
Proof. intros Hm Hs n cur Hn. eapply Hs, lookup_weaken; [exact Hn|done]. Qed.

Lemma step_cursor_ok p rr respond s r s' :
  step_cursor (T := T) p rr respond s = (r, s') -> session_ok s -> session_ok s'.
Proof.
  unfold step_cursor. destruct (cursors s !! _) as [cur|] eqn:Ec; [|by intros [= _ <-]].
  destruct (apply _ _ _ _) as [[cur' st]| | |] eqn:Ea; try (by intros [= _ <-]).
  intros [= _ <-] Hs. pose proof (Hs _ _ Ec) as Hcur.
  destruct (apply_stays _ _ _ _ Hcur _ _ Ea) as (q & -> & Hq & _).
  by apply session_ok_insert, set_position_ok.
Qed.

Lemma fresh_cursor_ok d sc h :
  data_fits d ->
  cursor_ok {| data := d; position := -1; scroll := sc; hold := h |}.
Proof. intros [Hr Hs]. constructor; [done|done|]. unfold size. cbn. lia. Qed.

(** What cursors ask of the transport: a result it returns fits their positions. *)
Class ResultsFit : Prop :=
  execute_fits q (t : T) o t' d :
    execute q t = (Ok o, t') -> cursor_data_of o = Some d -> data_fits d.

Section fitting.
Context {results_fit : ResultsFit}.
Variable config : AppConfig.

Lemma execute_exasol_sql_fits q (c : Client (T := T)) o c' d :
  execute_exasol_sql q c = (Ok o, c') -> cursor_data_of o = Some d -> data_fits d.
Proof.
  unfold execute_exasol_sql, with_session. destruct (client_session c) as [s|]; [|done].
  rewrite session_execute_eq. intros [= E%map_err_Ok <-].
  destruct (execute q (ss_exasol s)) as [r t] eqn:Ex. cbn in E. subst. eauto.
Qed.

Lemma declare_keeps d : keeps cursors_ok (declare_cursor (T := T) config d).
Proof.
  apply keeps_bind; [apply keeps_lift|]. intros _ plan _ _.
  case_match; [apply keeps_mret|]. apply keeps_bind.
  { apply keeps_with_session. by intros s r s' [= _ <-]. }
  intros _ [] _ _; [apply keeps_mret|].
  apply keeps_bind; [apply keeps_bind; auto with sends|].
  intros c o c' (q & s1 & _ & Ho)%stateful_bind_Ok.
  destruct (cursor_data_of o) as [cd|] eqn:Ed; [|apply keeps_mret].
  apply keeps_with_session. intros s r s'. unfold insert_cursor.
  case_match; intros [= _ <-] Hs; [done|].
  apply session_ok_insert; [done|]. apply fresh_cursor_ok. by eapply execute_exasol_sql_fits.
Qed.

Lemma plan_keeps sql plan : keeps cursors_ok (execute_plan (T := T) config sql plan).
Proof.
  destruct plan as [command rc| |schema| | | | | | |[d|p|p|cl]| |];
    cbn [execute_plan execute_cursor_plan]; try apply keeps_mret.
  - apply keeps_bind; [apply keeps_with_session; by intros s r s' [= _ <-]|].
    intros _ _ _ _. apply keeps_bind; auto with sends.
  - apply keeps_with_session. intros s r s' E Hs.
    apply stateful_bind_inv in E as [(o & s1 & E & [= _ <-])|(r0 & E & _)];
      rewrite session_execute_eq in E; by injection E as _ <-.
  - apply keeps_with_session. by intros s r s' [= _ <-].
  - apply keeps_bind; [|intros; apply keeps_mret]. intros c r c' [= _ <-] Hc s.
    cbn. intros (s0 & Hs0 & ->)%fmap_Some. apply session_ok_sub; [apply map_filter_subseteq|auto].
  - by intros c r c' [= _ <-].
  - apply declare_keeps.
  - apply keeps_with_session, step_cursor_ok.
  - apply keeps_with_session, step_cursor_ok.
  - apply keeps_with_session. intros s r s' E Hs. destruct cl; [case_match|]; injection E as _ <-.
    + apply session_ok_sub; [apply delete_subseteq|done].
    + done.
    + apply map_Forall_empty.
Qed.

Lemma statement_keeps sql : keeps cursors_ok (execute_statement (T := T) config sql).
Proof.
  unfold execute_statement, execute_metadata_query.
  apply keeps_bind; [case_match; [apply keeps_bind; [apply keeps_metadata|]|]; auto with sends|].
  intros _ [] _ _; [apply keeps_mret|]. apply keeps_bind; [apply keeps_lift|].
  intros _ plan _ _. apply plan_keeps.
Qed.

(** The clients that statements lead to from a login. *)
Inductive reachable : Client (T := T) -> Prop :=
| reachable_login t pid : reachable {| client_session := Some (new_session t); client_pid := pid |}
| reachable_statement sql c : reachable c -> reachable (execute_statement config sql c).2.

(** In every state that statements lead to from a login, each cursor is well
    formed: its position is between before the first row and after the last one of
    its rows, whatever FETCH, MOVE, DECLARE or failing statements came before. *)
Theorem reachable_cursors_ok c s name cur :
  reachable c -> client_session c = Some s -> cursors s !! name = Some cur ->
  (-1 <= position cur <= Z.of_nat (length (data_rows (data cur))))%Z
  /\ data_fits (data cur).
Proof.
  intros Hr Hs Hc.
  assert (Hok : cursors_ok c).
  { clear -Hr results_fit. induction Hr as [t pid|sql c _ IH].
    - intros s [= <-]. apply map_Forall_empty.
    - destruct (execute_statement config sql c) as [r c'] eqn:E. by eapply statement_keeps. }
  destruct (Hok _ Hs _ _ Hc) as [Hd Hz Hp]. by split.
Qed.
End fitting.
End theorems.
