(* ===== verification/PolicyGate.v ===== *)
(** * The gate of the policy

    What a client can make the gateway send to Exasol, by the words its statement starts
    with: the classification and the session together let nothing else through. *)

From S2P Require Import Prelude RustStr RustInt Regex Arrow Plan Config Exasol Cursor.
From S2P Require Import Policy PolicyTheorems Translator Metadata Responses Params.
From S2P Require Import ExasolSession Session SessionTheorems.
#[local] Open Scope nat_scope.

(** ** Statements of a client *)

Section traffic.
Context `{BuildProfile} `{RegexEngine} `{ArrowLib} `{JsonLib} `{Transpiler}.
Context {T : Type} `{!ExasolTransport T}.
Variable config : AppConfig.

(** Why a text may be sent to Exasol for a statement. *)
Inductive permitted (sql q : str) : Prop :=
| PermittedMetadata plan :
    detect sql = Some plan -> metadata_query plan = Some q -> permitted sql q
| PermittedCommand command :
    statement_command sql = Some command -> translate_client_sql config sql = Ok q ->
    permitted sql q
| PermittedPath schema :
    sets_search_path sql = true -> q = open_schema_sql schema -> permitted sql q
| PermittedCursor d :
    is_declare sql = true -> statement_command (declare_query d) = Some (lit "SELECT") ->
    translate_client_sql config (declare_query d) = Ok q -> permitted sql q.

(** A statement that the gate keeps from Exasol, by its first words. *)
Definition kept_out (sql : str) : bool :=
  match detect sql, statement_command sql with
  | None, None => negb (is_declare sql) && negb (sets_search_path sql)
  | _, _ => false
  end.

Lemma reaches_permitted sql q : reaches config sql q -> permitted sql q.
Proof.
  unfold reaches. destruct (detect sql) as [plan|] eqn:Ed; [by apply PermittedMetadata|].
  intros (p & Hp & Hq). pose proof (classified sql p Hp) as Hk.
  destruct p as [command rc| |schema| | | | | | |[d| | |]| |]; try done; cbn [plan_sends kind_of] in *.
  - destruct Hk as (command' & rc' & [= <- <-] & Hc). by eapply PermittedCommand.
  - by eapply PermittedPath.
  - destruct Hq as (Hq & rc & Hcl). destruct (classified _ _ Hcl) as (command & rc' & [= <- _] & Hc).
    by eapply PermittedCursor.
Qed.

Lemma permitted_not_kept sql q : permitted sql q -> kept_out sql = false.
Proof.
  unfold kept_out. intros [plan Hd _|command Hc _|schema Hs _|d Hd _ _].
  - by rewrite Hd.
  - rewrite Hc. by destruct (detect sql).
  - rewrite Hs, andb_false_r. by destruct (detect sql), (statement_command sql).
  - rewrite Hd. by destruct (detect sql), (statement_command sql).
Qed.

(** C7: only statements the policy allows reach Exasol.  Whatever a client sends, the
    text that goes to Exasol for a statement, if any does, is the gateway's own query
    for a metadata request; or the translation of a statement whose first words name
    one of the allowed commands (queries, INSERT, UPDATE, DELETE, MERGE, TRUNCATE,
    COMMENT, GRANT, REVOKE, and CREATE, ALTER, DROP of a table, view or schema); or the
    OPEN SCHEMA of a SET search_path; or the translation of a query in a DECLARE.  So
    nothing is sent for any other statement, among them COPY, IMPORT, EXPORT, EXECUTE,
    and the statements on users, roles, functions and scripts. *)
Theorem only_permitted_reaches sql (c : Client (T := T)) r c' :
  execute_statement config sql c = (r, c') ->
  (exasol_of c' = exasol_of c
   \/ exists q, permitted sql q /\ exasol_of c' = (fun t => (execute q t).2) <$> exasol_of c)
  /\ (kept_out sql = true -> exasol_of c' = exasol_of c).
Proof.
  intros E. destruct (statement_sends config sql c r c' E) as [Hs|(q & Hq & Hs)].
  - split; [by left|done].
  - apply reaches_permitted in Hq. split; [right; eauto|].
    intros Hk. by rewrite (permitted_not_kept sql q Hq) in Hk.
Qed.
End traffic.

#[local] Existing Instance dev_profile.
#[local] Existing Instance reference_engine.

(** The gate looks at the first words of the text it is given.  Since splitting does not
    know comments, a quote in one makes two statements a single text, which passes as the
    first of them. *)
Theorem first_words_only :
  let text := lit "SELECT 1 /* ' */; DROP USER u /* ' */" in
  split_simple_query text = [text]
  /\ classify_statement text = Ok (Execute (lit "SELECT") Omit)
  /\ kept_out (lit "DROP USER u") = true.
Proof. cbv zeta. split_and!; vm_compute; reflexivity. Qed.

Example ex_kept_out :
  forallb (fun s => kept_out (lit s))
    ["COPY t FROM STDIN"; "import into t from csv at 'x' file 'y'"; "EXPORT t INTO CSV AT 'x'";
     "execute script s()"; "CREATE USER u IDENTIFIED BY p"; "DROP ROLE r"; "ALTER SYSTEM SET a = 1";
     "CREATE OR REPLACE SCRIPT s() AS x"; "prepare p as select 1"; "LISTEN c"; "VACUUM t";
     "/* select */ alter user u"; "CALL p()"; "OPEN SCHEMA s"; "KILL SESSION 1"]%string = true.
Proof. vm_compute. reflexivity. Qed.
