(* ===== verification/MetadataTraffic.v ===== *)
(** * What metadata requests send to Exasol

    A metadata request is answered by a query of the gateway with texts of the client in
    it.  Read by a lexer of SQL, each of these queries has one of seven structures,
    whatever the client wrote: its texts are the values of literals and nothing else. *)

From S2P Require Import Prelude RustStr RustInt Regex Arrow Plan Config Exasol Metadata.
From S2P Require Import Policy Translator Params ParamsTheorems ExasolSession.
From S2P Require Import Session SessionTheorems.
#[local] Open Scope nat_scope.

(** ** A lexer *)

(** In code, in a literal (with the text read so far, backwards), after a quote in a
    literal (the end, or the first of a doubled quote), in a quoted name. *)
Inductive mode := InCode | InLiteral (text : str) | AfterQuote (text : str) | InName.
Inductive token := TChar (c : char) | TLiteral (value : str).

Definition code_mode (c : char) : mode := if (c =? 34)%N then InName else InCode.
Definition lex_char (m : mode) (c : char) : list token * mode :=
  match m with
  | InCode => if (c =? 39)%N then ([], InLiteral []) else ([TChar c], code_mode c)
  | InLiteral text => ([], if (c =? 39)%N then AfterQuote text else InLiteral (c :: text))
  | AfterQuote text => if (c =? 39)%N then ([], InLiteral (39%N :: text))
                       else ([TLiteral (rev text); TChar c], code_mode c)
  | InName => ([TChar c], if (c =? 34)%N then InCode else InName)
  end.
Fixpoint scan (m : mode) (s : str) : list token * mode :=
  match s with
  | [] => ([], m)
  | c :: s => let '(ts, m) := lex_char m c in let '(us, m) := scan m s in (ts ++ us, m)
  end.
(** Nothing when a quote is not closed. *)
Definition sql_tokens (s : str) : option (list token) :=
  match scan InCode s with
  | (ts, InCode) => Some ts
  | (ts, AfterQuote text) => Some (ts ++ [TLiteral (rev text)])
  | _ => None
  end.

(** The tokens without the values of the literals, and these values. *)
Definition structure (ts : list token) : list (option char) :=
  (fun t => match t with TChar c => Some c | TLiteral _ => None end) <$> ts.
Definition literals (ts : list token) : list str :=
  omap (fun t => match t with TChar _ => None | TLiteral v => Some v end) ts.

Example ex_tokens :
  (literals <$> sql_tokens (lit "SELECT 'it''s' AS `a'b`, ''")) = Some [lit "it's"; []].
Proof. reflexivity. Qed.

Lemma scan_app m a b :
  scan m (a ++ b) = let '(ts, m1) := scan m a in let '(us, m2) := scan m1 b in (ts ++ us, m2).
Proof.
  revert m. induction a as [|c a IH]; intros m; cbn [app scan].
  { by destruct (scan m b). }
  destruct (lex_char m c) as [ts m1]. rewrite IH. destruct (scan m1 a) as [us m2].
  destruct (scan m2 b) as [vs m3]. by rewrite app_assoc.
Qed.

Lemma scan_literal_body text value :
  scan (InLiteral text) (value ≫= (fun c => if (c =? 39)%N then [39; 39]%N else [c]))
  = ([], InLiteral (rev value ++ text)).
Proof.
  revert text. induction value as [|c value IH]; intros text; [done|].
  change ((c :: value) ≫= ?f) with (f c ++ (value ≫= f)). rewrite scan_app.
  destruct (N.eqb_spec c 39) as [->|Hc].
  - change (scan (InLiteral text) [39; 39]%N) with (@nil token, InLiteral (39%N :: text)).
    cbv beta iota. rewrite IH. cbn [rev]. by rewrite <- app_assoc.
  - cbn [scan lex_char]. rewrite (proj2 (N.eqb_neq c 39)) by done. cbv beta iota. rewrite IH.
    cbn [rev app]. by rewrite <- app_assoc.
Qed.

Lemma scan_literal value rest :
  scan InCode (sql_string_literal value ++ rest) = scan (AfterQuote (rev value)) rest.
Proof.
  unfold sql_string_literal. change (lit "'") with [39%N]. change (lit "''") with [39; 39]%N.
  rewrite replace_doubling, <- !app_assoc.
  rewrite scan_app. change (scan InCode [39%N]) with (@nil token, InLiteral []). cbv beta iota.
  rewrite scan_app, scan_literal_body, app_nil_r. cbv beta iota.
  rewrite scan_app. change (scan (InLiteral ?t) [39%N]) with (@nil token, AfterQuote t).
  cbv beta iota.
  by destruct (scan _ rest).
Qed.

(** ** Queries with texts of the client *)

(** A query: code, and pairs of a value that is written as a literal and the code after
    it. *)
Definition template : Type := str * list (str * str).
Fixpoint render_parts (parts : list (str * str)) : str :=
  match parts with
  | [] => []
  | (value, code) :: parts => sql_string_literal value ++ code ++ render_parts parts
  end.
Definition render (t : template) : str := t.1 ++ render_parts t.2.
(** Its code can be read: it ends outside of quotes, and no quote stands next to a
    value. *)
Definition code_ok (code : str) : bool :=
  match scan InCode code with (_, InCode) => true | _ => false end.
Definition starts_ok (code : str) : bool :=
  match code with c :: _ => negb (c =? 39)%N | [] => false end.
Definition template_ok (t : template) : bool :=
  code_ok t.1 && forallb (fun p => starts_ok p.2 && code_ok p.2) t.2.

Definition code_tokens (code : str) : list token := (scan InCode code).1.
Fixpoint part_tokens (parts : list (str * str)) : list token :=
  match parts with
  | [] => []
  | (value, code) :: parts => TLiteral value :: code_tokens code ++ part_tokens parts
  end.
Definition template_tokens (t : template) : list token := code_tokens t.1 ++ part_tokens t.2.

Lemma scan_code code rest :
  code_ok code = true ->
  scan InCode (code ++ rest) = (code_tokens code ++ (scan InCode rest).1, (scan InCode rest).2).
Proof.
  unfold code_ok, code_tokens. rewrite scan_app. destruct (scan InCode code) as [ts []]; try done.
  intros _. by destruct (scan InCode rest).
Qed.

Lemma scan_after text code rest :
  starts_ok code = true ->
  scan (AfterQuote text) (code ++ rest)
  = (TLiteral (rev text) :: (scan InCode (code ++ rest)).1, (scan InCode (code ++ rest)).2).
Proof.
  destruct code as [|c code]; [done|]. cbn [starts_ok app scan lex_char]. intros Hc%negb_true_iff.
  rewrite Hc. by destruct (scan (code_mode c) (code ++ rest)).
Qed.

(** The lexer finds exactly the values as literals of the client. *)
Lemma scan_parts code parts :
  code_ok code = true -> forallb (fun p => starts_ok p.2 && code_ok p.2) parts = true ->
  scan InCode (code ++ render_parts parts) = (code_tokens code ++ part_tokens parts, InCode).
Proof.
  revert code. induction parts as [|[v p] parts IH]; intros code Hcode Hparts.
  - rewrite scan_code by done. reflexivity.
  - cbn [forallb snd] in Hparts. apply andb_true_iff in Hparts as [[Hs Hp]%andb_true_iff Hparts].
    rewrite scan_code by done. cbn [render_parts part_tokens].
    by rewrite scan_literal, scan_after, rev_involutive, IH by done.
Qed.

Lemma render_tokens t :
  template_ok t = true -> sql_tokens (render t) = Some (template_tokens t).
Proof.
  intros [Hcode Hparts]%andb_true_iff. unfold sql_tokens, render. by rewrite scan_parts.
Qed.

Lemma structure_app a b : structure (a ++ b) = structure a ++ structure b.
Proof. apply fmap_app. Qed.
Lemma literals_app a b : literals (a ++ b) = literals a ++ literals b.
Proof. apply omap_app. Qed.

(** The structure of a query does not depend on its values, ... *)
Definition blank_parts (parts : list (str * str)) : list (str * str) :=
  (fun p => ([], p.2)) <$> parts.
Lemma structure_blank code parts :
  structure (template_tokens (code, parts)) = structure (template_tokens (code, blank_parts parts)).
Proof.
  unfold template_tokens. cbn [fst snd]. rewrite !structure_app. f_equal.
  induction parts as [|[v p] parts IH]; [done|]. cbn. f_equal.
  fold (structure (code_tokens p ++ part_tokens parts)).
  fold (structure (code_tokens p ++ part_tokens (blank_parts parts))).
  by rewrite !structure_app, IH.
Qed.

Lemma blank_ok code parts :
  template_ok (code, blank_parts parts) = template_ok (code, parts).
Proof.
  unfold template_ok. cbn [fst snd]. f_equal. induction parts as [|[v p] parts IH]; [done|].
  cbn. by rewrite <- IH.
Qed.

(** ... and its literals are those of its first code and the values. *)
Definition only_first (parts : list (str * str)) : bool :=
  forallb (fun p => bool_decide (literals (code_tokens p.2) = [])) parts.
Lemma blank_only parts : only_first (blank_parts parts) = only_first parts.
Proof. induction parts as [|[v p] parts IH]; [done|]. cbn. f_equal. exact IH. Qed.

Lemma literals_template code parts :
  only_first parts = true ->
  literals (template_tokens (code, parts)) = literals (code_tokens code) ++ parts.*1.
Proof.
  intros Hp. unfold template_tokens. cbn [fst snd]. rewrite literals_app. f_equal.
  induction parts as [|[v p] parts IH]; [done|]. cbn [only_first forallb snd] in Hp.
  apply andb_true_iff in Hp as [Hv%bool_decide_eq_true Hp]. cbn. f_equal.
  fold (literals (code_tokens p ++ part_tokens parts)). by rewrite literals_app, Hv, IH.
Qed.

(** ** The queries *)

(** The texts of the client in a request, and the request without them. *)
Definition request_values (plan : MetadataPlan) : list str :=
  match plan with
  | JdbcTables schema table => [schema; table]
  | JdbcColumns schema table column => [schema; table; column]
  | PgTables schema table => default (lit "pg_catalog") schema :: option_list table
  | InfoSchemaTableNames _ schema => [schema]
  | InfoSchemaColumnNames _ schema table => [schema; table]
  | _ => []
  end.
Definition blank (plan : MetadataPlan) : MetadataPlan :=
  match plan with
  | JdbcTables _ _ => JdbcTables [] []
  | JdbcColumns _ _ _ => JdbcColumns [] [] []
  | PgTables _ table => PgTables (Some []) ((fun _ => []) <$> table)
  | InfoSchemaTableNames _ _ => InfoSchemaTableNames (lit "exasol") []
  | InfoSchemaColumnNames _ _ _ => InfoSchemaColumnNames (lit "exasol") [] []
  | _ => plan
  end.

Definition query_template (plan : MetadataPlan) (q : str) (t : template) : Prop :=
  q = render t /\ metadata_query (blank plan) = Some (render (t.1, blank_parts t.2))
  /\ t.2.*1 = request_values plan /\ template_ok t && only_first t.2 = true.

Ltac template :=
  split_and!; [unfold render; cbn [fst snd render_parts]; rewrite app_nil_r; reflexivity
              |unfold render; cbn [fst snd blank_parts fmap list_fmap render_parts];
               rewrite app_nil_r; reflexivity
              |reflexivity|vm_compute; reflexivity].

Lemma metadata_query_template plan q :
  metadata_query plan = Some q -> exists t, query_template plan q t.
Proof.
  unfold query_template. destruct plan; cbn [metadata_query]; intros E; try case_match; simplify_eq.
  - exists (schemas_query, []). template.
  - exists (schemas_query, []). template.
  - eexists (_, [(schema_pattern, _); (table_pattern, _)]). template.
  - eexists (_, [(schema_pattern, _); (table_pattern, _); (column_pattern, _)]). template.
  - eexists (_, [(_, lit " AND TABLE_NAME = "); (_, _)]). template.
  - eexists (_, [(_, _)]). template.
  - eexists (_, [(schema, _)]). template.
  - eexists (_, [(schema, _); (table, _)]). template.
Qed.

(** The tokens of a query of a request. *)
Definition fixed_structure (plan : MetadataPlan) (ts : list token) : Prop :=
  exists q0 ts0 fixed,
    metadata_query (blank plan) = Some q0 /\ sql_tokens q0 = Some ts0
    /\ structure ts = structure ts0
    /\ literals ts0 = fixed ++ request_values (blank plan)
    /\ literals ts = fixed ++ request_values plan.

Lemma blank_values plan : request_values (blank plan) = (fun _ => []) <$> request_values plan.
Proof. destruct plan as [| | | |schema [table|]| | | | | |]; reflexivity. Qed.

Lemma metadata_query_tokens plan q :
  metadata_query plan = Some q -> exists ts, sql_tokens q = Some ts /\ fixed_structure plan ts.
Proof.
  intros Hq. destruct (metadata_query_template _ _ Hq) as ([code parts] & -> & Hb & Hv & Hok).
  apply andb_true_iff in Hok as [Hok Honly]. cbn [fst snd] in *.
  exists (template_tokens (code, parts)). split; [by apply render_tokens|].
  eexists _, (template_tokens (code, blank_parts parts)), (literals (code_tokens code)).
  split_and!; [exact Hb| | | |].
  - apply render_tokens. by rewrite blank_ok.
  - apply structure_blank.
  - rewrite literals_template.
    + f_equal. rewrite blank_values, <- Hv. unfold blank_parts. by rewrite <- !list_fmap_compose.
    + by rewrite blank_only.
  - by rewrite literals_template, Hv.
Qed.

(** C8: no client can change the structure of the queries that answer its metadata
    requests.  Such a request sends at most one query, and read by a lexer of SQL that
    query has the structure of the one for the same request with empty texts, all its
    quotes closed; the texts of the client are the values of its last literals, exactly
    as the client means them. *)
Theorem metadata_structure `{BuildProfile} `{RegexEngine} `{ArrowLib} `{JsonLib} `{Transpiler}
    {T} `{!ExasolTransport T} config sql plan (c : Client (T := T)) r c' :
  detect sql = Some plan -> execute_statement config sql c = (r, c') ->
  exasol_of c' = exasol_of c
  \/ exists q ts, exasol_of c' = (fun t => (execute q t).2) <$> exasol_of c
       /\ sql_tokens q = Some ts /\ fixed_structure plan ts.
Proof.
  intros Hd E. rewrite (statement_metadata config sql plan) in E by done.
  assert (Hs : sends (T := T) (fun q => metadata_query plan = Some q)
                 (response ← answer_metadata plan; mret [response])).
  { apply sends_bind_l; [by apply sends_answer|]. intros a. apply sends_mret. }
  destruct (Hs _ _ _ E) as [?|(q & Hq & Ht)]; [by left|right].
  destruct (metadata_query_tokens plan q Hq) as (ts & Hts & Hf). by exists q, ts.
Qed.
