(* ===== verification/SessionFlow.v ===== *)
(** * The course of statements in a session

    DECLARE followed by FETCH, the names of cursors, the end of a transaction, the
    search path, and where a simple query stops. *)

From S2P Require Import Prelude RustStr RustInt Regex Arrow Plan Config Exasol Cursor.
From S2P Require Import CursorSpec CursorTheorems Policy Translator Metadata Responses.
From S2P Require Import Params ParamsTheorems ExasolSession Session SessionTheorems.
#[local] Open Scope nat_scope.

(** The rows of a response. *)
Definition response_rows `{ArrowLib} (r : GatewayResponse) : list cursor_row :=
  match r with
  | RArrowQuery _ batches _ _ => step_row_list (StepArrow batches)
  | RTypedQuery _ rows _ _ => step_row_list (StepTyped rows)
  | _ => []
  end.

(** The names and types of its columns come with the data of the cursor. *)
Definition response_of_data `{ArrowLib} (d : CursorData) (r : GatewayResponse) : Prop :=
  match d, r with
  | CArrow schema _, RArrowQuery schema' _ tag fold_labels =>
      schema' = schema /\ tag = Some (lit "FETCH") /\ fold_labels = false
  | CTyped columns _, RTypedQuery columns' _ tag fold_labels =>
      columns' = columns /\ tag = Some (lit "FETCH") /\ fold_labels = false
  | _, _ => False
  end.

Section flow.
Context `{BuildProfile} `{RegexEngine} `{ArrowLib} `{JsonLib} `{Transpiler}.
Context {T : Type} `{!ExasolTransport T}.
Variable config : AppConfig.
Implicit Types (c : Client (T := T)) (s : SessionState (T := T)).

Lemma with_session_eq {A} (m : session_m (T := T) A) c s :
  client_session c = Some s ->
  with_session m c = ((m s).1, set_session (Some (m s).2) c).
Proof. intros E. unfold with_session. rewrite E. by destruct (m s). Qed.

Lemma set_session_same c s : client_session c = Some s -> set_session (Some s) c = c.
Proof. intros E. destruct c. cbn in *. by subst. Qed.

(** ** FETCH *)

Lemma fetch_response_of (cur : GatewayCursor) rows :
  same_kind (data cur) rows ->
  exists resp, fetch_response (metadata cur) rows = Ok resp
    /\ response_rows resp = step_row_list rows /\ response_of_data (data cur) resp.
Proof.
  unfold metadata. destruct (data cur), rows; intros []; by eexists.
Qed.

(** A FETCH returns the rows of the specification and moves only its cursor. *)
Lemma fetch_eq c s p cur :
  client_session c = Some s -> cursors s !! position_name p = Some cur ->
  cursor_ok cur -> direction_fits cur (position_direction p) ->
  scroll cur = true \/ direction_requires_scroll (position_direction p) = false ->
  exists resp,
    let spec := spec_apply (size cur) (position_direction p) (position cur) in
    fetch_cursor p c
      = (Ok [resp],
         set_session (Some (set_cursors
           (<[position_name p := set_position cur spec.1]> (cursors s)) s)) c)
    /\ response_rows resp = pick (data_rows (data cur)) spec.2
    /\ response_of_data (data cur) resp.
Proof.
  intros Hs Hcur Hok Hfit Hsc.
  destruct (apply_implements CURSOR_FUEL cur (position_direction p) true) as (st & E & Hrows & _);
    [unfold CURSOR_FUEL; lia|done..|].
  destruct (apply_stays _ _ _ _ Hok _ _ E) as (_ & _ & _ & Hkind).
  destruct (fetch_response_of cur (step_rows st) Hkind) as (resp & Hf & Hr & Hd).
  exists resp. cbn zeta. split_and!; [|by rewrite Hr|done].
  unfold fetch_cursor. rewrite (with_session_eq _ _ s) by done.
  unfold step_cursor. by rewrite Hcur, E, Hf.
Qed.

(** ** DECLARE *)

Lemma declare_eq c s d q o t cd row_count :
  client_session c = Some s -> cursors s !! declare_name d = None ->
  classify_statement (declare_query d) = Ok (Execute (lit "SELECT") row_count) ->
  translate_client_sql config (declare_query d) = Ok q ->
  execute q (ss_exasol s) = (Ok o, t) -> cursor_data_of o = Some cd ->
  declare_cursor config d c
  = (Ok [RExecution (lit "DECLARE CURSOR") None],
     set_session (Some (set_cursors
       (<[declare_name d := {| data := cd; position := -1; scroll := declare_scroll d;
                               hold := declare_hold d |}]> (cursors s)) (set_exasol t s))) c).
Proof.
  intros Hs Hfree Hcl Htr Hx Ho.
  assert (Hno : forall t', has_cursor (declare_name d) (set_exasol t' s) = false).
  { intros t'. unfold has_cursor. cbn. rewrite Hfree. apply bool_decide_eq_false. by intros []. }
  unfold declare_cursor. eapply bind_step; [unfold lift; by rewrite Hcl|].
  change (is_cursor_unsafe_query (Execute (lit "SELECT") row_count)) with false. cbn iota.
  eapply (bind_step _ _ _ false c).
  { rewrite (with_session_eq _ _ s) by done. cbn. rewrite set_session_same by done.
    by rewrite <- (Hno (ss_exasol s)). }
  cbn iota. eapply bind_step.
  { eapply bind_step; [unfold lift; by rewrite Htr|].
    unfold execute_exasol_sql. rewrite (with_session_eq _ _ s) by done.
    rewrite session_execute_eq, Hx. reflexivity. }
  rewrite Ho. rewrite (with_session_eq _ _ (set_exasol t s)) by done.
  unfold insert_cursor. by rewrite Hno.
Qed.

(** C11: what is declared is what is fetched.  When Exasol answers the translated
    query of a DECLARE with rows, the declaration succeeds, FETCH ALL then returns
    exactly those rows in their order, with the columns of the answer and without a
    further statement to Exasol, and a second FETCH ALL returns none. *)
Theorem declare_then_fetch_all c s d q o t cd row_count :
  client_session c = Some s -> cursors s !! declare_name d = None ->
  classify_statement (declare_query d) = Ok (Execute (lit "SELECT") row_count) ->
  translate_client_sql config (declare_query d) = Ok q ->
  execute q (ss_exasol s) = (Ok o, t) -> cursor_data_of o = Some cd -> data_fits cd ->
  let all := {| position_name := declare_name d; position_direction := All |} in
  exists c1 c2 c3 resp resp',
    execute_cursor_plan config (PlanDeclare d) c
      = (Ok [RExecution (lit "DECLARE CURSOR") None], c1)
    /\ execute_cursor_plan config (PlanFetch all) c1 = (Ok [resp], c2)
    /\ response_rows resp = data_rows cd /\ response_of_data cd resp
    /\ execute_cursor_plan config (PlanFetch all) c2 = (Ok [resp'], c3)
    /\ response_rows resp' = [] /\ exasol_of c3 = Some t.
Proof.
  intros Hs Hfree Hcl Htr Hx Ho Hfit all. cbn [execute_cursor_plan].
  rewrite (declare_eq c s d q o t cd row_count) by done.
  set (cur := {| data := cd |}). set (s1 := set_cursors _ _).
  pose proof (fresh_cursor_ok cd (declare_scroll d) (declare_hold d) Hfit) as Hok.
  change {| data := cd |} with cur in Hok. pose proof (size_nonneg cur) as Hn.
  destruct (fetch_eq (set_session (Some s1) c) s1 all cur) as (resp & E1 & R1 & D1);
    [done|apply lookup_insert_eq|done..|by right|].
  set (cur' := set_position cur _) in E1. set (s2 := set_cursors _ s1) in E1.
  assert (Hend : position cur' = size cur).
  { unfold cur'. cbn [position set_position spec_apply position_direction all].
    change (position cur) with (-1)%Z. rewrite walk_next by lia. cbn. lia. }
  assert (Hok' : cursor_ok cur') by (apply set_position_ok; [done|]; unfold cur' in Hend; cbn in *; lia).
  destruct (fetch_eq (set_session (Some s2) c) s2 all cur') as (resp' & E2 & R2 & _);
    [done|apply lookup_insert_eq|done..|by right|].
  eexists _, _, _, resp, resp'. split; [reflexivity|]. split; [exact E1|].
  split; [|split; [exact D1|split; [exact E2|split; [|done]]]].
  - rewrite R1. change (position cur) with (-1)%Z. cbn [spec_apply position_direction all].
    rewrite walk_next by lia. cbn [snd].
    replace (Z.min _ _ - -1)%Z with (size cur) by lia. change (-1 + 1)%Z with 0%Z.
    rewrite pick_seqZ by (unfold size; lia). unfold size. rewrite Nat2Z.id. apply firstn_all.
  - rewrite R2, Hend. change (size cur') with (size cur). cbn [spec_apply position_direction all].
    rewrite walk_next by lia. cbn [snd]. rewrite seqZ_nil by lia. done.
Qed.

(** ** The names of cursors *)

(** C36: cursor names are managed as PostgreSQL does: DECLARE of a taken name is
    refused with 42P03 before its query runs, FETCH, MOVE and CLOSE of an unknown
    name with 34000, and none of them changes the session; CLOSE removes exactly the
    cursor it names. *)
Theorem cursor_names c s name :
  client_session c = Some s ->
  (forall d row_count cur, declare_name d = name -> cursors s !! name = Some cur ->
     classify_statement (declare_query d) = Ok (Execute (lit "SELECT") row_count) ->
     execute_cursor_plan config (PlanDeclare d) c = (Ok [cursor_exists name], c))
  /\ (cursors s !! name = None ->
      (forall dir, execute_cursor_plan config
           (PlanFetch {| position_name := name; position_direction := dir |}) c
         = (Ok [cursor_missing name], c))
      /\ (forall dir, execute_cursor_plan config
           (PlanMove {| position_name := name; position_direction := dir |}) c
         = (Ok [cursor_missing name], c))
      /\ execute_cursor_plan config (PlanClose (CloseOne name)) c
         = (Ok [cursor_missing name], c))
  /\ (forall cur, cursors s !! name = Some cur ->
      exists c' s',
        execute_cursor_plan config (PlanClose (CloseOne name)) c
          = (Ok [RExecution (lit "CLOSE CURSOR") None], c')
        /\ client_session c' = Some s' /\ ss_exasol s' = ss_exasol s
        /\ cursors s' !! name = None
        /\ (forall other, other <> name -> cursors s' !! other = cursors s !! other)).
Proof.
  intros Hs. split_and!; cbn [execute_cursor_plan].
  - intros d rc cur <- Hcur Hcl. unfold declare_cursor.
    eapply bind_step; [unfold lift; by rewrite Hcl|].
    change (is_cursor_unsafe_query (Execute (lit "SELECT") rc)) with false. cbn iota.
    eapply (bind_step _ _ _ true c); [|done].
    rewrite (with_session_eq _ _ s) by done. cbn. rewrite set_session_same by done.
    unfold has_cursor. rewrite Hcur. by rewrite bool_decide_eq_true_2.
  - intros Hno. unfold fetch_cursor, move_cursor, close_cursor, has_cursor.
    split_and!; intros; rewrite (with_session_eq _ _ s) by done; unfold step_cursor; cbn;
      rewrite Hno; cbn; by rewrite set_session_same.
  - intros cur Hcur. unfold close_cursor. rewrite (with_session_eq _ _ s) by done.
    unfold has_cursor. rewrite Hcur, bool_decide_eq_true_2 by done. cbn.
    eexists _, _. split_and!; [reflexivity..| |].
    + apply lookup_delete_eq.
    + intros other Hne. by apply lookup_delete_ne.
Qed.

(** ** Transactions *)

Lemma statement_plan sql plan c :
  detect sql = None -> classify_statement sql = Ok plan ->
  execute_statement config sql c = execute_plan config sql plan c.
Proof.
  intros Hd Hcl. rewrite statement_other by done.
  eapply bind_step; [unfold lift; by rewrite Hcl|done].
Qed.

(** C22: the end of a transaction (COMMIT, ROLLBACK, END, ABORT) closes exactly the
    cursors declared without hold, answers with its command, and changes nothing
    else; what Exasol has done is not undone. *)
Theorem transaction_end_cursors sql command c s :
  detect sql = None -> classify_statement sql = Ok (ClientTransactionEnd command) ->
  client_session c = Some s ->
  exists c' s',
    execute_statement config sql c = (Ok [RTransactionEnd command], c')
    /\ client_session c' = Some s' /\ client_pid c' = client_pid c
    /\ (forall name cur, cursors s' !! name = Some cur
                         <-> cursors s !! name = Some cur /\ hold cur = true)
    /\ ss_exasol s' = ss_exasol s /\ extended_results s' = extended_results s
    /\ current_schema s' = current_schema s.
Proof.
  intros Hd Hcl Hs. rewrite (statement_plan _ (ClientTransactionEnd command)) by done.
  exists (set_session (Some (set_cursors (filter (fun p => hold p.2 = true) (cursors s)) s)) c).
  eexists. split_and!; try done.
  - cbn [execute_plan]. eapply bind_step; [|done]. unfold clear_non_hold_cursors. by rewrite Hs.
  - intros name cur. cbn. by rewrite map_lookup_filter_Some.
Qed.

(** ** The search path *)

(** C23: SET search_path opens the schema in Exasol under a quoted identifier that
    reads back as its name, and takes effect only when Exasol accepts it: SHOW then
    reports it; on an error the client sees the error and the former schema stays. *)
Theorem search_path_follows_exasol sql schema c s :
  detect sql = None -> classify_statement sql = Ok (SetSearchPath schema) ->
  client_session c = Some s ->
  (exists body, open_schema_sql schema = lit "OPEN SCHEMA `" ++ body
                /\ lex_quoted 34 body = Some (schema, []))
  /\ (forall o t, execute (open_schema_sql schema) (ss_exasol s) = (Ok o, t) ->
      exists c', execute_statement config sql c = (Ok [RExecution (lit "SET") None], c')
        /\ execute_plan config [] ShowSearchPath c'
           = (Ok [RQuery [lit "search_path"] [[Some schema]]], c'))
  /\ (forall e t, execute (open_schema_sql schema) (ss_exasol s) = (Err e, t) ->
      exists c', execute_statement config sql c = (Err (map_exasol_execution_error e), c')
        /\ execute_plan config [] ShowSearchPath c'
           = (Ok [RQuery [lit "search_path"]
                    [[Some (default (lit "public") (current_schema s))]]], c')).
Proof.
  intros Hd Hcl Hs. rewrite (statement_plan _ (SetSearchPath schema)) by done.
  cbn [execute_plan]. rewrite (with_session_eq (set_search_path schema) c s) by done.
  split_and!.
  - unfold open_schema_sql. eexists. split; [reflexivity|].
    apply (lex_quoted_doubling 34 schema []). done.
  - intros o t E.
    assert (Hset : set_search_path schema s
      = (Ok [RExecution (lit "SET") None], set_current_schema (Some schema) (set_exasol t s))).
    { eapply bind_step; [rewrite session_execute_eq, E; reflexivity|done]. }
    rewrite Hset. eexists. split; [reflexivity|done].
  - intros e t E.
    assert (Hset : set_search_path schema s
                   = (Err (map_exasol_execution_error e), set_exasol t s)).
    { apply bind_err. by rewrite session_execute_eq, E. }
    rewrite Hset. eexists. split; [reflexivity|done].
Qed.

(** ** Simple queries *)

(** The statements run one after the other, each without an error response. *)
Inductive runs : list str -> Client (T := T) -> list Response -> Client (T := T) -> Prop :=
| runs_nil c : runs [] c [] c
| runs_cons statement rest c rs c1 rs' c2 :
    execute_sql config statement c = (Ok rs, c1) -> existsb is_error_response rs = false ->
    runs rest c1 rs' c2 -> runs (statement :: rest) c (rs ++ rs') c2.

Lemma execute_statements_runs pre rest c rs c1 acc :
  runs pre c rs c1 ->
  execute_statements config (pre ++ rest) acc c = execute_statements config rest (acc ++ rs) c1.
Proof.
  intros Hr. revert acc. induction Hr as [c|st pre c rs c1 rs' c2 E Hno _ IH]; intros acc.
  { by rewrite app_nil_r. }
  cbn [app execute_statements]. eapply bind_step; [exact E|]. by rewrite Hno, IH, app_assoc.
Qed.

(** C16: a simple query runs its statements in order and stops at the first one that
    answers with an error: the responses up to and with it are returned, and the
    statements after it have no effect.  A statement that fails outright gives its
    error alone, without the responses of those before it. *)
Theorem simple_query_stops query pre statement post c rs c1 :
  split_simple_query query = pre ++ statement :: post -> runs pre c rs c1 ->
  (forall rs' c2, execute_sql config statement c1 = (Ok rs', c2) ->
     existsb is_error_response rs' = true ->
     execute_simple_query config query c = (Ok (rs ++ rs'), c2))
  /\ (forall e c2, execute_sql config statement c1 = (Err e, c2) ->
     execute_simple_query config query c = (Err e, c2))
  /\ (forall rs' c2, runs (statement :: post) c1 rs' c2 ->
     execute_simple_query config query c = (Ok (rs ++ rs'), c2)).
Proof.
  intros Hsp Hr.
  assert (Hq : execute_simple_query config query c
               = execute_statements config (statement :: post) rs c1).
  { unfold execute_simple_query. rewrite Hsp. rewrite <- (app_nil_l rs).
    rewrite <- (execute_statements_runs pre) with (c := c) by done. by destruct pre. }
  rewrite Hq. split_and!.
  - intros rs' c2 E Herr. cbn [execute_statements]. eapply bind_step; [exact E|]. by rewrite Herr.
  - intros e c2 E. cbn [execute_statements]. by apply bind_err.
  - intros rs' c2 Hr2. pose proof (execute_statements_runs _ [] _ _ _ rs Hr2) as E.
    rewrite app_nil_r in E. by rewrite E.
Qed.
End flow.
