(* ===== verification/CursorPaging.v ===== *)
(** * Paging through a cursor

    What client libraries with server-side cursors do: a DECLARE, then the same FETCH of
    so many rows again and again, all as SQL text.  The parser of cursor movements
    (CursorText.v), the session (SessionFlow.v) and the cursors (CursorSpec.v) together
    hand out the rows of the query page by page. *)

From Stdlib Require Import ZifyN ZifyBool.
From S2P Require Import Prelude RustStr RustInt Regex RegexLemmas Arrow Plan Config Exasol Cursor.
From S2P Require Import CursorSpec CursorTheorems Policy Metadata Responses TextScan TranslatorTheorems.
From S2P Require Import Translator CursorText DeclareText ExasolSession Session SessionTheorems SessionFlow.
#[local] Open Scope nat_scope.

(** ** Metadata requests are SELECTs *)

Section detection.
Context `{BuildProfile} `{RegexEngine}.

Lemma detect_select_only sql :
  is_ascii (trim sql) ->
  starts_with (lit "select") (to_ascii_lowercase (trim sql)) = false -> detect sql = None.
Proof.
  intros Ha Hno.
  assert (Hre : forall re, starts_word (lit "select") re = true -> is_match re (trim sql) = false).
  { intros re Hre. apply (other_verb_match (lit "select")); [by apply lit_ascii|done..]. }
  unfold detect. by rewrite !Hre by (vm_compute; reflexivity).
Qed.

Lemma detect_declare name sc h query :
  declarable name sc h query -> detect (declare_text name sc h query) = None.
Proof.
  intros [_ _ (q & z & -> & Hz & _) _ _ _].
  assert (Ht : exists s, declare_text name sc h (q ++ [z]) = 68%N :: s ++ [z]).
  { unfold declare_text. eexists. cbn [app]. by rewrite !app_assoc. }
  destruct Ht as [s ->]. unfold detect. rewrite trim_ends by done.
  assert (Hre : forall re, refuses 68 re = true -> is_match re (68%N :: s ++ [z]) = false).
  { intros re Hre. unfold is_match. by rewrite other_letter. }
  by rewrite !Hre by (vm_compute; reflexivity).
Qed.

Lemma detect_position verb prep d name :
  verb = "FETCH"%string \/ verb = "MOVE"%string ->
  prep = "FROM"%string \/ prep = "IN"%string -> is_name name ->
  detect (position_text verb d prep name) = None.
Proof.
  intros Hverb Hprep Hname.
  destruct (text_ends verb prep d name) as (a & s & z & E & Ha & Hz); [done..|].
  assert (Ht : trim (position_text verb d prep name) = position_text verb d prep name).
  { rewrite E. apply trim_ends; [done|by apply token_char_facts]. }
  apply detect_select_only; rewrite Ht; [by apply text_ascii|].
  destruct (text_verb verb prep d name) as [rest ->]. by destruct Hverb as [->| ->].
Qed.
End detection.

(** ** One page *)

(** The movements that go forward by a number of rows. *)
Definition goes_forward (n : Z) (d : CursorDirection) : Prop :=
  d = Count n \/ d = Forward (Some n) \/ d = Next /\ n = 1%Z.

Lemma goes_forward_spec (size n p : Z) d :
  goes_forward n d -> (0 < n)%Z ->
  spec_apply size d p = walk (spec_next size) (Z.to_nat n) p.
Proof.
  intros [->|[->|[-> ->]]] Hn; cbn [spec_apply]; unfold spec_move.
  1,2: by rewrite (proj2 (Z.eqb_neq n 0)), (proj2 (Z.ltb_lt 0 n)) by lia.
  change (Z.to_nat 1) with 1. cbn [walk]. destruct (spec_next size p). by rewrite app_nil_r.
Qed.

(** The position after [i] pages of [n] rows, and the rows of the next one. *)
Definition page_position (size n : Z) (i : nat) : Z := Z.min (Z.of_nat i * n - 1) size.

Lemma page_step {A} (rows : list A) n d (i : nat) :
  let size := Z.of_nat (length rows) in
  goes_forward n d -> (0 < n)%Z ->
  let step := spec_apply size d (page_position size n i) in
  step.1 = page_position size n (S i)
  /\ pick rows step.2 = take (Z.to_nat n) (drop (i * Z.to_nat n) rows).
Proof.
  intros size Hd Hn step. unfold step. rewrite (goes_forward_spec _ n) by done.
  rewrite walk_next by (unfold page_position; lia). cbn [fst snd].
  rewrite Z2Nat.id by lia. unfold page_position. split; [lia|].
  destruct (Z.le_gt_cases size (Z.of_nat i * n - 1)) as [Hle|Hgt].
  - rewrite seqZ_nil by lia. by rewrite drop_ge, take_nil by lia.
  - rewrite pick_seqZ by lia.
    replace (Z.to_nat (Z.min (Z.of_nat i * n - 1) size + 1)) with (i * Z.to_nat n) by lia.
    set (l := drop (i * Z.to_nat n) rows).
    assert (Hl : Z.of_nat (length l) = (size - Z.of_nat i * n)%Z)
      by (unfold l; rewrite length_drop; lia).
    destruct (Z.le_gt_cases n (Z.of_nat (length l))) as [Hfull|Hlast].
    + f_equal. lia.
    + rewrite !firstn_all2 by lia. done.
Qed.

Section paging.
Context `{BuildProfile} `{RegexEngine} `{ArrowLib} `{JsonLib} `{Transpiler}.
Context {T : Type} `{!ExasolTransport T}.
Variable config : AppConfig.
Implicit Types (c : Client (T := T)) (s : SessionState (T := T)).

Lemma goes_forward_ok cur n d :
  goes_forward n d -> (0 < n <= i64_max)%Z ->
  direction_writable d /\ direction_fits cur d /\ direction_requires_scroll d = false.
Proof.
  intros [->|[->|[-> ->]]] Hn; unfold direction_writable, direction_fits; cbn; split_and!;
    unfold_bounds; lia || done.
Qed.

(** Statements one after the other, with their responses. *)
Fixpoint in_turn (statements : list str) : client_m (T := T) (list GatewayResponse) :=
  match statements with
  | [] => mret []
  | sql :: rest =>
      responses ← execute_statement config sql;
      others ← in_turn rest;
      mret (responses ++ others)
  end.

Lemma in_turn_cons sql rest c rs c1 others c2 :
  execute_statement config sql c = (Ok rs, c1) -> in_turn rest c1 = (Ok others, c2) ->
  in_turn (sql :: rest) c = (Ok (rs ++ others), c2).
Proof. intros E1 E2. cbn [in_turn]. do 2 (eapply bind_step; [done|]). done. Qed.

Variables (name : str) (prep : string) (d : CursorDirection) (n : Z) (cd : CursorData).
Hypotheses (Hname : is_name name) (Hset : not_settings name).
Hypotheses (Hprep : prep = "FROM"%string \/ prep = "IN"%string).
Hypotheses (Hd : goes_forward n d) (Hn : (0 < n <= i64_max)%Z).

Let rows := data_rows cd.
Let page i := take (Z.to_nat n) (drop (i * Z.to_nat n) rows).

(** The session has read [i] pages of the cursor. *)
Definition pages_read (i : nat) (t : T) (c : Client (T := T)) : Prop :=
  exists s cur, client_session c = Some s /\ cursors s !! name = Some cur /\ cursor_ok cur
    /\ data cur = cd /\ position cur = page_position (Z.of_nat (length rows)) n i
    /\ ss_exasol s = t.

Lemma fetch_page i t c :
  pages_read i t c ->
  exists resp c',
    execute_statement config (position_text "FETCH" d prep name) c = (Ok [resp], c')
    /\ response_rows resp = page i /\ response_of_data cd resp /\ pages_read (S i) t c'.
Proof.
  intros (s & cur & Hs & Hcur & Hok & Hdata & Hpos & Ht).
  destruct (goes_forward_ok cur n d Hd Hn) as (Hw & Hfit & Hsc).
  set (p := {| position_name := name; position_direction := d |}).
  rewrite (statement_plan _ _ (Cursor (PlanFetch p))).
  2: by apply detect_position; auto.
  2: by apply (text_classified "FETCH"); auto.
  assert (Hsize : size cur = Z.of_nat (length rows)) by (unfold size; by rewrite Hdata).
  assert (Hn0 : (0 < n)%Z) by lia.
  pose proof (page_step rows n d i Hd Hn0) as [Hstep Hpick]. cbv zeta in Hstep, Hpick.
  rewrite <- Hsize in Hstep, Hpick, Hpos. rewrite <- Hpos in Hstep, Hpick.
  destruct (fetch_eq c s p cur Hs Hcur Hok Hfit (or_intror Hsc)) as (resp & E & R & D).
  cbn [position_direction p] in E, R. rewrite Hdata in R, D. rewrite Hstep in E.
  exists resp. eexists. split; [exact E|]. split; [by rewrite R|]. split; [done|].
  eexists _, _. split; [reflexivity|]. split; [apply lookup_insert_eq|].
  split_and!; [|done|by rewrite Hsize|done].
  apply set_position_ok; [done|]. rewrite <- Hstep. apply spec_apply_range; [apply size_nonneg|].
  apply Hok.
Qed.

Lemma fetch_pages k i t c :
  pages_read i t c ->
  exists pages c',
    in_turn (replicate k (position_text "FETCH" d prep name)) c = (Ok pages, c')
    /\ response_rows <$> pages = page <$> seq i k
    /\ Forall (response_of_data cd) pages /\ pages_read (i + k) t c'.
Proof.
  revert i c. induction k as [|k IH]; intros i c Hc.
  { exists [], c. rewrite Nat.add_0_r. by split_and!. }
  destruct (fetch_page i t c Hc) as (resp & c1 & E & R & D & Hc1).
  destruct (IH (S i) c1 Hc1) as (pages & c2 & Es & Rs & Ds & Hc2).
  exists (resp :: pages), c2. cbn [replicate]. split_and!.
  - exact (in_turn_cons _ _ _ [resp] _ _ _ E Es).
  - cbn. by rewrite R, Rs.
  - by constructor.
  - by rewrite Nat.add_succ_r.
Qed.
End paging.

Lemma pages_join {A} (rows : list A) n k :
  mjoin ((fun i => take n (drop (i * n) rows)) <$> seq 0 k) = take (k * n) rows.
Proof.
  induction k as [|k IH]; [done|]. rewrite seq_S, fmap_app, join_app, IH. cbn.
  rewrite app_nil_r. rewrite (Nat.add_comm n), <- take_take_drop. done.
Qed.

(** C9: a client that declares a cursor and then sends the same FETCH of [n] rows again
    and again reads the rows of its query in pages.  When Exasol answers the query with
    rows, the [i]-th page has the [n] rows from the [i * n]-th on (fewer at the end, and
    none after it) with the columns of the answer, so that any number of pages together
    are so many first rows of the answer, in order, each once; Exasol is asked only for
    the query.  All statements are SQL text, the DECLARE with any name, options and
    query, the FETCH with any of its spellings (count, FORWARD, NEXT; FROM or IN). *)
Theorem cursor_pages `{BuildProfile} `{RegexEngine} `{ArrowLib} `{JsonLib} `{Transpiler}
    {T} `{!ExasolTransport T} config (c : Client (T := T)) s name sc h query q o t cd row_count
    prep d n k :
  client_session c = Some s -> cursors s !! name = None -> declarable name sc h query ->
  classify_statement query = Ok (Execute (lit "SELECT") row_count) ->
  translate_client_sql config query = Ok q ->
  execute q (ss_exasol s) = (Ok o, t) -> cursor_data_of o = Some cd -> data_fits cd ->
  prep = "FROM"%string \/ prep = "IN"%string -> goes_forward n d -> (0 < n <= i64_max)%Z ->
  let declare := declare_text name sc h query in
  let fetch := position_text "FETCH" d prep name in
  let size := Z.to_nat n in
  exists pages c',
    in_turn config (declare :: replicate k fetch) c
      = (Ok (RExecution (lit "DECLARE CURSOR") None :: pages), c')
    /\ response_rows <$> pages = (fun i => take size (drop (i * size) (data_rows cd))) <$> seq 0 k
    /\ mjoin (response_rows <$> pages) = take (k * size) (data_rows cd)
    /\ Forall (response_of_data cd) pages /\ exasol_of c' = Some t.
Proof.
  intros Hs Hfree Hdec Hq Htr Hx Ho Hfit Hprep Hd Hn declare fetch size.
  destruct (declarable_name name sc h query Hdec) as [Hname Hset].
  set (dec := declared name sc h query).
  pose proof (declare_eq config c s dec q o t cd row_count Hs Hfree Hq Htr Hx Ho) as E.
  set (s1 := set_cursors _ _) in E. set (c1 := set_session _ _) in E.
  assert (Hread : pages_read name n cd 0 t c1).
  { eexists s1, _. split; [done|]. split; [apply lookup_insert_eq|].
    split_and!; [by apply fresh_cursor_ok|done| |done]. cbn. unfold page_position. lia. }
  destruct (fetch_pages config _ prep d n cd Hname Hset Hprep Hd Hn k 0 t c1 Hread)
    as (pages & c2 & Es & Rs & Ds & s2 & cur & Hs2 & _ & _ & _ & _ & Ht).
  exists pages, c2. split_and!.
  - apply (in_turn_cons config _ _ _ [RExecution (lit "DECLARE CURSOR") None] c1); [|done].
    rewrite (statement_plan _ _ (Cursor (PlanDeclare dec))); [done| |].
    + by apply detect_declare.
    + by apply declare_classified.
  - exact Rs.
  - rewrite Rs. apply pages_join.
  - done.
  - unfold exasol_of. by rewrite Hs2, <- Ht.
Qed.
