(* ===== verification/SessionSpec.v ===== *)
(** * What a session promises

    A session as a PostgreSQL client sees it: cursors are lists of rows with a
    position, options and a name, the schema is a name, and Exasol is asked at most
    one question per statement.  Record batches, result columns, locks and the kept
    results do not occur.  [statement_agrees] shows that the gateway implements it
    for one statement, [run_refines] for any course of statements.

    A metadata request asks its question of the catalog and answers with rows made of
    the rows that come back.

    The specification is partial: a statement has none when its arithmetic leaves
    [i64] (the two inputs of CursorTheorems.v) or, for the numbers of a metadata
    answer, [i32], and when the transport does not return. *)

From S2P Require Import Prelude RustStr RustInt Regex Arrow Plan Config Exasol Cursor.
From S2P Require Import CursorSpec CursorTheorems Policy Translator Metadata Responses.
From S2P Require Import Params ExasolSession Session SessionTheorems SessionFlow.
#[local] Open Scope nat_scope.

Section spec.
Context `{BuildProfile} `{RegexEngine} `{ArrowLib} `{JsonLib} `{Transpiler}.
Context {T : Type} `{!ExasolTransport T}.
Variable config : AppConfig.

(** ** The abstract session *)

Record spec_cursor := {
  spec_rows : list cursor_row;
  spec_position : Z;
  spec_scroll : bool;
  spec_hold : bool }.

Record spec_session := {
  spec_cursors : gmap str spec_cursor;
  spec_schema : option str;
  spec_pid : Z;
  spec_backend : T }.

(** What the client is told: rows, the completion of a command, an error response,
    or an error that ends the message. *)
Inductive reply :=
| Nothing
| Rows (rows : list cursor_row)
| Completed (command : str) (count : option Z)
| Refused (sqlstate : str)
| Failed (sqlstate : str).

Definition with_cursors (m : gmap str spec_cursor) (a : spec_session) : spec_session :=
  {| spec_cursors := m; spec_schema := spec_schema a; spec_pid := spec_pid a;
     spec_backend := spec_backend a |}.
Definition with_schema (o : option str) (a : spec_session) : spec_session :=
  {| spec_cursors := spec_cursors a; spec_schema := o; spec_pid := spec_pid a;
     spec_backend := spec_backend a |}.
Definition with_backend (t : T) (a : spec_session) : spec_session :=
  {| spec_cursors := spec_cursors a; spec_schema := spec_schema a; spec_pid := spec_pid a;
     spec_backend := t |}.

(** ** The statements *)

Definition spec_result : Type := option (reply * spec_session).

(** Asks Exasol; an error is the client's. *)
Definition spec_ask (q : str) (a : spec_session)
    (k : ExasolOutcome -> spec_session -> spec_result) : spec_result :=
  match execute q (spec_backend a) with
  | (Ok o, t) => k o (with_backend t a)
  | (Err e, t) => Some (Failed (lit "XX000"), with_backend t a)
  | _ => None
  end.

(** Asks Exasol the translation of a client's statement. *)
Definition spec_ask_client (sql : str) (a : spec_session)
    (k : ExasolOutcome -> spec_session -> spec_result) : spec_result :=
  match translate_client_sql config sql with
  | Ok q => spec_ask q a k
  | Err e => Some (Failed (err_sqlstate e), a)
  | _ => None
  end.

Definition outcome_rows (o : ExasolOutcome) : option (list cursor_row) :=
  data_rows <$> cursor_data_of o.

Definition reply_of_outcome (command : str) (policy : RowCountPolicy) (o : ExasolOutcome) : reply :=
  match o with
  | RowCount n => Completed command (match policy with Include => Some (Z.max n 0) | Omit => None end)
  | ArrowRows _ | TypedRows _ _ => Rows (default [] (outcome_rows o))
  end.

(** The arithmetic of a move stays within [i64]. *)
Definition direction_fitsb (p : Z) (d : CursorDirection) : bool :=
  match d with
  | Forward (Some k) | Backward (Some k) | Count k => bool_decide (i64_min < k <= i64_max)%Z
  | Absolute t => bool_decide (is_i64 t)
  | Relative k => bool_decide (is_i64 (p + k))
  | _ => true
  end.

(** FETCH and MOVE by name: the cursor moves as CursorSpec.v says. *)
Definition spec_move_cursor (p : CursorPosition) (a : spec_session)
    (answer : Z -> list cursor_row -> list Z -> Z -> reply) : spec_result :=
  match spec_cursors a !! position_name p with
  | None => Some (Refused (lit "34000"), a)
  | Some cur =>
      let d := position_direction p in
      let n := Z.of_nat (length (spec_rows cur)) in
      if negb (spec_scroll cur) && direction_requires_scroll d then Some (Failed (lit "0A000"), a)
      else if direction_fitsb (spec_position cur) d then
        let '(q, idx) := spec_apply n d (spec_position cur) in
        Some (answer n (spec_rows cur) idx (spec_position cur),
              with_cursors (<[position_name p :=
                {| spec_rows := spec_rows cur; spec_position := q;
                   spec_scroll := spec_scroll cur; spec_hold := spec_hold cur |}]>
                (spec_cursors a)) a)
      else None
  end.

Definition spec_declare (d : CursorDeclare) (a : spec_session) : spec_result :=
  match classify_statement (declare_query d) with
  | Ok plan =>
      if is_cursor_unsafe_query plan then Some (Refused (lit "0A000"), a)
      else match spec_cursors a !! declare_name d with
      | Some _ => Some (Refused (lit "42P03"), a)
      | None => spec_ask_client (declare_query d) a (fun o a =>
          match outcome_rows o with
          | None => Some (Refused (lit "0A000"), a)
          | Some rows =>
              Some (Completed (lit "DECLARE CURSOR") None,
                    with_cursors (<[declare_name d :=
                      {| spec_rows := rows; spec_position := -1;
                         spec_scroll := declare_scroll d; spec_hold := declare_hold d |}]>
                      (spec_cursors a)) a)
          end)
      end
  | _ => None
  end.

Definition spec_cursor_plan (plan : CursorPlan) (a : spec_session) : spec_result :=
  match plan with
  | PlanDeclare d => spec_declare d a
  | PlanFetch p => spec_move_cursor p a (fun _ rows idx _ => Rows (pick rows idx))
  | PlanMove p => spec_move_cursor p a (fun n _ _ pos =>
      Completed (lit "MOVE") (Some (expected_count n (position_direction p) false pos)))
  | PlanClose CloseAll => Some (Completed (lit "CLOSE CURSOR") None, with_cursors ∅ a)
  | PlanClose (CloseOne name) =>
      match spec_cursors a !! name with
      | None => Some (Refused (lit "34000"), a)
      | Some _ => Some (Completed (lit "CLOSE CURSOR") None,
                        with_cursors (delete name (spec_cursors a)) a)
      end
  end.

Definition text_rows (rows : list (list (option str))) : reply := Rows (inr <$> rows).

Definition spec_plan (sql : str) (plan : StatementPlan) (a : spec_session) : spec_result :=
  match plan with
  | Empty => Some (Nothing, a)
  | ClientSet => Some (Completed (lit "SET") None, a)
  | SetSearchPath schema =>
      spec_ask (open_schema_sql schema) a (fun _ a =>
        Some (Completed (lit "SET") None, with_schema (Some schema) a))
  | ShowSearchPath => Some (text_rows [[Some (default (lit "public") (spec_schema a))]], a)
  | ClientTransactionStart => Some (Completed (lit "BEGIN") None, a)
  | ClientTransactionEnd command =>
      Some (Completed command None,
            with_cursors (filter (fun p => spec_hold p.2 = true) (spec_cursors a)) a)
  | ClientShow _ value => Some (text_rows [[Some value]], a)
  | ClientSelect _ rows => Some (text_rows rows, a)
  | BackendPid _ => Some (text_rows [[Some (show_int (spec_pid a))]], a)
  | Cursor plan => spec_cursor_plan plan a
  | Reject sqlstate _ => Some (Refused sqlstate, a)
  | Execute command policy =>
      spec_ask_client sql a (fun o a => Some (reply_of_outcome command policy o, a))
  end.

(** *** Metadata requests *)

(** The catalog's rows as texts; a row count is not an answer. *)
Definition catalog_rows (o : ExasolOutcome) : option (list (list (option str))) :=
  match o with
  | ArrowRows batches => Some (arrow_batches_to_text_rows batches)
  | TypedRows _ rows => Some rows
  | RowCount _ => None
  end.

(** The schemas a client sees: those of the catalog and the two of PostgreSQL, sorted. *)
Definition visible_schemas (rows : list (list (option str))) : list (list (option str)) :=
  sort_rows (rows ++ [[Some (lit "information_schema")]; [Some (lit "pg_catalog")]]).

(** The schemas as rows of [pg_namespace], numbered from 2200. *)
Fixpoint namespace_rows (oid : Z) (schemas : list (list (option str)))
    : option (list (list (option str))) :=
  match schemas with
  | [] => Some []
  | row :: schemas =>
      if (oid <=? i32_max)%Z then
        rest ← namespace_rows (oid + 1) schemas;
        Some ([Some (show_int oid); mjoin (row !! 0); Some (lit "10"); None] :: rest)
      else None
  end.

(** What a request makes of the catalog's rows. *)
Definition spec_catalog (mp : MetadataPlan) (rows : list (list (option str)))
    (a : spec_session) : spec_result :=
  match mp with
  | JdbcSchemas =>
      Some (text_rows ((fun row => [mjoin (row !! 0); Some (lit "exasol")])
                         <$> visible_schemas rows), a)
  | PgNamespace =>
      rows ← namespace_rows 2200 (visible_schemas rows); Some (text_rows rows, a)
  | _ =>
      match mapM jdbc_column_row rows with
      | Ok rows => Some (text_rows rows, a)
      | Err e => Some (Failed (err_sqlstate e), a)
      | _ => None
      end
  end.

(** A request without a query has a fixed answer; the answer of a query of tables or of
    names is handed on as it is. *)
Definition spec_metadata (mp : MetadataPlan) (a : spec_session) : spec_result :=
  match metadata_query mp with
  | None => Some (text_rows (match mp with PgUser => [pg_user_row] | _ => [] end), a)
  | Some q =>
      spec_ask q a (fun o a =>
        match mp with
        | JdbcSchemas | PgNamespace | JdbcColumns _ _ _ =>
            match catalog_rows o with
            | None => Some (Failed (lit "XX000"), a)
            | Some rows => spec_catalog mp rows a
            end
        | _ => Some (reply_of_outcome (lit "SELECT") Omit o, a)
        end)
  end.

Definition spec_statement (sql : str) (a : spec_session) : spec_result :=
  match detect sql with
  | Some mp => spec_metadata mp a
  | None => match classify_statement sql with Ok plan => spec_plan sql plan a | _ => None end
  end.

Fixpoint spec_run (sqls : list str) (a : spec_session) : option (list reply * spec_session) :=
  match sqls with
  | [] => Some ([], a)
  | sql :: sqls =>
      '(r, a) ← spec_statement sql a;
      '(rs, a) ← spec_run sqls a;
      Some (r :: rs, a)
  end.

(** ** What the gateway's state and answers mean *)

Definition abs_cursor (cur : GatewayCursor) : spec_cursor :=
  {| spec_rows := data_rows (data cur); spec_position := position cur;
     spec_scroll := scroll cur; spec_hold := hold cur |}.

Definition abs (pid : Z) (s : SessionState (T := T)) : spec_session :=
  {| spec_cursors := abs_cursor <$> cursors s; spec_schema := current_schema s;
     spec_pid := pid; spec_backend := ss_exasol s |}.

Definition view_response (r : GatewayResponse) : reply :=
  match r with
  | REmpty => Nothing
  | RQuery _ rows => text_rows rows
  | RArrowQuery _ _ _ _ | RTypedQuery _ _ _ _ => Rows (response_rows r)
  | RExecution command count => Completed command count
  | RTransactionStart command | RTransactionEnd command => Completed command None
  | RError sqlstate _ => Refused sqlstate
  end.

Definition view (r : outcome PgError (list GatewayResponse)) : option reply :=
  match r with
  | Ok [response] => Some (view_response response)
  | Err e => Some (Failed (err_sqlstate e))
  | _ => None
  end.

Fixpoint run (sqls : list str) (c : Client (T := T))
    : list (outcome PgError (list GatewayResponse)) * Client (T := T) :=
  match sqls with
  | [] => ([], c)
  | sql :: sqls =>
      let '(r, c) := execute_statement config sql c in
      let '(rs, c) := run sqls c in (r :: rs, c)
  end.
End spec.

(** ** The gateway implements the specification *)

Section refinement.
Context `{BuildProfile} `{RegexEngine} `{ArrowLib} `{JsonLib} `{Transpiler}.
Context {T : Type} `{!ExasolTransport T}.
Variable config : AppConfig.
Implicit Types (c : Client (T := T)) (s : SessionState (T := T)) (a : spec_session (T := T)).

(** Where the specification has an answer, the gateway gives it and reaches a state
    with the meaning of the specification's. *)
Definition agrees (x : outcome PgError (list GatewayResponse) * Client (T := T))
    (sp : spec_result (T := T)) : Prop :=
  forall r a, sp = Some (r, a) ->
    view x.1 = Some r
    /\ exists s, client_session x.2 = Some s /\ abs (client_pid x.2) s = a.

Lemma agrees_intro o c s r a :
  view o = Some r -> client_session c = Some s -> abs (client_pid c) s = a ->
  agrees (o, c) (Some (r, a)).
Proof. intros Ho Hs Ha ? ? [= <- <-]. eauto. Qed.

Lemma agrees_bind {A : Type} (m : client_m (T := T) A) (x : A) k c c1 sp :
  m c = (Ok x, c1) -> agrees (k x c1) sp -> agrees ((m ≫= k) c) sp.
Proof. intros E Hk. by rewrite (bind_step _ _ _ _ _ _ E eq_refl). Qed.

Lemma agrees_assoc {A B : Type} (m : client_m (T := T) A) (f : A -> client_m (T := T) B)
    (k : B -> client_m (T := T) (list GatewayResponse)) c sp :
  agrees ((m ≫= (fun x => f x ≫= k)) c) sp -> agrees (((m ≫= f) ≫= k) c) sp.
Proof.
  intros Hk. exact (eq_ind_r (fun x => agrees x sp) Hk (stateful_bind_assoc m f k c)).
Qed.

Lemma abs_set_cursors pid m s :
  abs pid (set_cursors m s) = with_cursors (abs_cursor <$> m) (abs pid s).
Proof. done. Qed.

Lemma abs_lookup pid s name :
  spec_cursors (abs pid s) !! name = abs_cursor <$> cursors s !! name.
Proof. apply lookup_fmap. Qed.

Lemma direction_fitsb_ok cur d : direction_fitsb (position cur) d = true -> direction_fits cur d.
Proof. destruct d as [| | | |t|k|[k|]|[k|]| |k]; cbn; try done; apply bool_decide_eq_true. Qed.

Lemma agrees_ask q k' k c s :
  client_session c = Some s ->
  (forall o t, execute q (ss_exasol s) = (Ok o, t) ->
     agrees (k' o (set_session (Some (set_exasol t s)) c))
            (k o (with_backend t (abs (client_pid c) s)))) ->
  agrees ((execute_exasol_sql q ≫= k') c) (spec_ask q (abs (client_pid c) s) k).
Proof.
  intros Hs Hk. unfold spec_ask. cbn [spec_backend abs].
  assert (E : execute_exasol_sql q c = ((session_execute q s).1,
                set_session (Some (session_execute q s).2) c)) by by apply with_session_eq.
  rewrite session_execute_eq in E. destruct (execute q (ss_exasol s)) as [[o|e| |] t]; cbn in E.
  - intros r a Ha. rewrite (bind_step _ _ _ _ _ _ E eq_refl). by apply (Hk o t).
  - rewrite (bind_err _ _ _ _ _ E). by eapply agrees_intro.
  - done.
  - done.
Qed.

Lemma agrees_ask_client sql k' k c s :
  client_session c = Some s ->
  (forall o t, agrees (k' o (set_session (Some (set_exasol t s)) c))
                      (k o (with_backend t (abs (client_pid c) s)))) ->
  agrees ((q ← lift (translate_client_sql config sql); execute_exasol_sql q ≫= k') c)
         (spec_ask_client config sql (abs (client_pid c) s) k).
Proof.
  intros Hs Hk. unfold spec_ask_client.
  destruct (translate_client_sql config sql) as [q|e| |]; try done.
  - change (agrees ((execute_exasol_sql q ≫= k') c) (spec_ask q (abs (client_pid c) s) k)).
    apply agrees_ask; eauto.
  - by eapply agrees_intro.
Qed.

Lemma execute_client_sql_bind {B : Type} sql (k : ExasolOutcome -> client_m (T := T) B) c :
  (execute_client_sql config sql ≫= k) c
  = (q ← lift (translate_client_sql config sql); execute_exasol_sql q ≫= k) c.
Proof. unfold execute_client_sql. by destruct (translate_client_sql config sql). Qed.

(** FETCH and MOVE, on the cursor they name. *)
Lemma agrees_move p (rr : bool) respond answer c s :
  client_session c = Some s -> session_ok s ->
  (forall cur st,
     same_kind (data cur) (step_rows st) ->
     let d := position_direction p in
     let idx := (spec_apply (size cur) d (position cur)).2 in
     step_row_list (step_rows st) = (if rr then pick (data_rows (data cur)) idx else []) ->
     step_count st = expected_count (size cur) d rr (position cur) ->
     view (respond cur st) = Some (answer (size cur) (data_rows (data cur)) idx (position cur))) ->
  agrees (with_session (step_cursor p rr respond) c)
         (spec_move_cursor p (abs (client_pid c) s) answer).
Proof.
  intros Hs Hok Hans. rewrite (with_session_eq _ _ s) by done.
  unfold spec_move_cursor, step_cursor. rewrite abs_lookup.
  destruct (cursors s !! position_name p) as [cur|] eqn:Hcur; cbn [fmap option_fmap option_map].
  2: { by eapply agrees_intro. }
  cbn [abs_cursor spec_scroll spec_position spec_rows spec_hold]. change (Z.of_nat _) with (size cur).
  destruct (negb (scroll cur) && _) eqn:Hsc.
  { unfold apply. rewrite Hsc. by eapply agrees_intro. }
  destruct (direction_fitsb (position cur) (position_direction p)) eqn:Hfit; [|done].
  pose proof (Hok _ _ Hcur) as Hcok. apply direction_fitsb_ok in Hfit.
  destruct (apply_implements CURSOR_FUEL cur (position_direction p) rr) as (st & E & Hrows & Hcount);
    [unfold CURSOR_FUEL; lia|done..| |].
  { destruct (scroll cur); [by left|by right]. }
  destruct (apply_stays _ _ _ _ Hcok _ _ E) as (_ & _ & _ & Hkind). rewrite E.
  specialize (Hans cur st Hkind Hrows Hcount).
  destruct (spec_apply _ _ _) as [q idx]. cbn [fst snd] in *.
  eapply agrees_intro; [exact Hans|done|]. cbn [set_session client_pid].
  rewrite abs_set_cursors, fmap_insert. done.
Qed.

Lemma agrees_declare d c s :
  client_session c = Some s ->
  agrees (declare_cursor config d c) (spec_declare config d (abs (client_pid c) s)).
Proof.
  intros Hs. unfold spec_declare, declare_cursor.
  destruct (classify_statement (declare_query d)) as [plan|e| |]; try done.
  eapply agrees_bind; [reflexivity|].
  destruct (is_cursor_unsafe_query plan); [by eapply agrees_intro|].
  eapply agrees_bind; [by rewrite (with_session_eq _ _ s), set_session_same|].
  rewrite abs_lookup. unfold has_cursor at 1.
  destruct (cursors s !! declare_name d) as [cur|] eqn:Hfree; cbn [fmap option_fmap option_map].
  { rewrite bool_decide_eq_true_2 by eauto. by eapply agrees_intro. }
  rewrite bool_decide_eq_false_2 by (by intros []). rewrite execute_client_sql_bind.
  apply agrees_ask_client; [done|]. intros o t. unfold outcome_rows.
  destruct (cursor_data_of o) as [cd|]; cbn [fmap option_fmap option_map];
    [|by eapply agrees_intro].
  rewrite (with_session_eq _ _ (set_exasol t s)) by done.
  unfold insert_cursor, has_cursor. cbn [cursors set_exasol]. rewrite Hfree.
  rewrite bool_decide_eq_false_2 by (by intros []).
  eapply agrees_intro; [done..|]. cbn [snd set_session client_pid].
  rewrite abs_set_cursors. cbn [cursors set_exasol]. by rewrite fmap_insert.
Qed.

Lemma agrees_cursor plan c s :
  client_session c = Some s -> session_ok s ->
  agrees (execute_cursor_plan config plan c) (spec_cursor_plan config plan (abs (client_pid c) s)).
Proof.
  intros Hs Hok. destruct plan as [d|p|p|[name|]]; cbn [execute_cursor_plan spec_cursor_plan].
  - by apply agrees_declare.
  - apply agrees_move; [done..|]. intros cur st Hkind d idx Hrows _.
    destruct (fetch_response_of cur (step_rows st) Hkind) as (resp & -> & Hr & Hd).
    cbn. rewrite <- Hrows, <- Hr. unfold response_of_data in Hd.
    by destruct (data cur), resp.
  - apply agrees_move; [done..|]. intros cur st _ d idx _ ->. done.
  - unfold close_cursor. rewrite (with_session_eq _ _ s) by done.
    rewrite abs_lookup. unfold has_cursor.
    destruct (cursors s !! name) as [cur|] eqn:E; cbn [fmap option_fmap option_map].
    + rewrite bool_decide_eq_true_2 by eauto. eapply agrees_intro; [done..|].
      cbn [snd set_session client_pid]. by rewrite abs_set_cursors, fmap_delete.
    + rewrite bool_decide_eq_false_2 by (by intros []). by eapply agrees_intro.
  - unfold close_cursor. rewrite (with_session_eq _ _ s) by done.
    eapply agrees_intro; [done..|]. cbn [snd set_session client_pid].
    by rewrite abs_set_cursors, fmap_empty.
Qed.

Lemma abs_filter m :
  abs_cursor <$> filter (fun p => hold p.2 = true) m
  = filter (fun p => spec_hold p.2 = true) (abs_cursor <$> m : gmap str spec_cursor).
Proof.
  apply map_eq. intros k. rewrite lookup_fmap, !map_lookup_filter, lookup_fmap.
  destruct (m !! k) as [cur|]; [|done]. cbn. by repeat case_guard.
Qed.

Lemma agrees_plan sql plan c s :
  client_session c = Some s -> session_ok s ->
  agrees (execute_plan config sql plan c) (spec_plan config sql plan (abs (client_pid c) s)).
Proof.
  intros Hs Hok.
  destruct plan as [command policy| |schema| | |command|name value|columns rows|column|plan| |st m];
    cbn [execute_plan spec_plan]; try (by eapply agrees_intro).
  - eapply agrees_bind; [by rewrite (with_session_eq _ _ s), set_session_same|].
    apply agrees_ask_client; [done|]. intros o t. by destruct o; eapply agrees_intro.
  - rewrite (with_session_eq _ _ s) by done. unfold spec_ask. cbn [spec_backend abs].
    pose proof (session_execute_eq (open_schema_sql schema) s) as E.
    destruct (execute _ _) as [[o|e| |] t]; cbn in E; try done.
    + assert (set_search_path schema s = (Ok [RExecution (lit "SET") None],
        set_current_schema (Some schema) (set_exasol t s))) as -> by by eapply bind_step.
      by eapply agrees_intro.
    + assert (set_search_path schema s = (Err (map_exasol_execution_error e), set_exasol t s))
        as -> by by apply bind_err.
      by eapply agrees_intro.
  - rewrite (with_session_eq _ _ s) by done. eapply agrees_intro; [done..|].
    by rewrite set_session_same.
  - eapply agrees_bind; [unfold clear_non_hold_cursors; by rewrite Hs|].
    eapply agrees_intro; [done..|]. cbn [snd set_session client_pid fmap option_fmap option_map].
    by rewrite abs_set_cursors, abs_filter.
  - by apply agrees_cursor.
Qed.

(** *** Metadata requests *)

Lemma namespace_rows_ok k (schemas : list (list (option str))) rows :
  (0 <= Z.of_nat k < 2 ^ 31)%Z -> namespace_rows (2200 + Z.of_nat k) schemas = Some rows ->
  mapM (fun p => namespace_row p.1 p.2) (zip (seq k (length schemas)) schemas) = Ok rows.
Proof.
  revert k rows. induction schemas as [|row schemas IH]; intros k rows Hk; cbn; [by intros [= <-]|].
  destruct (_ <=? _)%Z eqn:Eo; [|done]. intros (rest & Hrest & [= <-])%bind_Some.
  apply Z.leb_le in Eo. unfold_bounds.
  assert (Hw : wrap_signed 32 (Z.of_nat k) = Z.of_nat k).
  { unfold wrap_signed. rewrite Z.mod_small by (cbn in *; lia). lia. }
  assert (Hrow : namespace_row k row
                 = Ok [Some (show_int (2200 + Z.of_nat k)); mjoin (row !! 0); Some (lit "10"); None]).
  { unfold namespace_row. rewrite Hw. unfold add_i32. rewrite arith_in_range by (cbn; lia).
    unfold cell_or. cbn. by destruct (row !! 0). }
  rewrite Hrow. cbn. rewrite (IH (S k) rest); [done|cbn in *; lia|].
  by replace (2200 + Z.of_nat (S k))%Z with (2200 + Z.of_nat k + 1)%Z by lia.
Qed.

(** A query whose rows are read. *)
Lemma agrees_fetch q k' k c s :
  client_session c = Some s ->
  (forall rows t, agrees (k' rows (set_session (Some (set_exasol t s)) c))
                         (k rows (with_backend t (abs (client_pid c) s)))) ->
  agrees ((fetch_query_rows q ≫= k') c)
    (spec_ask q (abs (client_pid c) s) (fun o a =>
       match catalog_rows o with
       | None => Some (Failed (lit "XX000"), a)
       | Some rows => k rows a
       end)).
Proof.
  intros Hs Hk.
  assert (E : (fetch_query_rows q ≫= k') c
              = (o ← execute_exasol_sql q;
                 match o with
                 | ArrowRows batches => k' (arrow_batches_to_text_rows batches)
                 | TypedRows _ rows => k' rows
                 | RowCount _ => lift (Err (pg_error "XX000"
                     (lit "metadata query unexpectedly returned a row count")))
                 end) c).
  { unfold fetch_query_rows, mbind, stateful_bind.
    by destruct (execute_exasol_sql q c) as [[[]| | |]]. }
  rewrite E. apply agrees_ask; [done|]. intros o t _.
  destruct o; cbn [catalog_rows]; [apply Hk..|by eapply agrees_intro].
Qed.

Lemma agrees_query q c s :
  client_session c = Some s ->
  agrees ((response ← execute_exasol_query q; mret [response]) c)
    (spec_ask q (abs (client_pid c) s)
       (fun o a => Some (reply_of_outcome (lit "SELECT") Omit o, a))).
Proof.
  intros Hs.
  assert (E : (response ← execute_exasol_query q; mret [response]) c
              = (o ← execute_exasol_sql q;
                 mret [default REmpty (list.last (map_exasol_result o (lit "SELECT") Omit false))]) c).
  { unfold execute_exasol_query, mbind, stateful_bind, mret, stateful_ret.
    by destruct (execute_exasol_sql q c) as [[o| | |]]. }
  rewrite E. apply agrees_ask; [done|]. intros o t _. by destruct o; eapply agrees_intro.
Qed.

(** What a computed answer says. *)
Lemma agrees_rows (o : outcome PgError (list (list (option str)))) columns c s :
  client_session c = Some s ->
  agrees ((rows ← lift o; mret [RQuery columns rows]) c)
    (match o with
     | Ok rows => Some (text_rows rows, abs (client_pid c) s)
     | Err e => Some (Failed (err_sqlstate e), abs (client_pid c) s)
     | _ => None
     end).
Proof. intros Hs. destruct o as [rows|e| |]; by try eapply agrees_intro. Qed.

Lemma agrees_metadata mp c s :
  client_session c = Some s ->
  agrees ((response ← answer_metadata mp; mret [response]) c)
         (spec_metadata mp (abs (client_pid c) s)).
Proof.
  intros Hs. unfold spec_metadata.
  destruct mp as [| |sp tp|sp tp cp|se tn|cat sc|cat sc tb| | | |];
    cbn [metadata_query answer_metadata]; try (by eapply agrees_intro);
    try (by apply agrees_query).
  - apply agrees_assoc. unfold all_schemas. apply agrees_assoc.
    apply agrees_fetch; [done|]. intros rows t. cbn [spec_catalog].
    destruct (namespace_rows 2200 (visible_schemas rows)) as [named|] eqn:En; [|done].
    cbn [mbind option_bind]. apply (namespace_rows_ok 0) in En; [|done].
    eapply agrees_bind; [reflexivity|]. apply agrees_assoc.
    eapply agrees_bind; [exact (f_equal (fun o => (o, _)) En)|]. by eapply agrees_intro.
  - apply agrees_assoc. unfold all_schemas. apply agrees_assoc.
    apply agrees_fetch; [done|]. intros rows t. cbn [spec_catalog].
    assert (Hrows : (fun row => [cell_or None row 0; Some (lit "exasol")]) <$> visible_schemas rows
                    = (fun row => [mjoin (row !! 0); Some (lit "exasol")]) <$> visible_schemas rows).
    { apply list_fmap_ext. intros i row _. unfold cell_or. by destruct (row !! 0). }
    rewrite <- Hrows. eapply agrees_bind; [reflexivity|]. by eapply agrees_intro.
  - apply agrees_assoc. apply agrees_fetch; [done|]. intros rows t.
    cbn [spec_catalog]. apply agrees_assoc.
    by apply (agrees_rows (mapM jdbc_column_row rows) _
                (set_session (Some (set_exasol t s)) c) (set_exasol t s)).
  - destruct (eq_ignore_ascii_case _ _); cbn [negb]; [by apply agrees_query|by eapply agrees_intro].
  - destruct (eq_ignore_ascii_case _ _); cbn [negb]; [by apply agrees_query|by eapply agrees_intro].
Qed.

Lemma statement_agrees sql c s r a :
  client_session c = Some s -> session_ok s ->
  spec_statement config sql (abs (client_pid c) s) = Some (r, a) ->
  exists o c' s', execute_statement config sql c = (o, c') /\ view o = Some r
    /\ client_session c' = Some s' /\ abs (client_pid c') s' = a.
Proof.
  intros Hs Hok. unfold spec_statement. destruct (detect sql) as [mp|] eqn:Hd.
  { intros Ha. rewrite (statement_metadata _ _ mp) by done.
    destruct (agrees_metadata mp c s Hs r a Ha) as (Hv & s' & Hs' & E).
    destruct ((response ← answer_metadata mp; mret [response]) c) as [o c']. eauto 8. }
  destruct (classify_statement sql) as [plan| | |] eqn:Hcl; try done. intros Ha.
  rewrite (statement_plan config sql plan) by done.
  destruct (agrees_plan sql plan c s Hs Hok r a Ha) as (Hv & s' & Hs' & E).
  destruct (execute_plan config sql plan c) as [o c']. eauto 8.
Qed.

(** C2: a whole session does what its specification says: for every sequence of
    statements after a login that the specification has an answer for, the gateway
    gives the replies of the specification one by one and ends in a state with its
    meaning. *)
Theorem run_refines `{!ResultsFit (T := T)} sqls t pid replies a :
  spec_run config sqls (abs pid (new_session t)) = Some (replies, a) ->
  exists outs c' s',
    run config sqls {| client_session := Some (new_session t); client_pid := pid |} = (outs, c')
    /\ view <$> outs = Some <$> replies
    /\ client_session c' = Some s' /\ abs (client_pid c') s' = a.
Proof.
  set (c := {| client_pid := pid |}).
  assert (Hc : cursors_ok c) by (intros s [= <-]; apply map_Forall_empty).
  change pid with (client_pid c). set (s := new_session t).
  assert (Hs : client_session c = Some s) by done. clearbody c s. clear t pid.
  revert c s replies Hc Hs. induction sqls as [|sql sqls IH]; intros c s replies Hc Hs; cbn.
  { intros [= <- <-]. eexists _, _, _. by split_and!. }
  intros ([r a1] & E1 & ([rs a2] & E2 & [= <- <-])%bind_Some)%bind_Some.
  destruct (statement_agrees sql c s r a1 Hs (Hc _ Hs) E1) as (o & c1 & s1 & E & Hv & Hs1 & <-).
  pose proof (statement_keeps config sql _ _ _ E Hc) as Hc1.
  destruct (IH c1 s1 rs Hc1 Hs1 E2) as (outs & c' & s' & Er & Hvs & Hs' & Ha).
  rewrite E, Er. eexists _, _, _. split_and!; [reflexivity| |done..]. cbn. by rewrite Hv, Hvs.
Qed.
(** Where the specification has an answer: everywhere that the transport and the
    translation return and the counts of FETCH and MOVE fit. *)
Lemma spec_statement_defined sql plan a :
  match detect sql with
  | Some mp => forall rows a, is_Some (spec_catalog mp rows a)
  | None => classify_statement sql = Ok plan
  end ->
  (forall q t, returns (execute q t).1) ->
  (forall q, returns (translate_client_sql config q)) ->
  (forall d, plan = Cursor (PlanDeclare d) -> exists p, classify_statement (declare_query d) = Ok p) ->
  (forall p cur, plan = Cursor (PlanFetch p) \/ plan = Cursor (PlanMove p) ->
     spec_cursors a !! position_name p = Some cur ->
     direction_fitsb (spec_position cur) (position_direction p) = true) ->
  is_Some (spec_statement config sql a).
Proof.
  intros Hcl Hx Htr Hdecl Hfit. unfold spec_statement.
  assert (Hask : forall q k, (forall o t, is_Some (k o (with_backend t a))) -> is_Some (spec_ask q a k)).
  { intros q k Hk. unfold spec_ask. specialize (Hx q (spec_backend a)).
    by destruct (execute _ _) as [[o|e| |] t]. }
  destruct (detect sql) as [mp|].
  { unfold spec_metadata. case_match; [|done]. apply Hask. intros o t.
    assert (Hr : is_Some (match catalog_rows o with
                          | None => Some (Failed (lit "XX000"), with_backend t a)
                          | Some rows => spec_catalog mp rows (with_backend t a)
                          end)).
    { case_match; [|done]. apply Hcl. }
    by destruct mp. }
  rewrite Hcl.
  assert (Hclient : forall q k, (forall o t, is_Some (k o (with_backend t a))) ->
                      is_Some (spec_ask_client config q a k)).
  { intros q k Hk. unfold spec_ask_client. specialize (Htr q).
    destruct (translate_client_sql config q); eauto; done. }
  assert (Hmove : forall p answer, (plan = Cursor (PlanFetch p) \/ plan = Cursor (PlanMove p)) ->
                    is_Some (spec_move_cursor p a answer)).
  { intros p answer Hp. unfold spec_move_cursor.
    destruct (spec_cursors a !! _) as [cur|] eqn:E; [|done]. rewrite (Hfit p cur) by done.
    case_match; [done|]. by case_match. }
  destruct plan as [command policy| |schema| | | | | | |[d|p|p|[name|]]| |];
    cbn [spec_plan spec_cursor_plan]; try done; eauto.
  - unfold spec_declare. destruct (Hdecl d) as [p ->]; [done|].
    do 2 (case_match; [done|]). apply Hclient. intros o t. by case_match.
  - by case_match.
Qed.
End refinement.
