(* ===== verification/Protocol.v ===== *)
(** * The PostgreSQL protocol handlers (src/src/pg_server.rs)

    Logging in, the extended query protocol (parse, describe, execute) with the
    results it keeps between Describe and Execute, and the simple query protocol.
    [pgwire] owns the messages, the portals and the transaction status; the
    handlers see them through [PgWireLib]. *)

From S2P Require Import Prelude RustStr RustInt Regex Arrow Plan Config Exasol Cursor.
From S2P Require Import Policy Translator Metadata Responses Params ExasolSession.
From S2P Require Import Session.
#[local] Open Scope nat_scope.

(** What the handlers send: each constructor is one message, or one call of a
    sending function of [pgwire]. *)
Inductive WireCall :=
| AuthenticationCleartextPassword
| EmptyQueryResponse
| SendQueryResponse (q : QueryResponse) (send_describe : bool)
| SendExecutionResponse (tag : Tag)
| ErrorResponse (e : PgError).

(** [PgWireError], as far as the handlers make its values. *)
Inductive PgWireError :=
| UserError (e : PgError)
| NotReadyForQuery
| PortalNotFound (name : str)
| UserNameRequired
| LibraryError (shown : str).

Class PgWireLib := {
  wire : Type;
  wire_send : WireCall -> wire -> outcome PgWireError unit * wire;
  DEFAULT_NAME : str;
  TransactionStatus : Type;
  to_in_transaction_state : TransactionStatus -> TransactionStatus;
  to_idle_state : TransactionStatus -> TransactionStatus;
  to_error_state : TransactionStatus -> TransactionStatus;
  (** The startup message, its negotiation and the user name it carries. *)
  StartupMessage : Type;
  negotiate : StartupMessage -> wire -> outcome PgWireError unit * wire;
  startup_user : StartupMessage -> option str;
  (** [finish_authentication]: the messages it sends, after which the connection is
      ready for queries. *)
  finish_messages : wire -> outcome PgWireError unit * wire;
  generate_pid : wire -> Z * wire }.

Inductive PgWireConnectionState :=
| AwaitingStartup | AuthenticationInProgress | ReadyForQuery | QueryInProgress | OtherState.

Inductive FrontendMessage `{PgWireLib} :=
| MsgStartup (startup : StartupMessage)
| MsgPassword (password : outcome PgWireError str)
| MsgOther.

(** ** The query parser *)

Section parser.
Context `{BuildProfile} `{RegexEngine}.

(** [GatewayQueryParser]. *)
Definition parse_sql (sql : str) : outcome PgError str :=
  if 1 <? length (split_simple_query sql)
  then Err (pg_error "42601"
         (lit "extended query protocol accepts one statement per Parse message"))
  else Ok sql.
Definition get_parameter_types (stmt : str) : outcome PgError (list PgType) :=
  infer_parameter_types stmt.
Definition get_result_schema : list FieldInfo := [].
End parser.

(** ** Connections *)

Section protocol.
Context `{BuildProfile} `{RegexEngine} `{ArrowLib} `{JsonLib} `{Transpiler}.
Context {T : Type} `{!ExasolTransport T} `{PgWireLib}.
Variable config : AppConfig.

Record Connection := {
  conn_client : Client (T := T);
  conn_wire : wire;
  conn_state : PgWireConnectionState;
  conn_tx : TransactionStatus;
  conn_portals : gmap str Portal;
  conn_user : option str }.

Definition conn_m (A : Type) : Type := stateful Connection PgWireError A.

Definition set_client (x : Client) (c : Connection) : Connection :=
  {| conn_client := x; conn_wire := conn_wire c; conn_state := conn_state c;
     conn_tx := conn_tx c; conn_portals := conn_portals c; conn_user := conn_user c |}.
Definition set_wire (x : wire) (c : Connection) : Connection :=
  {| conn_client := conn_client c; conn_wire := x; conn_state := conn_state c;
     conn_tx := conn_tx c; conn_portals := conn_portals c; conn_user := conn_user c |}.
Definition set_state (x : PgWireConnectionState) (c : Connection) : Connection :=
  {| conn_client := conn_client c; conn_wire := conn_wire c; conn_state := x;
     conn_tx := conn_tx c; conn_portals := conn_portals c; conn_user := conn_user c |}.
Definition set_tx (x : TransactionStatus) (c : Connection) : Connection :=
  {| conn_client := conn_client c; conn_wire := conn_wire c; conn_state := conn_state c;
     conn_tx := x; conn_portals := conn_portals c; conn_user := conn_user c |}.
Definition set_portals (x : gmap str Portal) (c : Connection) : Connection :=
  {| conn_client := conn_client c; conn_wire := conn_wire c; conn_state := conn_state c;
     conn_tx := conn_tx c; conn_portals := x; conn_user := conn_user c |}.
Definition set_user (x : option str) (c : Connection) : Connection :=
  {| conn_client := conn_client c; conn_wire := conn_wire c; conn_state := conn_state c;
     conn_tx := conn_tx c; conn_portals := conn_portals c; conn_user := x |}.

Definition update (f : Connection -> Connection) : conn_m unit := fun c => (Ok tt, f c).

(** A computation on the client, and one on the wire. *)
Definition on_client {A} (m : client_m A) : conn_m A := fun c =>
  let '(r, x) := m (conn_client c) in (map_err UserError r, set_client x c).
Definition on_wire {A} (m : wire -> outcome PgWireError A * wire) : conn_m A := fun c =>
  let '(r, w) := m (conn_wire c) in (r, set_wire w c).
Definition send (call : WireCall) : conn_m unit := on_wire (wire_send call).

(** ** Startup *)

(** [connect_exasol]; [open] is [ExasolSession::connect]. *)
Definition connect_exasol (open : ExasolConfig -> str -> str -> outcome ExasolError T)
    (username password : str) : outcome PgError SessionState :=
  t ← map_err map_exasol_connection_error (open (exasol config) username password);
  if enabled (translation config)
     && negb (bool_decide (sql_preprocessor_script (translation config) = []))
  then
    let '(r, t) := initialize (session_init_sql (translation config))
                     (sql_preprocessor_script (translation config)) t in
    _ ← map_err map_exasol_connection_error r;
    Ok (new_session t)
  else Ok (new_session t).

Definition on_startup (open : ExasolConfig -> str -> str -> outcome ExasolError T)
    (message : FrontendMessage) : conn_m unit :=
  match message with
  | MsgStartup startup =>
      _ ← on_wire (negotiate startup);
      _ ← update (fun c => set_user (startup_user startup) c);
      _ ← update (set_state AuthenticationInProgress);
      send AuthenticationCleartextPassword
  | MsgPassword password =>
      password ← lift password;
      c ← get_state;
      username ← lift (ok_or UserNameRequired (conn_user c));
      session ← lift (map_err UserError (connect_exasol open username password));
      _ ← update (fun c => set_client (set_session (Some session) (conn_client c)) c);
      pid ← on_wire (fun w => let '(pid, w) := generate_pid w in (Ok pid, w));
      _ ← update (fun c => set_client {| client_session := client_session (conn_client c);
                                         client_pid := pid |} c);
      _ ← on_wire finish_messages;
      update (set_state ReadyForQuery)
  | MsgOther => mret tt
  end.

(** ** Results kept between Describe and Execute *)

Definition cache_extended_result (portal_name : str) (response : GatewayResponse)
    : client_m (T := T) unit :=
  with_session (modify (fun s =>
    set_extended_results (<[portal_name := response]> (extended_results s)) s)).

Definition take_cached_extended_result (portal_name : str)
    : client_m (T := T) (option GatewayResponse) := fun c =>
  match client_session c with
  | None => (Ok None, c)
  | Some s =>
      (Ok (extended_results s !! portal_name),
       set_session (Some (set_extended_results (delete portal_name (extended_results s)) s)) c)
  end.

(** ** Describe and Execute *)

Definition do_describe_statement : outcome PgError (list PgType * list FieldInfo) := Ok ([], []).

(** Describing a portal runs its statement. *)
Definition do_describe_portal (target : Portal) : client_m (T := T) (list FieldInfo) :=
  sql ← lift (render_portal_sql target);
  responses ← execute_statement config sql;
  let response := default REmpty (list.last responses) in
  fields ← lift (fields response);
  _ ← cache_extended_result (portal_name target) response;
  mret fields.

Definition do_query (portal : Portal) : client_m (T := T) Response :=
  match render_portal_sql portal with
  | Err error => mret (ErrorR error)
  | Ok sql =>
      responses ← execute_statement config sql;
      lift (try_from (default REmpty (list.last responses)))
  | Panic => lift Panic
  | OutOfFuel => lift OutOfFuel
  end.

(** [SimpleQueryHandler::do_query]. *)
Definition do_simple_query (query : str) : client_m (T := T) (list Response) :=
  execute_simple_query config query.

Definition is_query_response (r : Response) : bool :=
  match r with QueryR _ => true | _ => false end.

(** The messages of a response, and its effect on the transaction status. *)
Definition send_response (response : Response) (send_describe : bool) : conn_m unit :=
  match response with
  | EmptyQuery => send EmptyQueryResponse
  | QueryR results => send (SendQueryResponse results send_describe)
  | ExecutionR tag => send (SendExecutionResponse tag)
  | TransactionStartR tag =>
      _ ← send (SendExecutionResponse tag);
      update (fun c => set_tx (to_in_transaction_state (conn_tx c)) c)
  | TransactionEndR tag =>
      _ ← send (SendExecutionResponse tag);
      update (fun c => set_tx (to_idle_state (conn_tx c)) c)
  | ErrorR error =>
      _ ← send (ErrorResponse error);
      update (fun c => set_tx (to_error_state (conn_tx c)) c)
  end.

(** The response of a portal: the one Describe kept, if any, else its statement's. *)
Definition portal_response (portal_name : str) (portal : Portal)
    : client_m (T := T) (Response * bool) :=
  cached_response ← take_cached_extended_result portal_name;
  match cached_response with
  | Some response => r ← lift (try_from response); mret (r, true)
  | None => r ← do_query portal; mret (r, false)
  end.

Definition is_ready (c : Connection) : bool :=
  match conn_state c with ReadyForQuery => true | _ => false end.

Definition on_execute (name : option str) : conn_m unit :=
  c ← get_state;
  if negb (is_ready c) then lift (Err NotReadyForQuery)
  else
    let portal_name := default DEFAULT_NAME name in
    portal ← lift (ok_or (PortalNotFound portal_name) (conn_portals c !! portal_name));
    _ ← update (set_state QueryInProgress);
    '(response, was_described) ← on_client (portal_response portal_name portal);
    let send_describe := negb (is_query_response response) || negb was_described in
    _ ← send_response response send_describe;
    _ ← update (set_state ReadyForQuery);
    if str_eqb portal_name DEFAULT_NAME
    then update (fun c => set_portals (delete portal_name (conn_portals c)) c)
    else mret tt.
End protocol.
