(* ===== verification/ProtocolTheorems.v ===== *)
(** * Properties of the protocol handlers

    Describe and Execute of the extended query protocol, and logging in. *)

From S2P Require Import Prelude RustStr RustInt Regex Arrow Plan Config Exasol Cursor.
From S2P Require Import CursorSpec CursorTheorems Policy Translator Metadata Responses.
From S2P Require Import Params ExasolSession Session SessionTheorems SessionFlow.
From S2P Require Import Protocol.
#[local] Open Scope nat_scope.

Section protocol.
Context `{BuildProfile} `{RegexEngine} `{ArrowLib} `{JsonLib} `{Transpiler}.
Context {T : Type} `{!ExasolTransport T} `{PgWireLib}.
Variable config : AppConfig.
Implicit Types (c : Client (T := T)) (conn : Connection (T := T)).

(** The columns that Describe announces are those of the rows. *)
Lemma try_from_fields r fs q :
  fields r = Ok fs -> try_from r = Ok (QueryR q) -> qr_schema q = fs.
Proof.
  destruct r; cbn; try done.
  - by intros [= <-] [= <-].
  - by intros [= <-] [= <-].
  - unfold query_response_typed. intros ->. by intros [= <-].
Qed.

Lemma take_cached c s name :
  client_session c = Some s ->
  take_cached_extended_result name c
  = (Ok (extended_results s !! name),
     set_session (Some (set_extended_results (delete name (extended_results s)) s)) c).
Proof. intros Hs. unfold take_cached_extended_result. by rewrite Hs. Qed.

(** The result that Describe kept is the portal's response, whatever the portal. *)
Lemma portal_response_cached c s name portal response :
  client_session c = Some s -> extended_results s !! name = Some response ->
  portal_response config name portal c
  = ((fun r => (r, true)) <$> try_from response,
     set_session (Some (set_extended_results (delete name (extended_results s)) s)) c).
Proof.
  intros Hs He. unfold portal_response. eapply bind_step; [by apply take_cached|].
  rewrite He. unfold mbind, stateful_bind, lift. by destruct (try_from response).
Qed.

Lemma on_execute_eq conn name portal :
  is_ready conn = true -> conn_portals conn !! name = Some portal ->
  on_execute config (Some name) conn
  = (('(response, was_described) ← on_client (portal_response config name portal);
      _ ← send_response response (negb (is_query_response response) || negb was_described);
      _ ← update (set_state ReadyForQuery);
      if str_eqb name DEFAULT_NAME
      then update (fun x => set_portals (delete name (conn_portals x)) x)
      else mret tt) : conn_m (T := T) unit) (set_state QueryInProgress conn).
Proof.
  intros Hr Hp. unfold on_execute. eapply bind_step; [reflexivity|]. cbv beta. rewrite Hr.
  cbn [negb]. cbn iota. eapply (bind_step _ _ _ portal conn).
  { unfold lift. cbn. by rewrite Hp. }
  by eapply bind_step.
Qed.

(** What follows the response in [on_execute] leaves the client alone. *)
Lemma send_response_client r b conn o conn' :
  send_response r b conn = (o, conn') -> conn_client conn' = conn_client conn.
Proof.
  assert (Hs : forall call conn o conn', send call conn = (o, conn') ->
                 conn_client conn' = conn_client conn).
  { intros call x o' x'. unfold send, on_wire.
    destruct (wire_send call (conn_wire x)) as [r0 w]. by intros [= _ <-]. }
  destruct r; cbn [send_response]; try apply Hs.
  all: intros [(a & x1 & E & [= _ <-])|(r0 & E & _)]%stateful_bind_inv; by apply Hs in E.
Qed.

Lemma execute_client_end conn name portal o conn' :
  is_ready conn = true -> conn_portals conn !! name = Some portal ->
  on_execute config (Some name) conn = (o, conn') ->
  conn_client conn' = (portal_response config name portal (conn_client conn)).2.
Proof.
  intros Hr Hp. rewrite (on_execute_eq _ _ portal) by done. intros E.
  assert (Hc : forall o' x', on_client (portal_response config name portal)
                 (set_state QueryInProgress conn) = (o', x') ->
               conn_client x' = (portal_response config name portal (conn_client conn)).2).
  { intros o' x'. unfold on_client. cbn [set_state conn_client].
    destruct (portal_response _ _ _ _) as [r x]. by intros [= _ <-]. }
  apply stateful_bind_inv in E as [([r d] & x1 & E1 & E)|(r0 & E & _)]; [|by eapply Hc].
  rewrite <- (Hc _ _ E1). clear Hc.
  apply stateful_bind_inv in E as [([] & x2 & E2 & E)|(r0 & E & _)];
    [|by eapply send_response_client].
  rewrite <- (send_response_client _ _ _ _ _ E2).
  apply stateful_bind_inv in E as [([] & x3 & [= <-] & E)|(r0 & [= _ <-] & _)]; [|done].
  by destruct (str_eqb name DEFAULT_NAME); injection E as _ <-.
Qed.

(** Execute is refused, and nothing is done, unless the connection is ready for
    queries and the portal exists. *)
Theorem execute_guards conn name :
  (is_ready conn = false -> on_execute config name conn = (Err NotReadyForQuery, conn))
  /\ (is_ready conn = true -> conn_portals conn !! default DEFAULT_NAME name = None ->
      on_execute config name conn = (Err (PortalNotFound (default DEFAULT_NAME name)), conn)).
Proof.
  split.
  - intros Hr. unfold on_execute. eapply bind_step; [reflexivity|]. cbv beta. by rewrite Hr.
  - intros Hr Hp. unfold on_execute. eapply bind_step; [reflexivity|]. cbv beta. rewrite Hr.
    cbn [negb]. cbn iota. apply bind_err. unfold lift. by rewrite Hp.
Qed.

(** ** Execute and the simple query protocol *)

(** A statement has one response. *)
Definition one_response (m : client_m (T := T) (list GatewayResponse)) : Prop :=
  forall c rs c', m c = (Ok rs, c') -> exists r, rs = [r].

Lemma one_mret r : one_response (mret [r]).
Proof. intros c rs c' [= <- _]. by exists r. Qed.
Lemma one_bind {A} (m : client_m (T := T) A) f :
  (forall a, one_response (f a)) -> one_response (m ≫= f).
Proof. intros Hf c rs c' (a & c1 & _ & E)%stateful_bind_Ok. by eapply Hf. Qed.
Lemma one_with_session (m : session_m (T := T) (list GatewayResponse)) :
  (forall s rs s', m s = (Ok rs, s') -> exists r, rs = [r]) -> one_response (with_session m).
Proof.
  intros Hm c rs c'. unfold with_session. destruct (client_session c) as [s|]; [|done].
  destruct (m s) as [r s'] eqn:E. intros [= -> _]. by eapply Hm.
Qed.

Lemma one_step_cursor p return_rows respond :
  (forall cur step rs, respond cur step = Ok rs -> exists r, rs = [r]) ->
  one_response (with_session (step_cursor p return_rows respond)).
Proof.
  intros Hr. apply one_with_session. intros s rs s'. unfold step_cursor.
  destruct (cursors s !! position_name p) as [cur|]; [|intros [= <- _]; by eexists].
  destruct (apply _ _ _ _) as [[cur' step]|e| |]; try done.
  destruct (respond cur step) as [rs0|e| |] eqn:E; try done. intros [= <- _]. by eapply Hr.
Qed.

Lemma one_cursor_plan plan : one_response (execute_cursor_plan config plan).
Proof.
  destruct plan as [d|p|p|cl]; cbn [execute_cursor_plan].
  - unfold declare_cursor. apply one_bind. intros plan. case_match; [apply one_mret|].
    apply one_bind. intros [|]; [apply one_mret|]. apply one_bind. intros o.
    destruct (cursor_data_of o); [|apply one_mret]. apply one_with_session.
    intros s rs s'. unfold insert_cursor. case_match; intros [= <- _]; by eexists.
  - apply one_step_cursor. intros cur step rs (r & _ & [= <-])%outcome_bind_Ok. by exists r.
  - apply one_step_cursor. intros cur step rs [= <-]. by eexists.
  - apply one_with_session. intros s rs s'. destruct cl; [case_match|]; intros [= <- _]; by eexists.
Qed.

Lemma one_statement sql : one_response (execute_statement config sql).
Proof.
  unfold execute_statement. apply one_bind. intros [r|]; [apply one_mret|].
  apply one_bind. intros plan. destruct plan; cbn [execute_plan]; try apply one_mret.
  - apply one_bind. intros _. apply one_bind. intros q. apply one_bind. intros o.
    destruct o; apply one_mret.
  - apply one_with_session. intros s rs s' (a & s1 & _ & E)%stateful_bind_Ok.
    apply stateful_bind_Ok in E as (u & s2 & _ & [= <- _]). by eexists.
  - apply one_with_session. intros s rs s' [= <- _]. by eexists.
  - apply one_bind. intros _. apply one_mret.
  - intros c rs c' [= <- _]. by eexists.
  - apply one_cursor_plan.
Qed.

(** A Describe that succeeds ran the portal's statement, and keeps its one response. *)
Lemma describe_inv p c fs c1 :
  do_describe_portal config p c = (Ok fs, c1) ->
  exists sql response c0 s0, render_portal_sql p = Ok sql
    /\ execute_statement config sql c = (Ok [response], c0) /\ fields response = Ok fs
    /\ client_session c0 = Some s0
    /\ c1 = set_session (Some (set_extended_results
                            (<[portal_name p := response]> (extended_results s0)) s0)) c0.
Proof.
  intros (sql & x1 & [= Hsql <-] & E)%stateful_bind_Ok.
  apply stateful_bind_Ok in E as (responses & x2 & Ex & E).
  destruct (one_statement sql _ _ _ Ex) as [response ->]. cbn [list.last default] in E.
  apply stateful_bind_Ok in E as (fs' & x3 & [= Ef <-] & E).
  apply stateful_bind_Ok in E as ([] & x4 & E & [= -> <-]).
  unfold cache_extended_result, with_session in E.
  destruct (client_session x2) as [s|] eqn:Es; [|done]. injection E as <-.
  by exists sql, response, x2, s.
Qed.

(** What follows the response of a portal. *)
Definition after_response name (response : Response) (send_describe : bool) : conn_m (T := T) unit :=
  _ ← send_response response send_describe;
  _ ← update (set_state ReadyForQuery);
  if str_eqb name DEFAULT_NAME
  then update (fun x => set_portals (delete name (conn_portals x)) x)
  else mret tt.

(** C14: the statement of a described portal runs once, and its answer is what Execute
    sends.  A successful Describe ran the rendered statement of the portal, and what it
    announces are the fields of the one response.  An Execute under the portal's name
    then sends nothing to Exasol: it sends exactly that response, rows and all, without
    a second row description when it has rows, whose columns are the announced ones; and
    the kept response is gone from the session, which is otherwise as the statement left
    it.  A response that cannot be encoded is the error of the Execute.  The kept
    result belongs to the name: this also holds when another portal [p'] has been bound
    to the name since, whose statement is then not run. *)
Theorem described_portal_runs_once conn name p p' fs c1 :
  is_ready conn = true -> portal_name p = name -> conn_portals conn !! name = Some p' ->
  do_describe_portal config p (conn_client conn) = (Ok fs, c1) ->
  (forall o conn', on_execute config (Some name) (set_client c1 conn) = (o, conn') ->
     exasol_of (conn_client conn') = exasol_of c1)
  /\ exists sql response c0 s0, render_portal_sql p = Ok sql
     /\ execute_statement config sql (conn_client conn) = (Ok [response], c0)
     /\ fields response = Ok fs /\ client_session c0 = Some s0
     /\ let c2 := set_session (Some (set_extended_results
                                   (delete name (extended_results s0)) s0)) c0 in
        (forall e, try_from response = Err e ->
           on_execute config (Some name) (set_client c1 conn)
           = (Err (UserError e), set_client c2 (set_state QueryInProgress conn)))
        /\ forall r, try_from response = Ok r ->
           on_execute config (Some name) (set_client c1 conn)
           = after_response name r (negb (is_query_response r))
               (set_client c2 (set_state QueryInProgress conn))
           /\ (forall q, r = QueryR q -> qr_schema q = fs).
Proof.
  intros Hr <- Hp (sql & response & c0 & s0 & Hsql & Hx & Hf & Hs0 & ->)%describe_inv.
  set (s1 := set_extended_results _ s0).
  pose proof (portal_response_cached (set_session (Some s1) c0) s1 _ p' response eq_refl
                (lookup_insert_eq _ _ _)) as Hpr.
  replace (delete (portal_name p) (extended_results s1))
    with (delete (portal_name p) (extended_results s0)) in Hpr
    by (symmetry; apply delete_insert_eq).
  change (set_session _ (set_session _ c0)) with (set_session (Some (set_extended_results
            (delete (portal_name p) (extended_results s0)) s0)) c0) in Hpr.
  split.
  - intros o conn' E.
    rewrite (execute_client_end (set_client (set_session (Some s1) c0) conn) (portal_name p) p' o conn')
      by done.
    cbn [set_client conn_client]. by rewrite Hpr.
  - exists sql, response, c0, s0. split_and!; [done..|]. cbv zeta.
    rewrite (on_execute_eq _ _ p') by done. split.
    + intros e He. apply bind_err. unfold on_client. cbn [set_state set_client conn_client].
      by rewrite Hpr, He.
    + intros r Hq. split; [|intros q ->; by eapply try_from_fields]. eapply bind_step.
      { unfold on_client. cbn [set_state set_client conn_client]. rewrite Hpr, Hq. reflexivity. }
      cbv beta iota. by rewrite orb_false_r.
Qed.

(** A simple query of one statement is what the portal of that statement does. *)
Lemma simple_query_one sql c :
  split_simple_query sql = [sql] ->
  execute_simple_query config sql c
  = (responses ← execute_statement config sql; r ← lift (try_from (default REmpty (list.last responses)));
     mret [r]) c.
Proof.
  intros Hs. unfold execute_simple_query. rewrite Hs. cbn [execute_statements].
  unfold execute_sql. pose proof (one_statement sql c) as Hone.
  unfold mbind, stateful_bind, lift, mret, stateful_ret.
  destruct (execute_statement config sql c) as [[rs|e| |] c1]; try done.
  destruct (Hone rs c1 eq_refl) as [r ->]. cbn.
  destruct (try_from r) as [r'| | |]; try done. cbn.
  by destruct (is_error_response r').
Qed.

Lemma portal_response_fresh c s name portal sql :
  client_session c = Some s -> extended_results s !! name = None ->
  render_portal_sql portal = Ok sql ->
  portal_response config name portal c
  = (responses ← execute_statement config sql;
     r ← lift (try_from (default REmpty (list.last responses))); mret (r, false)) c.
Proof.
  intros Hs He Hr. unfold portal_response.
  eapply bind_step; [rewrite (take_cached c s) by done; reflexivity|]. rewrite He.
  rewrite delete_id by done.
  assert (Hc : set_session (Some (set_extended_results (extended_results s) s)) c = c).
  { transitivity (set_session (Some s) c); [by destruct s|]. by apply set_session_same. }
  rewrite Hc. unfold do_query. rewrite Hr. unfold mbind, stateful_bind, lift, mret, stateful_ret.
  by destruct (execute_statement config sql c) as [[rs|e| |] c1].
Qed.

(** C15: the extended query protocol runs the same program as the simple one: executing
    a portal that was not described does to the session exactly what the simple query
    of its rendered statement does, and sends that query's one response with its row
    description; a failure is the same failure. *)
Theorem execute_is_simple_query conn s name portal sql :
  is_ready conn = true -> conn_portals conn !! name = Some portal ->
  client_session (conn_client conn) = Some s -> extended_results s !! name = None ->
  render_portal_sql portal = Ok sql -> split_simple_query sql = [sql] ->
  (forall o conn', on_execute config (Some name) conn = (o, conn') ->
     conn_client conn' = (execute_simple_query config sql (conn_client conn)).2)
  /\ (forall rs c', execute_simple_query config sql (conn_client conn) = (Ok rs, c') ->
       exists response, rs = [response]
       /\ on_execute config (Some name) conn
          = ((_ ← send_response response true;
              _ ← update (set_state ReadyForQuery);
              if str_eqb name DEFAULT_NAME
              then update (fun x => set_portals (delete name (conn_portals x)) x)
              else mret tt) : conn_m (T := T) unit) (set_client c' (set_state QueryInProgress conn)))
  /\ (forall e c', execute_simple_query config sql (conn_client conn) = (Err e, c') ->
       on_execute config (Some name) conn
       = (Err (UserError e), set_client c' (set_state QueryInProgress conn))).
Proof.
  intros Hr Hp Hs He Hsql Hone.
  pose proof (portal_response_fresh (conn_client conn) s name portal sql Hs He Hsql) as Hpr.
  pose proof (simple_query_one sql (conn_client conn) Hone) as Hsq.
  set (m := execute_statement config sql) in *. set (c := conn_client conn) in *.
  split_and!.
  - intros o conn' Ho. erewrite execute_client_end by done. fold c. rewrite Hpr, Hsq.
    unfold mbind, stateful_bind, lift. destruct (m c) as [[rs| | |] c1]; try done.
    by destruct (try_from _).
  - intros rs c' E. rewrite Hsq in E.
    apply stateful_bind_Ok in E as (responses & c1 & Em & E).
    apply stateful_bind_Ok in E as (response & c2 & [= Er <-] & [= <- <-]).
    exists response. split; [done|]. rewrite (on_execute_eq _ _ portal) by done.
    eapply bind_step.
    { unfold on_client. cbn [set_state conn_client]. fold c. rewrite Hpr.
      unfold mbind, stateful_bind, lift. rewrite Em, Er. reflexivity. }
    cbv beta iota. by rewrite orb_true_r.
  - intros e c' E. rewrite Hsq in E. rewrite (on_execute_eq _ _ portal) by done.
    apply bind_err. unfold on_client. cbn [set_state conn_client]. fold c. rewrite Hpr.
    unfold mbind, stateful_bind, lift, mret, stateful_ret in *.
    destruct (m c) as [[rs|e'| |] c1]; simplify_eq; [|done].
    destruct (try_from _); simplify_eq. done.
Qed.

(** ** Logging in *)

(** The initialization statements run in order, and all succeed. *)
Inductive initialized (script : str) : list str -> T -> T -> Prop :=
| initialized_nil t : initialized script [] t t
| initialized_cons template rest t t1 t2 :
    execute_update (replace (lit "{script}") script template) t = (Ok tt, t1) ->
    initialized script rest t1 t2 -> initialized script (template :: rest) t t2.

Lemma initialize_Ok templates script (t t' : T) :
  initialize templates script t = (Ok tt, t') <-> initialized script templates t t'.
Proof.
  split.
  - revert t. induction templates as [|template rest IH]; intros t.
    + intros [= <-]. constructor.
    + intros ([] & t1 & E & Er)%stateful_bind_Ok. econstructor; [exact E|auto].
  - intros Hi. induction Hi as [|template rest t t1 t2 E _ IH]; [done|].
    by eapply bind_step.
Qed.

(** When a login runs the initialization statements. *)
Definition initializes : bool :=
  enabled (translation config)
  && negb (bool_decide (sql_preprocessor_script (translation config) = [])).

Variable open : ExasolConfig -> str -> str -> outcome ExasolError T.

Lemma connect_exasol_Ok username password s :
  connect_exasol config open username password = Ok s
  <-> exists t t', open (exasol config) username password = Ok t /\ s = new_session t'
      /\ (if initializes
          then initialized (sql_preprocessor_script (translation config))
                 (session_init_sql (translation config)) t t'
          else t' = t).
Proof.
  unfold connect_exasol. fold initializes. rewrite outcome_bind_Ok.
  setoid_rewrite map_err_Ok. split.
  - intros (t & Ho & E). exists t. destruct initializes; [|injection E as <-; eauto].
    destruct (initialize _ _ t) as [r t'] eqn:Ei. exists t'.
    apply outcome_bind_Ok in E as ([] & ->%map_err_Ok & [= <-]).
    split_and!; [done..|]. by apply initialize_Ok.
  - intros (t & t' & Ho & -> & Hi). exists t. split; [done|].
    destruct initializes; [|by subst]. apply initialize_Ok in Hi. by rewrite Hi.
Qed.

(** The login that [password] makes in the connection: what it opened, and the
    connection to Exasol it leaves. *)
Definition logged_in conn password (t' : T) : Prop :=
  exists username t, conn_user conn = Some username
    /\ open (exasol config) username password = Ok t
    /\ if initializes
       then initialized (sql_preprocessor_script (translation config))
              (session_init_sql (translation config)) t t'
       else t' = t.

Lemma on_wire_inv {A} (m : wire -> outcome PgWireError A * wire) conn r conn' :
  on_wire (T := T) m conn = (r, conn') ->
  conn_client conn' = conn_client conn /\ conn_state conn' = conn_state conn.
Proof. unfold on_wire. destruct (m (conn_wire conn)). by intros [= _ <-]. Qed.

(** A password leaves the connection alone or logs it in. *)
Lemma startup_password conn password r conn' :
  on_startup config open (MsgPassword (Ok password)) conn = (r, conn') ->
  ((forall u, r <> Ok u) /\ conn' = conn)
  \/ exists t', logged_in conn password t'
     /\ client_session (conn_client conn') = Some (new_session t')
     /\ conn_state conn' = match r with Ok _ => ReadyForQuery | _ => conn_state conn end.
Proof.
  intros E. cbn [on_startup] in E.
  apply stateful_bind_inv in E as [(pw & x1 & [= <- <-] & E)|(r0 & [= <- <-] & Hn & _)];
    [|by edestruct Hn].
  apply stateful_bind_inv in E as [(c0 & x2 & [= <- <-] & E)|(r0 & [= <- <-] & Hn & _)];
    [|by edestruct Hn].
  apply stateful_bind_inv in E as [(username & x3 & [= Hu <-] & E)|(r0 & [= _ <-] & _ & Hn)];
    [|by left].
  apply stateful_bind_inv in E as [(s & x4 & [= Hs <-] & E)|(r0 & [= _ <-] & _ & Hn)]; [|by left].
  apply map_err_Ok, connect_exasol_Ok in Hs as (t & t' & Ho & -> & Hi). right. exists t'.
  split. { exists username, t. split_and!; [|done..]. by destruct (conn_user conn); simplify_eq/=. }
  apply stateful_bind_inv in E as [([] & x5 & [= <-] & E)|(r0 & [= <- <-] & Hn & _)];
    [|by edestruct Hn].
  apply stateful_bind_inv in E as [(pid & x6 & [Hc6 Hs6]%on_wire_inv & E)|(r0 & E & Hn & _)].
  2: { unfold on_wire in E. cbn in E. destruct (generate_pid _). injection E as <- _.
       by edestruct Hn. }
  apply stateful_bind_inv in E as [([] & x7 & [= <-] & E)|(r0 & [= <- <-] & Hn & _)];
    [|by edestruct Hn].
  apply stateful_bind_inv in E as [([] & x8 & [Hc8 _]%on_wire_inv & [= <- <-])|(r0 & E & _ & Hn)].
  - cbn. rewrite Hc8. cbn. by rewrite Hc6.
  - apply on_wire_inv in E as [Hc8 Hs8]. rewrite Hc8, Hs8. cbn. rewrite Hc6, Hs6.
    split; [done|]. by destruct r; [edestruct Hn|..].
Qed.

(** The startup message asks for the password, or fails. *)
Lemma startup_message conn startup r conn' :
  on_startup config open (MsgStartup startup) conn = (r, conn') ->
  client_session (conn_client conn') = client_session (conn_client conn)
  /\ (conn_state conn' = conn_state conn \/ conn_state conn' = AuthenticationInProgress).
Proof.
  intros E. cbn [on_startup] in E.
  apply stateful_bind_inv in E as [([] & x1 & [Hc1 Hs1]%on_wire_inv & E)|(r0 & E & _)].
  2: { apply on_wire_inv in E as [-> ->]. auto. }
  apply stateful_bind_inv in E as [([] & x2 & [= <-] & E)|(r0 & [= _ <-] & _)];
    [|cbn; rewrite Hc1, Hs1; auto].
  apply stateful_bind_inv in E as [([] & x3 & [= <-] & E)|(r0 & [= _ <-] & _)];
    [|cbn; rewrite Hc1; eauto].
  unfold send in E. apply on_wire_inv in E as [-> ->]. cbn. rewrite Hc1. eauto.
Qed.

(** C24: a client becomes ready for queries, and gets a session, only through a login.
    Whatever the message, the handler leaves session and state as they were, but for the
    startup message, which asks for the password, and for a password with which the
    login succeeds: the connection to Exasol was opened with the client's own name and
    password, every initialization statement of the configuration ran successfully on it
    in its order, and the session starts without cursors, kept results or a current
    schema; the client is ready when the handler also could say so.  When the
    connection cannot be opened the client stays as it was and gets SQLSTATE 28000. *)
Theorem login_session conn :
  (forall message r conn', on_startup config open message conn = (r, conn') ->
     (client_session (conn_client conn') = client_session (conn_client conn)
      /\ (conn_state conn' = conn_state conn
          \/ (conn_state conn' = AuthenticationInProgress
              /\ exists startup, message = MsgStartup startup)))
     \/ exists password t', message = MsgPassword (Ok password) /\ logged_in conn password t'
        /\ client_session (conn_client conn') = Some (new_session t')
        /\ conn_state conn' = match r with Ok _ => ReadyForQuery | _ => conn_state conn end)
  /\ (forall password conn', on_startup config open (MsgPassword (Ok password)) conn = (Ok tt, conn') ->
     conn_state conn' = ReadyForQuery
     /\ exists t', logged_in conn password t'
       /\ client_session (conn_client conn') = Some (new_session t'))
  /\ (forall password username e, conn_user conn = Some username ->
     open (exasol config) username password = Err e ->
     on_startup config open (MsgPassword (Ok password)) conn
       = (Err (UserError (map_exasol_connection_error e)), conn)
     /\ err_sqlstate (map_exasol_connection_error e) = lit "28000").
Proof.
  split_and!.
  - intros [startup|password|] r conn' E.
    + left. apply startup_message in E as [Hc Hs]. split; [done|]. destruct Hs; eauto.
    + destruct password as [password|e| |]; [|by injection E as _ <-; left; auto..].
      destruct (startup_password conn password r conn' E) as [[_ ->]|(t' & Hl & Hc & Hst)]; [left; auto|].
      right. by exists password, t'.
    + injection E as _ <-. left. auto.
  - intros password conn' E. destruct (startup_password conn password _ _ E) as [[Hn _]|(t' & Hl & Hc & Hst)].
    + by edestruct Hn.
    + split; [done|by exists t'].
  - intros password username e Hu Ho. split; [|done].
    eapply bind_step; [reflexivity|]. eapply bind_step; [reflexivity|].
    eapply bind_step; [unfold lift; by rewrite Hu|].
    apply bind_err. unfold lift, connect_exasol. by rewrite Ho.
Qed.
End protocol.
