(* ===== verification/Connections.v ===== *)
(** * The course of a connection

    Any sequence of messages of a client: logging in, simple queries, Describe and
    Execute, with whatever [pgwire] does between them (Parse and Bind, which store
    portals, the messages it sends, the protocol state).  What holds in every connection
    they lead to: its session belongs to a login, Exasol has got of it only what the
    client's statements call for, and its cursors are well formed. *)

From S2P Require Import Prelude RustStr RustInt Regex Arrow Plan Config Exasol Cursor.
From S2P Require Import CursorSpec CursorTheorems Policy Translator Metadata Responses.
From S2P Require Import Params ExasolSession Session SessionTheorems Protocol ProtocolTheorems.
#[local] Open Scope nat_scope.

Section connections.
Context `{BuildProfile} `{RegexEngine} `{ArrowLib} `{JsonLib} `{Transpiler}.
Context {T : Type} `{!ExasolTransport T} `{PgWireLib} {results_fit : ResultsFit (T := T)}.
Variable config : AppConfig.
Variable open : ExasolConfig -> str -> str -> outcome ExasolError T.
Implicit Types (c : Client (T := T)) (conn : Connection (T := T)).

(** ** The steps *)

(** The statement that a portal runs, when its values can be written into it. *)
Definition rendered (portal : option Portal) : list str :=
  match render_portal_sql <$> portal with Some (Ok sql) => [sql] | _ => [] end.

(** The connections that messages lead to, with the statements of the client so far. *)
Inductive connected : list str -> Connection (T := T) -> Prop :=
| connected_start conn :
    client_session (conn_client conn) = None -> connected [] conn
| connected_startup texts conn message :
    connected texts conn -> connected texts (on_startup config open message conn).2
| connected_query texts conn query :
    connected texts conn ->
    connected (texts ++ split_simple_query query)
      (on_client (do_simple_query config query) conn).2
| connected_describe texts conn portal :
    connected texts conn ->
    connected (texts ++ rendered (Some portal))
      (on_client (do_describe_portal config portal) conn).2
| connected_execute texts conn name :
    connected texts conn ->
    connected (texts ++ rendered (conn_portals conn !! default DEFAULT_NAME name))
      (on_execute config name conn).2
| connected_library texts conn conn' :
    connected texts conn -> conn_client conn' = conn_client conn ->
    conn_user conn' = conn_user conn -> connected texts conn'.

(** ** What holds *)

(** From [t] to the second transport, Exasol gets at most one query for each of the
    statements, the one it calls for, in their order. *)
Inductive asked (t : T) : list str -> T -> Prop :=
| asked_none : asked t [] t
| asked_skip texts sql t' : asked t texts t' -> asked t (texts ++ [sql]) t'
| asked_one texts sql q t' :
    asked t texts t' -> reaches config sql q -> asked t (texts ++ [sql]) (execute q t').2.

(** A transport as a login leaves it. *)
Definition logged_in (t : T) : Prop :=
  exists username password t0, open (exasol config) username password = Ok t0
    /\ if initializes config
       then initialized (sql_preprocessor_script (translation config))
              (session_init_sql (translation config)) t0 t
       else t = t0.

Definition client_ok (texts : list str) (c : Client (T := T)) : Prop :=
  forall s, client_session c = Some s ->
    session_ok s /\ exists t, logged_in t /\ asked t texts (ss_exasol s).

Lemma asked_more t texts more t' : asked t texts t' -> asked t (texts ++ more) t'.
Proof.
  intros Ht. induction more as [|sql more IH] using rev_ind; [by rewrite app_nil_r|].
  rewrite app_assoc. by apply asked_skip.
Qed.

Lemma client_ok_more texts more c : client_ok texts c -> client_ok (texts ++ more) c.
Proof.
  intros Hc s Hs. destruct (Hc s Hs) as (Hok & t & Hl & Ha). split; [done|].
  exists t. split; [done|]. by apply asked_more.
Qed.

(** ** The client's part of the handlers *)

Lemma statement_leads texts sql :
  leads (client_ok texts) (client_ok (texts ++ [sql])) (execute_statement config sql).
Proof.
  intros c r c' E Hc s' Hs'.
  assert (Hold : client_session c = None \/ exists s, client_session c = Some s)
    by (destruct (client_session c); eauto).
  pose proof (statement_sends config sql c r c' E) as Hsent. unfold exasol_of in Hsent.
  rewrite Hs' in Hsent. cbn in Hsent. destruct Hold as [Hn|[s Hs]].
  { rewrite Hn in Hsent. by destruct Hsent as [?|(? & _ & ?)]. }
  rewrite Hs in Hsent. cbn in Hsent. destruct (Hc s Hs) as (_ & t & Hl & Ha). split.
  - assert (Hok : cursors_ok c) by (intros s0 Hs0; by destruct (Hc s0 Hs0)).
    exact (statement_keeps config sql c r c' E Hok s' Hs').
  - exists t. split; [done|]. destruct Hsent as [[= ->]|(q & Hq & [= ->])].
    + by apply asked_skip.
    + by apply asked_one.
Qed.

Lemma sql_leads texts sql :
  leads (client_ok texts) (client_ok (texts ++ [sql])) (execute_sql config sql).
Proof. apply leads_bind_l; [apply statement_leads|]. intros rs. by apply leads_lift. Qed.

Lemma statements_lead texts sqls responses :
  leads (client_ok texts) (client_ok (texts ++ sqls)) (execute_statements config sqls responses).
Proof.
  revert texts responses. induction sqls as [|sql sqls IH]; intros texts responses.
  { apply leads_ret. intros c. by rewrite app_nil_r. }
  replace (texts ++ sql :: sqls) with ((texts ++ [sql]) ++ sqls) by by rewrite <- app_assoc.
  intros c r c' E Hc. cbn [execute_statements] in E.
  apply stateful_bind_inv in E as [(rs & c1 & E1 & E)|(r0 & E1 & _)];
    apply (sql_leads texts) in E1; auto using client_ok_more.
  case_match; [injection E as _ <-; by auto using client_ok_more|]. by eapply IH; eauto.
Qed.

Lemma query_leads texts query :
  leads (client_ok texts) (client_ok (texts ++ split_simple_query query))
    (do_simple_query config query).
Proof.
  unfold do_simple_query, execute_simple_query. destruct (split_simple_query query) as [|sql sqls].
  - apply leads_ret. intros c. by apply client_ok_more.
  - apply statements_lead.
Qed.

(** The kept results are not part of the invariant. *)
Lemma client_ok_results texts f :
  leads (client_ok texts) (client_ok texts)
    (with_session (modify (fun s => set_extended_results (f s) s))).
Proof.
  intros c r c' E Hc. unfold with_session in E.
  destruct (client_session c) as [s|] eqn:Hs; [|by injection E as _ <-].
  cbn in E. injection E as _ <-. intros s' [= <-]. exact (Hc s Hs).
Qed.

Lemma describe_leads texts portal :
  leads (client_ok texts) (client_ok (texts ++ rendered (Some portal)))
    (do_describe_portal config portal).
Proof.
  unfold do_describe_portal, rendered. cbn [fmap option_fmap option_map].
  destruct (render_portal_sql portal) as [sql|e| |].
  2-4: intros c r c' [= _ <-]; apply client_ok_more.
  apply (leads_bind_l _ _ (execute_statement config sql)); [apply statement_leads|].
  intros responses. apply leads_bind_l; [by apply leads_lift|]. intros fs.
  apply leads_bind_l; [apply client_ok_results|]. intros []. by apply leads_ret.
Qed.

Lemma take_leads texts name :
  leads (client_ok texts) (client_ok texts) (take_cached_extended_result (T := T) name).
Proof.
  intros c r c' E Hc. unfold take_cached_extended_result in E.
  destruct (client_session c) as [s|] eqn:Hs; injection E as _ <-; [|done].
  intros s' [= <-]. exact (Hc s Hs).
Qed.

Lemma portal_leads texts name portal :
  leads (client_ok texts) (client_ok (texts ++ rendered (Some portal)))
    (portal_response config name portal).
Proof.
  unfold portal_response. apply leads_bind_r; [apply client_ok_more|apply take_leads|].
  intros [response|].
  { apply leads_bind_r; [apply client_ok_more|by apply leads_lift|].
    intros r. apply leads_ret, client_ok_more. }
  apply leads_bind_l; [|intros r; by apply leads_ret].
  unfold do_query, rendered. cbn [fmap option_fmap option_map].
  destruct (render_portal_sql portal) as [sql|e| |].
  2: apply leads_ret, client_ok_more.
  2-3: apply leads_lift, client_ok_more.
  apply leads_bind_l; [apply statement_leads|]. intros responses. by apply leads_lift.
Qed.

(** ** The handlers *)

Lemma on_client_client {A} (m : client_m (T := T) A) conn :
  conn_client (on_client m conn).2 = (m (conn_client conn)).2.
Proof. unfold on_client. by destruct (m (conn_client conn)). Qed.

Lemma execute_leads texts name conn :
  client_ok texts (conn_client conn) ->
  client_ok (texts ++ rendered (conn_portals conn !! default DEFAULT_NAME name))
    (conn_client (on_execute config name conn).2).
Proof.
  intros Hc. change (on_execute config name) with (on_execute config (Some (default DEFAULT_NAME name))).
  set (n := default DEFAULT_NAME name).
  destruct (execute_guards config conn (Some n)) as [Hnot Hmissing].
  destruct (is_ready conn) eqn:Hr; [|rewrite Hnot by done; by apply client_ok_more].
  destruct (conn_portals conn !! n) as [portal|] eqn:Hp;
    [|rewrite Hmissing by done; by apply client_ok_more].
  destruct (on_execute config (Some n) conn) as [o conn'] eqn:E. cbn [snd].
  rewrite (execute_client_end config conn n portal o conn') by done.
  destruct (portal_response config n portal (conn_client conn)) as [r c'] eqn:Er.
  by eapply portal_leads.
Qed.

(** What a step leaves of the session: the one before, or a new one of a login. *)
Definition new_login (conn conn' : Connection (T := T)) : Prop :=
  client_session (conn_client conn') = client_session (conn_client conn)
  \/ exists t, logged_in t /\ client_session (conn_client conn') = Some (new_session t).
Definition same_session {A} (m : conn_m (T := T) A) : Prop :=
  forall conn r conn', m conn = (r, conn') ->
    client_session (conn_client conn') = client_session (conn_client conn).

Lemma same_bind {A B} (m : conn_m (T := T) A) (f : A -> conn_m (T := T) B) :
  same_session m -> (forall a, same_session (f a)) -> same_session (m ≫= f).
Proof.
  intros Hm Hf conn r conn' [(a & s1 & E & Ef)|(r0 & E & _)]%stateful_bind_inv.
  - rewrite (Hf _ _ _ _ Ef). by eapply Hm.
  - by eapply Hm.
Qed.

Lemma same_wire {A} (m : wire -> outcome PgWireError A * wire) : same_session (on_wire m).
Proof. intros conn r conn'. unfold on_wire. destruct (m _). by intros [= _ <-]. Qed.

Lemma same_update f :
  (forall conn, client_session (conn_client (f conn)) = client_session (conn_client conn)) ->
  same_session (update f).
Proof. intros Hf conn r conn' [= _ <-]. apply Hf. Qed.

Lemma startup_login message conn : new_login conn (on_startup config open message conn).2.
Proof.
  destruct (on_startup config open message conn) as [r conn'] eqn:E. cbn [snd].
  destruct message as [startup|password|].
  - left. revert E. apply same_bind; [apply same_wire|]. intros _.
    apply same_bind; [by apply same_update|]. intros _.
    apply same_bind; [by apply same_update|]. intros _. apply same_wire.
  - apply stateful_bind_inv in E as [(pw & x1 & [= _ <-] & E)|(r0 & [= _ <-] & _)]; [|by left].
    apply stateful_bind_inv in E as [(c0 & x2 & [= <- <-] & E)|(r0 & [= _ <-] & _)]; [|by left].
    apply stateful_bind_inv in E as [(user & x3 & [= Hu <-] & E)|(r0 & [= _ <-] & _)]; [|by left].
    apply stateful_bind_inv in E as [(s & x4 & [= Hs <-] & E)|(r0 & [= _ <-] & _)]; [|by left].
    apply map_err_Ok, connect_exasol_Ok in Hs as (t0 & t & Ho & -> & Hi).
    apply stateful_bind_inv in E as [([] & x5 & [= <-] & E)|(r0 & [= <- <-] & Hno & _)];
      [|by destruct (Hno tt)].
    right. exists t. split; [by exists user, pw, t0|].
    revert E. set (x5 := set_client _ conn). intros E. change (Some (new_session t))
      with (client_session (conn_client x5)). revert E.
    apply same_bind; [apply same_wire|]. intros pid.
    apply same_bind; [by apply same_update|]. intros _.
    apply same_bind; [apply same_wire|]. intros _. by apply same_update.
  - left. by injection E as _ <-.
Qed.

Lemma login_ok texts conn conn' :
  client_ok texts (conn_client conn) -> new_login conn conn' -> client_ok texts (conn_client conn').
Proof.
  intros Hc [E|(t & Hl & E)] s Hs; rewrite E in Hs; [by apply Hc|].
  injection Hs as <-. split; [apply map_Forall_empty|]. exists t. split; [done|].
  exact (asked_more _ [] texts _ (asked_none t)).
Qed.

Lemma connected_ok texts conn : connected texts conn -> client_ok texts (conn_client conn).
Proof.
  induction 1 as [conn Hn|texts conn message _ IH|texts conn query _ IH|texts conn portal _ IH
                 |texts conn name _ IH|texts conn conn' _ IH Hc _].
  - intros s Hs. congruence.
  - eapply login_ok; [exact IH|apply startup_login].
  - rewrite on_client_client. eapply query_leads; [apply surjective_pairing|done].
  - rewrite on_client_client. eapply describe_leads; [apply surjective_pairing|done].
  - by apply execute_leads.
  - by rewrite Hc.
Qed.
End connections.

(** C4: whatever messages a client sends, in whatever order, and whatever [pgwire] does
    between them: if its connection has a session, then that session was opened by a
    login with a name and a password that Exasol accepted, after every initialization
    statement succeeded; since then Exasol has got of it at most one query for each
    statement of the client's messages, in their order, and only the query that the
    statement calls for; and every cursor of it stands within its rows, which fit the
    positions. *)
Theorem connection_invariant `{BuildProfile} `{RegexEngine} `{ArrowLib} `{JsonLib}
    `{Transpiler} {T} `{!ExasolTransport T} `{PgWireLib} {results_fit : ResultsFit (T := T)}
    config open texts (conn : Connection (T := T)) s :
  connected config open texts conn -> client_session (conn_client conn) = Some s ->
  (exists t, logged_in config open t /\ asked config t texts (ss_exasol s))
  /\ forall name cur, cursors s !! name = Some cur ->
       (-1 <= position cur <= Z.of_nat (length (data_rows (data cur))))%Z /\ data_fits (data cur).
Proof.
  intros Hc Hs. destruct (connected_ok config open texts conn Hc s Hs) as [Hok Ht].
  split; [done|]. intros name cur Hcur. destruct (Hok _ _ Hcur) as [Hd Hn Hp]. by split.
Qed.
