(* ===== verification/Returns.v ===== *)
(** * What comes back to the client

    A statement, a Describe or an Execute of a connection ends with an answer or an
    error whenever Exasol, the transpiler and the libraries do: every panic and every
    loop that does not end has one of the causes named here.  A panic needs an
    arithmetic overflow that a build with overflow checks finds ([sql_overflows]), or
    a placeholder with a huge number ([huge_placeholder]); the only loop that does not
    end is the one of the count [i64::MIN] in a build without overflow checks. *)

From S2P Require Import Prelude RustStr RustInt Regex Arrow Plan Config Exasol Cursor.
From S2P Require Import CursorSpec CursorTheorems Policy PolicyTheorems MetadataQueries.
From S2P Require Import Translator Metadata Responses Params ExasolSession Session.
From S2P Require Import SessionTheorems Protocol ProtocolTheorems Connections.
#[local] Open Scope nat_scope.

(** ** Outcomes *)

(** An answer or an error; a panic only where [bad], and no return only where [stuck]. *)
Definition settles {E A} (bad stuck : Prop) (o : outcome E A) : Prop :=
  match o with
  | Ok _ | Err _ => True
  | Panic => bad
  | OutOfFuel => stuck
  end.

(** Found by a build with overflow checks. *)
Definition checked `{BuildProfile} (P : Prop) : Prop := overflow_checks = true /\ P.

(** A computation that settles in every state. *)
Definition ends {S E A} (bad stuck : Prop) (m : stateful S E A) : Prop :=
  forall s, settles bad stuck (m s).1.

Create HintDb ends.

Section settles.

Lemma settles_returns {E A} bad stuck (o : outcome E A) : returns o -> settles bad stuck o.
Proof. by destruct o. Qed.

Lemma settles_weaken {E A} (bad bad' stuck stuck' : Prop) (o : outcome E A) :
  (bad -> bad') -> (stuck -> stuck') -> settles bad stuck o -> settles bad' stuck' o.
Proof. destruct o; cbn; auto. Qed.

(** The second part, with what the first one gives. *)
Lemma settles_bind_of {E A B} bad stuck (o : outcome E A) (f : A -> outcome E B) :
  settles bad stuck o -> (forall a, o = Ok a -> settles bad stuck (f a)) ->
  settles bad stuck (o ≫= f).
Proof. destruct o; cbn; auto. Qed.

Lemma settles_bind {E A B} bad stuck (o : outcome E A) (f : A -> outcome E B) :
  settles bad stuck o -> (forall a, settles bad stuck (f a)) -> settles bad stuck (o ≫= f).
Proof. destruct o; cbn; auto. Qed.

Lemma settles_map_err {E1 E2 A} bad stuck (f : E1 -> E2) (o : outcome E1 A) :
  settles bad stuck o -> settles bad stuck (map_err f o).
Proof. by destruct o. Qed.

Lemma settles_mapM {E A B} bad stuck (f : A -> outcome E B) l :
  (forall a, a ∈ l -> settles bad stuck (f a)) -> settles bad stuck (mapM f l).
Proof.
  induction l as [|a l IH]; intros Hf; [done|]. cbn. apply settles_bind; [apply Hf; left|].
  intros b. apply settles_bind; [|done]. apply IH. intros x Hx. apply Hf. by right.
Qed.

Lemma settles_yields `{BuildProfile} {A} stuck (min : Prop) P (o : outcome PgError A) :
  yields min P o -> settles (checked min) stuck o.
Proof. by destruct o. Qed.

Lemma settles_arith `{BuildProfile} {E} stuck w z :
  settles (E := E) (checked (~ (- 2 ^ (w - 1) <= z < 2 ^ (w - 1))%Z)) stuck (arith w z).
Proof.
  unfold arith. case_match eqn:Hr; [done|]. destruct overflow_checks eqn:Eo; [|done].
  split; [done|]. intros [Hl Hh]. apply Z.leb_le in Hl. apply Z.ltb_lt in Hh.
  by rewrite Hl, Hh in Hr.
Qed.

Lemma settles_add_i32 `{BuildProfile} {E} stuck x y :
  settles (E := E) (checked (~ is_i32 (x + y))) stuck (add_i32 x y).
Proof.
  eapply settles_weaken; [|done|apply settles_arith]. intros [Ho Hn]. split; [done|].
  intros Hi. apply Hn. change (2 ^ (32 - 1))%Z with 2147483648%Z. unfold_bounds. lia.
Qed.

Lemma ends_mret {S E A} bad stuck (a : A) : ends (S := S) (E := E) bad stuck (mret a).
Proof. done. Qed.

Lemma ends_lift {S E A} bad stuck (o : outcome E A) :
  settles bad stuck o -> ends (S := S) bad stuck (lift o).
Proof. by intros Ho s. Qed.

Lemma ends_bind {S E A B} bad stuck (m : stateful S E A) (f : A -> stateful S E B) :
  ends bad stuck m -> (forall a, ends bad stuck (f a)) -> ends bad stuck (m ≫= f).
Proof.
  intros Hm Hf s. specialize (Hm s). unfold mbind, stateful_bind.
  destruct (m s) as [[a|e| |] s1]; cbn in *; [apply Hf|done..].
Qed.

(** From one state, with what the first computation leaves. *)
Lemma settles_then {S E A B} bad stuck (m : stateful S E A) (f : A -> stateful S E B) s :
  settles bad stuck (m s).1 ->
  (forall a s', m s = (Ok a, s') -> settles bad stuck (f a s').1) ->
  settles bad stuck ((m ≫= f) s).1.
Proof.
  unfold mbind, stateful_bind. destruct (m s) as [[a|e| |] s1]; cbn; auto.
Qed.
End settles.
#[export] Hint Resolve ends_mret ends_lift ends_bind settles_returns
  settles_bind settles_map_err settles_mapM : ends.
#[export] Hint Extern 1 (settles _ _ (Ok _)) => exact I : ends.
#[export] Hint Extern 1 (settles _ _ (Err _)) => exact I : ends.

(** ** Cursors *)

(** A movement by [i64::MIN] in a build that does not check overflow. *)
Definition endless `{BuildProfile} (d : CursorDirection) : Prop :=
  overflow_checks = false /\ min_count d.

Section cursors.
Context `{BuildProfile} `{ArrowLib}.
Implicit Types (c : GatewayCursor) (d : CursorDirection).

Lemma seek_settles bad stuck c t rr : cursor_ok c -> settles bad stuck (seek c t rr).
Proof.
  intros Hc. unfold seek. rewrite len_ok by done. cbn [mbind outcome_bind].
  by repeat case_match.
Qed.

Lemma min_settles c rr :
  cursor_ok c ->
  settles (overflow_checks = true) (overflow_checks = false) (forward CURSOR_FUEL c (Some i64_min) rr)
  /\ settles (overflow_checks = true) (overflow_checks = false)
       (backward CURSOR_FUEL c (Some i64_min) rr)
  /\ settles (overflow_checks = true) (overflow_checks = false)
       (count' ← neg_i64 i64_min; backward CURSOR_FUEL c (Some count') rr).
Proof.
  intros Hc. cbn [forward backward CURSOR_FUEL]. rewrite (len_ok c Hc).
  unfold neg_i64, arith. destruct overflow_checks eqn:Eo; split_and!; done.
Qed.

Lemma min_unfit c d : min_count d -> ~ direction_fits c d.
Proof. destruct d as [| | | | | |[]|[]| |]; cbn; try done; intros ->; lia. Qed.

Lemma parsed_i64 min d : parsed_direction min d -> direction_i64 d.
Proof.
  destruct d as [| | | | | |[]|[]| |]; cbn; unfold count_ok; try done;
    (intros [?|[-> _]]; unfold_bounds; lia).
Qed.

Lemma apply_settles c d rr :
  cursor_ok c -> direction_i64 d ->
  settles (checked (~ direction_fits c d)) (endless d) (apply CURSOR_FUEL c d rr).
Proof.
  intros Hc Hd.
  destruct (negb (scroll c) && direction_requires_scroll d) eqn:Eg.
  { unfold apply. by rewrite Eg. }
  destruct (fits_dec c d Hd) as [Hf|[Hm|(k & -> & Hk)]].
  - destruct (apply_implements CURSOR_FUEL c d rr) as (st & -> & _); try done.
    destruct (scroll c); [by left|]. right. by destruct (direction_requires_scroll d).
  - destruct (min_settles c rr Hc) as (Hfw & Hbw & Hneg). pose proof (min_unfit c d Hm) as Hu.
    assert (Hmin : forall o : step_result, settles (overflow_checks = true) (overflow_checks = false) o ->
      settles (checked (~ direction_fits c d)) (endless d) o).
    { intros o. apply settles_weaken; by split. }
    unfold apply. rewrite Eg.
    destruct d as [| | | | | |[k|]|[k|]| |k]; try done; cbn in Hm; subst k; by apply Hmin.
  - unfold apply. rewrite Eg. unfold relative. apply settles_bind.
    + eapply settles_weaken; [|done|apply settles_arith]. intros [Ho _]. by split.
    + intros t. by apply seek_settles.
Qed.

Lemma fetch_response_settles bad stuck m rows : settles bad stuck (fetch_response m rows).
Proof. unfold fetch_response. by repeat case_match. Qed.
End cursors.

(** ** Results and translation *)

Section responses.
Context `{BuildProfile} `{RegexEngine} `{ArrowLib} `{JsonLib}.

(** The number a type modifier is made from, by adding 4. *)
Definition modifier_number (exasol_type : str) : option Z :=
  let upper := to_ascii_uppercase (trim exasol_type) in
  match captures_of DECIMAL_RE upper, captures_of VARCHAR_RE upper,
        captures_of CHAR_RE upper, captures_of TIMESTAMP_RE upper with
  | Some cap, _, _, _ =>
      Some (Z.lor (wrap_signed 32 (Z.shiftl (captured_i32 upper cap 1 36) 16))
              (captured_i32 upper cap 2 0))
  | _, Some cap, _, _ => Some (captured_i32 upper cap 1 2000)
  | _, _, Some cap, _ => Some (captured_i32 upper cap 1 1)
  | _, _, _, Some cap => Some (captured_i32 upper cap 1 6)
  | _, _, _, _ => None
  end.
(** A type whose modifier is more than an [i32] can hold. *)
Definition overlong_type (exasol_type : str) : Prop :=
  exists z, modifier_number exasol_type = Some z /\ ~ is_i32 (z + 4).

Lemma map_column_type_settles stuck t :
  settles (checked (overlong_type t)) stuck (map_exasol_column_type t).
Proof.
  unfold map_exasol_column_type, decimal_typmod, overlong_type, modifier_number.
  repeat (case_match; [apply settles_bind; [|done];
    eapply settles_weaken; [|done|apply settles_add_i32];
    intros [Ho Hz]; split; [done|]; eexists; (split; [reflexivity|done])|]). done.
Qed.

(** The text of the type of a column, and a response with a column of such a type. *)
Definition rendered_type (data_type : json) : str :=
  match json_as_str data_type with Some s => s | None => json_render data_type end.
Definition overlong_response (r : GatewayResponse) : Prop :=
  match r with
  | RTypedQuery columns _ _ _ =>
      exists column, column ∈ columns /\ overlong_type (rendered_type (column_data_type column))
  | _ => False
  end.

Lemma typed_fields_settles stuck columns fold_labels :
  settles (checked (exists column, column ∈ columns
                    /\ overlong_type (rendered_type (column_data_type column)))) stuck
    (typed_fields columns fold_labels).
Proof.
  apply settles_mapM. intros column Hin. apply settles_bind; [|done].
  unfold pg_type_for_exasol_data_type. split_ifs; try done.
  apply settles_bind; [|done]. eapply settles_weaken; [|done|apply map_column_type_settles].
  intros [Ho Ht]. split; [done|]. by exists column.
Qed.

Lemma try_from_settles stuck r : settles (checked (overlong_response r)) stuck (try_from r).
Proof.
  destruct r; try done. cbn. unfold query_response_typed.
  apply settles_bind; [|done]. apply settles_bind; [apply typed_fields_settles|done].
Qed.

Lemma fields_settles stuck r : settles (checked (overlong_response r)) stuck (fields r).
Proof. destruct r; try done. apply typed_fields_settles. Qed.

(** The number of the last placeholder is more than the types that fit into memory. *)
Definition huge_index (stmt : str) : Prop :=
  exists max_idx, max_parameter_index stmt = Some max_idx /\ types_fit max_idx = false.

Lemma infer_settles stuck stmt : settles (huge_index stmt) stuck (infer_parameter_types stmt).
Proof.
  unfold infer_parameter_types. destruct (max_parameter_index stmt) as [m|] eqn:Em; [|done].
  destruct (types_fit m) eqn:Ef; [done|]. by exists m.
Qed.

(** A binary value of the portal has no declared type, and the number of the last
    placeholder is huge. *)
Definition huge_placeholder (portal : Portal) : Prop :=
  huge_index (portal_statement portal)
  /\ exists idx bytes, portal_parameters portal !! idx = Some (Some bytes)
      /\ portal_is_binary portal idx = true /\ mjoin (portal_parameter_types portal !! idx) = None.

Lemma render_parameter_settles stuck portal idx :
  settles (huge_placeholder portal) stuck (render_portal_parameter portal idx).
Proof.
  unfold render_portal_parameter.
  destruct (portal_parameters portal !! idx) as [[bytes|]|] eqn:Ep; [|done..].
  cbn [ok_or mbind outcome_bind]. destruct (portal_is_binary portal idx) eqn:Eb; [|by case_match].
  assert (Hr : forall t, settles (huge_placeholder portal) stuck (render_binary_parameter bytes t idx))
    by (intros t; unfold render_binary_parameter, render_binary_int; by repeat case_match).
  apply settles_bind; [|done].
  destruct (mjoin (portal_parameter_types portal !! idx)) as [t|] eqn:Et; [done|].
  apply settles_bind; [|done]. eapply settles_weaken; [|done|apply infer_settles].
  intros Hh. split; [done|]. by exists idx, bytes.
Qed.

Lemma render_settles stuck portal :
  settles (huge_placeholder portal) stuck (render_portal_sql portal).
Proof.
  unfold render_portal_sql. generalize (portal_statement portal).
  induction (portal_parameter_len portal) as [|n IH]; intros sql; [done|]. cbn.
  apply settles_bind; [apply render_parameter_settles|]. intros value. apply IH.
Qed.
End responses.

(** ** Statements *)

(** What the handlers take for granted: the calls of Exasol and of the transpiler come
    back. *)
Class TransportReturns {T} `{ExasolTransport T} : Prop := {
  execute_returns q (t : T) : returns (execute q t).1;
  execute_update_returns q (t : T) : returns (execute_update q t).1 }.
Class TranspilerReturns `{Transpiler} : Prop :=
  transpile_returns sql from to : returns (transpile_by_name sql from to).

(** The text is a FETCH or MOVE by [i64::MIN], in a build that does not check overflow. *)
Definition endless_text `{BuildProfile} `{RegexEngine} (sql : str) : Prop :=
  exists p, (classify_statement sql = Ok (Cursor (PlanFetch p))
             \/ classify_statement sql = Ok (Cursor (PlanMove p)))
    /\ endless (position_direction p).

Section statements.
Context `{BuildProfile} `{RegexEngine} `{ArrowLib} `{JsonLib} `{Transpiler}.
Context {T : Type} `{!ExasolTransport T} `{!TransportReturns (T := T)} `{!TranspilerReturns}.
Variable config : AppConfig.
Implicit Types (c : Client (T := T)).

(** A statement overflows in a client when it is a FETCH or MOVE by [i64::MIN], or its
    cursor's query is; when it moves an open cursor further than [i64]; or when it asks
    for the catalog and the answer of Exasol has more schemas than [i32] has numbers for,
    or a column whose type modifier is more than an [i32]. *)
Inductive statement_overflows (sql : str) (c : Client (T := T)) : Prop :=
| OverMinCount :
    min_count_text (normalize_sql sql) -> statement_overflows sql c
| OverDeclared d :
    classify_statement sql = Ok (Cursor (PlanDeclare d)) ->
    min_count_text (normalize_sql (declare_query d)) -> statement_overflows sql c
| OverMovement p s cur :
    classify_statement sql = Ok (Cursor (PlanFetch p))
    \/ classify_statement sql = Ok (Cursor (PlanMove p)) ->
    client_session c = Some s -> cursors s !! position_name p = Some cur ->
    ~ direction_fits cur (position_direction p) -> statement_overflows sql c
| OverSchemas schemas c' idx :
    detect sql = Some PgNamespace -> all_schemas c = (Ok schemas, c') -> idx < length schemas ->
    ~ is_i32 (2200 + wrap_signed 32 (Z.of_nat idx)) -> statement_overflows sql c
| OverColumn plan q rows row c' :
    detect sql = Some plan -> metadata_query plan = Some q ->
    fetch_query_rows q c = (Ok rows, c') -> row ∈ rows ->
    overlong_type (default (lit "VARCHAR(2000) UTF8") (mjoin (row !! 3))) ->
    statement_overflows sql c.

(** So it does, or a column of its answer has such a type. *)
Definition sql_overflows (sql : str) (c : Client (T := T)) : Prop :=
  statement_overflows sql c
  \/ exists responses c' response, execute_statement config sql c = (Ok responses, c')
       /\ response ∈ responses /\ overlong_response response.

Lemma ends_with_session {A} bad stuck (m : session_m (T := T) A) :
  ends bad stuck m -> ends bad stuck (with_session m).
Proof.
  intros Hm c. unfold with_session. destruct (client_session c) as [s|]; [|done].
  specialize (Hm s). by destruct (m s).
Qed.

Lemma ends_session_execute bad stuck q : ends bad stuck (session_execute (T := T) q).
Proof.
  intros s. rewrite session_execute_eq. apply settles_map_err, settles_returns.
  apply execute_returns.
Qed.

Lemma ends_execute bad stuck q : ends bad stuck (execute_exasol_sql (T := T) q).
Proof. apply ends_with_session, ends_session_execute. Qed.

Lemma translate_settles bad stuck sql : settles bad stuck (translate_client_sql config sql).
Proof.
  unfold translate_client_sql. case_match; [done|]. apply settles_map_err.
  unfold translate_postgres_to_exasol. apply settles_bind; [|done].
  case_match; [done|]. case_match; [done|]. apply settles_bind; [|done].
  apply settles_map_err, settles_returns, transpile_returns.
Qed.

Lemma ends_client_sql bad stuck sql : ends bad stuck (execute_client_sql (T := T) config sql).
Proof. apply ends_bind; [apply ends_lift, translate_settles|]. intros q. apply ends_execute. Qed.

Lemma ends_modify bad stuck f : ends bad stuck (modify (T := T) f).
Proof. done. Qed.
#[local] Hint Resolve ends_with_session ends_session_execute ends_execute translate_settles
  ends_client_sql ends_modify : ends.

Lemma ends_rows bad stuck q : ends bad stuck (fetch_query_rows (T := T) q).
Proof. apply ends_bind; [auto with ends|]. intros []; auto with ends. Qed.
#[local] Hint Resolve ends_rows : ends.

Lemma ends_schemas bad stuck : ends bad stuck (all_schemas (T := T)).
Proof. apply ends_bind; auto with ends. Qed.

Lemma namespace_settles stuck sql c schemas c' :
  detect sql = Some PgNamespace -> all_schemas c = (Ok schemas, c') ->
  settles (checked (statement_overflows sql c)) stuck
    (mapM (fun p => namespace_row p.1 p.2) (zip (seq 0 (length schemas)) schemas)).
Proof.
  intros Hd Hs. apply settles_mapM. intros [idx row] Hin. cbn [fst snd].
  apply settles_bind; [|done]. eapply settles_weaken; [|done|apply settles_add_i32].
  intros [Ho Hi]. split; [done|].
  apply (elem_of_zip_l idx row), list_elem_of_In, in_seq in Hin.
  by eapply (OverSchemas _ _ schemas c' idx); [..|lia|].
Qed.

Lemma columns_settle stuck sql c q plan rows c' :
  detect sql = Some plan -> metadata_query plan = Some q -> fetch_query_rows q c = (Ok rows, c') ->
  settles (checked (statement_overflows sql c)) stuck (mapM jdbc_column_row rows).
Proof.
  intros Hd Hq Hr. apply settles_mapM. intros row Hin. apply settles_bind; [|done].
  eapply settles_weaken; [|done|apply map_column_type_settles].
  intros [Ho Ht]. split; [done|]. by eapply OverColumn.
Qed.

Lemma metadata_settles stuck sql plan c :
  detect sql = Some plan ->
  settles (checked (statement_overflows sql c)) stuck (answer_metadata (T := T) plan c).1.
Proof.
  intros Hd. set (bad := checked _).
  assert (Hx : forall q, settles bad stuck (execute_exasol_query (T := T) q c).1).
  { intros q. assert (He : ends bad stuck (execute_exasol_query (T := T) q)); [|apply He].
    apply ends_bind; auto with ends. }
  destruct plan; cbn [answer_metadata]; try case_match; try done; try apply Hx.
  all: (apply settles_then; [apply ends_schemas || apply ends_rows|]); intros rows c' Hr.
  all: try exact I.
  all: apply settles_then; [|intros; exact I].
  all: first [by eapply namespace_settles | by eapply columns_settle].
Qed.

Lemma declare_settles stuck sql d c :
  classify_statement sql = Ok (Cursor (PlanDeclare d)) ->
  settles (checked (statement_overflows sql c)) stuck (declare_cursor (T := T) config d c).1.
Proof.
  intros Hd. apply settles_then.
  { eapply settles_weaken; [|done|eapply settles_yields, classify_statement_plan].
    intros [Ho Hm]. split; [done|]. by eapply OverDeclared. }
  intros plan c1 _. set (bad := checked _).
  assert (He : ends bad stuck (if is_cursor_unsafe_query plan
    then mret [RError (lit "0A000") (lit "cursor query must be a supported row-returning query")]
    else
      taken ← with_session (fun s => (Ok (has_cursor (declare_name d) s), s));
      if taken : bool then mret [cursor_exists (declare_name d)]
      else
        outcome ← execute_client_sql config (declare_query d);
        match cursor_data_of outcome with
        | None => mret [RError (lit "0A000") (lit "cursor query must return rows")]
        | Some data =>
            with_session (insert_cursor (declare_name d)
              {| data := data; position := -1; scroll := declare_scroll d;
                 hold := declare_hold d |})
        end : client_m (T := T) _)); [|apply He].
  case_match; [auto with ends|]. apply ends_bind; [by apply ends_with_session; intros s|].
  intros [|]; [auto with ends|]. apply ends_bind; [auto with ends|]. intros o.
  case_match; [|auto with ends]. apply ends_with_session. intros s. unfold insert_cursor.
  by case_match.
Qed.

Lemma step_settles sql p rr respond c :
  cursors_ok c -> direction_i64 (position_direction p) ->
  classify_statement sql = Ok (Cursor (PlanFetch p))
  \/ classify_statement sql = Ok (Cursor (PlanMove p)) ->
  (forall bad stuck cur st, settles bad stuck (respond cur st)) ->
  settles (checked (statement_overflows sql c)) (endless (position_direction p))
    (with_session (step_cursor (T := T) p rr respond) c).1.
Proof.
  intros Hc Hp Hcl Hr. unfold with_session. destruct (client_session c) as [s|] eqn:Es; [|done].
  unfold step_cursor. destruct (cursors s !! _) as [cur|] eqn:Ec; [|done].
  pose proof (apply_settles cur (position_direction p) rr (Hc _ Es _ _ Ec) Hp) as Ha.
  destruct (apply _ _ _ _) as [[cur' st]| | |]; cbn in *; auto.
  destruct Ha as [Ho Hn]. split; [done|]. by eapply OverMovement.
Qed.

(** A plan settles from well-formed cursors, but for a movement by [i64::MIN]. *)
Definition endless_plan (plan : StatementPlan) : Prop :=
  match plan with
  | Cursor (PlanFetch p) | Cursor (PlanMove p) => endless (position_direction p)
  | _ => False
  end.

Lemma plan_settles sql plan min c :
  cursors_ok c -> classify_statement sql = Ok plan -> wf_plan min plan ->
  settles (checked (statement_overflows sql c)) (endless_plan plan)
    (execute_plan config sql plan c).1.
Proof.
  intros Hc Hcl Hp.
  assert (He : forall m : client_m (T := T) (list GatewayResponse),
             ends (checked (statement_overflows sql c)) (endless_plan plan) m ->
             settles (checked (statement_overflows sql c)) (endless_plan plan) (m c).1) by auto.
  destruct plan as [command rc| |schema| | | | | | |[d|p|p|cl]| |];
    cbn [execute_plan execute_cursor_plan]; try done.
  - apply He. apply ends_bind; [by apply ends_with_session|]. intros _. auto with ends.
  - apply He, ends_with_session, ends_bind; [auto with ends|]. intros _. auto with ends.
  - by apply He, ends_with_session.
  - by apply declare_settles.
  - apply step_settles; [done|by eapply parsed_i64|auto|]. intros bad stuck cur st.
    apply settles_bind; [apply fetch_response_settles|done].
  - apply step_settles; [done|by eapply parsed_i64|auto|done].
  - apply He, ends_with_session. intros s. by repeat case_match.
Qed.

Lemma statement_settles sql c :
  cursors_ok c ->
  settles (checked (statement_overflows sql c)) (endless_text sql)
    (execute_statement config sql c).1.
Proof.
  intros Hc. destruct (detect sql) as [mp|] eqn:Ed.
  - rewrite (statement_metadata _ _ mp) by done.
    apply settles_then; [by apply metadata_settles|done].
  - rewrite statement_other by done. unfold mbind, stateful_bind, lift.
    pose proof (classify_statement_plan sql) as Hw.
    destruct (classify_statement sql) as [plan|e| |] eqn:Ep; cbn in Hw; try done.
    + eapply settles_weaken; [done| |by eapply plan_settles].
      destruct plan as [| | | | | | | | |[|p|p|]| |]; try done; intros Hm; exists p; auto.
    + destruct Hw as [Ho Hw]. split; [done|]. by apply OverMinCount.
Qed.

(** With the encoding of the responses. *)
Lemma sql_settles sql c :
  cursors_ok c ->
  settles (checked (sql_overflows sql c)) (endless_text sql) (execute_sql config sql c).1.
Proof.
  intros Hc. unfold execute_sql. apply settles_then.
  - eapply settles_weaken; [|done|by apply statement_settles]. intros [Ho Hs].
    split; [done|by left].
  - intros rs c' E. apply settles_mapM. intros r Hr.
    eapply settles_weaken; [|done|apply try_from_settles]. intros [Ho Hl]. split; [done|]. right.
    by exists rs, c', r.
Qed.
End statements.

(** ** The handlers *)

(** What else the handlers take for granted: the calls of [pgwire] come back. *)
Class WireReturns `{PgWireLib} : Prop := {
  send_returns call w : returns (wire_send call w).1;
  negotiate_returns message w : returns (negotiate message w).1;
  finish_returns w : returns (finish_messages w).1 }.

Section handlers.
Context `{BuildProfile} `{RegexEngine} `{ArrowLib} `{JsonLib} `{Transpiler}.
Context {T : Type} `{!ExasolTransport T} `{!TransportReturns (T := T)} `{!TranspilerReturns}.
Context `{PgWireLib} `{!WireReturns} {results_fit : ResultsFit (T := T)}.
Variable config : AppConfig.
Implicit Types (c : Client (T := T)) (conn : Connection (T := T)).

(** One of the texts moves a cursor by [i64::MIN]. *)
Definition endless_in (texts : list str) : Prop := Exists endless_text texts.

(** The statements of a query run one after the other until one of them fails; one of
    those that run overflows in the client the others leave. *)
Inductive query_overflows : list str -> Client (T := T) -> Prop :=
| OverFirst sql sqls c : sql_overflows config sql c -> query_overflows (sql :: sqls) c
| OverLater sql sqls c responses c' :
    execute_sql config sql c = (Ok responses, c') -> existsb is_error_response responses = false ->
    query_overflows sqls c' -> query_overflows (sql :: sqls) c.

(** What makes a Describe panic: a huge placeholder, or the overflow of its statement. *)
Definition describe_panics (portal : Portal) c : Prop :=
  huge_placeholder portal
  \/ checked (exists sql, render_portal_sql portal = Ok sql /\ sql_overflows config sql c).

(** What makes an Execute panic: that, or an overflow in the response Describe kept. *)
Definition execute_panics (name : str) (portal : Portal) c : Prop :=
  describe_panics portal (take_cached_extended_result name c).2
  \/ checked (exists s response, client_session c = Some s
              /\ extended_results s !! name = Some response /\ overlong_response response).

Lemma statements_settle sqls responses c :
  cursors_ok c ->
  settles (checked (query_overflows sqls c)) (endless_in sqls)
    (execute_statements config sqls responses c).1.
Proof.
  revert responses c. induction sqls as [|sql sqls IH]; intros responses c Hc; [done|].
  cbn [execute_statements]. apply settles_then.
  - eapply settles_weaken; [|apply Exists_cons_hd|by apply sql_settles].
    intros [Ho Hs]. split; [done|by apply OverFirst].
  - intros rs c' E. pose proof E as E'. unfold execute_sql in E'.
    apply stateful_bind_Ok in E' as (rs0 & c1 & E' & [= _ <-]).
    assert (Hc1 : cursors_ok c1) by by eapply statement_keeps.
    destruct (existsb is_error_response rs) eqn:Er; [done|].
    eapply settles_weaken; [|apply Exists_cons_tl|by apply IH].
    intros [Ho Hs]. split; [done|by eapply OverLater].
Qed.

Lemma query_settles query c :
  cursors_ok c ->
  settles (checked (query_overflows (split_simple_query query) c))
    (endless_in (split_simple_query query)) (do_simple_query config query c).1.
Proof.
  intros Hc. unfold do_simple_query, execute_simple_query.
  destruct (split_simple_query query) as [|sql sqls]; [done|]. by apply statements_settle.
Qed.

Lemma rendered_endless portal sql :
  render_portal_sql portal = Ok sql -> endless_text sql -> endless_in (rendered (Some portal)).
Proof. intros Hr. unfold rendered. cbn. rewrite Hr. apply Exists_cons_hd. Qed.

Lemma describe_settles portal c :
  cursors_ok c ->
  settles (describe_panics portal c) (endless_in (rendered (Some portal)))
    (do_describe_portal config portal c).1.
Proof.
  intros Hc. unfold do_describe_portal. apply settles_then.
  { eapply settles_weaken; [|done|apply render_settles]. by left. }
  intros sql c' [= Hr <-].
  assert (Hb : checked (sql_overflows config sql c) -> describe_panics portal c)
    by (intros [Ho Hs]; right; split; [done|by exists sql]).
  apply settles_then.
  { eapply settles_weaken; [|by eapply rendered_endless|by apply statement_settles].
    intros [Ho Hs]. apply Hb. split; [done|by left]. }
  intros rs c1 E. apply settles_then.
  { eapply settles_weaken; [|done|apply fields_settles]. intros [Ho Hl]. apply Hb.
    split; [done|]. right. exists rs, c1, (default REmpty (list.last rs)). split_and!; [done| |done].
    destruct (list.last rs) eqn:El; [by eapply last_Some_elem_of|done]. }
  intros fs c2 _. apply settles_then; [|done]. by apply ends_with_session.
Qed.

Lemma query_portal_settles portal c :
  cursors_ok c ->
  settles (describe_panics portal c) (endless_in (rendered (Some portal))) (do_query config portal c).1.
Proof.
  intros Hc. unfold do_query.
  pose proof (render_settles False portal) as Hs.
  destruct (render_portal_sql portal) as [sql|e| |] eqn:Hr; [|done|by left|done].
  assert (Hb : checked (sql_overflows config sql c) -> describe_panics portal c)
    by (intros [Ho Hl]; right; split; [done|by exists sql]).
  apply settles_then.
  { eapply settles_weaken; [|by eapply rendered_endless|by apply statement_settles].
    intros [Ho Hl]. apply Hb. split; [done|by left]. }
  intros rs c1 E. eapply settles_weaken; [|done|apply try_from_settles]. intros [Ho Hl].
  apply Hb. split; [done|]. right. exists rs, c1, (default REmpty (list.last rs)).
  split_and!; [done| |done]. destruct (list.last rs) eqn:El; [by eapply last_Some_elem_of|done].
Qed.

Lemma portal_settles name portal c :
  cursors_ok c ->
  settles (execute_panics name portal c) (endless_in (rendered (Some portal)))
    (portal_response config name portal c).1.
Proof.
  intros Hc. unfold portal_response. apply settles_then.
  { unfold take_cached_extended_result. by case_match. }
  intros cached c1 E. assert (Hc1 : cursors_ok c1).
  { unfold take_cached_extended_result in E. destruct (client_session c) as [s|] eqn:Hs;
      injection E as _ <-; [|done]. intros s' [= <-]. exact (Hc s Hs). }
  destruct cached as [response|].
  - apply settles_then; [|done]. eapply settles_weaken; [|done|apply try_from_settles].
    intros [Ho Hl]. right. split; [done|]. unfold take_cached_extended_result in E.
    destruct (client_session c) as [s|]; [|done]. injection E as Hr _. by exists s, response.
  - apply settles_then; [|done]. eapply settles_weaken; [|done|by apply query_portal_settles].
    intros Hd. left. by rewrite E.
Qed.

Lemma ends_wire {A} bad stuck (m : wire -> outcome PgWireError A * wire) :
  (forall w, returns (m w).1) -> ends bad stuck (on_wire (T := T) m).
Proof.
  intros Hm conn. unfold on_wire. specialize (Hm (conn_wire conn)).
  destruct (m (conn_wire conn)). by apply settles_returns.
Qed.

Lemma ends_send bad stuck call : ends bad stuck (send (T := T) call).
Proof. apply ends_wire, send_returns. Qed.

Lemma ends_response bad stuck response b : ends bad stuck (send_response (T := T) response b).
Proof. destruct response; cbn; try apply ends_bind; by try apply ends_send. Qed.

Lemma execute_settles name conn :
  cursors_ok (conn_client conn) ->
  let portal_name := default DEFAULT_NAME name in
  settles (exists portal, conn_portals conn !! portal_name = Some portal
             /\ execute_panics portal_name portal (conn_client conn))
    (endless_in (rendered (conn_portals conn !! portal_name)))
    (on_execute config name conn).1.
Proof.
  intros Hc portal_name. unfold on_execute. apply settles_then; [done|]. intros c0 x0 [= <- <-].
  case_match; [done|]. fold portal_name. apply settles_then; [by destruct (_ !! _)|].
  intros portal x1 [= Hp <-].
  destruct (conn_portals conn !! portal_name) as [p|] eqn:Ep; [|done].
  injection Hp as ->. apply settles_then; [done|]. intros [] x2 [= <-].
  apply settles_then.
  { unfold on_client. pose proof (portal_settles portal_name portal _ Hc) as Hs.
    cbn [conn_client set_state]. destruct (portal_response _ _ _ _).
    apply settles_map_err. eapply settles_weaken; [|done|exact Hs]. by exists portal. }
  intros [response described] x3 _. apply settles_then; [apply ends_response|].
  intros [] x4 _. apply settles_then; [done|]. intros [] x5 _. by case_match.
Qed.

(** Logging in, when the opening of a session comes back. *)
Variable open : ExasolConfig -> str -> str -> outcome ExasolError T.
Hypothesis open_returns : forall ec user password, returns (open ec user password).

Lemma initialize_settles templates script (t : T) bad stuck :
  settles bad stuck (initialize templates script t).1.
Proof.
  revert t. induction templates as [|x templates IH]; intros t; [done|].
  apply settles_then; [apply settles_returns, execute_update_returns|]. intros [] t' _. apply IH.
Qed.

Lemma connect_settles user password bad stuck :
  settles bad stuck (connect_exasol config open user password).
Proof.
  unfold connect_exasol. apply settles_bind; [apply settles_map_err, settles_returns, open_returns|].
  intros t. case_match; [|done].
  pose proof (initialize_settles (session_init_sql (translation config))
                (sql_preprocessor_script (translation config)) t bad stuck) as Hs.
  destruct (initialize _ _ t) as [r t']. by apply settles_bind; [apply settles_map_err|].
Qed.

(** The password message could be decoded. *)
Definition decoded `{PgWireLib} (message : FrontendMessage) : Prop :=
  match message with MsgPassword password => returns password | _ => True end.

Lemma startup_settles message conn bad stuck :
  decoded message -> settles bad stuck (on_startup config open message conn).1.
Proof.
  intros Hd. assert (Hs : ends bad stuck (on_startup config open message)); [|apply Hs].
  destruct message as [startup|password|]; cbn [on_startup]; [| |done].
  - apply ends_bind; [apply ends_wire, negotiate_returns|]. intros _.
    apply ends_bind; [done|]. intros _. apply ends_bind; [done|]. intros _. apply ends_send.
  - apply ends_bind; [by apply ends_lift, settles_returns|]. intros pw.
    apply ends_bind; [done|]. intros c. apply ends_bind; [apply ends_lift; by destruct (conn_user c)|].
    intros user. apply ends_bind; [apply ends_lift, settles_map_err, connect_settles|].
    intros s. apply ends_bind; [done|]. intros _.
    apply ends_bind; [apply ends_wire; intros w; by destruct (generate_pid w)|]. intros pid.
    apply ends_bind; [done|]. intros _.
    by apply ends_bind; [apply ends_wire, finish_returns|].
Qed.
End handlers.

