(* ===== verification/EndToEnd.v ===== *)
(** * From the table to the client

    A SELECT of a client through the whole program: the statement is classified and
    translated, sent, answered by a server in pages or by the Arrow driver in batches, and
    its rows are encoded for the client. *)

From S2P Require Import Prelude RustStr RustInt Regex Arrow Plan Config Exasol Cursor.
From S2P Require Import WebSocket WebSocketTheorems WebSocketResults Policy Translator Metadata.
From S2P Require Import Responses ResponsesTheorems Params ExasolSession Session.
From S2P Require Import SessionTheorems SessionFlow Protocol.
#[local] Open Scope nat_scope.

Section end_to_end.
Context `{BuildProfile} `{RegexEngine} `{ArrowLib} `{JsonLib} `{Transpiler}.
Context `{WsLib} `{!ExarrowLib}.
Variables (fuel : nat) (config : AppConfig).
#[local] Existing Instance AnyTransport_transport.
#[local] Instance transport_in_use : ExasolTransport AnyTransport := AnyTransport_transport fuel.
Implicit Types (c : Client (T := AnyTransport)) (s : SessionState (T := AnyTransport)).

Lemma encode_row_same n (row : list (option str)) : length row = n -> encode_row n row = row.
Proof.
  intros <-. unfold encode_row. apply list_eq. intros i. rewrite list_lookup_fmap.
  destruct (decide (i < length row)) as [Hi|Hi].
  - rewrite lookup_seq_lt by done. cbn. by destruct (lookup_lt_is_Some_2 row i Hi) as [o ->].
  - rewrite lookup_seq_ge, lookup_ge_None_2 by lia. done.
Qed.

Lemma statement_executes sql command row_count q c s :
  detect sql = None -> classify_statement sql = Ok (Execute command row_count) ->
  translate_client_sql config sql = Ok q -> client_session c = Some s ->
  execute_statement config sql c
  = (o ← execute_exasol_sql q;
     mret (map_exasol_result o command row_count (should_fold_labels config sql))) c.
Proof.
  intros Hd Hcl Ht Hs. rewrite (statement_plan config sql _ c Hd Hcl). cbn [execute_plan].
  eapply bind_step.
  { rewrite (with_session_eq _ c s) by done. cbn. by rewrite set_session_same. }
  eapply bind_step; [unfold lift; by rewrite Ht|done].
Qed.

Lemma try_from_rows columns fold_labels fs rows :
  typed_fields columns fold_labels = Ok fs ->
  Forall (fun row : list json => length row = length columns) rows ->
  try_from (RTypedQuery columns (text_row <$> rows) None fold_labels)
  = Ok (QueryR {| qr_schema := fs; qr_rows := (fun row => Ok (text_row row)) <$> rows;
                  qr_command_tag := None |}).
Proof.
  intros Hf Hr. cbn. unfold query_response_typed. rewrite Hf. cbn. do 3 f_equal.
  rewrite <- list_fmap_compose. apply list_fmap_ext. intros i row Hi. cbn. f_equal.
  apply encode_row_same. unfold text_row. rewrite length_fmap.
  rewrite (mapM_length _ _ _ Hf). by apply (Forall_lookup_1 _ _ _ _ Hr Hi).
Qed.

(** ** Rows of Arrow batches *)

(** The text of a value, as the formatter writes it. *)
Definition shown_as (o : option cell) (t : option str) : Prop :=
  match o with
  | Some v => exists text, cell_text v = inl text /\ t = Some text
  | None => t = None
  end.

Lemma encode_columns_shown (cols : list ArrayRef) (i : nat) (texts e : list (option str)) :
  Forall2 shown_as ((fun cells => mjoin (cells !! i)) <$> (array_cells <$> cols)) texts ->
  encode_columns cols i e = (Ok tt, e ++ texts).
Proof.
  revert texts e; induction cols as [|col cols IH]; intros texts e Hf.
  - inversion Hf. by rewrite app_nil_r.
  - inversion Hf as [|o t l l' Ho Hl]; subst. cbn [encode_columns].
    rewrite (bind_step _ _ e tt (e ++ [t]) (Ok tt, e ++ t :: l')); [done| |].
    + destruct (mjoin (array_cells col !! i)) as [v|]; cbn [shown_as] in Ho; [|by subst].
      by destruct Ho as (text & -> & ->).
    + rewrite (IH _ _ Hl). by rewrite <- app_assoc.
Qed.

Lemma encode_row_shown b i texts :
  Forall2 shown_as (row_at b i) texts -> encode_one_row b i [] = (Ok texts, []).
Proof.
  intros Hf. unfold encode_one_row. eapply bind_step; [by apply encode_columns_shown|done].
Qed.

Lemma encode_batch_shown b texts :
  omap formatter_error (batch_columns b) = [] ->
  Forall2 (Forall2 shown_as) (batch_rows b) texts ->
  encode_batch_rows b [] = (Ok <$> texts, []).
Proof.
  intros Hb Hr. unfold encode_batch_rows. rewrite Hb. unfold batch_rows in Hr.
  destruct (Nat.eqb_spec (num_rows b) 0) as [Hn|_].
  - rewrite Hn in Hr. by inversion Hr.
  - revert texts Hr. induction (seq 0 (num_rows b)) as [|i l IH]; intros texts Hr.
    + by inversion Hr.
    + cbn [fmap list_fmap] in Hr. inversion Hr as [|x t l1 l2 Hx Hl]; subst.
      cbn [encode_each]. by rewrite (encode_row_shown b i t), (IH l2).
Qed.

Lemma encode_batches_shown batches rows :
  Forall (fun b => omap formatter_error (batch_columns b) = []) batches ->
  Forall2 (Forall2 shown_as) (batches_rows batches) rows ->
  mjoin (encode_each encode_batch_rows batches []).1 = Ok <$> rows.
Proof.
  intros Hf. revert rows; induction Hf as [|b bs Hb _ IH]; intros rows Hr.
  - by inversion Hr.
  - rewrite batches_rows_cons in Hr. apply Forall2_app_inv_l in Hr as (r1 & r2 & Hr1 & Hr2 & ->).
    cbn [encode_each]. rewrite (encode_batch_shown b r1) by done. specialize (IH r2 Hr2).
    destruct (encode_each encode_batch_rows bs []) as [k e]. rewrite fmap_app, <- IH. done.
Qed.

(** ** What is on the other side of a transport *)

(** The transport, asked the statement, is left as [t'], and what it was given are the
    columns [fs] and the rows: over WebSocket by the pages of a server, over Arrow by
    the batches of the driver. *)
Inductive holds (q : str) (fold_labels : bool) (fs : list FieldInfo)
    (rows : list (list (option str))) : AnyTransport -> AnyTransport -> Prop :=
| HoldsWebSocket w w1 w2 k columns first rest handle :
    columns <> [] -> Forall (fun row => length row = length columns) (first ++ rest) ->
    (Z.of_nat (length (first ++ rest)) <= u64_max)%Z ->
    responds k (execute_request q) w
      (answer_json (rows_result
         (result_set_json columns (length (first ++ rest)) first handle))) w1 ->
    serves_rest k handle (length columns) (length first) w1 rest w2 ->
    k + length rest < fuel ->
    typed_fields columns fold_labels = Ok fs -> rows = text_row <$> (first ++ rest) ->
    holds q fold_labels fs rows (WebSocketTransport w) (WebSocketTransport w2)
| HoldsArrow d d1 rs batches schema :
    conn_execute q d = (Ok rs, d1) -> rs_row_count rs = None -> rs_fetch_all rs = Ok batches ->
    match batches with b :: _ => batch_schema b = schema | [] => rs_schema rs = Some schema end ->
    Forall (fun b => omap formatter_error (batch_columns b) = []) batches ->
    Forall2 (Forall2 shown_as) (batches_rows batches) rows ->
    fs = map_exasol_columns schema fold_labels ->
    holds q fold_labels fs rows (ArrowTransport d) (ArrowTransport d1).

Lemma holds_answers q fold_labels fs rows t t' :
  holds q fold_labels fs rows t t' ->
  exists o, execute q t = (Ok o, t') /\ forall command row_count,
    mapM try_from (map_exasol_result o command row_count fold_labels)
    = Ok [QueryR {| qr_schema := fs; qr_rows := Ok <$> rows; qr_command_tag := None |}].
Proof.
  destruct 1 as [w w1 w2 k columns first rest handle Hc Hr Hn Ha Hrest Hf Hfs ->
                |d d1 rs batches schema Hx Hcount Hb Hs Hfmt Hr ->].
  - exists (TypedRows columns (text_row <$> (first ++ rest))). split.
    + cbn. unfold on_ws. by rewrite (ws_execute_rows k q w w1 columns first rest handle w2 fuel).
    + intros command row_count. cbn [map_exasol_result mapM].
      rewrite (try_from_rows _ _ fs) by done. cbn. do 4 f_equal. by rewrite <- list_fmap_compose.
  - set (batches' := backfill_schema_when_empty batches (rs_schema rs)).
    exists (ArrowRows batches'). split.
    + cbn. unfold on_arrow, arrow_execute. rewrite Hx. cbn. rewrite Hcount, Hb. done.
    + intros command row_count. cbn.
      assert (Hsc : cursor_schema_for batches' = schema).
      { subst batches'. destruct batches as [|b bs]; cbn; [|done]. rewrite Hs. cbn.
        by rewrite new_empty_schema. }
      assert (Henc : mjoin (encode_each encode_batch_rows batches' []).1 = Ok <$> rows).
      { subst batches'. rewrite <- (encode_batches_shown batches rows) by done.
        destruct batches as [|b bs]; [|done]. cbn. rewrite Hs. cbn.
        unfold encode_batch_rows. by rewrite new_empty_rows. }
      unfold query_response_arrow. by rewrite Hsc, Henc.
Qed.

(** C3: a SELECT of a client shows it the whole answer of Exasol, on either transport.  A
    simple query of one statement that the policy executes is sent as its translation;
    when Exasol answers with a result set, in pages of any size over WebSocket or in
    batches of any size over Arrow, the client gets one response: a description with a
    field for every column and after it every row of the result set, in order, each
    value as its text and null as null; and the session changes in nothing but the state
    of its transport. *)
Theorem select_reaches_client query sql q command row_count c s t fs rows :
  split_simple_query query = [sql] ->
  detect sql = None -> classify_statement sql = Ok (Execute command row_count) ->
  translate_client_sql config sql = Ok q ->
  client_session c = Some s ->
  holds q (should_fold_labels config sql) fs rows (ss_exasol s) t ->
  do_simple_query config query c
  = (Ok [QueryR {| qr_schema := fs; qr_rows := Ok <$> rows; qr_command_tag := None |}],
     set_session (Some (set_exasol t s)) c).
Proof.
  intros Hq Hd Hcl Ht Hs (o & Ho & Hresp)%holds_answers.
  assert (Hx : execute_exasol_sql q c = (Ok o, set_session (Some (set_exasol t s)) c)).
  { unfold execute_exasol_sql. rewrite (with_session_eq _ c s) by done.
    rewrite session_execute_eq. by rewrite Ho. }
  unfold do_simple_query, execute_simple_query. rewrite Hq. cbn [execute_statements].
  eapply bind_step.
  { unfold execute_sql. eapply bind_step.
    - rewrite (statement_executes _ command row_count q c s) by done.
      eapply bind_step; [exact Hx|reflexivity].
    - unfold lift. by rewrite Hresp. }
  done.
Qed.
End end_to_end.

(** ** A SELECT of three rows, two of them with the answer *)

#[local] Existing Instance dev_profile.
#[local] Existing Instance reference_engine.
#[local] Existing Instance list_arrow.
#[local] Existing Instance paged_json.
#[local] Existing Instance paged_ws.
#[local] Instance untranslated : Transpiler := fun _ _ _ => Err (lit "unsupported").
(** The same table in two batches. *)
Definition ex_schema : Schema :=
  [{| field_name := lit "X"; field_data_type := DtInt64; field_metadata := ∅ |};
   {| field_name := lit "NOTE"; field_data_type := DtUtf8; field_metadata := ∅ |}].
Definition ex_batches : list list_batch :=
  [{| lb_schema := ex_schema;
      lb_columns := [{| la_type := DtInt64; la_cells := [Some (lit "1"); Some (lit "2")] |};
                     {| la_type := DtUtf8; la_cells := [Some (lit "one"); None] |}];
      lb_rows := 2; lb_ok := eq_refl |};
   {| lb_schema := ex_schema;
      lb_columns := [{| la_type := DtInt64; la_cells := [Some (lit "3")] |};
                     {| la_type := DtUtf8; la_cells := [Some (lit "t")] |}];
      lb_rows := 1; lb_ok := eq_refl |}].
#[local] Instance ex_driver : ExarrowLib :=
  {| conn := unit; params_build := Ok; conn_from_params _ := Ok tt;
     conn_execute _ c :=
       (Ok {| rs_row_count := None; rs_schema := Some ex_schema; rs_fetch_all := Ok ex_batches |}, c);
     conn_execute_update _ c := (Err [], c);
     conn_close c := (Err [], c) |}.

Definition ex_config : AppConfig :=
  {| server := ServerConfig_default;
     exasol := {| dsn := lit "localhost:8563"; encryption := true; certificate_fingerprint := [];
                  validate_certificate := true; pass_client_credentials := true; schema := [];
                  transport := DEFAULT_TRANSPORT |};
     translation := {| enabled := true; sql_preprocessor_script := []; session_init_sql := [] |} |}.
Definition ex_client (t : AnyTransport) : Client (T := AnyTransport) :=
  {| client_session := Some (new_session t); client_pid := 7 |}.
Definition ex_arrow : AnyTransport := ArrowTransport tt.
Definition ex_shown : Response :=
  QueryR {| qr_schema := [{| fi_name := lit "X"; fi_type := NUMERIC |};
                          {| fi_name := lit "NOTE"; fi_type := VARCHAR |}];
            qr_rows := [Ok [Some (lit "1"); Some (lit "one")]; Ok [Some (lit "2"); None];
                        Ok [Some (lit "3"); Some (lit "t")]];
            qr_command_tag := None |}.

Lemma select_reaches_client_witness :
  (do_simple_query (ExasolTransport0 := AnyTransport_transport 9) ex_config
     (lit "select x, note from t;") (ex_client (WebSocketTransport ex_server))).1 = Ok [ex_shown]
  /\ (do_simple_query (ExasolTransport0 := AnyTransport_transport 9) ex_config
        (lit "select x, note from t;") (ex_client ex_arrow)).1 = Ok [ex_shown].
Proof.
  split.
  - rewrite (select_reaches_client 9 ex_config _ (lit "select x, note from t")
               (lit "select x, note from t") (lit "SELECT") Omit
               (ex_client (WebSocketTransport ex_server)) (new_session (WebSocketTransport ex_server)) (WebSocketTransport ex_drained)
               [{| fi_name := lit "X"; fi_type := NUMERIC |};
                {| fi_name := lit "NOTE"; fi_type := VARCHAR |}]
               (text_row <$> (ex_first ++ ex_rest)));
      [reflexivity|reflexivity|vm_compute; reflexivity..|reflexivity|].
    apply (HoldsWebSocket 9 _ _ _ _ ex_server ex_answered ex_drained 1 ex_columns ex_first ex_rest
             (Some 7%Z)).
    + done.
    + repeat constructor.
    + vm_compute. done.
    + exact ex_responds.
    + exact ex_serves.
    + cbn. lia.
    + vm_compute. reflexivity.
    + reflexivity.
  - rewrite (select_reaches_client 9 ex_config _ (lit "select x, note from t")
               (lit "select x, note from t") (lit "SELECT") Omit
               (ex_client ex_arrow) (new_session ex_arrow) ex_arrow
               [{| fi_name := lit "X"; fi_type := NUMERIC |};
                {| fi_name := lit "NOTE"; fi_type := VARCHAR |}]
               (text_row <$> (ex_first ++ ex_rest)));
      [reflexivity|reflexivity|vm_compute; reflexivity..|reflexivity|].
    eapply HoldsArrow; [reflexivity..| | |reflexivity].
    + repeat constructor.
    + repeat constructor; eexists; (split; reflexivity).
Defined.
