(* ===== verification/SessionExamples.v ===== *)
(** * A session at work

    A transport that records the statements it is sent and answers queries with
    fixed rows, a wire that records the calls, and the theorems about sessions and
    the protocol applied to them. *)

From S2P Require Import Prelude RustStr RustInt Regex Arrow Plan Config Exasol Cursor.
From S2P Require Import CursorSpec CursorTheorems Policy Translator Metadata Responses.
From S2P Require Import Params ExasolSession Session SessionTheorems PolicyGate SessionFlow.
From S2P Require Import SessionSpec CursorText DeclareText CursorPaging MetadataTraffic.
From S2P Require Import Protocol ProtocolTheorems Connections Returns.
#[local] Open Scope nat_scope.

#[local] Existing Instance dev_profile.
#[local] Existing Instance reference_engine.
#[local] Existing Instance list_arrow.
#[local] Instance no_json : JsonLib := {| json_render := fun _ => []; json_parse := fun _ => None |}.
#[local] Instance no_transpiler : Transpiler := fun _ _ _ => Err (lit "unsupported").

Definition ex_columns : list ExasolColumn :=
  [{| column_name := lit "X"; column_data_type := JString (lit "DECIMAL") |}].
Definition ex_outcome : ExasolOutcome := TypedRows ex_columns ex_rows.

(** The answers of the recording transport. *)
Definition answer (q : str) : outcome ExasolError ExasolOutcome :=
  if starts_with (lit "select") q || starts_with (lit "SELECT") q then Ok ex_outcome
  else if starts_with (lit "OPEN SCHEMA `missing`") q
  then Err (Execution (lit "schema missing not found"))
  else Ok (RowCount 1).

#[local] Instance recorder : ExasolTransport (list str) :=
  {| execute q t := (answer q, t ++ [q]);
     execute_update q t := (Ok tt, t ++ [q]);
     close t := (Ok tt, t) |}.

Definition ex_config : AppConfig :=
  {| server := ServerConfig_default;
     exasol := {| dsn := lit "localhost:8563"; encryption := true; certificate_fingerprint := [];
                  validate_certificate := true; pass_client_credentials := true; schema := [];
                  transport := DEFAULT_TRANSPORT |};
     translation := {| enabled := true; sql_preprocessor_script := lit "PG.P";
                       session_init_sql := [lit "ALTER SESSION SET p = {script}"] |} |}.

Definition ex_client : Client (T := list str) :=
  {| client_session := Some (new_session []); client_pid := 7 |}.

#[local] Instance recorder_fits : ResultsFit (T := list str).
Proof.
  intros q t o t' d [= E _] Hd. unfold answer in E. destruct (_ || _).
  - injection E as <-. injection Hd as <-. split; done.
  - destruct (starts_with _ _); by simplify_eq/=.
Qed.

(** Evaluates both sides, without writing out the maps of a state. *)
Ltac vm_eq := match goal with |- _ = ?r => vm_cast_no_check (eq_refl r) end.

Lemma some_default {A} (o : option A) (d : A) :
  (if o then true else false) = true -> o = Some (default d o).
Proof. by destruct o. Qed.

Definition after (c : Client (T := list str)) (sql : string) : Client (T := list str) :=
  (execute_statement ex_config (lit sql) c).2.

Example ex_commit_is_local : exasol_of (after ex_client "commit") = Some [].
Proof. vm_compute. reflexivity. Qed.

Lemma statement_traffic_witness :
  let c' := after ex_client "declare c cursor for select 1" in
  exasol_of c' = Some []
  \/ exists q, reaches ex_config (lit "declare c cursor for select 1") q
               /\ exasol_of c' = Some [q].
Proof.
  exact (statement_traffic ex_config _ ex_client _ _ (surjective_pairing _)).
Defined.

Lemma only_permitted_reaches_witness :
  exasol_of (after ex_client "import into t from csv at 'x' file 'y'") = Some [].
Proof.
  change (Some []) with (exasol_of ex_client).
  apply (proj2 (only_permitted_reaches ex_config
                  (lit "import into t from csv at 'x' file 'y'") ex_client _ _
                  (surjective_pairing _))).
  vm_compute. reflexivity.
Defined.

Definition ex_declared : Client (T := list str) :=
  after ex_client "declare c scroll cursor for select 1".
Definition ex_fetched : Client (T := list str) := after ex_declared "fetch 2 from c".

Definition ex_moved_cursor : GatewayCursor :=
  {| data := CTyped ex_columns ex_rows; position := 1; scroll := true; hold := false |}.

Lemma ex_fetched_cursor :
  cursors (default (new_session []) (client_session ex_fetched)) !! lit "c"
  = Some ex_moved_cursor.
Proof. vm_eq. Qed.

Lemma ex_fetched_reachable : reachable ex_config ex_fetched.
Proof. do 2 apply reachable_statement. apply reachable_login. Qed.

(** A course of statements and what the client is told. *)
Definition ex_course : list str := lit <$>
  ["declare c scroll cursor for select 1"; "fetch 2 from c"; "move backward 1 from c";
   "fetch next from d"; "set search_path to missing"; "set search_path to s";
   "show search_path"; "insert into t values (1)"; "commit"; "fetch next from c";
   "select * from pg_catalog.pg_namespace"; "select * from pg_group"]%string.
Definition ex_namespace (oid name : string) : list (option str) :=
  [Some (lit oid); Some (lit name); Some (lit "10"); None].
Definition ex_replies : list reply :=
  [Completed (lit "DECLARE CURSOR") None; Rows (inr <$> take 2 ex_rows);
   Completed (lit "MOVE") (Some 1%Z); Refused (lit "34000"); Failed (lit "XX000");
   Completed (lit "SET") None; text_rows [[Some (lit "s")]]; Completed (lit "INSERT") (Some 1%Z);
   Completed (lit "COMMIT") None; Refused (lit "34000");
   text_rows [[Some (lit "2200"); None; Some (lit "10"); None]; ex_namespace "2201" "a";
              ex_namespace "2202" "c"; ex_namespace "2203" "information_schema";
              ex_namespace "2204" "pg_catalog"];
   text_rows []].

Definition ex_spec_run := spec_run ex_config ex_course (abs 7 (new_session [])).
Definition ex_spec_end : spec_session :=
  (default ([], abs 7 (new_session [])) ex_spec_run).2.

Lemma run_refines_witness :
  (view <$> (run ex_config ex_course ex_client).1) = Some <$> ex_replies
  /\ spec_backend ex_spec_end
     = lit <$> ["select 1"; "OPEN SCHEMA `missing`"; "OPEN SCHEMA `s`";
                "insert into t values (1)";
                "SELECT SCHEMA_NAME FROM SYS.EXA_SCHEMAS ORDER BY SCHEMA_NAME"]%string.
Proof.
  destruct (run_refines ex_config ex_course [] 7 ex_replies ex_spec_end) as (o & c & s & E & Hv & _).
  - vm_eq.
  - split; [|vm_compute; reflexivity]. unfold ex_client. by rewrite E.
Defined.

Lemma reachable_cursors_ok_witness :
  (-1 <= position ex_moved_cursor <= 3)%Z /\ data_fits (data ex_moved_cursor).
Proof.
  apply (reachable_cursors_ok ex_config ex_fetched
           (default (new_session []) (client_session ex_fetched)) (lit "c")).
  - exact ex_fetched_reachable.
  - apply some_default. vm_eq.
  - exact ex_fetched_cursor.
Defined.

Definition ex_declare : CursorDeclare :=
  {| declare_name := lit "c"; declare_query := lit "select 1"; declare_scroll := true;
     declare_hold := false |}.

Lemma declare_then_fetch_all_witness :
  let all := {| position_name := lit "c"; position_direction := All |} in
  exists c1 c2 c3 resp resp',
    execute_cursor_plan ex_config (PlanDeclare ex_declare) ex_client
      = (Ok [RExecution (lit "DECLARE CURSOR") None], c1)
    /\ execute_cursor_plan ex_config (PlanFetch all) c1 = (Ok [resp], c2)
    /\ response_rows resp = inr <$> ex_rows /\ response_of_data (CTyped ex_columns ex_rows) resp
    /\ execute_cursor_plan ex_config (PlanFetch all) c2 = (Ok [resp'], c3)
    /\ response_rows resp' = [] /\ exasol_of c3 = Some [lit "select 1"].
Proof.
  apply (declare_then_fetch_all ex_config ex_client (new_session []) ex_declare
           (lit "select 1") ex_outcome [lit "select 1"] (CTyped ex_columns ex_rows) Omit).
  - reflexivity.
  - reflexivity.
  - vm_compute. reflexivity.
  - vm_compute. reflexivity.
  - reflexivity.
  - reflexivity.
  - by split.
Defined.

Lemma cursor_pages_witness :
  exists pages c',
    in_turn ex_config [lit "DECLARE c CURSOR FOR select 1"; lit "FETCH FORWARD 2 FROM c";
                       lit "FETCH FORWARD 2 FROM c"; lit "FETCH FORWARD 2 FROM c"] ex_client
      = (Ok (RExecution (lit "DECLARE CURSOR") None :: pages), c')
    /\ response_rows <$> pages = [inr <$> take 2 ex_rows; inr <$> drop 2 ex_rows; []]
    /\ exasol_of c' = Some [lit "select 1"].
Proof.
  destruct (cursor_pages ex_config ex_client (new_session []) (lit "c") ScrollDefault HoldDefault
              (lit "select 1") (lit "select 1") ex_outcome [lit "select 1"]
              (CTyped ex_columns ex_rows) Omit "FROM" (Forward (Some 2%Z)) 2 3)
    as (pages & c' & E & R & _ & _ & X).
  - reflexivity.
  - reflexivity.
  - split.
    + split; [|reflexivity]. split; [done|]. by repeat constructor.
    + reflexivity.
    + by exists (lit "select "), 49%N.
    + vm_compute. reflexivity.
    + vm_compute. reflexivity.
    + vm_compute. reflexivity.
  - vm_compute. reflexivity.
  - vm_compute. reflexivity.
  - reflexivity.
  - reflexivity.
  - by split.
  - by left.
  - by right; left.
  - unfold_bounds. lia.
  - exists pages, c'. split_and!; [exact E|exact R|exact X].
Defined.

Definition ex_request : string :=
  "select table_name from information_schema.tables where table_schema = 'it''s' or 1=1 --'".
Lemma metadata_structure_witness :
  exists q ts, exasol_of (after ex_client ex_request) = Some [q]
    /\ sql_tokens q = Some ts /\ list.last (literals ts) = Some (lit "it's").
Proof.
  destruct (metadata_structure ex_config (lit ex_request)
              (InfoSchemaTableNames (lit "exasol") (lit "it's")) ex_client
              (execute_statement ex_config (lit ex_request) ex_client).1 (after ex_client ex_request))
    as [Hno|(q & ts & Hq & Hts & _ & _ & fixed & _ & _ & _ & _ & Hl)].
  - vm_compute. reflexivity.
  - apply surjective_pairing.
  - exfalso. vm_compute in Hno. discriminate Hno.
  - exists q, ts. split; [exact Hq|]. split; [exact Hts|]. rewrite Hl. apply last_snoc.
Defined.

Lemma cursor_names_witness :
  execute_cursor_plan ex_config (PlanClose (CloseOne (lit "d"))) ex_client
  = (Ok [cursor_missing (lit "d")], ex_client).
Proof.
  destruct (cursor_names ex_config ex_client (new_session []) (lit "d")) as (_ & Hno & _);
    [vm_eq|].
  apply Hno. vm_eq.
Defined.

Lemma transaction_end_cursors_witness :
  exists c' s',
    execute_statement ex_config (lit "rollback") ex_fetched
      = (Ok [RTransactionEnd (lit "ROLLBACK")], c')
    /\ client_session c' = Some s' /\ cursors s' !! lit "c" = None.
Proof.
  destruct (transaction_end_cursors ex_config (lit "rollback") (lit "ROLLBACK") ex_fetched
              (default (new_session []) (client_session ex_fetched)))
    as (c' & s' & E & Hs & _ & Hc & _); [vm_eq|vm_eq|apply some_default; vm_eq|].
  exists c', s'. split; [exact E|]. split; [exact Hs|].
  destruct (cursors s' !! lit "c") as [cur|] eqn:Hcur; [|done].
  apply Hc in Hcur as [Hcur Hh].
  rewrite ex_fetched_cursor in Hcur. injection Hcur as <-. done.
Defined.

Lemma search_path_follows_exasol_witness :
  exists c', execute_statement ex_config (lit "set search_path to sales") ex_client
    = (Ok [RExecution (lit "SET") None], c')
  /\ execute_plan ex_config [] ShowSearchPath c'
     = (Ok [RQuery [lit "search_path"] [[Some (lit "sales")]]], c').
Proof.
  destruct (search_path_follows_exasol ex_config (lit "set search_path to sales") (lit "sales")
              ex_client (new_session [])) as (_ & Hok & _);
    [vm_eq..|].
  apply (Hok (RowCount 1) [open_schema_sql (lit "sales")]). vm_eq.
Defined.

Definition ex_query : str := lit "set datestyle to iso; savepoint a; delete from t".

Lemma simple_query_stops_witness :
  exists rs,
    execute_simple_query ex_config ex_query ex_client = (Ok rs, ex_client)
    /\ length rs = 2.
Proof.
  destruct (simple_query_stops ex_config ex_query [lit "set datestyle to iso"]
    (lit "savepoint a") [lit "delete from t"] ex_client
    [ExecutionR (plain_tag (lit "SET"))] ex_client) as (Hstop & _).
  - vm_eq.
  - apply (runs_cons _ _ [] _ [ExecutionR (plain_tag (lit "SET"))] ex_client []).
    + vm_eq.
    + reflexivity.
    + constructor.
  - set (r := (execute_sql ex_config (lit "savepoint a") ex_client).1).
    exists ([ExecutionR (plain_tag (lit "SET"))] ++ match r with Ok l => l | _ => [] end).
    split; [apply Hstop; vm_eq | vm_eq].
Defined.

(** ** The protocol *)

(** A wire that records what it is sent. *)
#[local] Instance recording_wire : PgWireLib :=
  {| wire := list WireCall;
     wire_send call w := (Ok tt, w ++ [call]);
     DEFAULT_NAME := lit "POSTGRESQL_DEFAULT_NAME";
     TransactionStatus := bool;
     to_in_transaction_state _ := true;
     to_idle_state _ := false;
     to_error_state b := b;
     StartupMessage := str;
     negotiate _ w := (Ok tt, w);
     startup_user := Some;
     finish_messages w := (Ok tt, w);
     generate_pid w := (42%Z, w) |}.

Definition ex_portal (name sql : string) : Portal :=
  {| portal_name := lit name; portal_statement := lit sql; portal_parameter_types := [];
     portal_parameters := []; portal_parameter_len := 0; portal_is_binary := fun _ => false |}.

(** The portal [p] was described, then [p'] was bound to its name. *)
Definition ex_conn : Connection (T := list str) :=
  {| conn_client := ex_client; conn_wire := []; conn_state := ReadyForQuery; conn_tx := false;
     conn_portals := {[ lit "p" := ex_portal "p" "select 2" ]}; conn_user := Some (lit "sys") |}.
Definition ex_described : Client (T := list str) :=
  (do_describe_portal ex_config (ex_portal "p" "select 1") ex_client).2.
Definition ex_executed : outcome PgWireError unit * Connection (T := list str) :=
  on_execute ex_config (Some (lit "p")) (set_client ex_described ex_conn).

Lemma described_portal_runs_once_witness :
  exasol_of (conn_client ex_executed.2) = exasol_of ex_described
  /\ exasol_of ex_described = Some [lit "select 1"]
  /\ exists response c0, execute_statement ex_config (lit "select 1") ex_client = (Ok [response], c0).
Proof.
  destruct (described_portal_runs_once ex_config ex_conn (lit "p") (ex_portal "p" "select 1")
    (ex_portal "p" "select 2") [{| fi_name := lit "X"; fi_type := NUMERIC |}] ex_described)
    as [E (sql & response & c0 & s0 & Hsql & Hx & _)].
  - reflexivity.
  - reflexivity.
  - vm_eq.
  - vm_eq.
  - split_and!; [exact (E ex_executed.1 ex_executed.2 (surjective_pairing ex_executed)) | vm_eq |].
    assert (render_portal_sql (ex_portal "p" "select 1") = Ok (lit "select 1")) as Hr by vm_eq.
    rewrite Hr in Hsql. injection Hsql as <-. by exists response, c0.
Defined.

Definition ex_fresh : outcome PgWireError unit * Connection (T := list str) :=
  on_execute ex_config (Some (lit "p")) ex_conn.

Lemma execute_is_simple_query_witness :
  conn_client ex_fresh.2 = (execute_simple_query ex_config (lit "select 2") ex_client).2
  /\ exasol_of (conn_client ex_fresh.2) = Some [lit "select 2"].
Proof.
  destruct (execute_is_simple_query ex_config ex_conn (new_session []) (lit "p")
    (ex_portal "p" "select 2") (lit "select 2")) as [E _].
  - reflexivity.
  - vm_eq.
  - reflexivity.
  - reflexivity.
  - vm_eq.
  - vm_eq.
  - split; [exact (E ex_fresh.1 ex_fresh.2 (surjective_pairing ex_fresh)) | vm_eq].
Defined.

Lemma execute_guards_witness :
  on_execute ex_config (Some (lit "q")) ex_conn = (Err (PortalNotFound (lit "q")), ex_conn).
Proof. apply (execute_guards ex_config ex_conn (Some (lit "q"))); vm_eq. Defined.

Definition ex_open (_ : ExasolConfig) (_ password : str) : outcome ExasolError (list str) :=
  if str_eqb password (lit "secret") then Ok [] else Err (Authentication (lit "denied")).

Lemma login_session_witness :
  exists t, initialized (lit "PG.P") [lit "ALTER SESSION SET p = {script}"] ([] : list str) t
    /\ on_startup ex_config ex_open (MsgPassword (Ok (lit "guess"))) ex_conn
       = (Err (UserError (map_exasol_connection_error (Authentication (lit "denied")))), ex_conn).
Proof.
  destruct (login_session ex_config ex_open ex_conn) as (_ & Hin & Hout).
  set (conn' := (on_startup ex_config ex_open (MsgPassword (Ok (lit "secret"))) ex_conn).2).
  destruct (Hin (lit "secret") conn') as (_ & t' & (user & t & Hu & Ho & Hi) & _); [vm_eq|].
  exists t'. split.
  - assert (Ht : t = []) by (unfold ex_open in Ho; cbn in Ho; by injection Ho).
    rewrite Ht in Hi. exact Hi.
  - destruct (Hout (lit "guess") (lit "sys") (Authentication (lit "denied"))) as [E _];
      [vm_eq|vm_eq|exact E].
Defined.

(** A connection: a login, a simple query of two statements, and the Execute of a portal
    that Bind has stored. *)
Definition ex_logged_in : Connection (T := list str) :=
  (on_startup ex_config ex_open (MsgPassword (Ok (lit "secret")))
     (set_client {| client_session := None; client_pid := 0 |} ex_conn)).2.
Definition ex_queried : Connection (T := list str) :=
  (on_client (do_simple_query ex_config
     (lit "declare c cursor for select 1; fetch 2 from c")) ex_logged_in).2.
Definition ex_run_portal : Connection (T := list str) :=
  (on_execute ex_config (Some (lit "p")) ex_queried).2.
Definition ex_texts : list str :=
  lit <$> ["declare c cursor for select 1"; "fetch 2 from c"; "select 2"]%string.

Lemma connection_invariant_witness :
  let s := default (new_session []) (client_session (conn_client ex_run_portal)) in
  ss_exasol s = lit <$> ["ALTER SESSION SET p = PG.P"; "select 1"; "select 2"]%string
  /\ exists t, logged_in ex_config ex_open t /\ asked ex_config t ex_texts (ss_exasol s).
Proof.
  split; [vm_eq|].
  destruct (connection_invariant ex_config ex_open ex_texts ex_run_portal
              (default (new_session []) (client_session (conn_client ex_run_portal)))) as [Ha _].
  - change ex_texts with
      (([] ++ split_simple_query (lit "declare c cursor for select 1; fetch 2 from c"))
       ++ rendered (conn_portals ex_queried !! default DEFAULT_NAME (Some (lit "p")))).
    apply connected_execute, connected_query, connected_startup, connected_start. reflexivity.
  - apply some_default. vm_eq.
  - exact Ha.
Defined.

#[local] Instance recorder_returns : TransportReturns (T := list str).
Proof.
  split; intros q t; [|done]. cbn. unfold answer. by repeat case_match.
Qed.
#[local] Instance no_transpiler_returns : TranspilerReturns.
Proof. done. Qed.
#[local] Instance recording_wire_returns : WireReturns.
Proof. done. Qed.

