(* ===== verification/PolicyTests.v ===== *)
(** * The unit tests of the policy (src/src/policy.rs, [mod tests])

    The assertions of the repository's tests, on the model of the classifier with the
    reference engine of regular expressions.  A definition is a test function. *)

From S2P Require Import Prelude RustStr RustInt Regex Plan Policy.
#[local] Open Scope Z_scope.
#[local] Existing Instance dev_profile.
#[local] Existing Instance reference_engine.

(** [assert_eq!(classify_statement(sql), plan)]. *)
Definition plans (sql : str) (plan : StatementPlan) : bool :=
  match classify_statement sql with Ok p => bool_decide (p = plan) | _ => false end.
(** [assert!(matches!(classify_statement(sql), ...))]. *)
Definition rejects (sql part : str) : bool :=
  match classify_statement sql with Ok (Reject _ message) => contains part message | _ => false end.
Definition is_reject (sql : str) : bool :=
  match classify_statement sql with Ok (Reject _ _) => true | _ => false end.
Definition is_client_show (sql : str) : bool :=
  match classify_statement sql with Ok (ClientShow _ _) => true | _ => false end.
Definition is_client_select (sql : str) : bool :=
  match classify_statement sql with Ok (ClientSelect _ _) => true | _ => false end.

Definition classifies_read_and_write : bool :=
  plans (lit "SELECT 1")
       (Execute (lit "SELECT") Omit)
  && plans (lit "DELETE FROM t")
       (Execute (lit "DELETE") Include)
  && plans (lit "INSERT INTO t VALUES (1)")
       (Execute (lit "INSERT") Include).
Definition classifies_supported_ddl_by_object_type : bool :=
  plans (lit "CREATE TABLE t (id int)")
       (Execute (lit "CREATE TABLE") Omit)
  && plans (lit "DROP VIEW v")
       (Execute (lit "DROP VIEW") Omit)
  && plans (lit "CREATE OR REPLACE TABLE t AS SELECT 1 AS id")
       (Execute (lit "CREATE TABLE") Omit).
Definition rejects_postgres_only_objects_with_no_equivalent : bool :=
  rejects (lit "CREATE EXTENSION hstore") (lit "no Exasol equivalent")
  && rejects (lit "LISTEN channel") (lit "no Exasol equivalent").
Definition rejects_unimplemented_gateway_managed_capabilities_by_policy : bool :=
  rejects (lit "CREATE USER u IDENTIFIED BY 'secret'") (lit "unsupported by gateway policy").
Definition classifies_supported_cursor_commands : bool :=
  plans (lit "DECLARE plain_cursor CURSOR FOR SELECT 1")
       (Cursor (PlanDeclare {| declare_name := lit "plain_cursor"; declare_query := lit "SELECT 1";
         declare_scroll := false; declare_hold := false |}))
  && plans (lit "DECLARE c SCROLL CURSOR WITH HOLD FOR SELECT 1")
       (Cursor (PlanDeclare {| declare_name := lit "c"; declare_query := lit "SELECT 1";
         declare_scroll := true; declare_hold := true |}))
  && plans (lit "FETCH FORWARD 5 FROM c")
       (Cursor (PlanFetch {| position_name := lit "c";
         position_direction := Forward (Some 5) |}))
  && plans (lit "FETCH FORWARD FROM c")
       (Cursor (PlanFetch {| position_name := lit "c";
         position_direction := Forward (Some 1) |}))
  && plans (lit "MOVE BACKWARD ALL IN c")
       (Cursor (PlanMove {| position_name := lit "c";
         position_direction := Backward (None) |}))
  && plans (lit "CLOSE c")
       (Cursor (PlanClose (CloseOne (lit "c")))).
Definition rejects_unsupported_cursor_semantics : bool :=
  rejects (lit "DECLARE c BINARY CURSOR FOR SELECT 1") (lit "binary")
  && rejects (lit "DECLARE c CURSOR FOR SELECT * FROM t FOR UPDATE") (lit "updatable cursors").
Definition handles_driver_session_commands_locally : bool :=
  plans (lit "SET extra_float_digits = 3")
       (ClientSet)
  && plans (lit "SET SESSION CHARACTERISTICS AS TRANSACTION READ ONLY")
       (ClientSet)
  && is_client_show (lit "SHOW transaction isolation level").
Definition accepts_set_with_no_spaces_around_equals : bool :=
  plans (lit "SET DateStyle=ISO")
       (ClientSet)
  && plans (lit "SET DateStyle = ISO")
       (ClientSet)
  && plans (lit "SET client_min_messages='warning'")
       (ClientSet)
  && is_reject (lit "SET DateStyle=").
Definition handles_driver_selects_locally : bool :=
  is_client_select (lit "SELECT version()").
Definition answers_pg_backend_pid_locally : bool :=
  plans (lit "SELECT pg_backend_pid()")
       (BackendPid (lit "pg_backend_pid"))
  && plans (lit "SELECT pg_backend_pid() AS pid")
       (BackendPid (lit "pid")).
Definition lets_pg_database_catalog_query_reach_exasol : bool :=
  plans (lit "SELECT d.datname AS table_cat FROM pg_catalog.pg_database d ORDER BY d.datname")
       (Execute (lit "SELECT") Omit).
Definition lets_pg_namespace_catalog_query_reach_exasol : bool :=
  plans (lit "SELECT n.nspname AS table_schem FROM pg_catalog.pg_namespace n")
       (Execute (lit "SELECT") Omit).
Definition classifies_set_search_path_single_schema : bool :=
  plans (lit "SET search_path = `DEMO_FINANCE`")
       (SetSearchPath (lit "DEMO_FINANCE"))
  && plans (lit "SET search_path TO demo_finance")
       (SetSearchPath (lit "demo_finance"))
  && plans (lit "SET SESSION search_path = 'pg_demo'")
       (SetSearchPath (lit "pg_demo")).
Definition set_search_path_multi_schema_keeps_first_entry : bool :=
  plans (lit "SET search_path = pg_demo, pg_catalog")
       (SetSearchPath (lit "pg_demo"))
  && plans (lit "SET search_path TO `DEMO_SANDBOX`,`public`")
       (SetSearchPath (lit "DEMO_SANDBOX")).
Definition handles_search_path_reset_and_default : bool :=
  plans (lit "SET search_path = DEFAULT")
       (ClientSet)
  && plans (lit "RESET search_path")
       (ClientSet).
Definition classifies_show_search_path_dynamically : bool :=
  plans (lit "SHOW search_path")
       (ShowSearchPath).
Definition other_set_statements_still_classify_as_client_set : bool :=
  plans (lit "SET application_name = 'myapp'")
       (ClientSet)
  && plans (lit "SET extra_float_digits = 3")
       (ClientSet)
  && plans (lit "SET SESSION CHARACTERISTICS AS TRANSACTION READ ONLY")
       (ClientSet).
Definition handles_transaction_wrappers_locally : bool :=
  plans (lit "BEGIN")
       (ClientTransactionStart)
  && plans (lit "COMMIT")
       (ClientTransactionEnd (lit "COMMIT"))
  && rejects (lit "ROLLBACK TO SAVEPOINT s1") (lit "no Exasol equivalent")
  && rejects (lit "COMMIT PREPARED 'x'") (lit "no Exasol equivalent").

Definition policy_tests : list bool :=
    [classifies_read_and_write; classifies_supported_ddl_by_object_type;
   rejects_postgres_only_objects_with_no_equivalent;
   rejects_unimplemented_gateway_managed_capabilities_by_policy;
   classifies_supported_cursor_commands; rejects_unsupported_cursor_semantics;
   handles_driver_session_commands_locally; accepts_set_with_no_spaces_around_equals;
   handles_driver_selects_locally; answers_pg_backend_pid_locally;
   lets_pg_database_catalog_query_reach_exasol; lets_pg_namespace_catalog_query_reach_exasol;
   classifies_set_search_path_single_schema; set_search_path_multi_schema_keeps_first_entry;
   handles_search_path_reset_and_default; classifies_show_search_path_dynamically;
   other_set_statements_still_classify_as_client_set; handles_transaction_wrappers_locally].

(** On the model of the classifier, with the reference engine, every assertion of
    the repository's own tests of the statement policy holds. *)
Lemma policy_tests_pass : forallb id policy_tests = true.
Proof. vm_compute. reflexivity. Qed.
