(* ===== verification/TranslatorTests.v ===== *)
(** * The unit tests of the translator (src/src/translator.rs, [mod tests])

    The assertions of the repository's tests, on the model of the translator with the
    reference engine of regular expressions.  A definition is a test function.  Most
    tests do not reach the transpiler and hold whatever it does; the others hold with
    a transpiler that changes nothing.  Left out are the test on a query of 50,000
    characters, and the one whose assertion is about what the transpiler writes. *)

From S2P Require Import Prelude RustStr RustInt Regex Plan Policy Translator.
#[local] Existing Instance dev_profile.
#[local] Existing Instance reference_engine.

Section tests.
Context `{Transpiler}.

(** [unwrap] in a test, and the assertions after it. *)
Definition after {E A} (r : outcome E A) (f : A -> bool) : bool :=
  match r with Ok a => f a | _ => false end.

Definition rewrites_postgres_qualified_operator_syntax : bool :=
  let sql := lit "SELECT a.attname FROM PG_CATALOG.pg_attribute AS a JOIN PG_CATALOG.pg_class AS c ON a.attrelid OPERATOR(PG_CATALOG.=) c.oid WHERE a.attnum OPERATOR(PG_CATALOG.>) 0" in
  after (translate_postgres_to_exasol sql) (fun translated =>
  let normalized := to_ascii_uppercase translated in
  negb (contains (lit "OPERATOR(") (to_ascii_uppercase translated)) &&
  contains (lit "A.ATTRELID = C.OID") normalized &&
  contains (lit "A.ATTNUM > 0") normalized).
Definition leaves_metabase_mbql_group_by_query_as_exasol_sql : bool :=
  let sql := lit "-- Metabase:: userID: 1 queryType: MBQL queryHash: af2fd35a339c158f6a0f1f9e64b8760fdc04c809ac6172534676446a6d808b8d
SELECT `CORE_DB_2026_1_DEMOS`.`SHIPMENTS`.`CARRIER` AS `CARRIER`, COUNT(*) AS `count` FROM `CORE_DB_2026_1_DEMOS`.`SHIPMENTS` GROUP BY `CORE_DB_2026_1_DEMOS`.`SHIPMENTS`.`CARRIER` ORDER BY `CORE_DB_2026_1_DEMOS`.`SHIPMENTS`.`CARRIER` ASC" in
  after (translate_postgres_to_exasol sql) (fun translated =>
  str_eqb translated sql).
Definition rewrites_metabase_foreign_key_query : bool :=
  let sql := lit "
SELECT `fk_ns`.`nspname` AS `fk-table-schema`,
       `fk_table`.`relname` AS `fk-table-name`,
       `fk_column`.`attname` AS `fk-column-name`,
       `pk_ns`.`nspname` AS `pk-table-schema`,
       `pk_table`.`relname` AS `pk-table-name`,
       `pk_column`.`attname` AS `pk-column-name`
FROM `pg_constraint` AS `c`
JOIN `pg_class` AS `fk_table` ON `c`.`conrelid` = `fk_table`.`oid`
JOIN `pg_namespace` AS `fk_ns` ON `c`.`connamespace` = `fk_ns`.`oid`
JOIN `pg_attribute` AS `fk_column` ON `c`.`conrelid` = `fk_column`.`attrelid`
JOIN `pg_class` AS `pk_table` ON `c`.`confrelid` = `pk_table`.`oid`
JOIN `pg_namespace` AS `pk_ns` ON `pk_table`.`relnamespace` = `pk_ns`.`oid`
JOIN `pg_attribute` AS `pk_column` ON `c`.`confrelid` = `pk_column`.`attrelid`
WHERE fk_ns.nspname !~ '^information_schema|catalog_history|pg_'
  AND `c`.`contype` = 'f'::char
  AND `fk_column`.`attnum` = ANY(c.conkey)
  AND `pk_column`.`attnum` = ANY(c.confkey)
  AND `fk_ns`.`nspname` IN ('NYC_UBER')
" in
  after (translate_postgres_to_exasol sql) (fun translated =>
  contains (lit "SYS.EXA_DBA_CONSTRAINT_COLUMNS") translated &&
  negb (contains (lit "ANY(") (to_ascii_uppercase translated)) &&
  contains (lit "CC.CONSTRAINT_SCHEMA IN ('NYC_UBER')") translated).
Definition rewrites_dbvis_tablespace_helpers : bool :=
  let sql := lit "SELECT pg_size_pretty(pg_tablespace_size(spcname)), pg_tablespace_location(ts.oid) FROM pg_catalog.pg_tablespace ts" in
  after (translate_postgres_to_exasol sql) (fun translated =>
  contains (lit "PG_CATALOG.PG_SIZE_PRETTY") translated &&
  contains (lit "PG_CATALOG.PG_TABLESPACE_SIZE") translated &&
  contains (lit "PG_CATALOG.PG_TABLESPACE_LOCATION") translated).
Definition rewrites_ilike_literal_operands : bool :=
  after (translate_postgres_to_exasol (lit "SELECT 'Alice' ILIKE 'ali%'")) (fun translated =>
  str_eqb translated (lit "SELECT UPPER('Alice') LIKE UPPER('ali%')")).
Definition rewrites_collations_projection : bool :=
  after (translate_postgres_to_exasol (lit "SELECT COLLATION_SCHEMA, COLLATION_NAME FROM INFORMATION_SCHEMA.COLLATIONS")) (fun translated =>
  str_eqb translated (lit "SELECT `COLLATION_SCHEMA`, `COLLATION_NAME` FROM INFORMATION_SCHEMA.`COLLATIONS`")).
Definition rewrites_foreign_server_projection : bool :=
  after (translate_postgres_to_exasol (lit "SELECT l.oid,l.* FROM pg_catalog.pg_foreign_server l")) (fun translated =>
  contains (lit "PG_CATALOG.`PG_FOREIGN_SERVER`") translated &&
  contains (lit "l.srvoptions") translated &&
  negb (contains (lit "l.*") translated)).
Definition rewrites_foreign_data_wrapper_projection : bool :=
  after (translate_postgres_to_exasol (lit "SELECT l.oid,l.* FROM pg_catalog.pg_foreign_data_wrapper l LEFT OUTER JOIN pg_catalog.pg_proc p ON p.oid=l.fdwhandler")) (fun translated =>
  contains (lit "PG_CATALOG.`PG_FOREIGN_DATA_WRAPPER`") translated &&
  contains (lit "LEFT OUTER JOIN PG_CATALOG.PG_PROC") translated &&
  contains (lit "l.fdwoptions") translated).
Definition rewrites_user_mappings_query_with_dynamic_oid : bool :=
  after (translate_postgres_to_exasol (lit "select distinct fs.srvname, case when rolname is null then 'public' else rolname end rolname, srvoptions, umoptions from pg_user_mappings um join pg_foreign_server fs on um.srvid = fs.OID left join pg_authid pa on um.umuser = pa.OID where fs.OID = 42 ORDER BY srvname")) (fun translated =>
  contains (lit "PG_CATALOG.PG_USER_MAPPINGS") translated &&
  contains (lit "PG_CATALOG.`PG_FOREIGN_SERVER`") translated &&
  contains (lit "WHERE fs.oid = 42") translated).
Definition rewrites_quote_ident_call_to_concat_expression : bool :=
  after (translate_postgres_to_exasol (lit "SELECT quote_ident($1)")) (fun translated =>
  negb (contains (lit "quote_ident") (to_ascii_lowercase translated)) &&
  contains (lit "REPLACE($1") translated &&
  contains (lit "'`'") translated).
Definition strips_exasol_catalog_prefix_from_three_part_quoted_reference : bool :=
  let sql := lit "SELECT `SHIPMENT_ID` FROM `exasol`.`CORE_DB_2026_1_DEMOS`.`SHIPMENTS`" in
  after (translate_postgres_to_exasol sql) (fun translated =>
  negb (contains (lit "`exasol`") translated) &&
  contains (lit "`CORE_DB_2026_1_DEMOS`.`SHIPMENTS`") translated).
Definition strips_exasol_catalog_prefix_from_three_part_unquoted_reference : bool :=
  after (translate_postgres_to_exasol (lit "SELECT * FROM exasol.pg_demo.orders")) (fun translated =>
  negb (contains (lit "exasol.pg_demo") (to_ascii_lowercase translated)) &&
  contains (lit "pg_demo.orders") (to_ascii_lowercase translated)).
Definition leaves_unrelated_three_part_reference_alone : bool :=
  let sql := lit "SELECT * FROM otherdb.pg_demo.orders" in
  after (translate_postgres_to_exasol sql) (fun translated =>
  contains (lit "otherdb.pg_demo.orders") translated).
Definition rewrites_session_user_to_current_user : bool :=
  after (translate_postgres_to_exasol (lit "SELECT session_user")) (fun translated =>
  let upper := to_ascii_uppercase translated in
  contains (lit "CURRENT_USER") upper &&
  negb (contains (lit "SESSION_USER") upper) &&
  (after (translate_postgres_to_exasol (lit "SELECT SESSION_USER()")) (fun translated =>
  let upper := to_ascii_uppercase translated in
  contains (lit "CURRENT_USER") upper &&
  negb (contains (lit "SESSION_USER") upper)))).
Definition drops_parens_on_current_schema_function_call : bool :=
  after (translate_postgres_to_exasol (lit "SELECT current_schema()")) (fun translated =>
  contains (lit "CURRENT_SCHEMA") (to_ascii_uppercase translated) &&
  negb (contains (lit "current_schema(") translated) &&
  negb (contains (lit "CURRENT_SCHEMA(") (to_ascii_uppercase translated))).
Definition quotes_reserved_word_aliases_after_as : bool :=
  after (translate_postgres_to_exasol (lit "SELECT CURRENT_SCHEMA() AS schema")) (fun translated =>
  contains (lit "AS `schema`") translated &&
  (after (translate_postgres_to_exasol (lit "SELECT 1 AS time FROM dual")) (fun translated2 =>
  contains (lit "AS `time`") translated2 &&
  (after (translate_postgres_to_exasol (lit "SELECT 1 AS value")) (fun translated3 =>
  contains (lit "AS `value`") translated3))))).
Definition alias_quoting_does_not_touch_cast_type_argument : bool :=
  after (translate_postgres_to_exasol (lit "SELECT CAST(ORDER_TS AS DATE) AS d FROM orders")) (fun translated =>
  let upper := to_ascii_uppercase translated in
  contains (lit "AS DATE)") upper &&
  negb (contains (lit "AS `DATE`)") translated) &&
  negb (contains (lit "AS `date`)") translated)).
Definition alias_quoting_skips_non_reserved_aliases : bool :=
  after (translate_postgres_to_exasol (lit "SELECT amount AS revenue, name AS customer FROM orders")) (fun translated =>
  contains (lit "AS revenue") translated &&
  contains (lit "AS customer") translated &&
  negb (contains (lit "AS `revenue`") translated)).
Definition alias_quoting_preserves_already_quoted_aliases : bool :=
  after (translate_postgres_to_exasol (lit "SELECT 1 AS `time`")) (fun translated =>
  negb (contains (lit "AS ``time`") translated) &&
  contains (lit "AS `time`") translated).
Definition strips_redundant_zero_offset : bool :=
  after (translate_postgres_to_exasol (lit "SELECT * FROM `S`.`T` LIMIT 100 OFFSET 0")) (fun translated1 =>
  str_eqb translated1 (lit "SELECT * FROM `S`.`T` LIMIT 100") &&
  (after (translate_postgres_to_exasol (lit "SELECT * FROM `S`.`T` LIMIT 100 OFFSET NULL")) (fun translated2 =>
  str_eqb translated2 (lit "SELECT * FROM `S`.`T` LIMIT 100") &&
  (after (translate_postgres_to_exasol (lit "SELECT * FROM `S`.`T` ORDER BY 1 LIMIT 100 OFFSET 50")) (fun translated3 =>
  contains (lit "OFFSET 50") translated3))))).
Definition rewrites_beekeeper_create_table_script_query : bool :=
  let sql := lit "SELECT 'CREATE TABLE ' || quote_ident(tabdef.schema_name) || array_to_string(array_agg('  ' || quote_ident(tabdef.column_name) ORDER BY tabdef.column_idx ASC), ',') AS createtable FROM ( SELECT c.relname AS table_name, a.attname AS column_name, n.nspname as schema_name FROM pg_class c JOIN pg_namespace n ON (n.oid = c.relnamespace) JOIN pg_attribute a ON (a.attrelid = c.oid) WHERE c.relname = 'EXA_CANDIDATE_QUEUE' AND n.nspname = 'EXA_INVESTIGATION' ORDER BY a.attnum DESC ) AS tabdef GROUP BY tabdef.schema_name, tabdef.table_name" in
  after (translate_postgres_to_exasol sql) (fun out =>
  let upper := to_ascii_uppercase out in
  negb (contains (lit "ARRAY_AGG") upper) && negb (contains (lit "ARRAY_TO_STRING") upper) &&
  negb (contains (lit "PG_CLASS") upper) &&
  contains (lit "FROM SYS.EXA_ALL_COLUMNS") upper &&
  contains (lit "LISTAGG") upper &&
  contains (lit "AS `createtable`") out &&
  contains (lit "COLUMN_SCHEMA = 'EXA_INVESTIGATION'") out && contains (lit "COLUMN_TABLE = 'EXA_CANDIDATE_QUEUE'") out).
Definition rewrites_beekeeper_foreign_key_queries : bool :=
  let outgoing := lit "SELECT c.conname AS constraint_name, a.attname AS column_name, n.nspname AS from_schema, t.relname AS from_table, af.attname AS to_column, tf.relname AS to_table, nf.nspname AS to_schema, pos AS ordinal_position FROM pg_constraint c JOIN pg_class t ON c.conrelid = t.oid JOIN pg_namespace n ON t.relnamespace = n.oid JOIN generate_subscripts(c.conkey, 1) pos ON true JOIN pg_attribute a ON a.attrelid = t.oid AND a.attnum = c.conkey[pos] JOIN pg_class tf ON c.confrelid = tf.oid JOIN pg_namespace nf ON tf.relnamespace = nf.oid JOIN pg_attribute af ON af.attrelid = tf.oid AND af.attnum = c.confkey[pos] WHERE c.contype = 'f' AND n.nspname = 'TEST' AND t.relname = 'SALES_HOT' ORDER BY c.conname, pos" in
  after (translate_postgres_to_exasol outgoing) (fun out =>
  let upper := to_ascii_uppercase out in
  negb (contains (lit "GENERATE_SUBSCRIPTS") upper) && negb (contains (lit "PG_CONSTRAINT") upper) &&
  contains (lit "EXA_ALL_CONSTRAINT_COLUMNS") upper &&
  contains (lit "CONSTRAINT_TYPE = 'FOREIGN KEY'") out &&
  contains (lit "cc.CONSTRAINT_SCHEMA = 'TEST'") out && contains (lit "cc.CONSTRAINT_TABLE = 'SALES_HOT'") out &&
  contains (lit "AS `column_name`") out && contains (lit "AS `to_table`") out &&
  (let incoming := replace (lit "a.attname AS column_name") (lit "a.attname AS from_column") (replace (lit "t.relname = 'SALES_HOT'") (lit "tf.relname = 'SALES_HOT'") (replace (lit "n.nspname = 'TEST'") (lit "nf.nspname = 'TEST'") outgoing)) in
  after (translate_postgres_to_exasol incoming) (fun out_in =>
  contains (lit "cc.REFERENCED_SCHEMA = 'TEST'") out_in && contains (lit "cc.REFERENCED_TABLE = 'SALES_HOT'") out_in &&
  contains (lit "AS `from_column`") out_in))).
Definition rewrites_beekeeper_primary_keys_query : bool :=
  let sql := lit "SELECT a.attname as column_name, format_type(a.atttypid, a.atttypmod) AS data_type, a.attnum as position FROM pg_index i JOIN pg_attribute a ON a.attrelid = i.indrelid AND a.attnum = ANY(i.indkey) WHERE i.indrelid = '`TEST`.`SALES_HOT`'::regclass AND i.indisprimary ORDER BY a.attnum" in
  after (translate_postgres_to_exasol sql) (fun out =>
  let upper := to_ascii_uppercase out in
  negb (contains (lit "PG_INDEX") upper) &&
  negb (contains (lit "REGCLASS") upper) &&
  contains (lit "EXA_ALL_CONSTRAINT_COLUMNS") upper &&
  contains (lit "'PRIMARY KEY'") out &&
  contains (lit "'TEST'") out && contains (lit "'SALES_HOT'") out &&
  contains (lit "AS `column_name`") out && contains (lit "AS `position`") out).
Definition quotes_position_and_condition_reserved_aliases : bool :=
  after (translate_postgres_to_exasol (lit "SELECT a.attnum AS position FROM t")) (fun translated1 =>
  contains (lit "AS `position`") translated1 &&
  (after (translate_postgres_to_exasol (lit "SELECT action_condition AS condition FROM t")) (fun translated2 =>
  contains (lit "AS `condition`") translated2))).
Definition neutralizes_beekeeper_col_description_format_lookup : bool :=
  let sql := lit "SELECT column_name, pg_catalog.col_description(format('%I.%I', table_schema, table_name)::regclass::oid, ordinal_position) AS column_comment FROM information_schema.columns WHERE table_schema = 'S' AND table_name = 'T'" in
  after (translate_postgres_to_exasol sql) (fun translated =>
  let upper := to_ascii_uppercase translated in
  negb (contains (lit "FORMAT(") upper) &&
  negb (contains (lit "COL_DESCRIPTION") upper) &&
  negb (contains (lit "REGCLASS") upper) &&
  (contains (lit "AS column_comment") translated || contains (lit "AS `column_comment`") translated)).
Definition rewrites_beekeeper_table_list_with_inheritance_query : bool :=
  let sql := lit "SELECT
        t.table_schema as schema,
        t.table_name as name,
          pc.relkind as tabletype,
          parent_pc.relkind as parenttype
        FROM information_schema.tables AS t
        JOIN pg_class AS pc
          ON t.table_name = pc.relname AND quote_ident(t.table_schema) = pc.relnamespace::regnamespace::text
        LEFT OUTER JOIN pg_inherits AS i
          ON pc.oid = i.inhrelid
        LEFT OUTER JOIN pg_class AS parent_pc
          ON parent_pc.oid = i.inhparent
        WHERE t.table_type NOT LIKE '%VIEW%'
      ORDER BY t.table_schema, t.table_name" in
  after (translate_postgres_to_exasol sql) (fun translated =>
  let upper := to_ascii_uppercase translated in
  negb (contains (lit "REGNAMESPACE") upper) &&
  contains (lit "FROM SYS.EXA_ALL_TABLES") upper &&
  contains (lit "AS `schema`") translated &&
  contains (lit "AS `name`") translated &&
  contains (lit "AS `tabletype`") translated &&
  contains (lit "AS `parenttype`") translated &&
  (let variant := lit "SELECT c.table_schema AS s, c.table_name AS n,
              k.relkind AS kind, p.relkind AS parentkind
            FROM information_schema.tables AS c
            JOIN pg_class AS k ON c.table_name = k.relname
              AND quote_ident(c.table_schema) = k.relnamespace::regnamespace::text
            LEFT OUTER JOIN pg_inherits AS h ON k.oid = h.inhrelid
            LEFT OUTER JOIN pg_class AS p ON p.oid = h.inhparent
            WHERE c.table_type NOT LIKE '%VIEW%'" in
  after (translate_postgres_to_exasol variant) (fun translated_variant =>
  negb (contains (lit "REGNAMESPACE") (to_ascii_uppercase translated_variant)) &&
  contains (lit "FROM SYS.EXA_ALL_TABLES") (to_ascii_uppercase translated_variant)))).
Definition drops_correlated_scalar_subselect_in_beekeeper_pg_type_query : bool :=
  let sql := lit "SELECT n.nspname AS `schema`, t.typname AS typename, CAST(t.oid AS INT) AS typeid FROM PG_CATALOG.PG_TYPE t LEFT JOIN PG_CATALOG.pg_namespace n ON n.oid = t.typnamespace WHERE (t.typrelid = 0 OR (SELECT c.relkind = 'c' FROM PG_CATALOG.pg_class c WHERE c.oid = t.typrelid)) AND n.nspname NOT IN ('pg_catalog', 'information_schema') AND NOT EXISTS(SELECT 1 FROM PG_CATALOG.pg_type el WHERE el.oid = t.typelem AND el.typarray = t.oid)" in
  after (translate_postgres_to_exasol sql) (fun translated =>
  let lower := to_ascii_lowercase translated in
  negb (contains (lit "c.relkind = 'c'") lower) &&
  contains (lit "t.typrelid = 0") lower).

(** The tests that do not reach the transpiler, and those that do. *)
Definition translator_tests : list bool :=
  [leaves_metabase_mbql_group_by_query_as_exasol_sql; rewrites_metabase_foreign_key_query;
   rewrites_collations_projection; rewrites_foreign_server_projection;
   rewrites_foreign_data_wrapper_projection; rewrites_user_mappings_query_with_dynamic_oid;
   strips_exasol_catalog_prefix_from_three_part_quoted_reference;
   strips_exasol_catalog_prefix_from_three_part_unquoted_reference;
   leaves_unrelated_three_part_reference_alone; alias_quoting_does_not_touch_cast_type_argument;
   alias_quoting_skips_non_reserved_aliases; alias_quoting_preserves_already_quoted_aliases;
   strips_redundant_zero_offset; rewrites_beekeeper_create_table_script_query;
   rewrites_beekeeper_foreign_key_queries; rewrites_beekeeper_primary_keys_query;
   quotes_position_and_condition_reserved_aliases;
   rewrites_beekeeper_table_list_with_inheritance_query].
Definition transpiler_tests : list bool :=
  [rewrites_postgres_qualified_operator_syntax; rewrites_dbvis_tablespace_helpers;
   rewrites_ilike_literal_operands; rewrites_quote_ident_call_to_concat_expression;
   rewrites_session_user_to_current_user; drops_parens_on_current_schema_function_call;
   quotes_reserved_word_aliases_after_as; neutralizes_beekeeper_col_description_format_lookup;
   drops_correlated_scalar_subselect_in_beekeeper_pg_type_query].
End tests.

(** On the model of the translator, every assertion of the repository's own tests
    that do not reach the transpiler holds, whatever the transpiler is; the assertions
    of the tests that reach it hold with the transpiler that changes nothing. *)
Lemma translator_tests_pass :
  (forall T : Transpiler, forallb id (translator_tests (H := T)) = true)
  /\ forallb id (transpiler_tests (H := fun sql _ _ => Ok [sql])) = true.
Proof. split; [intros T|]; vm_compute; reflexivity. Qed.
