(* ===== verification/ServerTests.v ===== *)
(** * The unit tests of the server (src/src/pg_server.rs, [mod tests])

    The assertions of the repository's tests, on the model of the handlers, with the
    reference engine of regular expressions and columns of optional texts as Arrow
    arrays; and [rewrite_exasol_edge_case_sql], which is compiled for the tests only.
    A definition is a test function. *)

From S2P Require Import Prelude RustStr RustInt Regex Arrow Plan Config Exasol Cursor.
From S2P Require Import Policy Responses Bytes Params.
#[local] Open Scope nat_scope.

(** ** The rewriting that only the tests use *)

Definition edge_case_user_mappings_prefix : str :=
  lit "select distinct fs.srvname, case when rolname is null then 'public' else rolname end "
  ++ lit "rolname, srvoptions, umoptions from pg_user_mappings um join pg_foreign_server fs "
  ++ lit "on um.srvid = fs.oid left join pg_authid pa on um.umuser = pa.oid where fs.oid = ".

Definition rewrite_exasol_edge_case_sql (sql : str) : str :=
  let normalized := to_ascii_lowercase
    (trim_end_matches (N.eqb 59) (join (lit " ") (split_whitespace sql))) in
  let has s := contains (lit s) normalized in
  if str_eqb normalized
       (lit "select collation_schema, collation_name from information_schema.collations")
  then lit "SELECT `COLLATION_SCHEMA`, `COLLATION_NAME` FROM INFORMATION_SCHEMA.`COLLATIONS`"
  else if str_eqb normalized (lit "select l.oid,l.* from pg_catalog.pg_foreign_server l")
  then lit "SELECT l.oid, l.srvname, l.srvowner, l.srvfdw, l.srvtype, "
       ++ lit "l.srvversion, l.srvacl, l.srvoptions "
       ++ lit "FROM PG_CATALOG.`PG_FOREIGN_SERVER` l"
  else if str_eqb normalized
       (lit "select l.oid,l.* from pg_catalog.pg_foreign_data_wrapper l left outer join pg_catalog.pg_proc p on p.oid=l.fdwhandler")
  then lit "SELECT l.oid, l.fdwname, l.fdwowner, l.fdwhandler, "
       ++ lit "l.fdwvalidator, l.fdwacl, l.fdwoptions "
       ++ lit "FROM PG_CATALOG.`PG_FOREIGN_DATA_WRAPPER` l "
       ++ lit "LEFT OUTER JOIN PG_CATALOG.PG_PROC p ON p.oid = l.fdwhandler"
  else if has " from pg_catalog.pg_class as c "%string
       && has " left join pg_catalog.`pg_foreign_server` as fs "%string
       && has " c.relkind = cast('f' as char) "%string
  then replace (lit " fs.srvname LIKE ") (lit " srv.srvname LIKE ")
         (replace (lit " ft.ftserver = fs.oid") (lit " ft.ftserver = srv.oid")
            (replace (lit " fs.srvname AS ") (lit " srv.srvname AS ")
               (replace (lit "PG_CATALOG.`PG_FOREIGN_SERVER` AS fs")
                  (lit "PG_CATALOG.`PG_FOREIGN_SERVER` AS srv") sql)))
  else if has "array_agg(cast(event_manipulation as long varchar))"%string
       && has "from pg_catalog.pg_trigger as trg"%string
  then replace (lit "ARRAY_AGG(CAST(event_manipulation AS LONG VARCHAR))")
         (lit "LISTAGG(CAST(event_manipulation AS VARCHAR(2000000)), ', ') WITHIN GROUP (ORDER BY event_manipulation)")
         sql
  else if has "from pg_catalog.pg_proc as p"%string && has "p.proargtypes[-1]"%string
       && has "cast('pg_catalog.cstring' as pg_catalog.regtype)"%string
  then replace (lit " WHERE p.prorettype <> CAST('PG_CATALOG.cstring' AS PG_CATALOG.regtype) AND (p.proargtypes[-1] IS NULL OR p.proargtypes[-1] <> CAST('PG_CATALOG.cstring' AS PG_CATALOG.regtype))")
         (lit " WHERE 1 = 1")
         (replace (lit " WHERE p.prorettype <> CAST('PG_CATALOG.cstring' AS PG_CATALOG.regtype) AND (p.proargtypes[-1] IS NULL OR p.proargtypes[-1] <> CAST('PG_CATALOG.cstring' AS PG_CATALOG.regtype)) AND")
            (lit " WHERE") sql)
  else if has "pg_catalog.pg_get_constraintdef("%string && has ", true)"%string
  then replace (lit "PG_CATALOG.pg_get_constraintdef(r.oid, TRUE)")
         (lit "PG_CATALOG.pg_get_constraintdef(r.oid)") sql
  else if has "select p.proname as `aggregate name`"%string
       && has "case p.proargtypes[-1] when cast('pg_catalog.`any`' as pg_catalog.regtype)"%string
  then replace (lit "CASE p.proargtypes[-1] WHEN CAST('PG_CATALOG.`any`' AS PG_CATALOG.regtype) THEN CAST('(all types)' AS PG_CATALOG.text) ELSE PG_CATALOG.format_type(p.proargtypes[-1], NULL) END")
         (lit "PG_CATALOG.oidvectortypes(p.proargtypes)") sql
  else if has "select pg_catalog.format_type(t.oid, null) as `type name`"%string
       && has "or (select c.relkind = 'c' from pg_catalog.pg_class as c where c.oid = t.typrelid)"%string
  then replace (lit "(t.typrelid = 0 OR (SELECT c.relkind = 'c' FROM PG_CATALOG.pg_class AS c WHERE c.oid = t.typrelid))")
         (lit "(t.typrelid = 0)") sql
  else if starts_with edge_case_user_mappings_prefix normalized
       && ends_with (lit " order by srvname") normalized
  then
    let oid := trim (trim_end_str (lit " order by srvname")
                 (trim_start_str edge_case_user_mappings_prefix normalized)) in
    lit "SELECT DISTINCT fs.srvname, "
    ++ lit "CASE WHEN rolname IS NULL THEN 'public' ELSE rolname END AS rolname, "
    ++ lit "srvoptions, umoptions "
    ++ lit "FROM PG_CATALOG.PG_USER_MAPPINGS um "
    ++ lit "JOIN PG_CATALOG.`PG_FOREIGN_SERVER` fs ON um.srvid = fs.oid "
    ++ lit "LEFT JOIN PG_CATALOG.PG_AUTHID pa ON um.umuser = pa.oid "
    ++ lit "WHERE fs.oid = " ++ oid ++ lit " ORDER BY srvname"
  else sql.

Definition rewrites_foreign_server_projection : bool :=
  let sql := lit "SELECT l.oid,l.* FROM pg_catalog.pg_foreign_server l" in
  let rewritten := rewrite_exasol_edge_case_sql sql in
  contains (lit "PG_CATALOG.`PG_FOREIGN_SERVER`") rewritten &&
  contains (lit "l.srvoptions") rewritten &&
  negb (contains (lit "l.*") rewritten).
Definition rewrites_foreign_data_wrapper_projection : bool :=
  let sql := lit "SELECT l.oid,l.* FROM pg_catalog.pg_foreign_data_wrapper l LEFT OUTER JOIN pg_catalog.pg_proc p ON p.oid=l.fdwhandler" in
  let rewritten := rewrite_exasol_edge_case_sql sql in
  contains (lit "PG_CATALOG.`PG_FOREIGN_DATA_WRAPPER`") rewritten &&
  contains (lit "LEFT OUTER JOIN PG_CATALOG.PG_PROC") rewritten &&
  contains (lit "l.fdwoptions") rewritten.
Definition rewrites_user_mappings_query_with_dynamic_oid : bool :=
  let sql := lit "select distinct fs.srvname, case when rolname is null then 'public' else rolname end rolname, srvoptions, umoptions from pg_user_mappings um join pg_foreign_server fs on um.srvid = fs.OID left join pg_authid pa on um.umuser = pa.OID where fs.OID = 42 ORDER BY srvname" in
  let rewritten := rewrite_exasol_edge_case_sql sql in
  contains (lit "PG_CATALOG.PG_USER_MAPPINGS") rewritten &&
  contains (lit "PG_CATALOG.`PG_FOREIGN_SERVER`") rewritten &&
  contains (lit "WHERE fs.oid = 42") rewritten.
Definition rewrites_collations_projection : bool :=
  let sql := lit "SELECT COLLATION_SCHEMA, COLLATION_NAME FROM INFORMATION_SCHEMA.COLLATIONS" in
  let rewritten := rewrite_exasol_edge_case_sql sql in
  str_eqb rewritten (lit "SELECT `COLLATION_SCHEMA`, `COLLATION_NAME` FROM INFORMATION_SCHEMA.`COLLATIONS`").
Definition rewrites_trigger_array_agg : bool :=
  let sql := lit "SELECT ARRAY_AGG(CAST(event_manipulation AS LONG VARCHAR)) FROM pg_catalog.pg_trigger AS trg" in
  let rewritten := rewrite_exasol_edge_case_sql sql in
  contains (lit "LISTAGG(") rewritten &&
  negb (contains (lit "ARRAY_AGG(") rewritten).
Definition rewrites_foreign_table_browser_query : bool :=
  let sql := lit "SELECT c.relname AS `Name`, n.nspname AS `Schema`, fs.srvname AS `Foreign Server`, ft.ftoptions AS `Options` FROM PG_CATALOG.PG_CLASS AS c LEFT JOIN PG_CATALOG.PG_NAMESPACE AS n ON n.oid = c.relnamespace LEFT JOIN PG_CATALOG.PG_FOREIGN_TABLE AS ft ON ft.ftrelid = c.oid LEFT JOIN PG_CATALOG.`PG_FOREIGN_SERVER` AS fs ON ft.ftserver = fs.oid WHERE c.relkind = CAST('f' AS CHAR) AND fs.srvname LIKE '%'" in
  let rewritten := rewrite_exasol_edge_case_sql sql in
  contains (lit "PG_CATALOG.`PG_FOREIGN_SERVER` AS srv") rewritten &&
  contains (lit "srv.srvname AS `Foreign Server`") rewritten &&
  contains (lit "ft.ftserver = srv.oid") rewritten &&
  contains (lit "srv.srvname LIKE '%'") rewritten.
Definition rewrites_proc_listing_cstring_filter : bool :=
  let sql := lit "SELECT p.proname FROM PG_CATALOG.PG_PROC AS p WHERE p.prorettype <> CAST('PG_CATALOG.cstring' AS PG_CATALOG.regtype) AND (p.proargtypes[-1] IS NULL OR p.proargtypes[-1] <> CAST('PG_CATALOG.cstring' AS PG_CATALOG.regtype)) AND p.prokind = 'p'" in
  let rewritten := rewrite_exasol_edge_case_sql sql in
  negb (contains (lit "p.proargtypes[-1]") rewritten) &&
  negb (contains (lit "PG_CATALOG.regtype") rewritten) &&
  contains (lit "WHERE p.prokind = 'p'") rewritten.
Definition rewrites_constraintdef_pretty_call : bool :=
  let sql := lit "SELECT PG_CATALOG.pg_get_constraintdef(r.oid, TRUE) FROM PG_CATALOG.pg_constraint AS r" in
  let rewritten := rewrite_exasol_edge_case_sql sql in
  str_eqb rewritten (lit "SELECT PG_CATALOG.pg_get_constraintdef(r.oid) FROM PG_CATALOG.pg_constraint AS r").
Definition rewrites_pg_type_scalar_subquery_filter : bool :=
  let sql := lit "SELECT PG_CATALOG.format_type(t.oid, NULL) AS `Type Name` FROM PG_CATALOG.pg_type AS t WHERE (t.typrelid = 0 OR (SELECT c.relkind = 'c' FROM PG_CATALOG.pg_class AS c WHERE c.oid = t.typrelid))" in
  let rewritten := rewrite_exasol_edge_case_sql sql in
  contains (lit "(t.typrelid = 0)") rewritten &&
  negb (contains (lit "SELECT c.relkind = 'c'") rewritten).

Definition edge_case_tests : list bool :=
  [rewrites_foreign_server_projection; rewrites_foreign_data_wrapper_projection;
   rewrites_user_mappings_query_with_dynamic_oid; rewrites_collations_projection;
   rewrites_trigger_array_agg; rewrites_foreign_table_browser_query;
   rewrites_proc_listing_cstring_filter; rewrites_constraintdef_pretty_call;
   rewrites_pg_type_scalar_subquery_filter].

(** ** The setting of the other tests *)

#[local] Existing Instance dev_profile.
#[local] Existing Instance reference_engine.
#[local] Existing Instance list_arrow.

Definition json_object (fields : list (string * json)) : json :=
  JObject ((fun p => (lit p.1, p.2)) <$> fields).
Definition decimal_json (precision scale : Z) : json :=
  json_object [("type", JString (lit "DECIMAL")); ("precision", JInt precision);
               ("scale", JInt scale)]%string.
Definition varchar_json (size : Z) : json :=
  json_object [("type", JString (lit "VARCHAR")); ("size", JInt size)]%string.

(** The JSON texts the tests write, and how they read. *)
Definition decimal_text (precision scale : Z) : str :=
  lit "{`type`:`DECIMAL`,`precision`:" ++ show_int precision ++ lit ",`scale`:"
  ++ show_int scale ++ lit "}".
Definition varchar_text (size : Z) : str :=
  lit "{`type`:`VARCHAR`,`size`:" ++ show_int size ++ lit "}".
Definition timestamp_text : str := lit "{`type`:`TIMESTAMP`,`with_local_time_zone`:true}".
Definition json_texts : list (str * json) :=
  [(decimal_text 18 0, decimal_json 18 0); (decimal_text 1 0, decimal_json 1 0);
   (decimal_text 18 2, decimal_json 18 2); (varchar_text 2000, varchar_json 2000);
   (timestamp_text, json_object [("type", JString (lit "TIMESTAMP"));
                                 ("with_local_time_zone", JBool true)]%string)].
#[local] Instance test_json : JsonLib := {|
  json_render := fun _ => [];
  json_parse := fun t => snd <$> List.find (fun p => str_eqb p.1 t) json_texts |}.

Definition exasol_metadata (type_json : str) (extras : list (string * str)) : gmap str str :=
  foldr (fun p m => <[lit p.1 := p.2]> m) {[lit "exasol:type" := type_json]} extras.

Definition int_field (name : string) : Field :=
  {| field_name := lit name; field_data_type := DtInt64;
     field_metadata := exasol_metadata (decimal_text 18 0)
       [("exasol:precision", lit "18"); ("exasol:scale", lit "0")]%string |}.
Definition int_batch (name : string) (values : list (option Z)) : RecordBatch :=
  let cells : list (option str) := (fun v : option Z => show_int <$> v) <$> values in
  default (batch_new_empty [])
    (batch_try_new [int_field name] [{| la_type := DtInt64; la_cells := cells |} : ArrayRef]).
Definition decimal_field (name : string) (precision scale : Z) : Field :=
  {| field_name := lit name; field_data_type := DtDecimal128 precision scale;
     field_metadata := exasol_metadata (decimal_text precision scale)
       [("exasol:precision", show_int precision); ("exasol:scale", show_int scale)]%string |}.
Definition varchar_field (name : string) (size : Z) : Field :=
  {| field_name := lit name; field_data_type := DtUtf8;
     field_metadata := exasol_metadata (varchar_text size) [("exasol:size", show_int size)]%string |}.

Definition test_cursor (scroll : bool) : GatewayCursor :=
  let batch := int_batch "id" (Some <$> [1; 2; 3]%Z) in
  {| data := CArrow (batch_schema batch) [batch]; position := -1; scroll := scroll; hold := false |}.
Definition test_cursor_two_batches : GatewayCursor :=
  let first := int_batch "id" (Some <$> [10; 20; 30]%Z) in
  let second := int_batch "id" (Some <$> [40; 50]%Z) in
  {| data := CArrow (batch_schema first) [first; second]; position := -1; scroll := true;
     hold := false |}.
Definition text_rows (values : list string) : list (list (option str)) :=
  (fun v => [Some (lit v)]) <$> values.
Definition test_typed_cursor (scroll : bool) : GatewayCursor :=
  {| data := CTyped [{| column_name := lit "id"; column_data_type := decimal_json 18 0 |}]
               (text_rows ["1"; "2"; "3"]%string);
     position := -1; scroll := scroll; hold := false |}.

Definition collect_first_column_strings (batches : list RecordBatch) : list (option str) :=
  (fun row => mjoin (head row)) <$> arrow_batches_to_text_rows batches.
(** [expect_arrow_batches] and [expect_typed_rows] panic on the other kind of rows. *)
Definition expect_arrow_batches (rows : CursorStepRows) : option (list RecordBatch) :=
  match rows with StepArrow batches => Some batches | StepTyped _ => None end.
Definition expect_typed_rows (rows : CursorStepRows) : option (list (list (option str))) :=
  match rows with StepTyped rows => Some rows | StepArrow _ => None end.

(** A step of a cursor, what is checked of it, and the cursor after it. *)
Definition step_then (c : GatewayCursor) (d : CursorDirection) (return_rows : bool)
    (f : GatewayCursor -> CursorStep -> bool) : bool :=
  match apply 2 c d return_rows with Ok (c, step) => f c step | _ => false end.
Definition arrow_values (step : CursorStep) (values : list string) : bool :=
  bool_decide (collect_first_column_strings <$> expect_arrow_batches (step_rows step)
               = Some ((fun v => Some (lit v)) <$> values)).
Definition typed_values (step : CursorStep) (values : list string) : bool :=
  bool_decide (expect_typed_rows (step_rows step) = Some (text_rows values)).

(** ** Parameters *)

Definition infers (sql : str) (types : list PgType) : bool :=
  match infer_parameter_types sql with Ok t => bool_decide (t = types) | _ => false end.
Definition infers_text_parameters_for_metabase_schema_filter : bool :=
  let sql := lit "SELECT `n`.`nspname` FROM pg_catalog.pg_namespace n WHERE `n`.`nspname` IN ($1, $2)" in
  infers sql [TEXT; TEXT].
Definition infers_numeric_parameters_for_limit_and_oid_filters : bool :=
  let sql := lit "SELECT * FROM pg_catalog.pg_class WHERE oid = $1 LIMIT $2" in
  infers sql [INT4; INT4].
Definition renders_as (r : outcome PgError str) (text : string) : bool :=
  match r with Ok s => str_eqb s (lit text) | _ => false end.
Definition renders_binary_int_parameter : bool :=
  renders_as (render_binary_parameter (be_bytes 4 5) INT4 0) "5".
Definition renders_binary_text_parameter_as_sql_literal : bool :=
  renders_as (render_binary_parameter (to_utf8 (lit "O'Reilly")) TEXT 0) "'O''Reilly'".
Definition splits_simple_query_batches : bool :=
  bool_decide (split_simple_query (lit "SET a = 1; SELECT 1;") = [lit "SET a = 1"; lit "SELECT 1"])
  && bool_decide (split_simple_query (lit "SELECT ';'") = [lit "SELECT ';'"])
  && bool_decide (split_simple_query (lit "SELECT 'it''s'; SELECT 2")
                  = [lit "SELECT 'it''s'"; lit "SELECT 2"]).

(** ** Types and responses *)

Definition maps_exasol_decimal_field_to_postgres_int4_when_low_precision : bool :=
  bool_decide (pg_type_for_arrow_field (decimal_field "count" 1 0) = INT4).
Definition maps_exasol_decimal_field_to_postgres_numeric_when_scaled : bool :=
  bool_decide (pg_type_for_arrow_field (decimal_field "price" 18 2) = NUMERIC).
Definition maps_exasol_varchar_field_to_postgres_varchar_type : bool :=
  bool_decide (pg_type_for_arrow_field (varchar_field "name" 2000) = VARCHAR).
Definition maps_exasol_timestamp_with_local_time_zone_to_timestamptz : bool :=
  let field := {| field_name := lit "ts"; field_data_type := DtTimestamp (Some (lit "UTC"));
                  field_metadata := exasol_metadata timestamp_text [] |} in
  bool_decide (pg_type_for_arrow_field field = TIMESTAMPTZ).
Definition is_execution (r : option GatewayResponse) (command : string) (rows : option Z) : bool :=
  match r with
  | Some (RExecution c n) => str_eqb c (lit command) && bool_decide (n = rows)
  | _ => false
  end.
Definition maps_dml_row_count_to_statement_command_tag : bool :=
  is_execution (list.last (map_exasol_result (RowCount 3) (lit "UPDATE") Include false))
    "UPDATE" (Some 3%Z).
Definition omits_row_count_for_ddl_command_tag : bool :=
  is_execution (list.last (map_exasol_result (RowCount 0) (lit "CREATE TABLE") Omit false))
    "CREATE TABLE" None.
Definition maps_arrow_outcome_to_typed_response_using_field_metadata : bool :=
  let outcome := ArrowRows [int_batch "id" (Some <$> [1; 2]%Z)] in
  match list.last (map_exasol_result outcome (lit "SELECT") Omit true) with
  | Some (RArrowQuery schema batches command_tag _) =>
      bool_decide (field_name <$> schema = [lit "id"])
      && bool_decide (num_rows <$> batches = [2]) && bool_decide (command_tag = None)
  | _ => false
  end.
Definition folds_uppercase_exasol_column_names_but_preserves_mixed_case : bool :=
  let folds (a b : string) := str_eqb (fold_exasol_column_name (lit a)) (lit b) in
  let text_field (name : string) := {| field_name := lit name; field_data_type := DtUtf8;
                            field_metadata := ∅ |} in
  let schema := [text_field "NAME"; text_field "userId"]%string in
  (folds "NAME" "name" && folds "ROUTINE_SCHEMA" "routine_schema" && folds "userId" "userId"
  && folds "schema" "schema")%string
  && bool_decide (fi_name <$> map_exasol_columns schema true = [lit "name"; lit "userId"])
  && bool_decide (fi_name <$> head (map_exasol_columns schema false) = Some (lit "NAME")).
(** The text of the CommandComplete message of a tag, as PostgreSQL writes it. *)
Definition command_complete (tag : Tag) : str :=
  tag_command tag ++ match tag_oid tag with Some oid => lit " " ++ show_int oid | None => [] end
  ++ match tag_rows tag with Some rows => lit " " ++ show_int rows | None => [] end.
Definition maps_insert_execution_to_postgres_insert_tag : bool :=
  match try_from (RExecution (lit "INSERT") (Some 2%Z)) with
  | Ok (ExecutionR tag) => str_eqb (command_complete tag) (lit "INSERT 0 2")
  | _ => false
  end.
Definition can_set_fetch_query_response_command_tag : bool :=
  let batch := int_batch "id" [Some 1%Z] in
  bool_decide (qr_command_tag (query_response_arrow (batch_schema batch) [batch]
                 (Some (lit "FETCH")) false) = Some (lit "FETCH")).
Definition renders_arrow_batches_as_text_rows : bool :=
  bool_decide (arrow_batches_to_text_rows [int_batch "id" [Some 1%Z; None; Some 3%Z]]
               = [[Some (lit "1")]; [None]; [Some (lit "3")]]).
Definition maps_typed_outcome_to_typed_query_response : bool :=
  let columns := [{| column_name := lit "id"; column_data_type := decimal_json 18 0 |}] in
  let rows := text_rows ["1"; "2"]%string in
  match list.last (map_exasol_result (TypedRows columns rows) (lit "SELECT") Omit false) with
  | Some (RTypedQuery out_columns out_rows command_tag _) =>
      bool_decide (column_name <$> out_columns = [lit "id"]) && bool_decide (out_rows = rows)
      && bool_decide (command_tag = None)
  | _ => false
  end.
Definition typed_query_response_round_trips_through_try_into_response : bool :=
  let columns := [{| column_name := lit "name"; column_data_type := varchar_json 2000 |}] in
  match try_from (RTypedQuery columns (text_rows ["alice"%string]) (Some (lit "SELECT")) false) with
  | Ok (QueryR query) => bool_decide (qr_command_tag query = Some (lit "SELECT"))
  | _ => false
  end.
Definition typed_query_response_fields_use_pg_type_mapping : bool :=
  let columns := [{| column_name := lit "amount"; column_data_type := decimal_json 18 2 |};
                  {| column_name := lit "label"; column_data_type := varchar_json 100 |}] in
  match fields (RTypedQuery columns [] None false) with
  | Ok fields => bool_decide (((fun f => (fi_name f, fi_type f)) <$> fields)
                              = [(lit "amount", NUMERIC); (lit "label", VARCHAR)])
  | _ => false
  end.

(** ** Cursors *)

Definition applies_cursor_forward_and_backward_fetches : bool :=
  step_then (test_cursor true) (Forward (Some 2%Z)) true (fun cursor step =>
    (step_count step =? 2)%Z && arrow_values step ["1"; "2"]%string && (position cursor =? 1)%Z
    && step_then cursor (Backward (Some 1%Z)) true (fun cursor step =>
         (step_count step =? 1)%Z && arrow_values step ["1"]%string && (position cursor =? 0)%Z)).
Definition applies_cursor_absolute_relative_and_all_positions : bool :=
  step_then (test_cursor true) Last true (fun cursor step =>
    arrow_values step ["3"]%string && (step_count step =? 1)%Z && (position cursor =? 2)%Z
    && step_then cursor (Relative (-2)) true (fun cursor step =>
         arrow_values step ["1"]%string && (step_count step =? 1)%Z && (position cursor =? 0)%Z
         && step_then cursor All false (fun cursor step =>
              (step_count step =? 2)%Z
              && bool_decide (length <$> expect_arrow_batches (step_rows step) = Some 0)
              && (position cursor =? 3)%Z))).
Definition cursor_forward_spans_multiple_record_batches : bool :=
  step_then test_cursor_two_batches (Forward (Some 3%Z)) true (fun cursor step =>
    (step_count step =? 3)%Z && arrow_values step ["10"; "20"; "30"]%string
    && (position cursor =? 2)%Z
    && step_then cursor (Forward (Some 10%Z)) true (fun _ step =>
         (step_count step =? 2)%Z && arrow_values step ["40"; "50"]%string)).
Definition rejects_backward_movement_for_no_scroll_cursor : bool :=
  match apply 2 (test_cursor false) (Backward (Some 1%Z)) true with
  | Err error => str_eqb (err_sqlstate error) (lit "0A000")
                 && contains (lit "NO SCROLL") (err_message error)
  | _ => false
  end.
Definition typed_cursor_steps_forward_and_returns_typed_rows : bool :=
  step_then (test_typed_cursor true) (Forward (Some 2%Z)) true (fun cursor step =>
    (step_count step =? 2)%Z && typed_values step ["1"; "2"]%string && (position cursor =? 1)%Z
    && step_then cursor All true (fun cursor step =>
         (step_count step =? 1)%Z && typed_values step ["3"]%string && (position cursor =? 3)%Z)).
Definition typed_cursor_backward_reverses_rows : bool :=
  step_then (test_typed_cursor true) (Forward (Some 3%Z)) true (fun cursor _ =>
    step_then cursor (Backward (Some 2%Z)) true (fun cursor step =>
      (step_count step =? 2)%Z && typed_values step ["2"; "1"]%string && (position cursor =? 0)%Z)).
Definition typed_cursor_move_returns_empty_rows_with_count : bool :=
  step_then (test_typed_cursor true) (Forward (Some 2%Z)) false (fun cursor step =>
    (step_count step =? 2)%Z && typed_values step [] && (position cursor =? 1)%Z).

Definition server_tests : list bool :=
  [infers_text_parameters_for_metabase_schema_filter;
   infers_numeric_parameters_for_limit_and_oid_filters; renders_binary_int_parameter;
   renders_binary_text_parameter_as_sql_literal; splits_simple_query_batches;
   maps_exasol_decimal_field_to_postgres_int4_when_low_precision;
   maps_exasol_decimal_field_to_postgres_numeric_when_scaled;
   maps_exasol_varchar_field_to_postgres_varchar_type;
   maps_exasol_timestamp_with_local_time_zone_to_timestamptz;
   maps_dml_row_count_to_statement_command_tag; omits_row_count_for_ddl_command_tag;
   maps_arrow_outcome_to_typed_response_using_field_metadata;
   folds_uppercase_exasol_column_names_but_preserves_mixed_case;
   maps_insert_execution_to_postgres_insert_tag; can_set_fetch_query_response_command_tag;
   renders_arrow_batches_as_text_rows; maps_typed_outcome_to_typed_query_response;
   typed_query_response_round_trips_through_try_into_response;
   typed_query_response_fields_use_pg_type_mapping; applies_cursor_forward_and_backward_fetches;
   applies_cursor_absolute_relative_and_all_positions;
   cursor_forward_spans_multiple_record_batches; rejects_backward_movement_for_no_scroll_cursor;
   typed_cursor_steps_forward_and_returns_typed_rows; typed_cursor_backward_reverses_rows;
   typed_cursor_move_returns_empty_rows_with_count].

(** Every assertion of the repository's own tests of the server holds on the model. *)
Lemma server_tests_pass :
  forallb id edge_case_tests = true /\ forallb id server_tests = true.
Proof. split; vm_compute; reflexivity. Qed.
