(* ===== verification/ComponentTests.v ===== *)
(** * The unit tests of the other components

    The assertions of the repository's tests in src/src/metadata.rs, config.rs,
    bootstrap.rs, exasol/mod.rs, exasol/arrow_transport.rs and
    exasol/websocket_transport.rs, on the model.  A definition is a test function.
    Left out are the tests of RSA, SHA-256 and the catalog script, which are parameters
    of the model.  The TOML documents of the tests are given as the tables they are. *)

From S2P Require Import Prelude RustStr RustInt Regex Arrow Plan Config Exasol Metadata Bytes.
From S2P Require Import WebSocket ExasolSession Bootstrap BootstrapTheorems ConfigFile.
#[local] Open Scope nat_scope.
#[local] Existing Instance dev_profile.
#[local] Existing Instance reference_engine.
#[local] Existing Instance list_arrow.

#[local] Instance DataType_eq_dec : EqDecision DataType.
Proof. solve_decision. Defined.
#[local] Instance Field_eq_dec : EqDecision Field.
Proof. solve_decision. Defined.
#[local] Instance MetadataPlan_eq_dec : EqDecision MetadataPlan.
Proof. solve_decision. Defined.
#[local] Instance PgTypeInfo_eq_dec : EqDecision PgTypeInfo.
Proof. solve_decision. Defined.
#[local] Instance Transport_eq_dec : EqDecision Transport.
Proof. solve_decision. Defined.

(** The value of a result that must be one, under a test of it. *)
Definition ok_and {E A} (r : outcome E A) (f : A -> bool) : bool :=
  match r with Ok a => f a | _ => false end.
Definition err_and {E A} (r : outcome E A) (f : E -> bool) : bool :=
  match r with Err e => f e | _ => false end.

(** ** metadata.rs *)

Definition detects_jdbc_tables_query : bool :=
  let sql := lit "SELECT current_database() AS `TABLE_CAT`, n.nspname AS `TABLE_SCHEM`, c.relname AS `TABLE_NAME` FROM pg_catalog.pg_namespace n, pg_catalog.pg_class c WHERE c.relname LIKE '%'" in
  bool_decide (detect sql = Some (JdbcTables (lit "%") (lit "%"))).
Definition detects_info_schema_columns_query : bool :=
  let sql := lit "select COLUMN_NAME from INFORMATION_SCHEMA.COLUMNS where TABLE_CATALOG = 'exasol' and TABLE_SCHEMA = 'PG_DEMO' and TABLE_NAME = 'ORDERS' order by COLUMN_NAME" in
  bool_decide (detect sql
               = Some (InfoSchemaColumnNames (lit "exasol") (lit "PG_DEMO") (lit "ORDERS"))).
Definition maps_to (exasol_type : string) (info : PgTypeInfo) : bool :=
  ok_and (map_exasol_column_type (lit exasol_type)) (fun i => bool_decide (i = info)).
Definition maps_decimal_type_to_numeric : bool :=
  maps_to "DECIMAL(18,4)"
    {| oid := 1700; typmod := Z.lor (Z.shiftl 18 16) 4 + 4; typlen := -1; typtype := lit "b";
       typbasetype := 0 |}%Z.
Definition maps_varchar_type_to_text_metadata : bool :=
  maps_to "VARCHAR(200) UTF8"
    {| oid := 1043; typmod := 204; typlen := -1; typtype := lit "b"; typbasetype := 0 |}%Z.

(** ** config.rs *)

Definition toml_table (entries : list (string * toml)) : toml :=
  TTable ((fun p => (lit p.1, p.2)) <$> entries).
Definition toml_doc (tables : list (string * toml)) : list (str * toml) :=
  (fun p => (lit p.1, p.2)) <$> tables.
Definition toml_text (s : string) : toml := TString (lit s).
(** [toml::from_str] of a document. *)
Definition parsed_and (doc : list (str * toml)) (f : AppConfig -> bool) : bool :=
  match app_of_toml doc with Some c => f c | None => false end.

Definition loads_config : bool :=
  let doc := toml_doc
    [("server", toml_table [("listen_host", toml_text "0.0.0.0"); ("listen_port", TInt 15432);
        ("tls_cert_path", toml_text "/etc/exa-postgres-interface/server.crt");
        ("tls_key_path", toml_text "/etc/exa-postgres-interface/server.key")]);
     ("exasol", toml_table [("dsn", toml_text "127.0.0.1:8563");
        ("validate_certificate", TBool false)]);
     ("translation", toml_table [("enabled", TBool true)])]%string in
  parsed_and doc (fun config =>
    str_eqb (listen_host (server config)) (lit "0.0.0.0")
    && str_eqb (tls_cert_path (server config)) (lit "/etc/exa-postgres-interface/server.crt")
    && str_eqb (dsn (exasol config)) (lit "127.0.0.1:8563")
    && negb (validate_certificate (exasol config)) && enabled (translation config)
    && bool_decide (sql_preprocessor_script (translation config) = [])
    && bool_decide (session_init_sql (translation config) = [])).
Definition loads_optional_preprocessor_fallback_config : bool :=
  let doc := toml_doc
    [("exasol", toml_table [("dsn", toml_text "127.0.0.1:8563")]);
     ("translation", toml_table [("enabled", TBool true);
        ("sql_preprocessor_script", toml_text "PG_CATALOG.PG_SQL_PREPROCESSOR");
        ("session_init_sql",
         TArray [toml_text "ALTER SESSION SET SQL_PREPROCESSOR_SCRIPT = {script}"])])]%string in
  parsed_and doc (fun config =>
    str_eqb (sql_preprocessor_script (translation config)) (lit "PG_CATALOG.PG_SQL_PREPROCESSOR")
    && (length (session_init_sql (translation config)) =? 1)).
Definition dsn_doc (transport : list (string * toml)) : list (str * toml) :=
  toml_doc [("exasol", toml_table (("dsn", toml_text "127.0.0.1:8563") :: transport))]%string.
Definition has_transport (doc : list (str * toml)) (t : Transport) : bool :=
  parsed_and doc (fun config =>
    ok_and (from_config (exasol config)) (fun t' => bool_decide (t' = t))).
Definition transport_defaults_to_arrow : bool :=
  parsed_and (dsn_doc []) (fun config => str_eqb (transport (exasol config)) DEFAULT_TRANSPORT)
  && has_transport (dsn_doc []) Arrow.
Definition explicit_websocket_transport_parses : bool :=
  has_transport (dsn_doc [("transport", toml_text "websocket")]%string) WebSocket.
Definition explicit_arrow_transport_parses : bool :=
  has_transport (dsn_doc [("transport", toml_text "arrow")]%string) Arrow.
Definition unknown_transport_value_fails_config_load : bool :=
  parsed_and (dsn_doc [("transport", toml_text "tcp")]%string) (fun config =>
    err_and (from_config (exasol config)) (fun err =>
      let text := ConfigError_to_string err in
      contains (lit "unknown transport") text && contains (lit "websocket") text
      && contains (lit "arrow") text)).
Definition from_file_rejects_unknown_transport : bool :=
  let text := unlines [lit "[exasol]"; lit "dsn = `127.0.0.1:8563`"; lit "transport = `tcp`"] in
  err_and (from_file (H := mini_toml) (Some text)) (fun err =>
    contains (lit "unknown transport") (ConfigError_to_string err)).

(** ** exasol/mod.rs *)

Definition test_config (dsn : string) (certificate_fingerprint : string)
    (validate_certificate : bool) : ExasolConfig :=
  {| Config.dsn := lit dsn; encryption := true;
     Config.certificate_fingerprint := lit certificate_fingerprint;
     Config.validate_certificate := validate_certificate; pass_client_credentials := true;
     schema := []; transport := [] |}.
Definition parses_to (config : ExasolConfig) (f : EndpointConnection -> bool) : bool :=
  ok_and (endpoint_parse (dsn config) config) f.
Definition appends_nocertcheck_policy_from_config : bool :=
  parses_to (test_config "127.0.0.1:8563" "" false)
    (fun endpoint => bool_decide (fingerprint endpoint = Some (lit "NOCERTCHECK"))).
Definition preserves_dsn_fingerprint : bool :=
  parses_to (test_config "127.0.0.1/ABC:8563" "" true)
    (fun endpoint => bool_decide (fingerprint endpoint = Some (lit "ABC"))).
Definition nocertcheck_maps_to_validate_false_on_connection_params : bool :=
  let config := test_config "127.0.0.1:8563" "" false in
  parses_to config (fun endpoint =>
    let params := to_connection_params endpoint config (lit "user") (lit "pass") in
    negb (params_validate_server_certificate params)
    && bool_decide (params_certificate_fingerprint params = None)).
Definition dsn_fingerprint_propagates_to_connection_params : bool :=
  let config := test_config "127.0.0.1/AABBCC:8563" "" true in
  parses_to config (fun endpoint =>
    let params := to_connection_params endpoint config (lit "user") (lit "pass") in
    bool_decide (params_certificate_fingerprint params = Some (lit "AABBCC"))).
Definition config_fingerprint_overrides_dsn_fingerprint : bool :=
  parses_to (test_config "127.0.0.1/DSN_FP:8563" "CONFIG_FP" true)
    (fun endpoint => bool_decide (fingerprint endpoint = Some (lit "CONFIG_FP"))).

(** ** exasol/arrow_transport.rs *)

Definition schema_a_b : Schema :=
  [{| field_name := lit "A"; field_data_type := DtInt32; field_metadata := ∅ |};
   {| field_name := lit "B"; field_data_type := DtUtf8; field_metadata := ∅ |}].
Definition test_array (t : DataType) (cells : list (option string)) : ArrayRef :=
  {| la_type := t; la_cells := (fun c : option string => lit <$> c) <$> cells |}.
Definition empty_batches_get_a_schema_carrier_batch : bool :=
  match backfill_schema_when_empty [] (Some schema_a_b) with
  | [b] => (num_rows b =? 0) && (length (batch_columns b) =? 2)
           && bool_decide (batch_schema b = schema_a_b)
  | _ => false
  end.
Definition empty_batches_without_schema_are_left_alone : bool :=
  match backfill_schema_when_empty [] None with [] => true | _ => false end.
Definition non_empty_batches_are_returned_as_is : bool :=
  match batch_try_new schema_a_b
          [test_array DtInt32 [Some "1"; Some "2"; Some "3"];
           test_array DtUtf8 [Some "x"; Some "y"; Some "z"]]%string with
  | Some batch => bool_decide (num_rows <$> backfill_schema_when_empty [batch] (Some schema_a_b)
                               = [3])
  | None => false
  end.

(** ** exasol/websocket_transport.rs *)

#[local] Instance test_json : JsonLib := {| json_render := fun _ => []; json_parse := fun _ => None |}.
(** Any digest in upper case will do. *)
#[local] Instance test_ws : WsLib :=
  {| ws := unit; ws_send _ s := (Ok tt, s); ws_next s := (WsClosed, s); ws_close s := s;
     encrypt _ p := Ok p; sha256_hex _ := lit "C0FFEE" |}.
Definition test_cert : list byte := [1; 2; 3]%Z.
Definition verify_fingerprint_accepts_matching_hash : bool :=
  ok_and (verify_fingerprint (sha256_hex test_cert) test_cert) (fun _ => true).
Definition verify_fingerprint_accepts_lowercase_input : bool :=
  ok_and (verify_fingerprint (to_ascii_lowercase (sha256_hex test_cert)) test_cert) (fun _ => true).
Definition verify_fingerprint_rejects_mismatch : bool :=
  err_and (verify_fingerprint (mjoin (replicate 8 (lit "DEADBEEF"))) test_cert) (fun err =>
    match err with Connection msg => contains (lit "fingerprint mismatch") msg | _ => false end).
Definition json_object (fields : list (string * json)) : json :=
  JObject ((fun p => (lit p.1, p.2)) <$> fields).
Definition parse_result_set_extracts_typed_rows : bool :=
  let column name data_type := json_object [("name", JString (lit name)); ("dataType", data_type)]%string in
  let result_set := json_object
    [("numColumns", JInt 2); ("numRows", JInt 2); ("numRowsInMessage", JInt 2);
     ("columns", JArray
        [column "id" (json_object [("type", JString (lit "DECIMAL")); ("precision", JInt 18);
                                   ("scale", JInt 0)]);
         column "name" (json_object [("type", JString (lit "VARCHAR")); ("size", JInt 100)])]);
     ("data", JArray [JArray [JInt 1; JInt 2]; JArray [JString (lit "alice"); JString (lit "bob")]])
    ]%string in
  let result := json_object [("resultType", JString (lit "resultSet")); ("resultSet", result_set)]%string in
  match json_get (lit "resultSet") result with
  | Some result_set =>
      ok_and (parse_columns result_set) (fun columns =>
        bool_decide (column_name <$> columns = [lit "id"; lit "name"]))
      && bool_decide (transpose_data (json_get (lit "data") result_set)
                      = [[Some (lit "1"); Some (lit "alice")]; [Some (lit "2"); Some (lit "bob")]])
  | None => false
  end.
Definition transpose_data_handles_nulls_and_types : bool :=
  let data := JArray [JArray [JNull; JInt 42; JBool true];
                      JArray [JString (lit "x"); JNull; JBool false]] in
  bool_decide (transpose_data (Some data)
               = [[None; Some (lit "x")]; [Some (lit "42"); None]; [Some (lit "t"); Some (lit "f")]]).
Definition value_to_text_handles_primitive_variants : bool :=
  bool_decide (value_to_text None = None) && bool_decide (value_to_text (Some JNull) = None)
  && bool_decide (value_to_text (Some (JString (lit "foo"))) = Some (lit "foo"))
  && bool_decide (value_to_text (Some (JBool true)) = Some (lit "t"))
  && bool_decide (value_to_text (Some (JBool false)) = Some (lit "f"))
  && bool_decide (value_to_text (Some (JInt 42)) = Some (lit "42")).
Definition response_text_from_message_extracts_text_frames : bool :=
  ok_and (response_text_from_message (MText (lit "hello")))
    (fun text => bool_decide (text = Some (lit "hello"))).
Definition response_text_from_message_skips_pong_progress : bool :=
  ok_and (response_text_from_message (MPong [69; 88; 69]%Z)) (fun text => bool_decide (text = None)).
Definition response_text_from_message_reports_close_as_error : bool :=
  err_and (response_text_from_message (MClose (lit "None")))
    (fun err => match err with Request _ => true | _ => false end).

(** ** bootstrap.rs *)

(** The tests do not look at the message about a text that is no integer. *)
Definition count_of (answer : ExasolOutcome) : outcome ExasolError Z :=
  first_count (fun _ => []) answer.
Definition test_batch (t : DataType) (cells : list (option string)) : ExasolOutcome :=
  ArrowRows (option_list (batch_try_new [{| field_name := lit "c"; field_data_type := t;
                                             field_metadata := ∅ |}] [test_array t cells])).
Definition typed_rows (rows : list (list (option str))) : ExasolOutcome :=
  TypedRows [{| column_name := lit "c"; column_data_type := JNull |}] rows.
Definition counts (answer : ExasolOutcome) (n : Z) : bool :=
  ok_and (count_of answer) (Z.eqb n).
Definition fails_to_count (answer : ExasolOutcome) : bool :=
  err_and (count_of answer) (fun err => match err with Execution _ => true | _ => false end).
Definition first_count_reads_int64_value : bool := counts (test_batch DtInt64 [Some "7"%string]) 7.
Definition first_count_reads_decimal128_value : bool :=
  counts (test_batch (DtDecimal128 18 0) [Some "42"%string]) 42.
Definition first_count_reads_decimal128_with_scale_by_truncating_fraction : bool :=
  counts (test_batch (DtDecimal128 5 1) [Some "123.0"%string]) 123.
Definition first_count_parses_string_column : bool := counts (test_batch DtUtf8 [Some "9"%string]) 9.
Definition first_count_reads_typed_rows_from_websocket : bool :=
  counts (typed_rows [[Some (lit "2")]]) 2.
Definition first_count_rejects_empty_typed_rows : bool := fails_to_count (typed_rows []).
Definition first_count_rejects_null_typed_count : bool := fails_to_count (typed_rows [[None]]).
Definition first_count_rejects_row_count_outcome : bool := fails_to_count (RowCount 5).
Definition first_count_rejects_empty_batches : bool := fails_to_count (ArrowRows []).
Definition first_count_rejects_empty_first_batch : bool := fails_to_count (test_batch DtInt64 []).
Definition first_count_rejects_null_first_value : bool := fails_to_count (test_batch DtInt64 [None]).
Definition first_count_rejects_negative_value : bool :=
  fails_to_count (test_batch DtInt64 [Some "-1"%string]).
Definition first_count_rejects_unparseable_string : bool :=
  fails_to_count (test_batch DtUtf8 [Some "not-a-number"%string]).
Definition splits_semicolon_and_slash_terminated_statements : bool :=
  let sql := lit "
CREATE SCHEMA IF NOT EXISTS PG_CATALOG;

--/
CREATE OR REPLACE FUNCTION PG_CATALOG.TEST_FUNC()
RETURN DECIMAL(18,0)
IS
BEGIN
    RETURN 1;
END TEST_FUNC;
/

CREATE OR REPLACE VIEW PG_CATALOG.TEST_VIEW AS
SELECT 1 AS VALUE;
" in
  match split_exasol_sql sql with
  | [a; b; c] =>
      str_eqb a (lit "CREATE SCHEMA IF NOT EXISTS PG_CATALOG")
      && contains (lit "RETURN 1;") b && negb (contains (LF ++ lit "/") b)
      && str_eqb c (lit "CREATE OR REPLACE VIEW PG_CATALOG.TEST_VIEW AS
SELECT 1 AS VALUE")
  | _ => false
  end.
Definition splits_empty_input_to_no_statements : bool :=
  match split_exasol_sql [10; 10; 32; 32; 10]%N with [] => true | _ => false end.

Definition component_tests : list bool :=
  [detects_jdbc_tables_query; detects_info_schema_columns_query; maps_decimal_type_to_numeric;
   maps_varchar_type_to_text_metadata; loads_config;
   loads_optional_preprocessor_fallback_config; transport_defaults_to_arrow;
   explicit_websocket_transport_parses; explicit_arrow_transport_parses;
   unknown_transport_value_fails_config_load; from_file_rejects_unknown_transport;
   appends_nocertcheck_policy_from_config; preserves_dsn_fingerprint;
   nocertcheck_maps_to_validate_false_on_connection_params;
   dsn_fingerprint_propagates_to_connection_params;
   config_fingerprint_overrides_dsn_fingerprint; empty_batches_get_a_schema_carrier_batch;
   empty_batches_without_schema_are_left_alone; non_empty_batches_are_returned_as_is;
   verify_fingerprint_accepts_matching_hash; verify_fingerprint_accepts_lowercase_input;
   verify_fingerprint_rejects_mismatch; parse_result_set_extracts_typed_rows;
   transpose_data_handles_nulls_and_types; value_to_text_handles_primitive_variants;
   response_text_from_message_extracts_text_frames;
   response_text_from_message_skips_pong_progress;
   response_text_from_message_reports_close_as_error; first_count_reads_int64_value;
   first_count_reads_decimal128_value;
   first_count_reads_decimal128_with_scale_by_truncating_fraction;
   first_count_parses_string_column; first_count_reads_typed_rows_from_websocket;
   first_count_rejects_empty_typed_rows; first_count_rejects_null_typed_count;
   first_count_rejects_row_count_outcome; first_count_rejects_empty_batches;
   first_count_rejects_empty_first_batch; first_count_rejects_null_first_value;
   first_count_rejects_negative_value; first_count_rejects_unparseable_string;
   splits_semicolon_and_slash_terminated_statements; splits_empty_input_to_no_statements].

(** Every assertion of the repository's own tests of these components holds on the
    model. *)
Lemma component_tests_pass : forallb id component_tests = true.
Proof. vm_compute. reflexivity. Qed.
