(* ===== verification/IntegrationTests.v ===== *)
(** * The integration tests that need no database

    Of src/tests, the tests that run without an Exasol, on the model: the choice of the
    transport and the parameters of the driver (transport_selection.rs,
    config_to_connection_params.rs, with the constants of common/mod.rs). *)

From S2P Require Import Prelude RustStr RustInt Arrow Plan Config Exasol WebSocket ExasolSession.
#[local] Open Scope nat_scope.

#[local] Instance Transport_eq_dec : EqDecision Transport.
Proof. solve_decision. Defined.

Definition LIVE_EXASOL_HOST : str := lit "127.0.0.1".
Definition LIVE_EXASOL_PORT : Z := 9564.
Definition TEST_USER : str := lit "sys".
Definition TEST_PASSWORD : str := lit "exasol".
Definition LIVE_FINGERPRINT_HEX : str :=
  lit "A996DAAA5D6AB45075CDC12E8EE219DEE571F8A60FA0E4796C003AC939759393".
Definition live_dsn : str := LIVE_EXASOL_HOST ++ lit ":" ++ show_int LIVE_EXASOL_PORT.

Definition live_exasol_config_for_transport (transport : str) : ExasolConfig :=
  {| dsn := live_dsn; encryption := true; certificate_fingerprint := [];
     validate_certificate := false; pass_client_credentials := true; schema := [];
     transport := transport |}.
Definition live_exasol_config : ExasolConfig := live_exasol_config_for_transport DEFAULT_TRANSPORT.

Definition parses_as (transport : str) (expected : Transport) : bool :=
  match from_config (live_exasol_config_for_transport transport) with
  | Ok t => bool_decide (t = expected)
  | _ => false
  end.
Definition rejects_tcp : bool :=
  match from_config (live_exasol_config_for_transport (lit "tcp")) with
  | Err e =>
      let msg := ConfigError_to_string e in
      contains (lit "unknown transport") msg && contains (lit "websocket") msg
      && contains (lit "arrow") msg
  | _ => false
  end.

(** ** transport_selection.rs *)

Definition default_transport_is_arrow : bool := str_eqb DEFAULT_TRANSPORT (lit "arrow").
Definition transport_choice_is_fixed_for_session_lifetime : bool := parses_as DEFAULT_TRANSPORT Arrow.
Definition unknown_transport_value_is_rejected : bool := rejects_tcp.

(** ** config_to_connection_params.rs *)

(** Both parts of the test, up to the connections they open. *)
Definition exasol_config_maps_to_exarrow_connection_params : bool :=
  let config fp validate :=
    {| dsn := live_dsn; encryption := true; certificate_fingerprint := fp;
       validate_certificate := validate; pass_client_credentials := true;
       schema := lit "SYS"; transport := [] |} in
  let params fp validate f :=
    match endpoint_parse live_dsn (config fp validate) with
    | Ok e => f (to_connection_params e (config fp validate) TEST_USER TEST_PASSWORD)
    | _ => false
    end in
  params LIVE_FINGERPRINT_HEX true (fun p =>
    str_eqb (params_host p) LIVE_EXASOL_HOST && (params_port p =? LIVE_EXASOL_PORT)%Z
    && str_eqb (params_username p) TEST_USER
    && bool_decide (params_schema p = Some (lit "SYS")) && params_use_tls p
    && params_validate_server_certificate p
    && bool_decide (params_certificate_fingerprint p = Some LIVE_FINGERPRINT_HEX))
  && params [] false (fun p =>
    negb (params_validate_server_certificate p)
    && bool_decide (params_certificate_fingerprint p = None)
    && bool_decide (params_schema p = Some (lit "SYS"))).
Definition transport_websocket_parses : bool := parses_as (lit "websocket") WebSocket.
Definition transport_arrow_parses : bool := parses_as (lit "arrow") Arrow.
Definition transport_unknown_rejects : bool := rejects_tcp.
Definition default_transport_constant_is_arrow : bool := str_eqb DEFAULT_TRANSPORT (lit "arrow").

Definition integration_tests : list bool :=
  [default_transport_is_arrow; transport_choice_is_fixed_for_session_lifetime;
   unknown_transport_value_is_rejected; exasol_config_maps_to_exarrow_connection_params;
   transport_websocket_parses; transport_arrow_parses; transport_unknown_rejects;
   default_transport_constant_is_arrow].

(** Every assertion of these tests holds on the model. *)
Lemma integration_tests_pass : forallb id integration_tests = true.
Proof. vm_compute. reflexivity. Qed.
