(* ===== verification/UnitTests.v ===== *)
(** * The unit tests of the crate

    The assertions of the [mod tests] of every file under src/src that the model covers,
    gathered from PolicyTests.v, TranslatorTests.v, ServerTests.v and ComponentTests.v.
    They tie the model to the code: each holds of the program by its own test run, and
    here by evaluation of the definitions. *)

From S2P Require Import Prelude Regex Translator.
From S2P Require Import PolicyTests TranslatorTests ServerTests ComponentTests.

(** The model gives the answers that the repository's own unit tests ask of the
    code: those of the statement policy, of the translator (whatever the transpiler is
    for the tests that do not reach it, with the transpiler that changes nothing for the
    others), of the server and of the other components, with the reference engine of
    regular expressions. *)
Theorem unit_tests_pass :
  forallb id policy_tests = true
  /\ (forall T : Transpiler, forallb id (translator_tests (H := T)) = true)
  /\ forallb id (transpiler_tests (H := fun sql _ _ => Ok [sql])) = true
  /\ forallb id edge_case_tests = true /\ forallb id server_tests = true
  /\ forallb id component_tests = true.
Proof.
  exact (conj policy_tests_pass
    (conj (proj1 translator_tests_pass) (conj (proj2 translator_tests_pass)
    (conj (proj1 server_tests_pass) (conj (proj2 server_tests_pass) component_tests_pass))))).
Qed.
